(** * LBW decision-report core: a shallow embedding of the analysis service
      ([SeededRandom], [generateFileHash], [generateAnalysisResult],
      [uploadToBackend], [parseAnalysisResult], [analyzeVideo] and
      [getAnalysisResult], in [src/services/settingsService.ts] from line 278
      on), of [getSettings] at the head of that file, and of the durable
      store's client [src/services/analysisDbService.ts].

    Layout: Part I holds the model (JavaScript numbers, strings and values,
    then the program's functions in source order, then sample data); Part II
    holds the lemmas and the theorems about them; Part III holds further
    properties of the same code and of the rest of the two service files. *)

From Stdlib Require Import ZArith QArith Qround Qabs Qpower Lia Lqa List Bool
  String Ascii DecimalString.
Import ListNotations.

Set Warnings "-register-all".
Local Open Scope Z_scope.

(* ================================================================== *)
(** * Part I — the model *)
(* ================================================================== *)

(** ** JavaScript numbers

    A JavaScript [number] is an IEEE-754 binary64 value.  Finite values are
    carried as exact rationals; every arithmetic operation computes the exact
    rational result and rounds it to the nearest binary64 value, ties to even
    ([round53]), with gradual underflow below 2^-1022 and overflow to an
    infinity from 2^1024.  The sign of zero is not represented: nothing in
    the program observes it (no division has a divisor that can be zero, and
    no zero is printed). *)

Module Num.

Inductive number : Type :=
| NaN
| Inf (negative : bool)
| Fin (q : Q).

(** 2^k for any integer k. *)
Definition pow2 (k : Z) : Q := Qpower 2 k.

(** floor (log2 x) for x > 0. *)
Definition ilog2 (x : Q) : Z :=
  let e0 := Z.log2 (Qnum x) - Z.log2 (Zpos (Qden x)) in
  if Qle_bool (pow2 e0) x then e0 else e0 - 1.

(** Nearest integer, ties to the even one. *)
Definition rne (x : Q) : Z :=
  let f := Qfloor x in
  match Qcompare (x - inject_Z f) (1 # 2) with
  | Lt => f
  | Gt => f + 1
  | Eq => if Z.even f then f else f + 1
  end.

(** Spacing of binary64 values around x: 2^(e-52) with e the exponent of x,
    never below the subnormal spacing 2^-1074. *)
Definition qexp (x : Q) : Z := Z.max (ilog2 (Qabs x)) (-1022) - 52.

Definition quantum (x : Q) : Q := pow2 (qexp x).

(** Round to nearest binary64, ties to even (exponent unbounded above). *)
Definition round53 (x : Q) : Q :=
  let q := quantum x in Qred (inject_Z (rne (x / q)) * q).

(** The binary64 value of an exact real result. *)
Definition of_Q (x : Q) : number :=
  let r := round53 x in
  if Qle_bool (pow2 1024) (Qabs r) then Inf (Qle_bool r 0) else Fin r.

(** An integer literal or an integer produced by a 32-bit operator. *)
Definition int (z : Z) : number := of_Q (inject_Z z).

(** A decimal literal of the source text, e.g. [dec 0.45]. *)
Definition dec (q : Q) : number := of_Q q.

Definition is_neg (q : Q) : bool := negb (Qle_bool 0 q).
Definition is_zero (q : Q) : bool := Qeq_bool q 0.

Definition fneg (a : number) : number :=
  match a with
  | NaN => NaN
  | Inf s => Inf (negb s)
  | Fin q => Fin (Qred (- q))
  end.

Definition fadd (a b : number) : number :=
  match a, b with
  | NaN, _ | _, NaN => NaN
  | Inf s, Inf t => if Bool.eqb s t then Inf s else NaN
  | Inf s, Fin _ | Fin _, Inf s => Inf s
  | Fin x, Fin y => of_Q (x + y)
  end.

Definition fsub (a b : number) : number := fadd a (fneg b).

Definition fmul (a b : number) : number :=
  match a, b with
  | NaN, _ | _, NaN => NaN
  | Inf s, Inf t => Inf (xorb s t)
  | Inf s, Fin y | Fin y, Inf s =>
      if is_zero y then NaN else Inf (xorb s (is_neg y))
  | Fin x, Fin y => of_Q (x * y)
  end.

Definition fdiv (a b : number) : number :=
  match a, b with
  | NaN, _ | _, NaN => NaN
  | Inf _, Inf _ => NaN
  | Inf s, Fin y => Inf (xorb s (is_neg y))
  | Fin _, Inf _ => Fin 0
  | Fin x, Fin y =>
      if is_zero y then (if is_zero x then NaN else Inf (is_neg x))
      else of_Q (x / y)
  end.

(** [a < b]; false as soon as one side is NaN. *)
Definition flt (a b : number) : bool :=
  match a, b with
  | NaN, _ | _, NaN => false
  | Inf s, Inf t => s && negb t
  | Inf s, Fin _ => s
  | Fin _, Inf t => negb t
  | Fin x, Fin y => negb (Qle_bool y x)
  end.

Definition fgt (a b : number) : bool := flt b a.

Definition feq (a b : number) : bool :=
  match a, b with
  | Inf s, Inf t => Bool.eqb s t
  | Fin x, Fin y => Qeq_bool x y
  | _, _ => false
  end.

Definition fle (a b : number) : bool := flt a b || feq a b.
Definition fge (a b : number) : bool := fle b a.

(** [Math.abs], [Math.floor], [Math.ceil], [Math.min], [Math.max]. *)
Definition Math_abs (a : number) : number :=
  match a with
  | NaN => NaN
  | Inf _ => Inf false
  | Fin q => Fin (Qred (Qabs q))
  end.

Definition Math_floor (a : number) : number :=
  match a with
  | Fin q => Fin (inject_Z (Qfloor q))
  | _ => a
  end.

Definition Math_ceil (a : number) : number :=
  match a with
  | Fin q => Fin (inject_Z (Qceiling q))
  | _ => a
  end.

Definition Math_min (a b : number) : number :=
  match a, b with
  | NaN, _ | _, NaN => NaN
  | _, _ => if flt b a then b else a
  end.

Definition Math_max (a b : number) : number :=
  match a, b with
  | NaN, _ | _, NaN => NaN
  | _, _ => if flt a b then b else a
  end.

(** Truncation toward zero. *)
Definition trunc (q : Q) : Z :=
  if Qle_bool 0 q then Qfloor q else Qceiling q.

Definition wrap32 (z : Z) : Z := (z + 2 ^ 31) mod 2 ^ 32 - 2 ^ 31.

(** The abstract operations ToInt32 and ToUint32 of ECMAScript. *)
Definition ToInt32 (a : number) : Z :=
  match a with
  | Fin q => wrap32 (trunc q)
  | _ => 0
  end.

Definition ToUint32 (a : number) : Z :=
  match a with
  | Fin q => trunc q mod 2 ^ 32
  | _ => 0
  end.

(** The 32-bit operators [&], [^], [<<], [>>>] and [Math.imul]. *)
Definition bitand (a b : number) : number :=
  int (Z.land (ToInt32 a) (ToInt32 b)).

Definition bitxor (a b : number) : number :=
  int (Z.lxor (ToInt32 a) (ToInt32 b)).

Definition shl (a b : number) : number :=
  int (wrap32 (Z.shiftl (ToInt32 a) (ToUint32 b mod 32))).

Definition ushr (a b : number) : number :=
  int (Z.shiftr (ToUint32 a) (ToUint32 b mod 32)).

Definition Math_imul (a b : number) : number :=
  int (wrap32 (ToInt32 a * ToInt32 b)).

(** Truthiness of a number: everything but 0 and NaN. *)
Definition truthy (a : number) : bool :=
  match a with
  | NaN => false
  | Inf _ => true
  | Fin q => negb (is_zero q)
  end.

(** The integer a number holds, when it holds one. *)
Definition as_integer (a : number) : option Z :=
  match a with
  | Fin q => if Qeq_bool q (inject_Z (Qfloor q)) then Some (Qfloor q) else None
  | _ => None
  end.

End Num.
Export Num.


(** ** Strings and values

    A JavaScript string is a sequence of UTF-16 code units. *)

Definition jsstring := list Z.

(** An ASCII literal of the source text. *)
Definition str (s : string) : jsstring :=
  map (fun c => Z.of_N (N_of_ascii c)) (list_ascii_of_string s).

Fixpoint streq (a b : jsstring) : bool :=
  match a, b with
  | [], [] => true
  | x :: a', y :: b' => (x =? y) && streq a' b'
  | _, _ => false
  end.

Fixpoint startsWith (s prefix : jsstring) : bool :=
  match prefix, s with
  | [], _ => true
  | p :: prefix', c :: s' => (c =? p) && startsWith s' prefix'
  | _ :: _, [] => false
  end.

(** [s.slice(n)] for [0 <= n]. *)
Definition slice (n : nat) (s : jsstring) : jsstring := skipn n s.

(** The code units matched by the regular expression class [\s]: the
    WhiteSpace and LineTerminator code points of ECMAScript. *)
Definition is_whitespace (c : Z) : bool :=
  (9 <=? c) && (c <=? 13) || (c =? 32) || (c =? 160) || (c =? 5760)
  || (8192 <=? c) && (c <=? 8202) || (c =? 8232) || (c =? 8233)
  || (c =? 8239) || (c =? 8287) || (c =? 12288) || (c =? 65279).

(** [s.replace(/\s/g, '_')]. *)
Definition replace_whitespace (s : jsstring) : jsstring :=
  map (fun c => if is_whitespace c then 95 else c) s.

(** Decimal digits of an integer, as [String(n)] prints an integer of
    magnitude below 10^21. *)
Definition decimal (z : Z) : jsstring := str (NilZero.string_of_int (Z.to_int z)).

(** A value as [JSON.parse] or a property read can produce it.  An object is
    the list of its own properties (a parser keeps one entry per key). *)
Inductive jsvalue : Type :=
| JUndefined
| JNull
| JBool (b : bool)
| JNum (n : number)
| JStr (s : jsstring)
| JArr (items : list jsvalue)
| JObj (props : list (jsstring * jsvalue)).

Fixpoint lookup (k : jsstring) (props : list (jsstring * jsvalue)) : jsvalue :=
  match props with
  | [] => JUndefined
  | (k', v) :: rest => if streq k k' then v else lookup k rest
  end.

Definition nullish (v : jsvalue) : bool :=
  match v with
  | JUndefined | JNull => true
  | _ => false
  end.

(** [v.key] for the property names the program reads (none of them is a
    property of [Object.prototype], of a string or of an array): [None] is
    the TypeError of reading a property of [undefined] or [null]. *)
Definition get (v : jsvalue) (key : string) : option jsvalue :=
  match v with
  | JUndefined | JNull => None
  | JObj props => Some (lookup (str key) props)
  | _ => Some JUndefined
  end.

(** [v?.key]. *)
Definition get_opt (v : jsvalue) (key : string) : jsvalue :=
  match get v key with
  | Some x => x
  | None => JUndefined
  end.

(** ToBoolean. *)
Definition ToBoolean (v : jsvalue) : bool :=
  match v with
  | JUndefined | JNull => false
  | JBool b => b
  | JNum n => truthy n
  | JStr s => match s with [] => false | _ => true end
  | JArr _ | JObj _ => true
  end.

(** [a || b] and [a ?? b] on values. *)
Definition or_else (a b : jsvalue) : jsvalue := if ToBoolean a then a else b.
Definition coalesce (a b : jsvalue) : jsvalue := if nullish a then b else a.

(** Whether an object has an own property [k]. *)
Definition has_own (k : jsstring) (props : list (jsstring * jsvalue)) : bool :=
  existsb (fun p => streq k (fst p)) props.

(** The results of steps that each may throw: all of them, or the throw. *)
Fixpoint all_some {A} (l : list (option A)) : option (list A) :=
  match l with
  | [] => Some []
  | None :: _ => None
  | Some a :: rest =>
      match all_some rest with
      | Some l' => Some (a :: l')
      | None => None
      end
  end.

(** Sequencing of steps that may throw. *)
Notation "'let!' x ':=' o 'in' k" :=
  (match o with Some x => k | None => None end)
  (at level 10, x name, o at level 100, k at level 200).

(** A [Date]: its time value in milliseconds, or the invalid date. *)
Inductive Date : Type :=
| DateAt (ms : Z)
| InvalidDate.

(** ** What the platform supplies

    The functions of the host this model does not define: the sine (which
    ECMAScript leaves implementation-approximated), the printing and reading
    of numbers that are not plain integers, the parsing and printing of
    dates, JSON parsing, and the URLs the bundler gives the four imported
    key-frame images.  Every theorem below holds for all of them. *)

Class Platform : Type := {
  Math_sin : number -> number;
  Number_toString : Q -> jsstring;
  StringToNumber : jsstring -> number;
  Date_parse : jsstring -> Date;
  Date_toISOString : Z -> jsstring;
  JSON_parse : jsstring -> option jsvalue;
  releaseFrameImg : jsstring;
  bounceFrameImg : jsstring;
  impactFrameImg : jsstring;
  wicketFrameImg : jsstring
}.

Section Coercions.
Context {P : Platform}.

(** Number::toString. *)
Definition NumberToString (n : number) : jsstring :=
  match n with
  | NaN => str "NaN"
  | Inf false => str "Infinity"
  | Inf true => str "-Infinity"
  | Fin q =>
      match as_integer n with
      | Some z => if Z.abs z <? 10 ^ 21 then decimal z else Number_toString q
      | None => Number_toString q
      end
  end.

Fixpoint join (sep : jsstring) (parts : list jsstring) : jsstring :=
  match parts with
  | [] => []
  | [p] => p
  | p :: rest => p ++ sep ++ join sep rest
  end.

(** ToString, as [String(v)], template literals and property keys apply it.
    [None] is the TypeError of a value with no primitive form.  The values
    here come from JSON, so none of them is callable: an ordinary object
    prints through the [toString] it inherits, unless it has an own
    [toString] property, which hides the inherited function and cannot be
    called — the inherited [valueOf] then returns the object itself, and the
    conversion throws.  An array prints through the inherited [join], which
    converts each element that is not [null] or [undefined]. *)
Fixpoint ToString (v : jsvalue) : option jsstring :=
  match v with
  | JUndefined => Some (str "undefined")
  | JNull => Some (str "null")
  | JBool true => Some (str "true")
  | JBool false => Some (str "false")
  | JNum n => Some (NumberToString n)
  | JStr s => Some s
  | JArr items =>
      option_map (join (str ","))
        (all_some (map (fun x => if nullish x then Some [] else ToString x)
                       items))
  | JObj props =>
      if has_own (str "toString") props then None
      else Some (str "[object Object]")
  end.

(** ToNumber, as [Number(v)] applies it; an array or an object is first
    turned into its string, or throws as [ToString] does ([valueOf], tried
    first, returns the object itself). *)
Definition ToNumber (v : jsvalue) : option number :=
  match v with
  | JUndefined => Some NaN
  | JNull => Some (int 0)
  | JBool true => Some (int 1)
  | JBool false => Some (int 0)
  | JNum n => Some n
  | JStr s => Some (StringToNumber s)
  | JArr _ | JObj _ => option_map StringToNumber (ToString v)
  end.

End Coercions.

(** ** The data model ([src/types/lbw.ts])

    Field names that two interfaces share carry a prefix here. *)

Inductive Decision : Type := OUT | NOT_OUT.
Inductive UmpiresCall : Type := UMPIRES_CALL | CLEAR.
Inductive BallType : Type :=
  inswing | outswing | seam | offspin | legspin | straight.
(** [PitchZone] and [ImpactZone] are the same three labels. *)
Inductive Zone : Type := outside_leg | inline | outside_off.
Inductive StumpHit : Type :=
  leg | middle | off | missing_leg | missing_off | over.
Inductive StepStatus : Type := pending | processing | completed | error.
Inductive FrameType : Type := release | bounce | impact | wicket.

Definition Decision_eqb (a b : Decision) : bool :=
  match a, b with
  | OUT, OUT | NOT_OUT, NOT_OUT => true
  | _, _ => false
  end.

Definition Zone_eqb (a b : Zone) : bool :=
  match a, b with
  | outside_leg, outside_leg | inline, inline | outside_off, outside_off => true
  | _, _ => false
  end.

Definition UmpiresCall_eqb (a b : UmpiresCall) : bool :=
  match a, b with
  | UMPIRES_CALL, UMPIRES_CALL | CLEAR, CLEAR => true
  | _, _ => false
  end.

Record Position : Type := { pos_x : number; pos_y : number }.

Record TrajectoryPoint : Type := { tp_x : number; tp_y : number; tp_z : number }.

Record LBWCriteria : Type := {
  pitchedInLine : bool;
  impactInLine : bool;
  legBeforeBat : bool;
  wouldHitWickets : bool
}.

(** [ballType] and [stumpHit] are read out of an array by a computed index;
    [None] is the [undefined] an index outside the array yields. *)
Record BallMetrics : Type := {
  speed : number;
  releaseSpeed : number;
  impactSpeed : number;
  spinRate : option number;
  swingDeviation : number;
  ballType : option BallType;
  angleOfEntry : number
}.

Record PitchAnalysis : Type := {
  pa_zone : Zone;
  pa_distanceFromLegStump : number;
  pa_distanceFromOffStump : number;
  bounceAngle : number
}.

Record ImpactAnalysis : Type := {
  ia_zone : Zone;
  height : number;
  stumpHeight : number;
  isAboveStumps : bool;
  ia_distanceFromLegStump : number;
  ia_distanceFromOffStump : number;
  ia_umpiresCall : UmpiresCall
}.

Record WicketPrediction : Type := {
  wouldHit : bool;
  hitPercentage : number;
  stumpHit : option StumpHit;
  wp_umpiresCall : UmpiresCall;
  marginOfError : number
}.

(** [data] is only ever [{ processed: true, timestamp: Date.now() }]; it is
    kept as the timestamp. *)
Record AnalysisStep : Type := {
  step_id : jsstring;
  step_name : jsstring;
  step_description : jsstring;
  status : StepStatus;
  data : option Z
}.

Record KeyFrame : Type := {
  kf_type : FrameType;
  frameNumber : number;
  timestamp : number;
  imageUrl : jsstring;
  label : jsstring;
  kf_description : jsstring
}.

(** A report as the synthesizer and the store build it.  The optional
    [videoUrl] is left out: no function of the service writes it. *)
Record AnalysisResult : Type := {
  id : jsstring;
  videoId : jsstring;
  videoName : jsstring;
  videoThumbnail : jsstring;
  decision : Decision;
  confidence : number;
  criteria : LBWCriteria;
  steps : list AnalysisStep;
  trajectory : list TrajectoryPoint;
  impactPoint : Position;
  bouncePoint : Position;
  predictedWicketHit : option Position;
  createdAt : Date;
  ballMetrics : option BallMetrics;
  pitchAnalysis : option PitchAnalysis;
  impactAnalysis : option ImpactAnalysis;
  wicketPrediction : option WicketPrediction;
  isUmpiresCall : option bool;
  keyFrames : option (list KeyFrame)
}.

(** ** Configuration ([AnalysisSettings])

    [getSettings] converts the numeric columns with [Number] and copies the
    four text columns as they are: they hold whatever the row holds. *)

Record AnalysisSettings : Type := {
  pitch_length : number;
  pitch_width : number;
  crease_distance : number;
  pitch_surface : jsvalue;
  ball_type : jsvalue;
  stump_height : number;
  stump_width : number;
  confidence_threshold : number;
  camera_angle : jsvalue;
  camera_distance : jsvalue
}.

(** ** The seeded generator ([class SeededRandom]) *)

Record SeededRandom : Type := { seed : number }.

(** [next()]: the new state and the value returned. *)
Definition next (rng : SeededRandom) : number * SeededRandom :=
  let s := bitand (fadd (fmul (seed rng) (int 1103515245)) (int 12345))
                  (int 0x7fffffff) in
  (fdiv s (int 0x7fffffff), {| seed := s |}).

(** [n] successive calls of [next()]: the values returned, in order, and the
    generator they leave. *)
Fixpoint calls (n : nat) (rng : SeededRandom) : list number * SeededRandom :=
  match n with
  | O => ([], rng)
  | S n' =>
      let (v, rng1) := next rng in
      let (vs, rng2) := calls n' rng1 in
      (v :: vs, rng2)
  end.

(** The value of call number [k + 1]. *)
Definition nth_draw (k : nat) (rng : SeededRandom) : number :=
  fst (next (snd (calls k rng))).

(** The same update on the integer the state holds: the product and the sum
    are each rounded to binary64 ([roundZ]) before [& 0x7fffffff] keeps the
    low 31 bits.  [lcg_exact] is the congruence the rounding departs from. *)
Definition roundZ (z : Z) : Z := Qfloor (round53 (inject_Z z)).

Definition lcg_js (s : Z) : Z :=
  roundZ (roundZ (s * 1103515245) + 12345) mod 2 ^ 31.

Definition lcg_exact (s : Z) : Z := (s * 1103515245 + 12345) mod 2 ^ 31.

(** A finite number in the half-open interval [0, 1). *)
Definition unit_interval (v : number) : Prop :=
  exists q, v = Fin q /\ (0 <= q < 1)%Q.

(** Code that draws from a generator: a state monad over [SeededRandom]. *)
Definition Rand (A : Type) : Type := SeededRandom -> A * SeededRandom.

Definition ret {A} (a : A) : Rand A := fun rng => (a, rng).

Definition bind {A B} (m : Rand A) (k : A -> Rand B) : Rand B :=
  fun rng => let (a, rng') := m rng in k a rng'.

Notation "'let*' x ':=' m 'in' k" := (bind m (fun x => k))
  (at level 10, x name, m at level 100, k at level 200).

(** A [for] loop that pushes one element per index. *)
Fixpoint forEach {A B} (body : A -> Rand B) (l : list A) : Rand (list B) :=
  match l with
  | [] => ret []
  | i :: rest =>
      let* b := body i in
      let* bs := forEach body rest in
      ret (b :: bs)
  end.

(** Code that draws and may throw a TypeError: [None] is the throw, after
    which nothing more runs. *)
Definition bind_ok {A B} (m : Rand (option A)) (k : A -> Rand (option B))
  : Rand (option B) :=
  let* o := m in
  match o with
  | Some a => k a
  | None => ret None
  end.

Notation "'let?' x ':=' m 'in' k" := (bind_ok m (fun x => k))
  (at level 10, x name, m at level 100, k at level 200).

(** The indices [lo, lo+1, ..., lo+n-1]. *)
Definition indices (lo : Z) (n : nat) : list Z :=
  map (fun k => lo + Z.of_nat k) (seq 0 n).

(** [arr[i]] for a computed index. *)
Definition at_index {A} (arr : list A) (i : number) : option A :=
  match as_integer i with
  | Some k => if k <? 0 then None else nth_error arr (Z.to_nat k)
  | None => None
  end.

(** ** Mock data generators *)

Section Synthesizer.
Context {P : Platform}.

(** [Math.PI]: the binary64 value nearest to pi. *)
Definition Math_PI : number := Fin (884279719003555 # 281474976710656).

(** The names every object literal inherits from [Object.prototype]. *)
Definition Object_prototype_keys : list jsstring :=
  [ str "constructor"; str "hasOwnProperty"; str "isPrototypeOf";
    str "propertyIsEnumerable"; str "toLocaleString"; str "toString";
    str "valueOf"; str "__proto__"; str "__defineGetter__";
    str "__defineSetter__"; str "__lookupGetter__"; str "__lookupSetter__" ].

Fixpoint table_lookup {A} (k : jsstring) (t : list (jsstring * A)) : option A :=
  match t with
  | [] => None
  | (k', v) :: rest => if streq k k' then Some v else table_lookup k rest
  end.

(** What [table[key]] reads off an object literal: an own entry, a member
    inherited from [Object.prototype] (a function, or for [__proto__] the
    prototype itself), or [undefined]. *)
Inductive Found (A : Type) : Type :=
| Own (a : A)
| Inherited
| Missing.
Arguments Own {A} a.
Arguments Inherited {A}.
Arguments Missing {A}.

Definition table_get {A} (key : jsstring) (t : list (jsstring * A)) : Found A :=
  match table_lookup key t with
  | Some a => Own a
  | None =>
      if existsb (streq key) Object_prototype_keys then Inherited else Missing
  end.

Definition SURFACE_BOUNCE : list (jsstring * number) :=
  [ (str "concrete", dec 1.3); (str "turf", dec 1.0);
    (str "matting", dec 0.9); (str "mud", dec 0.6) ].

(** [SURFACE_BOUNCE[settings.pitch_surface] ?? 1.0]; [None] is the TypeError
    of a surface that cannot be made a property key.  An inherited member
    is not nullish, so [??] keeps it; the program only ever multiplies by
    the factor, and as a number a function or the prototype is NaN. *)
Definition bounce_factor (settings : AnalysisSettings) : option number :=
  match ToString (pitch_surface settings) with
  | None => None
  | Some key =>
      Some match table_get key SURFACE_BOUNCE with
           | Own f => f
           | Inherited => NaN
           | Missing => dec 1.0
           end
  end.

(** [BALL_SPEED_RANGES]: per ball, the pace pair then the spin pair. *)
Definition BALL_SPEED_RANGES
  : list (jsstring * ((number * number) * (number * number))) :=
  [ (str "tennis",  ((int 100, int 120), (int 60, int 80)));
    (str "tape",    ((int 110, int 130), (int 65, int 85)));
    (str "leather", ((int 125, int 155), (int 75, int 100))) ].

(** [BALL_SPEED_RANGES[settings.ball_type] ?? BALL_SPEED_RANGES.tennis],
    as far as [const [minSpeed, maxSpeed] = isSpin ? speedRange.spin :
    speedRange.pace] can use it.  [None] is a TypeError: of a ball that
    cannot be made a property key, or of the destructuring when the ball
    names an inherited member, which [??] keeps and which has neither a
    [spin] nor a [pace]. *)
Definition speed_range (settings : AnalysisSettings)
  : option ((number * number) * (number * number)) :=
  match ToString (ball_type settings) with
  | None => None
  | Some key =>
      match table_get key BALL_SPEED_RANGES with
      | Own r => Some r
      | Inherited => None
      | Missing => Some ((int 100, int 120), (int 60, int 80))
      end
  end.

(** A lookup made between two draws. *)
Definition checked {A} (o : option A) : Rand (option A) := ret o.

(** The three loops of [generateTrajectory]. *)

(* for (let i = 0; i <= 10; i++) *)
Definition releaseToBounce (bounceX lengthScale : number)
  : Rand (list TrajectoryPoint) :=
  forEach (fun i =>
      let t := fdiv (int i) (int 10) in
      let* d := next in
      ret {| tp_x := fmul (fmul t bounceX) lengthScale;
             tp_y := fadd (int 50) (fmul (fsub d (dec 0.5)) (int 10));
             tp_z := fadd (fsub (int 200) (fmul t (int 180)))
                          (fmul (fmul t t) (int 20)) |})
    (indices 0 11).

(* for (let i = 1; i <= 10; i++) *)
Definition bounceToImpact (bounceX impactX lengthScale bounceFactor : number)
  : Rand (list TrajectoryPoint) :=
  forEach (fun i =>
      let t := fdiv (int i) (int 10) in
      let* d := next in
      ret {| tp_x := fmul (fadd bounceX (fmul t (fsub impactX bounceX)))
                          lengthScale;
             tp_y := fadd (int 50) (fmul (fsub d (dec 0.5)) (int 10));
             tp_z := fmul (fsub (fadd (int 20) (fmul t (int 40)))
                                (fmul (fmul t t) (int 20)))
                          bounceFactor |})
    (indices 1 10).

(* for (let i = 1; i <= 5; i++) *)
Definition impactToStumps (impactX lengthScale bounceFactor : number)
  : Rand (list TrajectoryPoint) :=
  forEach (fun i =>
      let t := fdiv (int i) (int 5) in
      let* d := next in
      ret {| tp_x := fmul (fadd impactX (fmul t (fsub (int 300) impactX)))
                          lengthScale;
             tp_y := fadd (int 50) (fmul (fsub d (dec 0.5)) (int 15));
             tp_z := fmul (fadd (int 40)
                                (fmul (Math_sin (fmul t Math_PI)) (int 20)))
                          bounceFactor |})
    (indices 1 5).

Definition generateTrajectory (settings : AnalysisSettings)
  : Rand (option (list TrajectoryPoint)) :=
  let* d1 := next in
  let bounceX := fadd (int 120) (fmul d1 (int 60)) in
  let* d2 := next in
  let impactX := fadd (int 220) (fmul d2 (int 40)) in
  let? bounceFactor := checked (bounce_factor settings) in
  let lengthScale := fdiv (pitch_length settings) (int 22) in
  let* seg1 := releaseToBounce bounceX lengthScale in
  let* seg2 := bounceToImpact bounceX impactX lengthScale bounceFactor in
  let* seg3 := impactToStumps impactX lengthScale bounceFactor in
  ret (Some (seg1 ++ seg2 ++ seg3)).

Definition generateBallMetrics (settings : AnalysisSettings)
  : Rand (option BallMetrics) :=
  let ballTypes := [inswing; outswing; seam; offspin; legspin; straight] in
  let* d := next in
  let ballType := at_index ballTypes (Math_floor (fmul d (int 6))) in
  let isSpin :=
    match ballType with
    | Some offspin | Some legspin => true
    | _ => false
    end in
  let? speedRange := checked (speed_range settings) in
  let '(minSpeed, maxSpeed) := if isSpin then snd speedRange else fst speedRange in
  let* d_speed := next in
  let* d_release := next in
  let* d_impact := next in
  let* spin :=
    if isSpin
    then (let* d_spin := next in
          ret (Some (fadd (int 1500) (fmul d_spin (int 1500)))))
    else ret None in
  let* d_swing := next in
  let* d_angle := next in
  ret (Some
       {| speed := fadd minSpeed (fmul d_speed (fsub maxSpeed minSpeed));
         releaseSpeed :=
           fadd (fadd minSpeed (int 10)) (fmul d_release (fsub maxSpeed minSpeed));
         impactSpeed :=
           fadd (fsub minSpeed (int 5))
                (fmul d_impact (fsub (fsub maxSpeed minSpeed) (int 5)));
         spinRate := spin;
         swingDeviation := fadd (int 2) (fmul d_swing (int 8));
         ballType := ballType;
         angleOfEntry := fadd (int 5) (fmul d_angle (int 15)) |}).

Definition generatePitchAnalysis (pitchedInLine : bool)
  (settings : AnalysisSettings) : Rand (option PitchAnalysis) :=
  let* zone :=
    if pitchedInLine
    then (let* d := next in
          ret (if fgt d (dec 0.5) then inline else outside_off))
    else ret outside_leg in
  let? bounceFactor := checked (bounce_factor settings) in
  let* d_leg := next in
  let* d_off := next in
  let* d_angle := next in
  ret (Some
       {| pa_zone := zone;
         pa_distanceFromLegStump :=
           if Zone_eqb zone outside_leg
           then fadd (int 5) (fmul d_leg (int 30))
           else fneg (fadd (int 10) (fmul d_leg (int 40)));
         pa_distanceFromOffStump :=
           if Zone_eqb zone outside_off
           then fadd (int 5) (fmul d_off (int 20))
           else fneg (fadd (int 15) (fmul d_off (int 50)));
         bounceAngle :=
           fmul (fadd (int 12) (fmul d_angle (int 10))) bounceFactor |}).

Definition generateImpactAnalysis (impactInLine : bool)
  (settings : AnalysisSettings) : Rand ImpactAnalysis :=
  let* zone :=
    if impactInLine then ret inline
    else (let* d := next in
          ret (if fgt d (dec 0.5) then outside_off else outside_leg)) in
  let* d_height := next in
  let height := fadd (int 15) (fmul d_height (int 50)) in
  let stumpHeight := fmul (stump_height settings) (dec 2.54) in
  let* d_leg := next in
  let distFromLeg :=
    if Zone_eqb zone outside_leg
    then fadd (int 5) (fmul d_leg (int 20))
    else fneg (fadd (int 5) (fmul d_leg (int 30))) in
  (* Math.abs(distFromLeg) < 5 || (zone === 'inline' && rng.next() > 0.7) *)
  let* isMarginally :=
    if flt (Math_abs distFromLeg) (int 5) then ret true
    else if Zone_eqb zone inline
         then (let* d := next in ret (fgt d (dec 0.7)))
         else ret false in
  let* d_off := next in
  ret {| ia_zone := zone;
         height := height;
         stumpHeight := stumpHeight;
         isAboveStumps := fgt height stumpHeight;
         ia_distanceFromLegStump := distFromLeg;
         ia_distanceFromOffStump :=
           if Zone_eqb zone outside_off
           then fadd (int 5) (fmul d_off (int 15))
           else fneg (fadd (int 20) (fmul d_off (int 40)));
         ia_umpiresCall := if isMarginally then UMPIRES_CALL else CLEAR |}.

Definition generateWicketPrediction (wouldHit : bool) : Rand WicketPrediction :=
  let stumps := [leg; middle; off; missing_leg; missing_off; over] in
  let* d_stump := next in
  let stumpHit :=
    if wouldHit
    then at_index stumps (Math_floor (fmul d_stump (int 3)))
    else at_index stumps (fadd (int 3) (Math_floor (fmul d_stump (int 3)))) in
  let* d_hit := next in
  let hitPercentage :=
    if wouldHit then fadd (int 25) (fmul d_hit (int 75))
    else fmul d_hit (int 25) in
  let isUmpiresCall := fge hitPercentage (int 25) && flt hitPercentage (int 50) in
  let* d_margin := next in
  ret {| wouldHit := wouldHit;
         hitPercentage := hitPercentage;
         stumpHit := stumpHit;
         wp_umpiresCall := if isUmpiresCall then UMPIRES_CALL else CLEAR;
         marginOfError := fadd (int 1) (fmul d_margin (int 3)) |}.

Definition mkStep (i n d : string) : AnalysisStep :=
  {| step_id := str i; step_name := str n; step_description := str d;
     status := pending; data := None |}.

Definition createAnalysisSteps : list AnalysisStep :=
  [ mkStep "preprocessing" "Frame Preprocessing"
      "Extracting and normalizing video frames";
    mkStep "ball-detection" "Ball Detection"
      "Identifying cricket ball position in each frame";
    mkStep "leg-detection" "Leg Detection"
      "Detecting batsman leg position and bounding box";
    mkStep "impact-detection" "Impact Analysis"
      "Determining ball-leg contact point";
    mkStep "bounce-detection" "Bounce Detection"
      "Identifying pitch bounce location";
    mkStep "trajectory" "Trajectory Calculation"
      "Computing ball path and extrapolation";
    mkStep "wicket-prediction" "Wicket Hit Prediction"
      "Predicting if ball would hit stumps" ].

Definition set_status (s : StepStatus) (step : AnalysisStep) : AnalysisStep :=
  {| step_id := step_id step; step_name := step_name step;
     step_description := step_description step; status := s;
     data := data step |}.

(** [createAnalysisSteps().map(s => ({ ...s, status: 'completed' }))]. *)
Definition completedSteps : list AnalysisStep :=
  map (set_status completed) createAnalysisSteps.

Definition generateMockKeyFrames : Rand (list KeyFrame) :=
  let* f1 := next in
  let* t1 := next in
  let* f2 := next in
  let* t2 := next in
  let* f3 := next in
  let* t3 := next in
  let* f4 := next in
  let* t4 := next in
  ret [ {| kf_type := release;
           frameNumber := fadd (int 5) (Math_floor (fmul f1 (int 10)));
           timestamp := fadd (dec 0.2) (fmul t1 (dec 0.3));
           imageUrl := releaseFrameImg;
           label := str "Ball Release";
           kf_description := str "The moment the bowler releases the ball" |};
        {| kf_type := bounce;
           frameNumber := fadd (int 25) (Math_floor (fmul f2 (int 15)));
           timestamp := fadd (dec 0.8) (fmul t2 (dec 0.4));
           imageUrl := bounceFrameImg;
           label := str "Ball Pitching";
           kf_description := str "Ball pitches inline, good length" |};
        {| kf_type := impact;
           frameNumber := fadd (int 45) (Math_floor (fmul f3 (int 20)));
           timestamp := fadd (dec 1.5) (fmul t3 (dec 0.5));
           imageUrl := impactFrameImg;
           label := str "Ball Impact";
           kf_description := str "Impact inline, middle height" |};
        {| kf_type := wicket;
           frameNumber := fadd (int 60) (Math_floor (fmul f4 (int 25)));
           timestamp := fadd (dec 2.0) (fmul t4 (dec 0.6));
           imageUrl := wicketFrameImg;
           label := str "Wicket Projection";
           kf_description := str "Ball hitting middle stump (85% confidence)" |} ].

(** The criteria as drawn, before the OUT branch overwrites them. *)
Definition drawCriteria (decision : Decision) : Rand LBWCriteria :=
  let* d_pitched := next in
  let* d_impact := next in
  let* d_leg := next in
  let* d_wickets := next in
  ret {| pitchedInLine := fgt d_pitched (dec 0.3);
         impactInLine := fgt d_impact (dec 0.35);
         legBeforeBat := fgt d_leg (dec 0.25);
         wouldHitWickets :=
           match decision with
           | OUT => fgt d_wickets (dec 0.2)
           | NOT_OUT => fgt d_wickets (dec 0.7)
           end |}.

Definition all_true : LBWCriteria :=
  {| pitchedInLine := true; impactInLine := true;
     legBeforeBat := true; wouldHitWickets := true |}.

(** The body of [generateAnalysisResult] after [new SeededRandom(seed)];
    [now] is what [new Date()] reads off the clock, [None] the TypeError a
    generator threw. *)
Definition synthesize (videoName : jsstring) (seed : number)
  (settings : AnalysisSettings) (now : Z) : Rand (option AnalysisResult) :=
  let* d_decision := next in
  let decision := if fgt d_decision (dec 0.45) then OUT else NOT_OUT in
  let* d_confidence := next in
  let confidence := fadd (int 65) (fmul d_confidence (int 30)) in
  let* drawn := drawCriteria decision in
  let criteria :=
    match decision with
    | OUT => all_true
    | NOT_OUT => drawn
    end in
  let? ballMetrics := generateBallMetrics settings in
  let? pitchAnalysis := generatePitchAnalysis (pitchedInLine criteria) settings in
  let* impactAnalysis := generateImpactAnalysis (impactInLine criteria) settings in
  let* wicketPrediction := generateWicketPrediction (wouldHitWickets criteria) in
  let isUmpiresCall :=
    UmpiresCall_eqb (ia_umpiresCall impactAnalysis) UMPIRES_CALL
    || UmpiresCall_eqb (wp_umpiresCall wicketPrediction) UMPIRES_CALL in
  let? trajectory := generateTrajectory settings in
  let* d_impactPoint := next in
  let* d_bouncePoint := next in
  let* predicted :=
    if wouldHitWickets criteria
    then (let* d := next in
          ret (Some {| pos_x := int 300;
                       pos_y := fadd (int 48) (fmul d (int 4)) |}))
    else ret None in
  let* keyFrames := generateMockKeyFrames in
  ret (Some
       {| id := str "analysis-" ++ NumberToString seed ++ str "-"
               ++ replace_whitespace videoName;
         videoId := str "video-" ++ NumberToString seed;
         videoName := videoName;
         videoThumbnail := str "/placeholder.svg";
         decision := decision;
         confidence := confidence;
         criteria := criteria;
         steps := completedSteps;
         trajectory := trajectory;
         impactPoint := {| pos_x := fadd (int 230) (fmul d_impactPoint (int 20));
                           pos_y := int 50 |};
         bouncePoint := {| pos_x := fadd (int 130) (fmul d_bouncePoint (int 40));
                           pos_y := int 50 |};
         predictedWicketHit := predicted;
         createdAt := DateAt now;
         ballMetrics := Some ballMetrics;
         pitchAnalysis := Some pitchAnalysis;
         impactAnalysis := Some impactAnalysis;
         wicketPrediction := Some wicketPrediction;
         isUmpiresCall := Some isUmpiresCall;
         keyFrames := Some keyFrames |}).

Definition generateAnalysisResult (videoName : jsstring) (seed : number)
  (settings : AnalysisSettings) (now : Z) : option AnalysisResult :=
  fst (synthesize videoName seed settings now {| seed := seed |}).

(** [MOCK_DEFAULTS]. *)
Definition MOCK_DEFAULTS : AnalysisSettings :=
  {| pitch_length := int 22; pitch_width := int 10; crease_distance := int 4;
     pitch_surface := JStr (str "concrete"); ball_type := JStr (str "tennis");
     stump_height := int 28; stump_width := int 9;
     confidence_threshold := int 50;
     camera_angle := JStr (str "side");
     camera_distance := JStr (str "medium") |}.

End Synthesizer.

(** A report with its [createdAt] replaced. *)
Definition with_createdAt (d : Date) (r : AnalysisResult) : AnalysisResult :=
  {| id := id r; videoId := videoId r; videoName := videoName r;
     videoThumbnail := videoThumbnail r; decision := decision r;
     confidence := confidence r; criteria := criteria r; steps := steps r;
     trajectory := trajectory r; impactPoint := impactPoint r;
     bouncePoint := bouncePoint r; predictedWicketHit := predictedWicketHit r;
     createdAt := d; ballMetrics := ballMetrics r;
     pitchAnalysis := pitchAnalysis r; impactAnalysis := impactAnalysis r;
     wicketPrediction := wicketPrediction r; isUmpiresCall := isUmpiresCall r;
     keyFrames := keyFrames r |}.

(** ** Reading a backend payload ([parseAnalysisResult])

    TypeScript's [as] casts check nothing at run time: a field the parser
    copies from the payload holds whatever value the payload has there.  A
    parsed report therefore carries those fields as plain values; only the
    fields the parser coerces ([String], [Number], [Boolean], [new Date])
    have a fixed type. *)

Record ParsedResult : Type := {
  p_id : jsstring;
  p_videoId : jsstring;
  p_videoName : jsstring;
  p_videoThumbnail : jsstring;
  p_decision : jsvalue;
  p_confidence : number;
  p_criteria : LBWCriteria;
  p_steps : jsvalue;
  p_trajectory : jsvalue;
  p_impactPoint : jsvalue;
  p_bouncePoint : jsvalue;
  p_predictedWicketHit : jsvalue;
  p_createdAt : Date;
  p_ballMetrics : jsvalue;
  p_pitchAnalysis : jsvalue;
  p_impactAnalysis : jsvalue;
  p_wicketPrediction : jsvalue;
  p_isUmpiresCall : bool
}.

Definition status_name (s : StepStatus) : jsstring :=
  match s with
  | pending => str "pending"
  | processing => str "processing"
  | completed => str "completed"
  | error => str "error"
  end.

(** A step as the object it is. *)
Definition step_value (s : AnalysisStep) : jsvalue :=
  JObj ([ (str "id", JStr (step_id s));
          (str "name", JStr (step_name s));
          (str "description", JStr (step_description s));
          (str "status", JStr (status_name (status s))) ]
        ++ match data s with
           | Some t => [ (str "data",
                          JObj [ (str "processed", JBool true);
                                 (str "timestamp", JNum (int t)) ]) ]
           | None => []
           end).

(** [{ x: 0, y: 0 }]. *)
Definition origin_value : jsvalue :=
  JObj [ (str "x", JNum (int 0)); (str "y", JNum (int 0)) ].

Section Parser.
Context {P : Platform}.

(** [Number(v) || 0]; [None] when [Number] throws. *)
Definition number_or_zero (v : jsvalue) : option number :=
  let! n := ToNumber v in
  Some (if truthy n then n else int 0).

(** [parseAnalysisResult(data)]; [None] is a TypeError — of reading a
    property of [undefined] or [null], or of a [String] or [Number] call on
    a value with no primitive form; [now] is [Date.now()]. *)
Definition parseAnalysisResult (data : jsvalue) (now : Z) : option ParsedResult :=
  match get data "id" with
  | None => None
  | Some _ =>
      let crit := get_opt data "criteria" in
      let! id := ToString (or_else (get_opt data "id") (JStr [])) in
      let! videoId :=
        ToString (or_else (or_else (get_opt data "video_id")
                                   (get_opt data "videoId")) (JStr [])) in
      let! videoName :=
        ToString (or_else (or_else (get_opt data "video_name")
                                   (get_opt data "videoName")) (JStr [])) in
      let! videoThumbnail :=
        ToString (or_else (or_else (get_opt data "video_thumbnail")
                                   (get_opt data "videoThumbnail"))
                          (JStr (str "/placeholder.svg"))) in
      let! confidence := number_or_zero (get_opt data "confidence") in
      let! created :=
        ToString (or_else (or_else (get_opt data "created_at")
                                   (get_opt data "createdAt"))
                          (JNum (int now))) in
      Some {|
        p_id := id;
        p_videoId := videoId;
        p_videoName := videoName;
        p_videoThumbnail := videoThumbnail;
        p_decision := or_else (get_opt data "decision") (JStr (str "NOT_OUT"));
        p_confidence := confidence;
        p_criteria := {|
          pitchedInLine :=
            ToBoolean (coalesce (get_opt crit "pitched_in_line")
                                (get_opt crit "pitchedInLine"));
          impactInLine :=
            ToBoolean (coalesce (get_opt crit "impact_in_line")
                                (get_opt crit "impactInLine"));
          legBeforeBat :=
            ToBoolean (coalesce (get_opt crit "leg_before_bat")
                                (get_opt crit "legBeforeBat"));
          wouldHitWickets :=
            ToBoolean (coalesce (get_opt crit "would_hit_wickets")
                                (get_opt crit "wouldHitWickets")) |};
        p_steps := or_else (get_opt data "steps") (JArr (map step_value completedSteps));
        p_trajectory := or_else (get_opt data "trajectory") (JArr []);
        p_impactPoint :=
          or_else (or_else (get_opt data "impact_point") (get_opt data "impactPoint"))
                  origin_value;
        p_bouncePoint :=
          or_else (or_else (get_opt data "bounce_point") (get_opt data "bouncePoint"))
                  origin_value;
        p_predictedWicketHit :=
          or_else (or_else (get_opt data "predicted_wicket_hit")
                           (get_opt data "predictedWicketHit"))
                  JNull;
        p_createdAt := Date_parse created;
        p_ballMetrics := or_else (get_opt data "ball_metrics") (get_opt data "ballMetrics");
        p_pitchAnalysis := or_else (get_opt data "pitch_analysis") (get_opt data "pitchAnalysis");
        p_impactAnalysis :=
          or_else (get_opt data "impact_analysis") (get_opt data "impactAnalysis");
        p_wicketPrediction :=
          or_else (get_opt data "wicket_prediction") (get_opt data "wicketPrediction");
        p_isUmpiresCall :=
          ToBoolean (coalesce (get_opt data "is_umpires_call") (get_opt data "isUmpiresCall"))
      |}
  end.

End Parser.

(** ** The event stream ([uploadToBackend], the text/event-stream branch) *)

(** *** [TextDecoder]: the UTF-8 decoder of the Encoding standard, kept
    between calls as [decode(value, { stream: true })] keeps it. *)

Record Decoder : Type := {
  bytes_needed : Z;
  bytes_seen : Z;
  code_point : Z;
  lower_boundary : Z;
  upper_boundary : Z;
  bom_seen : bool
}.

Definition new_decoder : Decoder :=
  {| bytes_needed := 0; bytes_seen := 0; code_point := 0;
     lower_boundary := 128; upper_boundary := 191; bom_seen := false |}.

(** The UTF-16 code units of a code point. *)
Definition utf16 (cp : Z) : jsstring :=
  if cp <? 65536 then [cp]
  else [55296 + (cp - 65536) / 1024; 56320 + (cp - 65536) mod 1024].

(** A code point leaves the decoder; the first one is dropped when it is the
    byte order mark. *)
Definition emit (cp : Z) (d : Decoder) : jsstring * Decoder :=
  let d' := {| bytes_needed := 0; bytes_seen := 0; code_point := 0;
               lower_boundary := 128; upper_boundary := 191;
               bom_seen := true |} in
  if negb (bom_seen d) && (cp =? 65279) then ([], d') else (utf16 cp, d').

(** A byte met with no sequence pending. *)
Definition lead_byte (b : Z) (d : Decoder) : jsstring * Decoder :=
  let pending needed cp lo hi :=
    ([], {| bytes_needed := needed; bytes_seen := 0; code_point := cp;
            lower_boundary := lo; upper_boundary := hi;
            bom_seen := bom_seen d |}) in
  if b <=? 127 then emit b d
  else if (194 <=? b) && (b <=? 223) then pending 1 (Z.land b 31) 128 191
  else if (224 <=? b) && (b <=? 239) then
    pending 2 (Z.land b 15) (if b =? 224 then 160 else 128)
              (if b =? 237 then 159 else 191)
  else if (240 <=? b) && (b <=? 244) then
    pending 3 (Z.land b 7) (if b =? 240 then 144 else 128)
              (if b =? 244 then 143 else 191)
  else emit 65533 d.

(** One byte through the decoder. *)
Definition decode_byte (d : Decoder) (b : Z) : jsstring * Decoder :=
  if bytes_needed d =? 0 then lead_byte b d
  else if (b <? lower_boundary d) || (upper_boundary d <? b) then
    (* the sequence is broken: U+FFFD, then the byte is read afresh *)
    let (bad, d1) := emit 65533 d in
    let (out, d2) := lead_byte b d1 in
    (bad ++ out, d2)
  else
    let cp := Z.lor (Z.shiftl (code_point d) 6) (Z.land b 63) in
    if bytes_seen d + 1 =? bytes_needed d then emit cp d
    else ([], {| bytes_needed := bytes_needed d; bytes_seen := bytes_seen d + 1;
                 code_point := cp; lower_boundary := 128; upper_boundary := 191;
                 bom_seen := bom_seen d |}).

(** [decoder.decode(value, { stream: true })]. *)
Fixpoint decode (d : Decoder) (value : list Z) : jsstring * Decoder :=
  match value with
  | [] => ([], d)
  | b :: rest =>
      let (out, d1) := decode_byte d b in
      let (outs, d2) := decode d1 rest in
      (out ++ outs, d2)
  end.

(** *** [buffer.split('\n\n')]: the pieces between the leftmost,
    non-overlapping occurrences of two line feeds; [cur] holds, reversed, the
    piece being read. *)
Fixpoint split_from (cur : jsstring) (s : jsstring) : list jsstring :=
  match s with
  | [] => [rev cur]
  | c :: s' =>
      match s' with
      | c' :: s'' =>
          if (c =? 10) && (c' =? 10) then rev cur :: split_from [] s''
          else split_from (c :: cur) s'
      | [] => [rev (c :: cur)]
      end
  end.

Definition split_frames (s : jsstring) : list jsstring := split_from [] s.

(** The frames of a text that are complete: every piece but the last. *)
Definition complete_frames (text : jsstring) : list jsstring :=
  removelast (split_frames text).

(** [cur] is a reading position the scan can be resumed from: reading the
    piece again from its start leads back to it. *)
Definition resumable (cur : jsstring) : Prop :=
  forall t, split_from [] (rev cur ++ t) = split_from cur t.

(** *** The read loop *)

(** What a call fails with. *)
Inductive Failure : Type :=
| SyntaxError                        (* JSON.parse rejected the text *)
| TypeError                          (* a property of undefined or null was
                                        read, or a value had no primitive
                                        form, or undefined was destructured *)
| RangeError                         (* toISOString on an invalid date *)
| ErrorMessage (message : jsstring)   (* new Error(message) *)
| Escaped (what : jsvalue).          (* anything else an external call throws *)

(** What the loop does to the outside: it calls [onStepUpdate], or settles
    the promise. *)
Inductive Dispatch : Type :=
| StepUpdate (step : jsvalue)
| Resolve (result : ParsedResult)
| Reject (failure : Failure).

Definition is_string (v : jsvalue) (s : string) : bool :=
  match v with
  | JStr t => streq t (str s)
  | _ => false
  end.

Section EventStream.
Context {P : Platform}.

(** The message of [new Error(message)]: empty when the error is made
    without one, [String(message)] otherwise; [None] when that throws. *)
Definition Error_message (message : jsvalue) : option jsstring :=
  match message with
  | JUndefined => Some []
  | _ => ToString message
  end.

(** The body of [for (const line of lines)] on one line: what it dispatches,
    and whether the loop is left (by [return], or by an exception that the
    [catch] turns into a rejection). *)
Definition dispatchLine (now : Z) (line : jsstring) : list Dispatch * bool :=
  if startsWith line (str "data: ") then
    match JSON_parse (slice 6 line) with
    | None => ([Reject SyntaxError], true)
    | Some data =>
        match get data "type" with
        | None => ([Reject TypeError], true)
        | Some type =>
            if is_string type "step" then
              ([StepUpdate (get_opt data "step")], false)
            else if is_string type "result" then
              match parseAnalysisResult (get_opt data "result") now with
              | Some r => ([Resolve r], true)
              | None => ([Reject TypeError], true)
              end
            else if is_string type "error" then
              (* reject(new Error(data.message)); when making the error
                 throws, the catch rejects with what was thrown *)
              match Error_message (get_opt data "message") with
              | Some m => ([Reject (ErrorMessage m)], true)
              | None => ([Reject TypeError], true)
              end
            else ([], false)
        end
    end
  else ([], false).

Fixpoint dispatchLines (now : Z) (lines : list jsstring) : list Dispatch * bool :=
  match lines with
  | [] => ([], false)
  | line :: rest =>
      let (out, stop) := dispatchLine now line in
      if stop then (out, true)
      else let (outs, stop') := dispatchLines now rest in (out ++ outs, stop')
  end.

(** [processEvents]: one iteration of [while (true)] per chunk the reader
    yields; the reader is done when the chunks are exhausted. *)
Fixpoint processEvents (now : Z) (decoder : Decoder) (buffer : jsstring)
  (chunks : list (list Z)) : list Dispatch :=
  match chunks with
  | [] => []
  | value :: rest =>
      let (text, decoder') := decode decoder value in
      let lines := split_frames (buffer ++ text) in
      (* buffer = lines.pop() || '' *)
      let buffer' := last lines [] in
      let (out, stop) := dispatchLines now (removelast lines) in
      if stop then out else out ++ processEvents now decoder' buffer' rest
  end.

(** The promise the caller awaits, read off what was dispatched. *)
Inductive Settled : Type :=
| Fulfilled (result : ParsedResult)
| Rejected (failure : Failure)
| Pending.

Fixpoint settlement (out : list Dispatch) : Settled :=
  match out with
  | [] => Pending
  | Resolve r :: _ => Fulfilled r
  | Reject e :: _ => Rejected e
  | StepUpdate _ :: rest => settlement rest
  end.

(** The step updates delivered to [onStepUpdate], in order. *)
Fixpoint step_updates (out : list Dispatch) : list jsvalue :=
  match out with
  | [] => []
  | StepUpdate s :: rest => s :: step_updates rest
  | _ :: rest => step_updates rest
  end.

End EventStream.

(** ** The content fingerprint ([generateFileHash])

    A [File] as the function sees it: its name, its size, its time stamp,
    and what reading a slice of it yields — the bytes, or [None] when
    [arrayBuffer()] rejects.  [onProgress] calls are returned as the list of
    their arguments, in order; callbacks are taken not to throw. *)

Record File : Type := {
  file_name : jsstring;
  file_size : Z;
  lastModified : Z;
  read_slice : number -> number -> option (list Z)
}.

Section Fingerprint.
Context {P : Platform}.

Definition FNV_PRIME : number := int 16777619.

(** [for (let i = 0; i < bytes.length; i += sampleRate)]; the loop runs at
    most [bytes.length] times since [sampleRate >= 1]. *)
Fixpoint sampleBytes (fuel : nat) (i sampleRate : number) (bytes : list Z)
  (hash : number) : number :=
  match fuel with
  | O => hash
  | S fuel' =>
      if flt i (int (Z.of_nat (List.length bytes))) then
        let byte :=
          match at_index bytes i with
          | Some b => int b
          | None => NaN
          end in
        let hash1 := bitxor hash byte in
        let hash2 := Math_imul hash1 FNV_PRIME in
        sampleBytes fuel' (fadd i sampleRate) sampleRate bytes hash2
      else hash
  end.

(** [for (let chunkIndex = 0; chunkIndex < totalChunks; chunkIndex++)], from
    [chunkIndex] on: the progress calls made, and the hash — or [None] when a
    read rejected and control left for the [catch]. *)
Fixpoint hashChunks (fuel : nat) (file : File) (chunkIndex totalChunks : number)
  (hash : number) : list number * option number :=
  match fuel with
  | O => ([], Some hash)
  | S fuel' =>
      if flt chunkIndex totalChunks then
        let chunkSize := int (1024 * 1024) in
        let start := fmul chunkIndex chunkSize in
        let end_ := Math_min (fadd start chunkSize) (int (file_size file)) in
        match read_slice file start end_ with
        | None => ([], None)
        | Some bytes =>
            let length := int (Z.of_nat (List.length bytes)) in
            let sampleRate :=
              Math_max (int 1) (Math_floor (fdiv length (int 1000))) in
            let hash' :=
              sampleBytes (List.length bytes) (int 0) sampleRate bytes hash in
            let progress :=
              fmul (fdiv (fadd chunkIndex (int 1)) totalChunks) (int 100) in
            let (calls, result) :=
              hashChunks fuel' file (fadd chunkIndex (int 1)) totalChunks hash' in
            (Math_min progress (int 99) :: calls, result)
        end
      else ([], Some hash)
  end.

(** The [try] block. *)
Definition hashContent (file : File) : list number * option number :=
  let chunkSize := int (1024 * 1024) in
  let totalChunks := Math_ceil (fdiv (int (file_size file)) chunkSize) in
  let fuel :=
    match as_integer totalChunks with
    | Some n => Z.to_nat n
    | None => O
    end in
  let (calls, result) :=
    hashChunks fuel file (int 0) totalChunks (int 2166136261) in
  match result with
  | None => (calls, None)
  | Some hash =>
      let hash1 := bitxor hash (int (file_size file)) in
      let hash2 := Math_imul hash1 FNV_PRIME in
      (calls ++ [int 100], Some (Math_abs (ushr hash2 (int 0))))
  end.

(** The [catch] block: the string hash of name, size and time stamp. *)
Definition hashMetadata (file : File) : number :=
  let text := file_name file ++ str "-" ++ NumberToString (int (file_size file))
              ++ str "-" ++ NumberToString (int (lastModified file)) in
  Math_abs
    (fold_left (fun hash char =>
                  let hash1 := fadd (fsub (shl hash (int 5)) hash) (int char) in
                  bitand hash1 hash1)
               text (int 0)).

(** [generateFileHash(file, onProgress)]: the seed and the progress calls. *)
Definition generateFileHash (file : File) : number * list number :=
  match hashContent file with
  | (calls, Some seed) => (seed, calls)
  | (calls, None) => (hashMetadata file, calls ++ [int 100])
  end.

End Fingerprint.

(** ** Asynchronous code

    An [async] function runs against a state and ends in one of three ways:
    it returns, it throws (its promise rejects), or it awaits a promise that
    never settles. *)

Inductive Outcome (A : Type) : Type :=
| Returns (a : A)
| Throws (e : Failure)
| Never.
Arguments Returns {A} a.
Arguments Throws {A} e.
Arguments Never {A}.

Definition Async (S A : Type) : Type := S -> Outcome A * S.

Definition pure {S A} (a : A) : Async S A := fun s => (Returns a, s).

Definition throw {S A} (e : Failure) : Async S A := fun s => (Throws e, s).

Definition never {S A} : Async S A := fun s => (Never, s).

Definition and_then {S A B} (m : Async S A) (k : A -> Async S B) : Async S B :=
  fun s =>
    match m s with
    | (Returns a, s') => k a s'
    | (Throws e, s') => (Throws e, s')
    | (Never, s') => (Never, s')
    end.

Notation "x <- m ;; k" := (and_then m (fun x => k))
  (at level 61, m at next level, right associativity).
Notation "m ;;; k" := (and_then m (fun _ => k))
  (at level 61, right associativity).

(** [try { body } catch (err) { handler }]. *)
Definition try_catch {S A} (body : Async S A) (handler : Failure -> Async S A)
  : Async S A :=
  fun s =>
    match body s with
    | (Returns a, s') => (Returns a, s')
    | (Throws e, s') => handler e s'
    | (Never, s') => (Never, s')
    end.

(** A computation settles when it does not end up awaiting forever. *)
Definition settles {S A} (m : Async S A) : Prop :=
  forall s, fst (m s) <> Never.

(** A [for ... of] loop that keeps what each round yields. *)
Fixpoint for_of {S A B} (l : list A) (body : A -> Async S B) : Async S (list B) :=
  match l with
  | [] => pure []
  | a :: rest =>
      b <- body a ;;
      bs <- for_of rest body ;;
      pure (b :: bs)
  end.

(** Reading a property, as a destructuring pattern or a member access does:
    of [undefined] or [null] it throws a TypeError. *)
Definition prop {S} (v : jsvalue) (key : string) : Async S jsvalue :=
  match get v key with
  | Some x => pure x
  | None => throw TypeError
  end.

(** A conversion made on the way: it throws its TypeError when it fails. *)
Definition convert {S A} (o : option A) : Async S A :=
  match o with
  | Some a => pure a
  | None => throw TypeError
  end.

(** ** The host

    What a call into the outside answers: a value, or an exception.  The
    calls of the store's client and [fetch] are taken to settle. *)

Inductive Reply (A : Type) : Type :=
| Replies (a : A)
| Raises (e : Failure).
Arguments Replies {A} a.
Arguments Raises {A} e.

(** A [fetch] response: [ok], what [text()] and [json()] settle with, the
    content-type header, and the chunks the body's reader yields until it is
    done ([None]: the response has no body). *)
Record Response : Type := {
  ok : bool;
  text : Reply jsstring;
  json : Reply jsvalue;
  content_type : option jsstring;
  body : option (list (list Z))
}.

(** The outside world in a state of type [X]: the store's client (each query
    chain up to its [await] is one call), the two backend endpoints, the
    clock, [Math.random] and [delay]. *)
Class Host (X : Type) : Type := {
  (* supabase.auth.getUser() *)
  auth_getUser : X -> Reply jsvalue * X;
  (* from('analysis_settings').select('*').eq('user_id', _).maybeSingle() *)
  settings_select : jsvalue -> X -> Reply jsvalue * X;
  (* from('lbw_analyses').select('id').eq('user_id', _).eq('analysis_id', _)
       .maybeSingle() *)
  analyses_select_id : jsvalue -> jsvalue -> X -> Reply jsvalue * X;
  (* from('lbw_analyses').update(_).eq('id', _) *)
  analyses_update : jsvalue -> jsvalue -> X -> Reply jsvalue * X;
  (* from('lbw_analyses').insert(_) *)
  analyses_insert : jsvalue -> X -> Reply jsvalue * X;
  (* from('lbw_analyses').select('*').eq('analysis_id', _).maybeSingle() *)
  analyses_select : jsstring -> X -> Reply jsvalue * X;
  (* fetch(API_ENDPOINTS.analyze, { method: 'POST', body: formData }) *)
  fetch_analyze : File -> AnalysisSettings -> X -> Reply Response * X;
  (* fetch(API_ENDPOINTS.result(id)) *)
  fetch_result : jsstring -> X -> Reply Response * X;
  Date_now : X -> Z;
  Math_random : X -> number * X;
  delay : number -> X -> X
}.

(** [await] of a call into the host. *)
Definition await {X A} (call : X -> Reply A * X) : Async X A :=
  fun x =>
    match call x with
    | (Replies a, x') => (Returns a, x')
    | (Raises e, x') => (Throws e, x')
    end.

(** [await] of something already settled, as [response.json()]. *)
Definition settled {S A} (r : Reply A) : Async S A :=
  match r with
  | Replies a => pure a
  | Raises e => throw e
  end.

(** ** Settings ([getSettings]) *)

Definition DEFAULTS : AnalysisSettings :=
  {| pitch_length := int 22; pitch_width := int 10; crease_distance := int 4;
     pitch_surface := JStr (str "concrete"); ball_type := JStr (str "tennis");
     stump_height := int 28; stump_width := int 9;
     confidence_threshold := int 50;
     camera_angle := JStr (str "side");
     camera_distance := JStr (str "medium") |}.

Section Settings.
Context {P : Platform} {X : Type} {H : Host X}.

(** [Number] throws for a column that holds a value with no primitive form;
    the four text columns are copied. *)
Definition getSettings : Async X AnalysisSettings :=
  response <- await auth_getUser ;;
  data <- prop response "data" ;;
  user <- prop data "user" ;;
  if negb (ToBoolean user) then pure DEFAULTS
  else
    response <- await (settings_select (get_opt user "id")) ;;
    data <- prop response "data" ;;
    error <- prop response "error" ;;
    if ToBoolean error || negb (ToBoolean data) then pure DEFAULTS
    else
      pitch_length <- convert (ToNumber (get_opt data "pitch_length")) ;;
      pitch_width <- convert (ToNumber (get_opt data "pitch_width")) ;;
      crease_distance <- convert (ToNumber (get_opt data "crease_distance")) ;;
      stump_height <- convert (ToNumber (get_opt data "stump_height")) ;;
      stump_width <- convert (ToNumber (get_opt data "stump_width")) ;;
      confidence_threshold <-
        convert (ToNumber (get_opt data "confidence_threshold")) ;;
      pure {| pitch_length := pitch_length;
              pitch_width := pitch_width;
              crease_distance := crease_distance;
              pitch_surface := get_opt data "pitch_surface";
              ball_type := get_opt data "ball_type";
              stump_height := stump_height;
              stump_width := stump_width;
              confidence_threshold := confidence_threshold;
              camera_angle := get_opt data "camera_angle";
              camera_distance := get_opt data "camera_distance" |}.

End Settings.

(** ** The durable store's client ([src/services/analysisDbService.ts]) *)

(** What [fromDbFormat] builds, a [Partial<AnalysisResult>]: the casts check
    nothing, so a copied column holds whatever the row holds. *)
Record DbResult : Type := {
  db_id : jsvalue;
  db_videoName : jsvalue;
  db_decision : jsvalue;
  db_confidence : number;
  db_isUmpiresCall : jsvalue;
  db_impactPoint : jsvalue;
  db_predictedWicketHit : jsvalue;
  db_trajectory : jsvalue;
  db_createdAt : Date;
  db_keyFrames : jsvalue
}.

(** What [getAnalysisResult] builds from a [DbResult] and the in-memory
    entry. *)
Record MergedResult : Type := {
  m_id : jsvalue;
  m_videoId : jsstring;
  m_videoName : jsvalue;
  m_videoThumbnail : jsstring;
  m_decision : jsvalue;
  m_confidence : number;
  m_criteria : LBWCriteria;
  m_steps : list AnalysisStep;
  m_trajectory : jsvalue;
  m_impactPoint : jsvalue;
  m_bouncePoint : Position;
  m_predictedWicketHit : jsvalue;
  m_createdAt : Date;
  m_isUmpiresCall : jsvalue;
  m_keyFrames : jsvalue;
  m_ballMetrics : option BallMetrics;
  m_pitchAnalysis : option PitchAnalysis;
  m_impactAnalysis : option ImpactAnalysis;
  m_wicketPrediction : option WicketPrediction
}.

(** The three shapes an [AnalysisResult] has at run time. *)
Inductive Report : Type :=
| Synthesized (r : AnalysisResult)
| Parsed (r : ParsedResult)
| Merged (r : MergedResult).

Definition decision_name (d : Decision) : jsstring :=
  match d with
  | OUT => str "OUT"
  | NOT_OUT => str "NOT_OUT"
  end.

Definition zone_name (z : Zone) : jsstring :=
  match z with
  | outside_leg => str "outside_leg"
  | inline => str "inline"
  | outside_off => str "outside_off"
  end.

Definition frame_type_name (t : FrameType) : jsstring :=
  match t with
  | release => str "release"
  | bounce => str "bounce"
  | impact => str "impact"
  | wicket => str "wicket"
  end.

Definition position_value (p : Position) : jsvalue :=
  JObj [ (str "x", JNum (pos_x p)); (str "y", JNum (pos_y p)) ].

Definition point_value (p : TrajectoryPoint) : jsvalue :=
  JObj [ (str "x", JNum (tp_x p)); (str "y", JNum (tp_y p));
         (str "z", JNum (tp_z p)) ].

Definition keyFrame_value (k : KeyFrame) : jsvalue :=
  JObj [ (str "type", JStr (frame_type_name (kf_type k)));
         (str "frameNumber", JNum (frameNumber k));
         (str "timestamp", JNum (timestamp k));
         (str "imageUrl", JStr (imageUrl k));
         (str "label", JStr (label k));
         (str "description", JStr (kf_description k)) ].

(** [v ?? null]. *)
Definition or_null (v : jsvalue) : jsvalue := coalesce v JNull.

(** [new Date(v)]: a string is parsed, as is the string an array or an
    object converts to ([None] when it has none); anything else is taken as
    a time value. *)
Definition TimeClip (t : number) : Date :=
  match t with
  | Fin q => if Qle_bool (Qabs q) (inject_Z 8640000000000000)
             then DateAt (trunc q) else InvalidDate
  | _ => InvalidDate
  end.

Section DbService.
Context {P : Platform} {X : Type} {H : Host X}.

Definition new_Date (v : jsvalue) : option Date :=
  match v with
  | JStr s => Some (Date_parse s)
  | JArr _ | JObj _ => option_map Date_parse (ToString v)
  | _ => option_map TimeClip (ToNumber v)
  end.

(** [result.createdAt.toISOString()]: a RangeError on an invalid date. *)
Definition toISOString (d : Date) : Failure + jsstring :=
  match d with
  | DateAt ms => inr (Date_toISOString ms)
  | InvalidDate => inl RangeError
  end.

(** The row [toDbFormat] builds, but for its time stamp. *)
Definition columns (result : Report) (userId : jsvalue)
  : list (jsstring * jsvalue) :=
  match result with
  | Synthesized r =>
      [ (str "user_id", userId);
        (str "analysis_id", JStr (id r));
        (str "video_name", JStr (videoName r));
        (str "decision", JStr (decision_name (decision r)));
        (str "confidence", JNum (confidence r));
        (str "umpires_call",
         match isUmpiresCall r with Some b => JBool b | None => JBool false end);
        (str "impact_point", position_value (impactPoint r));
        (str "wicket_point",
         match predictedWicketHit r with
         | Some p => position_value p
         | None => JNull
         end);
        (str "trajectory", JArr (map point_value (trajectory r)));
        (str "ball_speed",
         match ballMetrics r with Some b => JNum (speed b) | None => JNull end);
        (str "ball_spin",
         match ballMetrics r with
         | Some b => match spinRate b with Some n => JNum n | None => JNull end
         | None => JNull
         end);
        (str "pitching_zone",
         match pitchAnalysis r with
         | Some a => JStr (zone_name (pa_zone a))
         | None => JNull
         end);
        (str "impact_zone",
         match impactAnalysis r with
         | Some a => JStr (zone_name (ia_zone a))
         | None => JNull
         end);
        (str "key_frames",
         match keyFrames r with
         | Some ks => JArr (map keyFrame_value ks)
         | None => JUndefined
         end) ]
  | Parsed r =>
      [ (str "user_id", userId);
        (str "analysis_id", JStr (p_id r));
        (str "video_name", JStr (p_videoName r));
        (str "decision", p_decision r);
        (str "confidence", JNum (p_confidence r));
        (str "umpires_call", JBool (p_isUmpiresCall r));
        (str "impact_point", p_impactPoint r);
        (str "wicket_point", p_predictedWicketHit r);
        (str "trajectory", p_trajectory r);
        (str "ball_speed", or_null (get_opt (p_ballMetrics r) "speed"));
        (str "ball_spin", or_null (get_opt (p_ballMetrics r) "spinRate"));
        (str "pitching_zone", or_null (get_opt (p_pitchAnalysis r) "zone"));
        (str "impact_zone", or_null (get_opt (p_impactAnalysis r) "zone"));
        (* parseAnalysisResult sets no keyFrames *)
        (str "key_frames", JUndefined) ]
  | Merged r =>
      [ (str "user_id", userId);
        (str "analysis_id", m_id r);
        (str "video_name", m_videoName r);
        (str "decision", m_decision r);
        (str "confidence", JNum (m_confidence r));
        (str "umpires_call", coalesce (m_isUmpiresCall r) (JBool false));
        (str "impact_point", m_impactPoint r);
        (str "wicket_point", m_predictedWicketHit r);
        (str "trajectory", m_trajectory r);
        (str "ball_speed",
         match m_ballMetrics r with Some b => JNum (speed b) | None => JNull end);
        (str "ball_spin",
         match m_ballMetrics r with
         | Some b => match spinRate b with Some n => JNum n | None => JNull end
         | None => JNull
         end);
        (str "pitching_zone",
         match m_pitchAnalysis r with
         | Some a => JStr (zone_name (pa_zone a))
         | None => JNull
         end);
        (str "impact_zone",
         match m_impactAnalysis r with
         | Some a => JStr (zone_name (ia_zone a))
         | None => JNull
         end);
        (str "key_frames", m_keyFrames r) ]
  end.

Definition result_createdAt (result : Report) : Date :=
  match result with
  | Synthesized r => createdAt r
  | Parsed r => p_createdAt r
  | Merged r => m_createdAt r
  end.

Definition result_id (result : Report) : jsvalue :=
  match result with
  | Synthesized r => JStr (id r)
  | Parsed r => JStr (p_id r)
  | Merged r => m_id r
  end.

Definition toDbFormat (result : Report) (userId : jsvalue) : Async X jsvalue :=
  match toISOString (result_createdAt result) with
  | inr stamp =>
      pure (JObj (columns result userId
                  ++ [ (str "analysis_timestamp", JStr stamp) ]))
  | inl e => throw e
  end.

(** [fromDbFormat(row)]; [None] is the TypeError of [Number] or of
    [new Date] on a column with no primitive form. *)
Definition fromDbFormat (row : jsvalue) : option DbResult :=
  let! confidence := ToNumber (get_opt row "confidence") in
  let! createdAt :=
    new_Date (or_else (get_opt row "analysis_timestamp")
                      (get_opt row "created_at")) in
  Some {| db_id := get_opt row "analysis_id";
          db_videoName := get_opt row "video_name";
          db_decision := get_opt row "decision";
          db_confidence := confidence;
          db_isUmpiresCall := get_opt row "umpires_call";
          db_impactPoint := get_opt row "impact_point";
          db_predictedWicketHit := get_opt row "wicket_point";
          db_trajectory := or_else (get_opt row "trajectory") (JArr []);
          db_createdAt := createdAt;
          db_keyFrames := get_opt row "key_frames" |}.

(** [saveAnalysisToDb(result)]; the console calls are left out. *)
Definition saveAnalysisToDb (result : Report) : Async X bool :=
  try_catch
    (response <- await auth_getUser ;;
     data <- prop response "data" ;;
     user <- prop data "user" ;;
     if negb (ToBoolean user) then pure false
     else
       dbData <- toDbFormat result (get_opt user "id") ;;
       response <- await (analyses_select_id (get_opt user "id")
                                             (result_id result)) ;;
       existing <- prop response "data" ;;
       response <-
         (if ToBoolean existing
          then await (analyses_update dbData (get_opt existing "id"))
          else await (analyses_insert dbData)) ;;
       error <- prop response "error" ;;
       if ToBoolean error then pure false else pure true)
    (fun err => pure false).

(** [getAnalysisFromDb(analysisId)]; [None] is [null]. *)
Definition getAnalysisFromDb (analysisId : jsstring) : Async X (option DbResult) :=
  try_catch
    (response <- await (analyses_select analysisId) ;;
     data <- prop response "data" ;;
     error <- prop response "error" ;;
     if ToBoolean error then pure None
     else if negb (ToBoolean data) then pure None
     else
       result <- convert (fromDbFormat data) ;;
       pure (Some result))
    (fun err => pure None).

Definition isUserAuthenticated : Async X bool :=
  response <- await auth_getUser ;;
  data <- prop response "data" ;;
  user <- prop data "user" ;;
  pure (ToBoolean user).

End DbService.

(** ** The analysis service's public functions *)

(** What the caller's two callbacks are called with; a callback is taken to
    return.  The optional [onFileReadProgress] is taken to be given. *)
Inductive Callback : Type :=
| onStepUpdate (step : jsvalue)
| onFileReadProgress (progress : number).

(** The state the service runs against: the host, the module's
    [storedAnalyses] (whatever it holds: at load time, five synthesized
    reports), and the callback calls made so far, in order. *)
Record World (X : Type) : Type := {
  host : X;
  storedAnalyses : list AnalysisResult;
  called : list Callback
}.
Arguments host {X} w.
Arguments storedAnalyses {X} w.
Arguments called {X} w.

(** Code of another module runs against the host alone. *)
Definition outside {X A} (m : Async X A) : Async (World X) A :=
  fun w =>
    let (o, x) := m (host w) in
    (o, {| host := x; storedAnalyses := storedAnalyses w; called := called w |}).

Definition call {X} (c : Callback) : Async (World X) unit :=
  fun w =>
    (Returns tt, {| host := host w; storedAnalyses := storedAnalyses w;
                    called := called w ++ [c] |}).

Definition now {X} {H : Host X} : Async (World X) Z :=
  fun w => (Returns (Date_now (host w)), w).

Definition wait {X} {H : Host X} (ms : number) : Async (World X) unit :=
  fun w =>
    (Returns tt, {| host := delay ms (host w);
                    storedAnalyses := storedAnalyses w; called := called w |}).

Definition random {X} {H : Host X} : Async (World X) number :=
  fun w =>
    let (r, x) := Math_random (host w) in
    (Returns r, {| host := x; storedAnalyses := storedAnalyses w;
                   called := called w |}).

(** [storedAnalyses.unshift(result)]. *)
Definition unshift {X} (result : AnalysisResult) : Async (World X) unit :=
  fun w =>
    (Returns tt, {| host := host w;
                    storedAnalyses := result :: storedAnalyses w;
                    called := called w |}).

Definition stored {X} : Async (World X) (list AnalysisResult) :=
  fun w => (Returns (storedAnalyses w), w).

(** Code that returns and leaves [storedAnalyses] as it is. *)
Definition steady {X A} (m : Async (World X) A) : Prop :=
  forall w, exists a w',
    m w = (Returns a, w') /\ storedAnalyses w' = storedAnalyses w.

(** [s.includes(sub)]. *)
Fixpoint includes (s sub : jsstring) : bool :=
  startsWith s sub
  || match s with
     | [] => false
     | _ :: rest => includes rest sub
     end.

Definition with_data (t : Z) (step : AnalysisStep) : AnalysisStep :=
  {| step_id := step_id step; step_name := step_name step;
     step_description := step_description step; status := status step;
     data := Some t |}.

Definition with_steps (s : list AnalysisStep) (r : AnalysisResult)
  : AnalysisResult :=
  {| id := id r; videoId := videoId r; videoName := videoName r;
     videoThumbnail := videoThumbnail r; decision := decision r;
     confidence := confidence r; criteria := criteria r; steps := s;
     trajectory := trajectory r; impactPoint := impactPoint r;
     bouncePoint := bouncePoint r; predictedWicketHit := predictedWicketHit r;
     createdAt := createdAt r; ballMetrics := ballMetrics r;
     pitchAnalysis := pitchAnalysis r; impactAnalysis := impactAnalysis r;
     wicketPrediction := wicketPrediction r; isUmpiresCall := isUmpiresCall r;
     keyFrames := keyFrames r |}.

Section Service.
Context {P : Platform} {X : Type} {H : Host X}.

(** The build-time switch [USE_MOCK_API]. *)
Variable USE_MOCK_API : bool.

(** [uploadToBackend(file, onStepUpdate, settings)].  The clock is read when
    the response has arrived; a stream that ends without a result or an
    error event leaves the promise pending. *)
Definition uploadToBackend (file : File) (settings : AnalysisSettings)
  : Async (World X) ParsedResult :=
  response <- outside (await (fetch_analyze file settings)) ;;
  if negb (ok response) then
    error <- settled (text response) ;;
    throw (ErrorMessage (str "Analysis failed: " ++ error))
  else
    t <- now ;;
    if match content_type response with
       | Some contentType => includes contentType (str "text/event-stream")
       | None => false
       end
    then
      match body response with
      | None => throw (ErrorMessage (str "No response body"))
      | Some chunks =>
          let out := processEvents t new_decoder [] chunks in
          for_of (step_updates out) (fun step => call (onStepUpdate step)) ;;;
          match settlement out with
          | Fulfilled result => pure result
          | Rejected e => throw e
          | Pending => never
          end
      end
    else
      result <- settled (json response) ;;
      for_of createAnalysisSteps
        (fun step => call (onStepUpdate (step_value (set_status completed step)))) ;;;
      match parseAnalysisResult result t with
      | Some parsed => pure parsed
      | None => throw TypeError
      end.

(** [`analysis-${seed}-${file.name.replace(/\s/g, '_')}`]. *)
Definition analysisId (seed : number) (file : File) : jsstring :=
  str "analysis-" ++ NumberToString seed ++ str "-"
  ++ replace_whitespace (file_name file).

(** [storedAnalyses.find(a => a.id === id)]. *)
Definition find_stored (key : jsstring) (l : list AnalysisResult)
  : option AnalysisResult :=
  find (fun a => streq (id a) key) l.

(** [analyzeVideo(file, onStepUpdate, onFileReadProgress)]. *)
Definition analyzeVideo (file : File) : Async (World X) Report :=
  settings <- outside getSettings ;;
  if negb USE_MOCK_API then
    call (onFileReadProgress (int 100)) ;;;
    result <- uploadToBackend file settings ;;
    outside (saveAnalysisToDb (Parsed result)) ;;;
    pure (Parsed result)
  else
    let steps := createAnalysisSteps in
    let (seed, progress) := generateFileHash file in
    for_of progress (fun p => call (onFileReadProgress p)) ;;;
    analyses <- stored ;;
    match find_stored (analysisId seed file) analyses with
    | Some existingAnalysis =>
        for_of steps
          (fun step =>
             call (onStepUpdate (step_value (set_status processing step))) ;;;
             wait (int 200) ;;;
             call (onStepUpdate (step_value (set_status completed step)))) ;;;
        pure (Synthesized existingAnalysis)
    | None =>
        steps <-
          for_of steps
            (fun step =>
               call (onStepUpdate (step_value (set_status processing step))) ;;;
               r <- random ;;
               wait (fadd (int 800) (fmul r (int 600))) ;;;
               t <- now ;;
               let step := with_data t (set_status completed step) in
               call (onStepUpdate (step_value step)) ;;;
               pure step) ;;
        t <- now ;;
        generated <-
          convert (generateAnalysisResult (file_name file) seed settings t) ;;
        let result := with_steps steps generated in
        unshift result ;;;
        try_catch
          (authenticated <- outside isUserAuthenticated ;;
           if authenticated
           then outside (saveAnalysisToDb (Synthesized result)) ;;; pure tt
           else pure tt)
          (fun err => pure tt) ;;;
        pure (Synthesized result)
    end.

(** [getAnalysisResult(id)]; [None] is [null].  The first [try] either
    returns a merged report or falls through. *)
Definition getAnalysisResult (id : jsstring) : Async (World X) (option Report) :=
  merged <-
    try_catch
      (authenticated <- outside isUserAuthenticated ;;
       if authenticated then
         dbResult <- outside (getAnalysisFromDb id) ;;
         match dbResult with
         | Some dbResult =>
             analyses <- stored ;;
             let mockAnalysis := find_stored id analyses in
             pure (Some {|
               m_id := db_id dbResult;
               m_videoId :=
                 match mockAnalysis with
                 | Some a => match videoId a with
                             | [] => str "video-" ++ id
                             | _ => videoId a
                             end
                 | None => str "video-" ++ id
                 end;
               m_videoName := db_videoName dbResult;
               m_videoThumbnail :=
                 match mockAnalysis with
                 | Some a => match videoThumbnail a with
                             | [] => str "/placeholder.svg"
                             | _ => videoThumbnail a
                             end
                 | None => str "/placeholder.svg"
                 end;
               m_decision := db_decision dbResult;
               m_confidence := db_confidence dbResult;
               m_criteria :=
                 match mockAnalysis with
                 | Some a => criteria a
                 | None =>
                     {| pitchedInLine := true; impactInLine := true;
                        legBeforeBat := true;
                        wouldHitWickets := is_string (db_decision dbResult) "OUT" |}
                 end;
               m_steps :=
                 match mockAnalysis with
                 | Some a => steps a
                 | None => completedSteps
                 end;
               m_trajectory := or_else (db_trajectory dbResult) (JArr []);
               m_impactPoint :=
                 or_else (db_impactPoint dbResult)
                         (JObj [ (str "x", JNum (int 230));
                                 (str "y", JNum (int 50)) ]);
               m_bouncePoint :=
                 match mockAnalysis with
                 | Some a => bouncePoint a
                 | None => {| pos_x := int 130; pos_y := int 50 |}
                 end;
               m_predictedWicketHit := db_predictedWicketHit dbResult;
               m_createdAt := db_createdAt dbResult;
               m_isUmpiresCall := db_isUmpiresCall dbResult;
               m_keyFrames := db_keyFrames dbResult;
               m_ballMetrics :=
                 match mockAnalysis with Some a => ballMetrics a | None => None end;
               m_pitchAnalysis :=
                 match mockAnalysis with Some a => pitchAnalysis a | None => None end;
               m_impactAnalysis :=
                 match mockAnalysis with Some a => impactAnalysis a | None => None end;
               m_wicketPrediction :=
                 match mockAnalysis with
                 | Some a => wicketPrediction a
                 | None => None
                 end |})
         | None => pure None
         end
       else pure None)
      (fun err => pure None) ;;
  match merged with
  | Some report => pure (Some (Merged report))
  | None =>
      if negb USE_MOCK_API then
        try_catch
          (response <- outside (await (fetch_result id)) ;;
           if negb (ok response) then pure None
           else
             data <- settled (json response) ;;
             t <- now ;;
             match parseAnalysisResult data t with
             | Some parsed => pure (Some (Parsed parsed))
             | None => throw TypeError
             end)
          (fun err => pure None)
      else
        wait (int 200) ;;;
        analyses <- stored ;;
        pure (option_map Synthesized (find_stored id analyses))
  end.

End Service.

(** ** Sample data

    Concrete inputs for the closed examples of Part II: a platform whose
    functions answer with fixed values, a host whose store knows a signed-in
    user and one saved row but raises on every write, and a world whose
    in-memory log holds an entry that disagrees with that row. *)

Definition sample_platform : Platform :=
  {| Math_sin := fun _ => int 0;
     Number_toString := fun _ => str "0";
     StringToNumber := fun _ => NaN;
     Date_parse := fun _ => DateAt 1704067200000;
     Date_toISOString := fun _ => str "2024-01-01T00:00:00.000Z";
     JSON_parse := fun _ => None;
     releaseFrameImg := str "/assets/release-frame.jpg";
     bounceFrameImg := str "/assets/bounce-frame.jpg";
     impactFrameImg := str "/assets/impact-frame.jpg";
     wicketFrameImg := str "/assets/wicket-frame.jpg" |}.

Definition sample_user : jsvalue :=
  JObj [ (str "data", JObj [ (str "user", JObj [ (str "id", JStr (str "u1")) ]) ]);
         (str "error", JNull) ].

Definition sample_row : jsvalue :=
  JObj [ (str "analysis_id", JStr (str "analysis-7-clip.mp4"));
         (str "video_name", JStr (str "clip.mp4"));
         (str "decision", JStr (str "OUT"));
         (str "confidence", JNum (int 91));
         (str "umpires_call", JBool false);
         (str "impact_point", JObj [ (str "x", JNum (int 240));
                                     (str "y", JNum (int 50)) ]);
         (str "wicket_point", JNull);
         (str "trajectory", JArr []);
         (str "key_frames", JNull);
         (str "analysis_timestamp", JStr (str "2024-01-01T00:00:00.000Z")) ].

Definition sample_payload : jsvalue :=
  JObj [ (str "id", JStr (str "r1"));
         (str "video_name", JStr (str "clip.mp4"));
         (str "decision", JStr (str "OUT"));
         (str "confidence", JNum (int 91)) ].

Definition outage : Failure := ErrorMessage (str "Failed to fetch").

Definition sample_response : Response :=
  {| ok := true; text := Replies []; json := Replies sample_payload;
     content_type := Some (str "application/json"); body := None |}.

Definition sample_host : Host unit :=
  {| auth_getUser := fun x => (Replies sample_user, x);
     settings_select :=
       fun _ x => (Replies (JObj [ (str "data", JNull); (str "error", JNull) ]), x);
     analyses_select_id := fun _ _ x => (Raises outage, x);
     analyses_update := fun _ _ x => (Raises outage, x);
     analyses_insert := fun _ x => (Raises outage, x);
     analyses_select :=
       fun _ x => (Replies (JObj [ (str "data", sample_row); (str "error", JNull) ]), x);
     fetch_analyze := fun _ _ x => (Replies sample_response, x);
     fetch_result := fun _ x => (Replies sample_response, x);
     Date_now := fun _ => 1704067200000;
     Math_random := fun x => (dec 0.5, x);
     delay := fun _ x => x |}.

Definition sample_file : File :=
  {| file_name := str "clip.mp4"; file_size := 0; lastModified := 1700000000000;
     read_slice := fun _ _ => None |}.

Definition stale_entry : AnalysisResult :=
  {| id := str "analysis-7-clip.mp4"; videoId := str "video-7";
     videoName := str "renamed.mp4"; videoThumbnail := str "/placeholder.svg";
     decision := NOT_OUT; confidence := int 70;
     criteria := {| pitchedInLine := true; impactInLine := false;
                    legBeforeBat := true; wouldHitWickets := false |};
     steps := []; trajectory := [];
     impactPoint := {| pos_x := int 230; pos_y := int 50 |};
     bouncePoint := {| pos_x := int 140; pos_y := int 50 |};
     predictedWicketHit := None; createdAt := DateAt 0;
     ballMetrics := None; pitchAnalysis := None; impactAnalysis := None;
     wicketPrediction := None; isUmpiresCall := None; keyFrames := None |}.

Definition sample_world : World unit :=
  {| host := tt; storedAnalyses := [stale_entry]; called := [] |}.

(** ** The remaining functions of the two services

    The rest of the durable store's client, of the settings service and of
    the analysis service, and the error classifier of the upload page
    ([parseError] in [src/pages/Upload.tsx]).  The video store over IndexedDB
    (lines 80 to 277 of [settingsService.ts]) is left out: its functions are
    event handlers on requests, transactions and cursors of the browser. *)

(** [Math.round]: the integer nearest to the number, a tie going up. *)
Definition Math_round (a : number) : number :=
  match a with
  | Fin q => Fin (inject_Z (Qfloor (q + (1 # 2))))
  | _ => a
  end.

(** The calls into the host these functions make, beside those of [Host]. *)
Class HostQueries (X : Type) : Type := {
  (* from('lbw_analyses').select('analysis_id, video_name, decision,
       confidence, analysis_timestamp, created_at')
       .order('created_at', { ascending: false }) *)
  analyses_select_history : X -> Reply jsvalue * X;
  (* from('lbw_analyses').select('decision, confidence') *)
  analyses_select_stats : X -> Reply jsvalue * X;
  (* from('lbw_analyses').select('*').order('created_at', { ascending: false })
       .limit(_) *)
  analyses_select_recent : number -> X -> Reply jsvalue * X;
  (* from('lbw_analyses').delete().eq('analysis_id', _) *)
  analyses_delete : jsstring -> X -> Reply jsvalue * X;
  (* from('analysis_settings').select('id').eq('user_id', _).maybeSingle() *)
  settings_select_id : jsvalue -> X -> Reply jsvalue * X;
  (* from('analysis_settings').update(_).eq('user_id', _) *)
  settings_update : AnalysisSettings -> jsvalue -> X -> Reply jsvalue * X;
  (* from('analysis_settings').insert({ ..._, user_id: _ }) *)
  settings_insert : AnalysisSettings -> jsvalue -> X -> Reply jsvalue * X;
  (* fetch(API_ENDPOINTS.history), .stats, .metrics *)
  fetch_history : X -> Reply Response * X;
  fetch_stats : X -> Reply Response * X;
  fetch_metrics : X -> Reply Response * X;
  (* fetch(API_ENDPOINTS.delete(_), { method: 'DELETE' }) *)
  fetch_delete : jsstring -> X -> Reply Response * X;
  (* fetch(`${API_ENDPOINTS.history}?limit=${_}`) *)
  fetch_recent : number -> X -> Reply Response * X;
  (* fetch(API_ENDPOINTS.health, { method: 'GET',
       signal: AbortSignal.timeout(5000) }) *)
  fetch_health : X -> Reply Response * X
}.

(** [v.map(f)] on a value: a TypeError unless the value is an array. *)
Definition array_map {S B} (v : jsvalue) (f : jsvalue -> Async S B)
  : Async S (list B) :=
  match v with
  | JArr items => for_of items f
  | _ => throw TypeError
  end.

(** A [VideoHistoryItem]; the fields a cast fills hold any value. *)
Record VideoHistoryItem : Type := {
  h_id : jsvalue;
  h_name : jsvalue;
  h_thumbnail : jsstring;
  h_decision : jsvalue;
  h_confidence : number;
  h_analyzedAt : Date
}.

Record DashboardStats : Type := {
  totalAnalyses : number;
  outDecisions : number;
  notOutDecisions : number;
  averageConfidence : number;
  accuracyRate : number
}.

(** [{ totalAnalyses: 0, outDecisions: 0, notOutDecisions: 0,
      averageConfidence: 0, accuracyRate: 0 }]. *)
Definition no_stats : DashboardStats :=
  {| totalAnalyses := int 0; outDecisions := int 0; notOutDecisions := int 0;
     averageConfidence := int 0; accuracyRate := int 0 |}.

Record AccuracyMetrics : Type := {
  overall : number;
  falsePositive : number;
  falseNegative : number
}.

Record MetricsData : Type := {
  stats : DashboardStats;
  decisionDistribution : jsvalue;
  confidenceDistribution : jsvalue;
  timelineData : jsvalue;
  accuracyMetrics : AccuracyMetrics
}.

Section SettingsWriter.
Context {P : Platform} {X : Type} {H : Host X} {Q : HostQueries X}.

(** [saveSettings(settings)]. *)
Definition saveSettings (settings : AnalysisSettings) : Async X unit :=
  response <- await auth_getUser ;;
  data <- prop response "data" ;;
  user <- prop data "user" ;;
  if negb (ToBoolean user) then throw (ErrorMessage (str "Not authenticated"))
  else
    response <- await (settings_select_id (get_opt user "id")) ;;
    existing <- prop response "data" ;;
    if ToBoolean existing then
      response <- await (settings_update settings (get_opt user "id")) ;;
      error <- prop response "error" ;;
      if ToBoolean error then throw (Escaped error) else pure tt
    else
      response <- await (settings_insert settings (get_opt user "id")) ;;
      error <- prop response "error" ;;
      if ToBoolean error then throw (Escaped error) else pure tt.

End SettingsWriter.

Section DbReaders.
Context {P : Platform} {X : Type} {H : Host X} {Q : HostQueries X}.

(** [getVideoHistoryFromDb()]. *)
Definition getVideoHistoryFromDb : Async X (list VideoHistoryItem) :=
  try_catch
    (response <- await analyses_select_history ;;
     data <- prop response "data" ;;
     error <- prop response "error" ;;
     if ToBoolean error then pure []
     else
       array_map (or_else data (JArr []))
         (fun row =>
            analysis_id <- prop row "analysis_id" ;;
            confidence <- convert (ToNumber (get_opt row "confidence")) ;;
            analyzedAt <-
              convert (new_Date (or_else (get_opt row "analysis_timestamp")
                                         (get_opt row "created_at"))) ;;
            pure {| h_id := analysis_id;
                    h_name := get_opt row "video_name";
                    h_thumbnail := str "/placeholder.svg";
                    h_decision := get_opt row "decision";
                    h_confidence := confidence;
                    h_analyzedAt := analyzedAt |}))
    (fun err => pure []).

(** The number of rows whose decision is ['OUT']. *)
Definition count_out (decisions : list jsvalue) : nat :=
  List.length (filter (fun d => is_string d "OUT") decisions).

(** [getDashboardStatsFromDb()].  A [data] that is neither falsy nor an
    array has no [filter]. *)
Definition getDashboardStatsFromDb : Async X DashboardStats :=
  try_catch
    (response <- await analyses_select_stats ;;
     data <- prop response "data" ;;
     error <- prop response "error" ;;
     if ToBoolean error then pure no_stats
     else
       match or_else data (JArr []) with
       | JArr analyses =>
           let total := int (Z.of_nat (List.length analyses)) in
           match analyses with
           | [] => pure no_stats
           | _ =>
               decisions <- for_of analyses (fun a => prop a "decision") ;;
               let outCount := int (Z.of_nat (count_out decisions)) in
               confidences <-
                 for_of analyses
                   (fun a =>
                      confidence <- prop a "confidence" ;;
                      convert (ToNumber confidence)) ;;
               let avgConfidence :=
                 fdiv (fold_left fadd confidences (int 0)) total in
               pure {| totalAnalyses := total;
                       outDecisions := outCount;
                       notOutDecisions := fsub total outCount;
                       averageConfidence :=
                         fdiv (Math_round (fmul avgConfidence (int 10))) (int 10);
                       accuracyRate := dec 87.5 |}
           end
       | _ => throw TypeError
       end)
    (fun err => pure no_stats).

(** [getRecentAnalysesFromDb(limit)]. *)
Definition getRecentAnalysesFromDb (limit : number) : Async X (list DbResult) :=
  try_catch
    (response <- await (analyses_select_recent limit) ;;
     data <- prop response "data" ;;
     error <- prop response "error" ;;
     if ToBoolean error then pure []
     else
       array_map (or_else data (JArr []))
         (fun row =>
            if nullish row then throw TypeError
            else convert (fromDbFormat row)))
    (fun err => pure []).

(** [deleteAnalysisFromDb(analysisId)]. *)
Definition deleteAnalysisFromDb (analysisId : jsstring) : Async X bool :=
  try_catch
    (response <- await (analyses_delete analysisId) ;;
     error <- prop response "error" ;;
     if ToBoolean error then pure false else pure true)
    (fun err => pure false).

End DbReaders.

(** [storedAnalyses.findIndex(a => a.id === id)]; [None] is [-1]. *)
Fixpoint findIndex (key : jsstring) (l : list AnalysisResult) : option nat :=
  match l with
  | [] => None
  | a :: rest =>
      if streq (id a) key then Some O
      else option_map S (findIndex key rest)
  end.

(** What [l.splice(index, 1)] leaves in [l]. *)
Fixpoint splice_one {A} (index : nat) (l : list A) : list A :=
  match l, index with
  | [], _ => []
  | _ :: rest, O => rest
  | a :: rest, S index' => a :: splice_one index' rest
  end.

Definition splice {X} (index : nat) : Async (World X) unit :=
  fun w =>
    (Returns tt, {| host := host w;
                    storedAnalyses := splice_one index (storedAnalyses w);
                    called := called w |}).

(** [l.slice(0, limit)]. *)
Definition slice_to {A} (l : list A) (limit : number) : list A :=
  let len := Z.of_nat (List.length l) in
  let final :=
    match limit with
    | NaN => 0
    | Inf true => 0
    | Inf false => len
    | Fin q =>
        let relativeEnd := trunc q in
        if relativeEnd <? 0 then Z.max (len + relativeEnd) 0
        else Z.min relativeEnd len
    end in
  firstn (Z.to_nat final) l.

(** The literals of the mock metrics. *)
Definition mock_confidenceDistribution : jsvalue :=
  JArr (map (fun '(range, count) =>
               JObj [ (str "range", JStr (str range));
                      (str "count", JNum (int count)) ])
            [ ("60-70%", 2); ("70-80%", 4); ("80-90%", 6); ("90-100%", 3) ]%string).

Definition mock_timelineData : jsvalue :=
  JArr (map (fun '(date, analyses, out, notOut) =>
               JObj [ (str "date", JStr (str date));
                      (str "analyses", JNum (int analyses));
                      (str "out", JNum (int out));
                      (str "notOut", JNum (int notOut)) ])
            [ ("Mon", 3, 2, 1); ("Tue", 5, 2, 3); ("Wed", 2, 1, 1);
              ("Thu", 4, 3, 1); ("Fri", 6, 2, 4); ("Sat", 8, 4, 4);
              ("Sun", 5, 3, 2) ]%string).

Definition no_accuracy : AccuracyMetrics :=
  {| overall := int 0; falsePositive := int 0; falseNegative := int 0 |}.

Section Readers.
Context {P : Platform} {X : Type} {H : Host X} {Q : HostQueries X}.

Variable USE_MOCK_API : bool.

(** [Number(a || b || 0)]; [None] when [Number] throws. *)
Definition number_of (a b : jsvalue) : option number :=
  ToNumber (or_else (or_else a b) (JNum (int 0))).

(** [getVideoHistory()].  The first [try] either returns the store's
    history or falls through. *)
Definition getVideoHistory : Async (World X) (list VideoHistoryItem) :=
  fromDb <-
    try_catch
      (authenticated <- outside isUserAuthenticated ;;
       if authenticated then
         dbHistory <- outside getVideoHistoryFromDb ;;
         match dbHistory with
         | [] => pure None
         | _ => pure (Some dbHistory)
         end
       else pure None)
      (fun err => pure None) ;;
  match fromDb with
  | Some dbHistory => pure dbHistory
  | None =>
      if negb USE_MOCK_API then
        try_catch
          (response <- outside (await fetch_history) ;;
           if negb (ok response)
           then throw (ErrorMessage (str "Failed to fetch history"))
           else
             data <- settled (json response) ;;
             array_map data
               (fun item =>
                  item_id <- prop item "id" ;;
                  id <- convert (ToString item_id) ;;
                  name <-
                    convert (ToString (or_else (get_opt item "name")
                                               (get_opt item "video_name"))) ;;
                  thumbnail <-
                    convert
                      (ToString
                         (or_else (or_else (get_opt item "thumbnail")
                                           (get_opt item "video_thumbnail"))
                                  (JStr (str "/placeholder.svg")))) ;;
                  confidence <- convert (ToNumber (get_opt item "confidence")) ;;
                  analyzedAt <-
                    convert
                      (ToString
                         (or_else (or_else (get_opt item "analyzed_at")
                                           (get_opt item "analyzedAt"))
                                  (get_opt item "created_at"))) ;;
                  pure {| h_id := JStr id;
                          h_name := JStr name;
                          h_thumbnail := thumbnail;
                          h_decision := get_opt item "decision";
                          h_confidence := confidence;
                          h_analyzedAt := Date_parse analyzedAt |}))
          (fun err => pure [])
      else
        wait (int 300) ;;;
        analyses <- stored ;;
        pure (map (fun analysis =>
                     {| h_id := JStr (id analysis);
                        h_name := JStr (videoName analysis);
                        h_thumbnail := videoThumbnail analysis;
                        h_decision := JStr (decision_name (decision analysis));
                        h_confidence := confidence analysis;
                        h_analyzedAt := createdAt analysis |})
                  analyses)
  end.

(** The number of stored reports whose decision is OUT. *)
Definition stored_out (analyses : list AnalysisResult) : nat :=
  List.length (filter (fun a => Decision_eqb (decision a) OUT) analyses).

(** [getDashboardStats()]. *)
Definition getDashboardStats : Async (World X) DashboardStats :=
  fromDb <-
    try_catch
      (authenticated <- outside isUserAuthenticated ;;
       if authenticated then
         dbStats <- outside getDashboardStatsFromDb ;;
         if fgt (totalAnalyses dbStats) (int 0) then pure (Some dbStats)
         else pure None
       else pure None)
      (fun err => pure None) ;;
  match fromDb with
  | Some dbStats => pure dbStats
  | None =>
      if negb USE_MOCK_API then
        try_catch
          (response <- outside (await fetch_stats) ;;
           if negb (ok response)
           then throw (ErrorMessage (str "Failed to fetch stats"))
           else
             data <- settled (json response) ;;
             total_analyses <- prop data "total_analyses" ;;
             totalAnalyses <-
               convert (number_of total_analyses
                                  (get_opt data "totalAnalyses")) ;;
             outDecisions <-
               convert (number_of (get_opt data "out_decisions")
                                  (get_opt data "outDecisions")) ;;
             notOutDecisions <-
               convert (number_of (get_opt data "not_out_decisions")
                                  (get_opt data "notOutDecisions")) ;;
             averageConfidence <-
               convert (number_of (get_opt data "average_confidence")
                                  (get_opt data "averageConfidence")) ;;
             accuracyRate <-
               convert (number_of (get_opt data "accuracy_rate")
                                  (get_opt data "accuracyRate")) ;;
             pure {| totalAnalyses := totalAnalyses;
                     outDecisions := outDecisions;
                     notOutDecisions := notOutDecisions;
                     averageConfidence := averageConfidence;
                     accuracyRate := accuracyRate |})
          (fun err => pure no_stats)
      else
        wait (int 200) ;;;
        analyses <- stored ;;
        match analyses with
        | [] => pure no_stats
        | _ =>
            let total := int (Z.of_nat (List.length analyses)) in
            let outCount := int (Z.of_nat (stored_out analyses)) in
            let avgConfidence :=
              fdiv (fold_left (fun sum a => fadd sum (confidence a))
                              analyses (int 0))
                   total in
            pure {| totalAnalyses := total;
                    outDecisions := outCount;
                    notOutDecisions := fsub total outCount;
                    averageConfidence :=
                      fdiv (Math_round (fmul avgConfidence (int 10))) (int 10);
                    accuracyRate := dec 87.5 |}
        end
  end.

(** The object [getMetricsData] builds from the backend's payload, [None]
    when one of its [Number] calls throws.  Both rates of [accuracyMetrics]
    are looked up in [data.accuracy_metrics] under either spelling of their
    key. *)
Definition metrics_of (data data_stats : jsvalue) : option MetricsData :=
  let accuracy_metrics := get_opt data "accuracy_metrics" in
  let! totalAnalyses :=
    number_of (get_opt data_stats "total_analyses")
              (get_opt data_stats "totalAnalyses") in
  let! outDecisions :=
    number_of (get_opt data_stats "out_decisions")
              (get_opt data_stats "outDecisions") in
  let! notOutDecisions :=
    number_of (get_opt data_stats "not_out_decisions")
              (get_opt data_stats "notOutDecisions") in
  let! averageConfidence :=
    number_of (get_opt data_stats "average_confidence")
              (get_opt data_stats "averageConfidence") in
  let! accuracyRate :=
    number_of (get_opt data_stats "accuracy_rate")
              (get_opt data_stats "accuracyRate") in
  let! overall :=
    number_of (get_opt accuracy_metrics "overall")
              (get_opt (get_opt data "accuracyMetrics") "overall") in
  let! falsePositive :=
    number_of (get_opt accuracy_metrics "false_positive")
              (get_opt accuracy_metrics "falsePositive") in
  let! falseNegative :=
    number_of (get_opt accuracy_metrics "false_negative")
              (get_opt accuracy_metrics "falseNegative") in
  Some {| stats :=
            {| totalAnalyses := totalAnalyses;
               outDecisions := outDecisions;
               notOutDecisions := notOutDecisions;
               averageConfidence := averageConfidence;
               accuracyRate := accuracyRate |};
          decisionDistribution :=
            or_else (or_else (get_opt data "decision_distribution")
                             (get_opt data "decisionDistribution"))
                    (JArr []);
          confidenceDistribution :=
            or_else (or_else (get_opt data "confidence_distribution")
                             (get_opt data "confidenceDistribution"))
                    (JArr []);
          timelineData :=
            or_else (or_else (get_opt data "timeline_data")
                             (get_opt data "timelineData"))
                    (JArr []);
          accuracyMetrics :=
            {| overall := overall;
               falsePositive := falsePositive;
               falseNegative := falseNegative |} |}.

(** What the [catch] of [getMetricsData] answers with. *)
Definition metrics_fallback (stats : DashboardStats) : MetricsData :=
  {| stats := stats; decisionDistribution := JArr [];
     confidenceDistribution := JArr []; timelineData := JArr [];
     accuracyMetrics := no_accuracy |}.

(** [getMetricsData()]. *)
Definition getMetricsData : Async (World X) MetricsData :=
  if negb USE_MOCK_API then
    try_catch
      (response <- outside (await fetch_metrics) ;;
       if negb (ok response)
       then throw (ErrorMessage (str "Failed to fetch metrics"))
       else
         data <- settled (json response) ;;
         data_stats <- prop data "stats" ;;
         convert (metrics_of data data_stats))
      (fun err =>
         stats <- getDashboardStats ;;
         pure (metrics_fallback stats))
  else
    wait (int 400) ;;;
    stats <- getDashboardStats ;;
    pure {| stats := stats;
            decisionDistribution :=
              JArr [ JObj [ (str "name", JStr (str "OUT"));
                            (str "value", JNum (outDecisions stats));
                            (str "fill", JStr (str "hsl(var(--destructive))")) ];
                     JObj [ (str "name", JStr (str "NOT OUT"));
                            (str "value", JNum (notOutDecisions stats));
                            (str "fill", JStr (str "hsl(var(--success))")) ] ];
            confidenceDistribution := mock_confidenceDistribution;
            timelineData := mock_timelineData;
            accuracyMetrics :=
              {| overall := dec 87.5; falsePositive := dec 6.2;
                 falseNegative := dec 6.3 |} |}.

(** [deleteAnalysis(id)]. *)
Definition deleteAnalysis (key : jsstring) : Async (World X) bool :=
  try_catch
    (authenticated <- outside isUserAuthenticated ;;
     if authenticated
     then outside (deleteAnalysisFromDb key) ;;; pure tt
     else pure tt)
    (fun err => pure tt) ;;;
  if negb USE_MOCK_API then
    try_catch
      (response <- outside (await (fetch_delete key)) ;;
       pure (ok response))
      (fun err => pure false)
  else
    wait (int 200) ;;;
    analyses <- stored ;;
    match findIndex key analyses with
    | Some index => splice index ;;; pure true
    | None => pure true
    end.

(** What [getRecentAnalyses] makes of a record of the store; [None] when
    the template literal of [videoId] throws. *)
Definition recent_of (partial : DbResult) : option MergedResult :=
  let! printed := ToString (db_id partial) in
  Some
  {| m_id := db_id partial;
     m_videoId := str "video-" ++ printed;
     m_videoName := db_videoName partial;
     m_videoThumbnail := str "/placeholder.svg";
     m_decision := db_decision partial;
     m_confidence := db_confidence partial;
     m_criteria :=
       {| pitchedInLine := true; impactInLine := true; legBeforeBat := true;
          wouldHitWickets := is_string (db_decision partial) "OUT" |};
     m_steps := completedSteps;
     m_trajectory := or_else (db_trajectory partial) (JArr []);
     m_impactPoint :=
       or_else (db_impactPoint partial)
               (JObj [ (str "x", JNum (int 230)); (str "y", JNum (int 50)) ]);
     m_bouncePoint := {| pos_x := int 130; pos_y := int 50 |};
     m_predictedWicketHit := db_predictedWicketHit partial;
     m_createdAt := db_createdAt partial;
     m_isUmpiresCall := db_isUmpiresCall partial;
     m_keyFrames := db_keyFrames partial;
     m_ballMetrics := None; m_pitchAnalysis := None;
     m_impactAnalysis := None; m_wicketPrediction := None |}.

(** [getRecentAnalyses(limit)]. *)
Definition getRecentAnalyses (limit : number) : Async (World X) (list Report) :=
  fromDb <-
    try_catch
      (authenticated <- outside isUserAuthenticated ;;
       if authenticated then
         dbRecent <- outside (getRecentAnalysesFromDb limit) ;;
         match dbRecent with
         | [] => pure None
         | _ =>
             recent <-
               for_of dbRecent (fun partial => convert (recent_of partial)) ;;
             pure (Some (map Merged recent))
         end
       else pure None)
      (fun err => pure None) ;;
  match fromDb with
  | Some recent => pure recent
  | None =>
      if negb USE_MOCK_API then
        try_catch
          (response <- outside (await (fetch_recent limit)) ;;
           if negb (ok response)
           then throw (ErrorMessage (str "Failed to fetch recent analyses"))
           else
             data <- settled (json response) ;;
             t <- now ;;
             array_map data
               (fun item =>
                  match parseAnalysisResult item t with
                  | Some parsed => pure (Parsed parsed)
                  | None => throw TypeError
                  end))
          (fun err => pure [])
      else
        wait (int 200) ;;;
        analyses <- stored ;;
        pure (map Synthesized (slice_to analyses limit))
  end.

(** [checkBackendHealth()]. *)
Definition checkBackendHealth : Async (World X) bool :=
  if USE_MOCK_API then pure true
  else
    try_catch
      (response <- outside (await fetch_health) ;;
       pure (ok response))
      (fun err => pure false).

End Readers.

(** ** The upload page's error classifier ([parseError]) *)

Record AnalysisError : Type := {
  title : jsstring;
  message : jsstring;
  details : option jsstring;
  isConnectionError : bool
}.

Fixpoint drop_whitespace (s : jsstring) : jsstring :=
  match s with
  | [] => []
  | c :: rest => if is_whitespace c then drop_whitespace rest else s
  end.

(** [s.trim()]. *)
Definition trim (s : jsstring) : jsstring :=
  rev (drop_whitespace (rev (drop_whitespace s))).

(** [s.replace(pattern, '')] for a string pattern: the first occurrence
    goes. *)
Fixpoint remove_first_occurrence (s pattern : jsstring) : jsstring :=
  if startsWith s pattern then skipn (List.length pattern) s
  else match s with
       | [] => []
       | c :: rest => c :: remove_first_occurrence rest pattern
       end.

(** [parseError(error)], from the message its first line obtains:
    [error.message] of an [Error], [String(error)] of anything else. *)
Definition parseError (errorMessage : jsstring) : AnalysisError :=
  if includes errorMessage (str "Failed to fetch")
     || includes errorMessage (str "NetworkError") then
    {| title := str "Backend Connection Failed";
       message := str "Unable to connect to the analysis server. Make sure the Flask backend is running.";
       details := Some (str "Start the backend with: cd backend && python app.py");
       isConnectionError := true |}
  else if includes errorMessage (str "timeout")
          || includes errorMessage (str "AbortError") then
    {| title := str "Request Timeout";
       message := str "The analysis request took too long. The video might be too large or the server is overloaded.";
       details := Some (str "Try with a smaller video file or wait a moment before retrying.");
       isConnectionError := false |}
  else if includes errorMessage (str "500")
          || includes errorMessage (str "Internal Server Error") then
    {| title := str "Server Error";
       message := str "The analysis server encountered an internal error while processing your video.";
       details := Some errorMessage;
       isConnectionError := false |}
  else if includes errorMessage (str "Analysis failed:") then
    {| title := str "Analysis Failed";
       message := trim (remove_first_occurrence errorMessage
                                                (str "Analysis failed:"));
       details := None;
       isConnectionError := false |}
  else if includes errorMessage (str "format")
          || includes errorMessage (str "codec")
          || includes errorMessage (str "unsupported") then
    {| title := str "Unsupported Video Format";
       message := str "The video format is not supported. Please use MP4, AVI, MOV, or WebM.";
       details := Some errorMessage;
       isConnectionError := false |}
  else
    {| title := str "Analysis Error";
       message :=
         match errorMessage with
         | [] => str "An unexpected error occurred during analysis."
         | _ => errorMessage
         end;
       details := None;
       isConnectionError := false |}.

(** ** Predicates of the statements of Part III *)

(** Code that leaves [storedAnalyses] as it is, however it ends. *)
Definition keeps_log {X A} (m : Async (World X) A) : Prop :=
  forall w o w', m w = (o, w') -> storedAnalyses w' = storedAnalyses w.

(** Code that returns: it neither throws nor waits forever. *)
Definition returns {S A} (m : Async S A) : Prop :=
  forall s, exists a s', m s = (Returns a, s').


(** A generator that has been called before: its state is an integer in
    [0, 2^31). *)
Definition running (rng : SeededRandom) : Prop :=
  exists s, 0 <= s < 2 ^ 31 /\ rng = {| seed := Fin (inject_Z s) |}.

(** A finite number between 0 and 1 - 2^-32. *)
Definition below_one (v : number) : Prop :=
  exists q, v = Fin q /\ (0 <= q <= 4294967295 # 4294967296)%Q.

(** A finite number in the closed interval [lo, hi]. *)
Definition within (lo hi : Q) (v : number) : Prop :=
  exists q, v = Fin q /\ (lo <= q <= hi)%Q.

(** Started on a generator that satisfies [pre], [m] returns a value that
    satisfies [post] and leaves a generator that has been called before. *)
Definition yields {A} (pre : SeededRandom -> Prop) (m : Rand A)
  (post : A -> Prop) : Prop :=
  forall rng, pre rng -> post (fst (m rng)) /\ running (snd (m rng)).

(** No condition on the generator. *)
Definition any_state (rng : SeededRandom) : Prop := True.

(** [post] of what a fallible step returned, when it did not throw. *)
Definition if_returned {A} (post : A -> Prop) (o : option A) : Prop :=
  match o with
  | Some a => post a
  | None => True
  end.

(** What the mock generators return on a generator that has been called
    before: [generateBallMetrics], [generatePitchAnalysis],
    [generateImpactAnalysis], [generateWicketPrediction] and
    [generateMockKeyFrames]. *)
Definition metrics_fit (bm : BallMetrics) : Prop :=
  exists b, ballType bm = Some b
    /\ match spinRate bm with
       | Some s => (b = offspin \/ b = legspin) /\ within 1500 3000 s
                   /\ within 60 100 (speed bm)
       | None => b <> offspin /\ b <> legspin /\ within 100 155 (speed bm)
       end
    /\ within 2 10 (swingDeviation bm) /\ within 5 20 (angleOfEntry bm).

Definition pitch_fits (pitchedInLine : bool) (pa : PitchAnalysis) : Prop :=
  (pa_zone pa = outside_leg <-> pitchedInLine = false)
  /\ (if Zone_eqb (pa_zone pa) outside_leg
      then within 5 35 (pa_distanceFromLegStump pa)
      else within (-50) (-10) (pa_distanceFromLegStump pa))
  /\ (if Zone_eqb (pa_zone pa) outside_off
      then within 5 25 (pa_distanceFromOffStump pa)
      else within (-65) (-15) (pa_distanceFromOffStump pa)).

Definition impact_fits (impactInLine : bool) (ia : ImpactAnalysis) : Prop :=
  (ia_zone ia = inline <-> impactInLine = true)
  /\ within 15 65 (height ia)
  /\ (if Zone_eqb (ia_zone ia) outside_leg
      then within 5 25 (ia_distanceFromLegStump ia)
      else within (-35) (-5) (ia_distanceFromLegStump ia))
  /\ (if Zone_eqb (ia_zone ia) outside_off
      then within 5 20 (ia_distanceFromOffStump ia)
      else within (-60) (-20) (ia_distanceFromOffStump ia))
  /\ (ia_zone ia <> inline -> ia_umpiresCall ia = CLEAR).

Definition prediction_fits (wouldHit0 : bool) (wp : WicketPrediction) : Prop :=
  wouldHit wp = wouldHit0
  /\ (if wouldHit0
      then In (stumpHit wp) [Some leg; Some middle; Some off]
           /\ within 25 100 (hitPercentage wp)
      else In (stumpHit wp) [Some missing_leg; Some missing_off; Some over]
           /\ within 0 25 (hitPercentage wp)
           /\ flt (hitPercentage wp) (int 25) = true
           /\ wp_umpiresCall wp = CLEAR)
  /\ within 1 4 (marginOfError wp).

Definition frames_fit (kfs : list KeyFrame) : Prop :=
  map kf_type kfs = [release; bounce; impact; wicket]
  /\ exists k1 k2 k3 k4,
       map frameNumber kfs = [int k1; int k2; int k3; int k4]
       /\ 5 <= k1 <= 14 /\ 25 <= k2 <= 39 /\ 45 <= k3 <= 64 /\ 60 <= k4 <= 84.

(** What [generateAnalysisResult] returns, whatever the seed. *)
Definition report_fits (r : AnalysisResult) : Prop :=
  exists bm pa ia wp kfs,
    ballMetrics r = Some bm /\ pitchAnalysis r = Some pa
    /\ impactAnalysis r = Some ia /\ wicketPrediction r = Some wp
    /\ keyFrames r = Some kfs
    /\ metrics_fit bm
    /\ pitch_fits (pitchedInLine (criteria r)) pa
    /\ impact_fits (impactInLine (criteria r)) ia
    /\ prediction_fits (wouldHitWickets (criteria r)) wp
    /\ frames_fit kfs
    /\ isUmpiresCall r
       = Some (UmpiresCall_eqb (ia_umpiresCall ia) UMPIRES_CALL
               || UmpiresCall_eqb (wp_umpiresCall wp) UMPIRES_CALL)
    /\ within 230 250 (pos_x (impactPoint r))
    /\ within 130 170 (pos_x (bouncePoint r))
    /\ match predictedWicketHit r with
       | Some p => wouldHitWickets (criteria r) = true
                   /\ pos_x p = int 300 /\ within 48 52 (pos_y p)
       | None => wouldHitWickets (criteria r) = false
       end.

(** [Math.max(1, Math.floor(n / 1000))] on integers: the step of the
    sampling loop of [generateFileHash] in a chunk of [n] bytes. *)
Definition sampleRate_of (n : Z) : Z := Z.max 1 (n / 1000).

(** Two reads that fail alike, or that yield chunks of one length, no longer
    than the 1 MB asked for, which agree at every index the sampling loop
    visits: 0, sampleRate, 2 * sampleRate, ... *)
Definition same_samples (a b : option (list Z)) : bool :=
  match a, b with
  | None, None => true
  | Some x, Some y =>
      (List.length x =? List.length y)%nat
      && (Z.of_nat (List.length x) <=? 1024 * 1024)
      && forallb (fun i =>
                    negb (i mod sampleRate_of (Z.of_nat (List.length x)) =? 0)
                    || (nth (Z.to_nat i) x 0 =? nth (Z.to_nat i) y 0))
                 (indices 0 (List.length x))
  | _, _ => false
  end.

(** What a callback call tells the caller: the id and the status of a step,
    or a progress value. *)
Inductive Announcement : Type :=
| Step (step_id status : jsvalue)
| Progress (progress : number).

Definition announcement (c : Callback) : Announcement :=
  match c with
  | onStepUpdate step => Step (get_opt step "id") (get_opt step "status")
  | onFileReadProgress p => Progress p
  end.

(** Code that returns after callback calls that tell [l], in this order. *)
Definition announces {X A} (m : Async (World X) A) (l : list Announcement)
  : Prop :=
  forall w, exists a w' cs,
    m w = (Returns a, w') /\ called w' = called w ++ cs
    /\ map announcement cs = l.

(** Code that ends, returning or throwing, after callback calls that tell
    [l], in this order. *)
Definition tells {X A} (m : Async (World X) A) (l : list Announcement)
  : Prop :=
  forall w, exists o w' cs,
    m w = (o, w') /\ o <> Never /\ called w' = called w ++ cs
    /\ map announcement cs = l.

(** ** The decision's explanation ([getDecisionExplanation] of
    [DecisionDisplay], which is given a report's decision and criteria) *)

Definition failedCriteria (criteria : LBWCriteria) : list jsstring :=
  (if negb (pitchedInLine criteria)
   then [str "the ball pitched outside leg stump"] else [])
  ++ (if negb (impactInLine criteria)
      then [str "the impact was outside the line of off stump"] else [])
  ++ (if negb (legBeforeBat criteria)
      then [str "the ball hit the bat before the pad"] else [])
  ++ (if negb (wouldHitWickets criteria)
      then [str "the ball was missing the stumps"] else []).

Definition getDecisionExplanation (decision : Decision)
  (criteria : LBWCriteria) : jsstring :=
  if Decision_eqb decision OUT then
    str "The batsman is OUT because all four LBW criteria are satisfied: the ball pitched in line, struck the pad in line with the stumps, the leg was before the bat, and the ball was going on to hit the wickets."
  else
    str "The batsman is NOT OUT because "
    ++ join (str ", ") (failedCriteria criteria) ++ str ".".
(** ** More sample data

    A host whose user is signed out, a host whose sign-in check raises, a
    host whose backend streams an event stream that never closes a frame, a
    host whose settings row names a ball the table inherits rather than
    holds, and answers for the remaining queries. *)

Definition sample_guest : jsvalue :=
  JObj [ (str "data", JObj [ (str "user", JNull) ]); (str "error", JNull) ].

Definition guest_host : Host unit :=
  {| auth_getUser := fun x => (Replies sample_guest, x);
     settings_select := fun _ x => (Raises outage, x);
     analyses_select_id := fun _ _ x => (Raises outage, x);
     analyses_update := fun _ _ x => (Raises outage, x);
     analyses_insert := fun _ x => (Raises outage, x);
     analyses_select := fun _ x => (Raises outage, x);
     fetch_analyze := fun _ _ x => (Replies sample_response, x);
     fetch_result := fun _ x => (Replies sample_response, x);
     Date_now := fun _ => 1704067200000;
     Math_random := fun x => (dec 0.5, x);
     delay := fun _ x => x |}.

Definition offline_host : Host unit :=
  {| auth_getUser := fun x => (Raises outage, x);
     settings_select := fun _ x => (Raises outage, x);
     analyses_select_id := fun _ _ x => (Raises outage, x);
     analyses_update := fun _ _ x => (Raises outage, x);
     analyses_insert := fun _ x => (Raises outage, x);
     analyses_select := fun _ x => (Raises outage, x);
     fetch_analyze := fun _ _ x => (Raises outage, x);
     fetch_result := fun _ x => (Raises outage, x);
     Date_now := fun _ => 1704067200000;
     Math_random := fun x => (dec 0.5, x);
     delay := fun _ x => x |}.

(** [data: {...}] followed by a single line feed: the frame is not closed. *)
Definition open_stream : Response :=
  {| ok := true; text := Replies []; json := Raises SyntaxError;
     content_type := Some (str "text/event-stream; charset=utf-8");
     body := Some [ str "data: {"; str "}"; [10] ] |}.

Definition streaming_host : Host unit :=
  {| auth_getUser := fun x => (Replies sample_guest, x);
     settings_select := fun _ x => (Raises outage, x);
     analyses_select_id := fun _ _ x => (Raises outage, x);
     analyses_update := fun _ _ x => (Raises outage, x);
     analyses_insert := fun _ x => (Raises outage, x);
     analyses_select := fun _ x => (Raises outage, x);
     fetch_analyze := fun _ _ x => (Replies open_stream, x);
     fetch_result := fun _ x => (Raises outage, x);
     Date_now := fun _ => 1704067200000;
     Math_random := fun x => (dec 0.5, x);
     delay := fun _ x => x |}.

Definition rejection : Response :=
  {| ok := false; text := Replies (str " no ball found in the clip ");
     json := Raises SyntaxError; content_type := None; body := None |}.

Definition rejecting_host : Host unit :=
  {| auth_getUser := fun x => (Replies sample_guest, x);
     settings_select := fun _ x => (Raises outage, x);
     analyses_select_id := fun _ _ x => (Raises outage, x);
     analyses_update := fun _ _ x => (Raises outage, x);
     analyses_insert := fun _ x => (Raises outage, x);
     analyses_select := fun _ x => (Raises outage, x);
     fetch_analyze := fun _ _ x => (Replies rejection, x);
     fetch_result := fun _ x => (Raises outage, x);
     Date_now := fun _ => 1704067200000;
     Math_random := fun x => (dec 0.5, x);
     delay := fun _ x => x |}.

(** A settings row whose ball type is the string ['constructor']. *)
Definition misconfigured_row : jsvalue :=
  JObj [ (str "pitch_length", JNum (int 22));
         (str "pitch_width", JNum (int 10));
         (str "crease_distance", JNum (int 4));
         (str "pitch_surface", JStr (str "concrete"));
         (str "ball_type", JStr (str "constructor"));
         (str "stump_height", JNum (int 28));
         (str "stump_width", JNum (int 9));
         (str "confidence_threshold", JNum (int 50));
         (str "camera_angle", JStr (str "side"));
         (str "camera_distance", JStr (str "medium")) ].

Definition misconfigured_host : Host unit :=
  {| auth_getUser := fun x => (Replies sample_user, x);
     settings_select :=
       fun _ x => (Replies (JObj [ (str "data", misconfigured_row);
                                   (str "error", JNull) ]), x);
     analyses_select_id := fun _ _ x => (Raises outage, x);
     analyses_update := fun _ _ x => (Raises outage, x);
     analyses_insert := fun _ x => (Raises outage, x);
     analyses_select := fun _ x => (Raises outage, x);
     fetch_analyze := fun _ _ x => (Replies sample_response, x);
     fetch_result := fun _ x => (Replies sample_response, x);
     Date_now := fun _ => 1704067200000;
     Math_random := fun x => (dec 0.5, x);
     delay := fun _ x => x |}.

Definition sample_metrics : jsvalue :=
  JObj [ (str "stats", JObj [ (str "totalAnalyses", JNum (int 8)) ]);
         (str "accuracyMetrics",
          JObj [ (str "overall", JNum (int 90));
                 (str "falsePositive", JNum (int 4));
                 (str "falseNegative", JNum (int 6)) ]) ].

Definition sample_queries : HostQueries unit :=
  {| analyses_select_history := fun x => (Raises outage, x);
     analyses_select_stats := fun x => (Raises outage, x);
     analyses_select_recent := fun _ x => (Raises outage, x);
     analyses_delete := fun _ x => (Raises outage, x);
     settings_select_id := fun _ x => (Raises outage, x);
     settings_update := fun _ _ x => (Raises outage, x);
     settings_insert := fun _ _ x => (Raises outage, x);
     fetch_history := fun x => (Raises outage, x);
     fetch_stats := fun x => (Raises outage, x);
     fetch_metrics :=
       fun x => (Replies {| ok := true; text := Replies [];
                            json := Replies sample_metrics;
                            content_type := Some (str "application/json");
                            body := None |}, x);
     fetch_delete := fun _ x => (Raises outage, x);
     fetch_recent := fun _ x => (Raises outage, x);
     fetch_health := fun x => (Raises outage, x) |}.

(** A payload whose camel-case accuracy metrics say 90, and whose total has
    a [toString] entry that is not a function. *)
Definition unconvertible_metrics : jsvalue :=
  JObj [ (str "stats",
          JObj [ (str "total_analyses",
                  JObj [ (str "toString", JNum (int 1)) ]) ]);
         (str "accuracyMetrics", JObj [ (str "overall", JNum (int 90)) ]) ].

Definition unconvertible_queries : HostQueries unit :=
  {| analyses_select_history := fun x => (Raises outage, x);
     analyses_select_stats := fun x => (Raises outage, x);
     analyses_select_recent := fun _ x => (Raises outage, x);
     analyses_delete := fun _ x => (Raises outage, x);
     settings_select_id := fun _ x => (Raises outage, x);
     settings_update := fun _ _ x => (Raises outage, x);
     settings_insert := fun _ _ x => (Raises outage, x);
     fetch_history := fun x => (Raises outage, x);
     fetch_stats := fun x => (Raises outage, x);
     fetch_metrics :=
       fun x => (Replies {| ok := true; text := Replies [];
                            json := Replies unconvertible_metrics;
                            content_type := Some (str "application/json");
                            body := None |}, x);
     fetch_delete := fun _ x => (Raises outage, x);
     fetch_recent := fun _ x => (Raises outage, x);
     fetch_health := fun x => (Raises outage, x) |}.

Definition guest_world : World unit :=
  {| host := tt; storedAnalyses := [stale_entry]; called := [] |}.


(** A file no larger than one chunk: reading all of it yields its bytes, and
    any other read is rejected. *)
Definition whole_file (name : string) (bytes : list Z) : File :=
  {| file_name := str name;
     file_size := Z.of_nat (List.length bytes);
     lastModified := 0;
     read_slice := fun s e =>
       if feq s (int 0) && feq e (int (Z.of_nat (List.length bytes)))
       then Some bytes else None |}.

(** Two clips of 2000 bytes that differ in their second byte only. *)
Definition first_clip : File :=
  whole_file "first.mp4" (map (fun k => k mod 256) (indices 0 2000)).

Definition second_clip : File :=
  whole_file "second.mp4"
    (map (fun k => if k =? 1 then 255 else k mod 256) (indices 0 2000)).
(* ================================================================== *)
(** * Part II — lemmas and theorems *)
(* ================================================================== *)
(** ** Powers of two and the binary exponent *)

Lemma pow2_pos k : (0 < pow2 k)%Q.
Proof. unfold pow2. apply Qpower_0_lt. reflexivity. Qed.

Lemma pow2_add a b : (pow2 (a + b) == pow2 a * pow2 b)%Q.
Proof. unfold pow2. apply Qpower_plus. discriminate. Qed.

Lemma pow2_Z k : 0 <= k -> (pow2 k == inject_Z (2 ^ k))%Q.
Proof. intros H. unfold pow2. rewrite Zpower_Qpower by assumption. reflexivity. Qed.

Lemma pow2_le a b : a <= b -> (pow2 a <= pow2 b)%Q.
Proof. intros H. unfold pow2. apply Qpower_le_compat_l; [assumption | discriminate]. Qed.

Lemma pow2_lt a b : a < b -> (pow2 a < pow2 b)%Q.
Proof.
  intros H. replace b with (a + (b - a)) by lia. rewrite pow2_add.
  assert (H1 : (pow2 1 <= pow2 (b - a))%Q) by (apply pow2_le; lia).
  change (pow2 1) with (2%Q) in H1.
  pose proof (pow2_pos a). nra.
Qed.

Lemma pow2_lt_inv a b : (pow2 a < pow2 b)%Q -> a < b.
Proof.
  intros H. destruct (Z_lt_le_dec a b) as [|Hle]; [assumption|].
  apply pow2_le in Hle. lra.
Qed.

Lemma pow2_succ a : (pow2 (a + 1) == 2 * pow2 a)%Q.
Proof. rewrite pow2_add. change (pow2 1) with 2%Q. ring. Qed.

Lemma ilog2_spec x : (0 < x)%Q -> (pow2 (ilog2 x) <= x < pow2 (ilog2 x + 1))%Q.
Proof.
  intros Hx. unfold ilog2.
  destruct x as [n d]. simpl Qnum; simpl Qden.
  assert (Hn : 0 < n) by (unfold Qlt in Hx; simpl in Hx; lia).
  set (ln := Z.log2 n). set (ld := Z.log2 (Z.pos d)).
  pose proof (Z.log2_spec n Hn) as Sn. fold ln in Sn.
  pose proof (Z.log2_spec (Z.pos d) eq_refl) as Sd. fold ld in Sd.
  assert (Hln : 0 <= ln) by apply Z.log2_nonneg.
  assert (Hld : 0 <= ld) by apply Z.log2_nonneg.
  assert (Ex : (n # d == inject_Z n / inject_Z (Z.pos d))%Q) by apply Qmake_Qdiv.
  assert (Dpos : (0 < inject_Z (Z.pos d))%Q) by (unfold Qlt; simpl; lia).
  (* bounds on n and d as rationals *)
  assert (Bn1 : (pow2 ln <= inject_Z n)%Q).
  { rewrite pow2_Z by assumption. rewrite <- Zle_Qle. lia. }
  assert (Bn2 : (inject_Z n < pow2 (ln + 1))%Q).
  { rewrite pow2_Z by lia. rewrite <- Zlt_Qlt. unfold Z.succ in Sn. lia. }
  assert (Bd1 : (pow2 ld <= inject_Z (Z.pos d))%Q).
  { rewrite pow2_Z by assumption. rewrite <- Zle_Qle. lia. }
  assert (Bd2 : (inject_Z (Z.pos d) < pow2 (ld + 1))%Q).
  { rewrite pow2_Z by lia. rewrite <- Zlt_Qlt. unfold Z.succ in Sd. lia. }
  (* x * d = n *)
  assert (Exd : ((n # d) * inject_Z (Z.pos d) == inject_Z n)%Q).
  { rewrite Ex. field. lra. }
  set (x := (n # d)%Q) in *.
  assert (Up : (x < pow2 (ln - ld + 1))%Q).
  { assert (E1 : (pow2 (ln + 1) == pow2 (ln - ld + 1) * pow2 ld)%Q).
    { rewrite <- pow2_add. replace (ln - ld + 1 + ld) with (ln + 1) by lia. reflexivity. }
    pose proof (pow2_pos (ln - ld + 1)). pose proof (pow2_pos ld).
    apply Qnot_le_lt. intro Hc.
    assert ((pow2 (ln - ld + 1) * pow2 ld <= x * inject_Z (Z.pos d))%Q) by nra.
    lra. }
  assert (Lo : (pow2 (ln - ld - 1) <= x)%Q).
  { assert (E1 : (pow2 ln == pow2 (ln - ld - 1) * pow2 (ld + 1))%Q).
    { rewrite <- pow2_add. replace (ln - ld - 1 + (ld + 1)) with ln by lia. reflexivity. }
    pose proof (pow2_pos (ln - ld - 1)). pose proof (pow2_pos (ld + 1)).
    apply Qnot_lt_le. intro Hc.
    assert ((x * inject_Z (Z.pos d) < pow2 (ln - ld - 1) * pow2 (ld + 1))%Q) by nra.
    lra. }
  destruct (Qle_bool (pow2 (ln - ld)) x) eqn:E.
  - apply Qle_bool_iff in E. split; assumption.
  - assert (Hlt : (x < pow2 (ln - ld))%Q).
    { apply Qnot_le_lt. intro Hc. apply Qle_bool_iff in Hc. congruence. }
    replace (ln - ld - 1 + 1) with (ln - ld) by lia. split; assumption.
Qed.

Lemma ilog2_unique x e : (pow2 e <= x < pow2 (e + 1))%Q -> ilog2 x = e.
Proof.
  intros [H1 H2].
  assert (Hx : (0 < x)%Q) by (pose proof (pow2_pos e); lra).
  destruct (ilog2_spec x Hx) as [S1 S2].
  assert (ilog2 x < e + 1) by (apply pow2_lt_inv; lra).
  assert (e < ilog2 x + 1) by (apply pow2_lt_inv; lra).
  lia.
Qed.

(** ** Rounding to the nearest integer and to binary64 *)

Lemma rne_comp x y : (x == y)%Q -> rne x = rne y.
Proof.
  intros H. unfold rne.
  assert (Hf : Qfloor x = Qfloor y) by (rewrite H; reflexivity).
  rewrite Hf.
  assert (Hc : Qcompare (x - inject_Z (Qfloor y)) (1 # 2)
               = Qcompare (y - inject_Z (Qfloor y)) (1 # 2)).
  { apply Qcompare_comp; [rewrite H|]; reflexivity. }
  rewrite Hc. reflexivity.
Qed.

Lemma rne_cases x :
  let f := Qfloor x in
  (rne x = f /\ (x - inject_Z f <= 1 # 2)%Q) \/ (rne x = f + 1 /\ (1 # 2 <= x - inject_Z f)%Q).
Proof.
  intros f. unfold rne. fold f.
  destruct (Qcompare_spec (x - inject_Z f) (1 # 2)) as [E|E|E].
  - destruct (Z.even f); [left|right]; split; try reflexivity; lra.
  - left. split; [reflexivity | lra].
  - right. split; [reflexivity | lra].
Qed.

Lemma floor_bounds x : (inject_Z (Qfloor x) <= x < inject_Z (Qfloor x) + 1)%Q.
Proof.
  split; [apply Qfloor_le|].
  pose proof (Qlt_floor x) as H. rewrite inject_Z_plus in H. exact H.
Qed.

Lemma rne_err x : (x - (1 # 2) <= inject_Z (rne x) <= x + (1 # 2))%Q.
Proof.
  pose proof (floor_bounds x) as [F1 F2].
  destruct (rne_cases x) as [[E H]|[E H]]; rewrite E.
  - lra.
  - rewrite inject_Z_plus. change (inject_Z 1) with 1%Q. lra.
Qed.

Lemma rne_Z z : rne (inject_Z z) = z.
Proof.
  unfold rne. rewrite Qfloor_Z.
  assert (H : Qcompare (inject_Z z - inject_Z z) (1 # 2) = Lt).
  { apply (proj1 (Qlt_alt _ _)). lra. }
  rewrite H. reflexivity.
Qed.

Lemma rne_ge n x : (inject_Z n <= x)%Q -> n <= rne x.
Proof.
  intros H.
  assert (Hf : n <= Qfloor x).
  { rewrite <- (Qfloor_Z n). apply Qfloor_resp_le. exact H. }
  destruct (rne_cases x) as [[E _]|[E _]]; rewrite E; lia.
Qed.

Lemma rne_le n x : (x <= inject_Z n)%Q -> rne x <= n.
Proof.
  intros H.
  pose proof (floor_bounds x) as [F1 F2].
  destruct (rne_cases x) as [[E Hh]|[E Hh]]; rewrite E.
  - assert (Hq : (inject_Z (Qfloor x) <= inject_Z n)%Q) by lra.
    rewrite <- Zle_Qle in Hq. exact Hq.
  - (* floor x + 1/2 <= x <= n, so floor x < n *)
    assert (Hq : (inject_Z (Qfloor x) < inject_Z n)%Q) by lra.
    rewrite <- Zlt_Qlt in Hq. lia.
Qed.

Lemma quantum_eq x : quantum x = pow2 (qexp x).
Proof. reflexivity. Qed.

Lemma round53_val x : (round53 x == inject_Z (rne (x / quantum x)) * quantum x)%Q.
Proof. unfold round53. apply Qred_correct. Qed.

Lemma Qred_inject_Z r : Qred (inject_Z r) = inject_Z r.
Proof.
  unfold inject_Z, Qred.
  pose proof (Z.ggcd_gcd r 1) as G.
  pose proof (Z.ggcd_correct_divisors r 1) as D.
  destruct (Z.ggcd r 1) as [g [aa bb]]. simpl in G.
  rewrite Z.gcd_1_r in G. subst g. destruct D as [D1 D2].
  assert (Ha : aa = r) by lia. assert (Hb : bb = 1) by lia.
  simpl. rewrite Ha, Hb. reflexivity.
Qed.

Lemma round53_comp_val x r :
  (inject_Z (rne (x / quantum x)) * quantum x == inject_Z r)%Q -> round53 x = inject_Z r.
Proof.
  intros H. unfold round53.
  rewrite (Qred_complete _ _ H). apply Qred_inject_Z.
Qed.

Lemma rne_div_bounds z d :
  0 < d ->
  2 * z - d <= 2 * rne (inject_Z z / inject_Z d) * d <= 2 * z + d.
Proof.
  intros Hd.
  set (yq := (inject_Z z / inject_Z d)%Q).
  assert (Dpos : (0 < inject_Z d)%Q) by (rewrite (Zlt_Qlt 0 d) in Hd; exact Hd).
  assert (Ey : (yq * inject_Z d == inject_Z z)%Q) by (unfold yq; field; lra).
  destruct (rne_err yq) as [L U].
  set (m := rne yq) in *.
  assert (L' : (inject_Z (2 * z - d) <= inject_Z (2 * m * d))%Q).
  { unfold Z.sub. rewrite inject_Z_plus, inject_Z_opp, !inject_Z_mult.
    change (inject_Z 2) with 2%Q. nra. }
  assert (U' : (inject_Z (2 * m * d) <= inject_Z (2 * z + d))%Q).
  { rewrite inject_Z_plus, !inject_Z_mult. change (inject_Z 2) with 2%Q. nra. }
  rewrite <- Zle_Qle in L', U'. lia.
Qed.

Lemma Qdiv_inverse x p p' : (p' * p == 1)%Q -> (x / p == x * p')%Q.
Proof.
  intros H.
  assert (Hp : ~ (p == 0)%Q).
  { intro E. rewrite E in H. ring_simplify in H. discriminate H. }
  assert (Hi : (/ p == p')%Q).
  { rewrite <- (Qmult_1_l (/ p)), <- H, <- Qmult_assoc, Qmult_inv_r by assumption. ring. }
  unfold Qdiv. rewrite Hi. reflexivity.
Qed.

Lemma ilog2_inject_Z z : 0 < z -> ilog2 (inject_Z z) = Z.log2 z.
Proof.
  intros Hz. apply ilog2_unique.
  pose proof (Z.log2_spec z Hz) as [S1 S2]. unfold Z.succ in S2.
  pose proof (Z.log2_nonneg z).
  rewrite !pow2_Z by lia. rewrite <- Zle_Qle, <- Zlt_Qlt. lia.
Qed.

Lemma qexp_inject_Z z : z <> 0 -> qexp (inject_Z z) = Z.log2 (Z.abs z) - 52.
Proof.
  intros Hz. unfold qexp.
  change (Qabs (inject_Z z)) with (inject_Z (Z.abs z)).
  rewrite ilog2_inject_Z by lia.
  pose proof (Z.log2_nonneg (Z.abs z)). lia.
Qed.

(** Rounding an integer to binary64: small integers are exact, large ones
    land on an even integer that is still large. *)
Lemma round53_int_small z :
  Z.abs z <= 2 ^ 53 -> round53 (inject_Z z) = inject_Z z.
Proof.
  intros Hz.
  destruct (Z.eq_dec z 0) as [->|Hnz]; [vm_compute; reflexivity|].
  apply round53_comp_val. rewrite quantum_eq, qexp_inject_Z by assumption.
  set (e := Z.log2 (Z.abs z)).
  assert (He : 0 <= e) by apply Z.log2_nonneg.
  pose proof (Z.log2_spec (Z.abs z) ltac:(lia)) as [S1 S2]. fold e in S1, S2.
  unfold Z.succ in S2.
  assert (He53 : e <= 53).
  { destruct (Z_le_gt_dec e 53); [assumption|].
    assert (2 ^ 54 <= 2 ^ e) by (apply Z.pow_le_mono_r; lia). lia. }
  destruct (Z_le_gt_dec e 52) as [Hs|Hb].
  - (* spacing at most 1: z / q is the integer z * 2^(52-e) *)
    assert (Eq : (inject_Z z / pow2 (e - 52) == inject_Z (z * 2 ^ (52 - e)))%Q).
    { rewrite inject_Z_mult, <- pow2_Z by lia.
      apply Qdiv_inverse.
      rewrite <- pow2_add. replace (52 - e + (e - 52)) with 0 by lia. reflexivity. }
    rewrite (rne_comp _ _ Eq), rne_Z.
    rewrite inject_Z_mult, <- pow2_Z by lia.
    assert (E1 : (pow2 (52 - e) * pow2 (e - 52) == 1)%Q).
    { rewrite <- pow2_add. replace (52 - e + (e - 52)) with 0 by lia. reflexivity. }
    rewrite <- Qmult_assoc, E1. ring.
  - (* e = 53, so |z| = 2^53 *)
    assert (e = 53) by lia.
    assert (Hp : 2 ^ 53 <= 2 ^ e) by (apply Z.pow_le_mono_r; lia).
    assert (Hz' : Z.abs z = 2 ^ 53) by lia.
    replace (e - 52) with 1 by lia. change (pow2 1) with (inject_Z 2).
    assert (Ez : z = 2 * (z / 2)).
    { destruct (Z.abs_eq_or_opp z) as [E|E]; rewrite E in Hz'.
      - rewrite Hz'. reflexivity.
      - assert (z = - 2 ^ 53) by lia. subst z. reflexivity. }
    assert (Eq : (inject_Z z / inject_Z 2 == inject_Z (z / 2))%Q).
    { rewrite Ez at 1. rewrite inject_Z_mult. field. }
    rewrite (rne_comp _ _ Eq), rne_Z. rewrite <- inject_Z_mult.
    rewrite Z.mul_comm, <- Ez. reflexivity.
Qed.

Lemma round53_int_big z :
  2 ^ 53 <= Z.abs z ->
  exists r, round53 (inject_Z z) = inject_Z r /\ Z.even r = true
            /\ 2 ^ 53 <= Z.abs r <= 2 * Z.abs z.
Proof.
  intros Hz.
  assert (Hnz : z <> 0) by lia.
  set (e := Z.log2 (Z.abs z)).
  pose proof (Z.log2_spec (Z.abs z) ltac:(lia)) as [S1 S2]. fold e in S1, S2.
  unfold Z.succ in S2.
  assert (He53 : 53 <= e).
  { destruct (Z_le_gt_dec 53 e); [assumption|].
    assert (2 ^ (e + 1) <= 2 ^ 53) by (apply Z.pow_le_mono_r; lia). lia. }
  set (k := e - 52).
  set (d := 2 ^ k).
  assert (Hd : 0 < d) by (apply Z.pow_pos_nonneg; lia).
  assert (Hde : 2 ^ e = 2 ^ 52 * d).
  { unfold d, k. rewrite <- Z.pow_add_r by lia. f_equal; lia. }
  assert (Hd2 : d = 2 * 2 ^ (k - 1)).
  { unfold d. replace k with (1 + (k - 1)) at 1 by lia.
    rewrite Z.pow_add_r by lia. reflexivity. }
  set (m := rne (inject_Z z / inject_Z d)).
  pose proof (rne_div_bounds z d Hd) as [B1 B2]. fold m in B1, B2.
  exists (m * d). split; [|split].
  - apply round53_comp_val. rewrite quantum_eq, qexp_inject_Z by assumption.
    fold e. fold k.
    assert (Eq : (inject_Z z / pow2 k == inject_Z z / inject_Z d)%Q).
    { rewrite pow2_Z by (unfold k; lia). reflexivity. }
    rewrite (rne_comp _ _ Eq). fold m.
    rewrite pow2_Z by (unfold k; lia). fold d.
    rewrite inject_Z_mult. reflexivity.
  - rewrite Hd2. rewrite Z.mul_assoc, (Z.mul_comm m 2), <- Z.mul_assoc.
    rewrite Z.even_mul. reflexivity.
  - assert (P52 : 2 ^ 52 = 4503599627370496) by reflexivity.
    assert (P53 : 2 ^ 53 = 9007199254740992) by reflexivity.
    rewrite P52 in *. rewrite P53 in *.
    destruct (Z_le_gt_dec 0 z) as [Hpos|Hneg].
    + rewrite Z.abs_eq in * by lia.
      assert (4503599627370496 <= m) by nia.
      rewrite Z.abs_eq by nia. nia.
    + rewrite (Z.abs_neq z) in * by lia.
      assert (m <= - 4503599627370496) by nia.
      rewrite Z.abs_neq by nia. nia.
Qed.

Lemma quantum_pos x : (0 < quantum x)%Q.
Proof. apply pow2_pos. Qed.

Lemma round53_err x :
  (x - quantum x * (1 # 2) <= round53 x <= x + quantum x * (1 # 2))%Q.
Proof.
  rewrite round53_val.
  pose proof (quantum_pos x) as Hq.
  set (q := quantum x) in *.
  destruct (rne_err (x / q)) as [L U].
  assert (E : (x / q * q == x)%Q) by (field; lra).
  set (m := inject_Z (rne (x / q))) in *.
  set (yq := (x / q)%Q) in *.
  assert (P1 : (0 <= (m - (yq - (1 # 2))) * q)%Q) by (apply Qmult_le_0_compat; lra).
  assert (P2 : (0 <= (yq + (1 # 2) - m) * q)%Q) by (apply Qmult_le_0_compat; lra).
  split; lra.
Qed.

Lemma round53_zero x : (x == 0)%Q -> round53 x = 0%Q.
Proof.
  intros H. change 0%Q with (inject_Z 0). apply round53_comp_val.
  set (q := quantum x).
  assert (E : (x / q == inject_Z 0)%Q).
  { rewrite H. unfold Qdiv. change (inject_Z 0) with 0%Q. ring. }
  rewrite (rne_comp _ _ E), rne_Z. change (inject_Z 0) with 0%Q. ring.
Qed.

Lemma ilog2_comp x y : (0 < x)%Q -> (x == y)%Q -> ilog2 x = ilog2 y.
Proof.
  intros Hx E. apply ilog2_unique. rewrite E.
  apply ilog2_spec. rewrite <- E. exact Hx.
Qed.

Lemma Qabs_pos_lt x : ~ (x == 0)%Q -> (0 < Qabs x)%Q.
Proof.
  intros H. pose proof (Qabs_nonneg x) as Hn.
  destruct (Qeq_dec (Qabs x) 0) as [E|E]; [|lra].
  exfalso. apply H.
  revert E. apply Qabs_case; intros; lra.
Qed.

Lemma round53_comp x y : (x == y)%Q -> round53 x = round53 y.
Proof.
  intros E. destruct (Qeq_dec x 0) as [Hz|Hnz].
  - rewrite (round53_zero x Hz). symmetry. apply round53_zero.
    rewrite <- E. exact Hz.
  - assert (Eq : quantum x = quantum y).
    { unfold quantum, qexp. f_equal. f_equal. f_equal.
      apply ilog2_comp; [apply Qabs_pos_lt; exact Hnz | rewrite E; reflexivity]. }
    unfold round53. rewrite <- Eq. set (q := quantum x). apply Qred_complete.
    assert (Er : rne (x / q) = rne (y / q)).
    { apply rne_comp. rewrite E. reflexivity. }
    rewrite Er. reflexivity.
Qed.

Lemma round53_nonneg x : (0 <= x)%Q -> (0 <= round53 x)%Q.
Proof.
  intros H. rewrite round53_val.
  pose proof (quantum_pos x) as Hq.
  assert (0 <= rne (x / quantum x)).
  { apply rne_ge. change (inject_Z 0) with 0%Q.
    apply Qle_shift_div_l; [exact Hq | lra]. }
  assert ((0 <= inject_Z (rne (x / quantum x)))%Q).
  { change 0%Q with (inject_Z 0). rewrite <- Zle_Qle. assumption. }
  nra.
Qed.

(** The exponent of a positive x. *)
Lemma qexp_pos x : (0 < x)%Q -> qexp x = Z.max (ilog2 x) (-1022) - 52.
Proof.
  intros H. unfold qexp. f_equal. f_equal.
  symmetry. apply ilog2_comp; [exact H|]. symmetry. apply Qabs_pos. lra.
Qed.

Lemma round53_lower a x :
  0 <= a <= 2 ^ 53 -> (inject_Z a <= x)%Q -> (inject_Z a <= round53 x)%Q.
Proof.
  intros [Ha0 Ha] Hx.
  destruct (Z.eq_dec a 0) as [->|Hna].
  { apply round53_nonneg. exact Hx. }
  assert (Hxpos : (0 < x)%Q).
  { assert ((inject_Z 1 <= inject_Z a)%Q) by (rewrite <- Zle_Qle; lia).
    change (inject_Z 1) with 1%Q in *. lra. }
  rewrite round53_val, quantum_eq, qexp_pos by exact Hxpos.
  destruct (ilog2_spec x Hxpos) as [S1 S2].
  set (e := ilog2 x) in *.
  set (k := Z.max e (-1022) - 52).
  pose proof (pow2_pos k) as Hq.
  destruct (Z_le_gt_dec k 0) as [Hk|Hk].
  - assert (Ea : (inject_Z a / pow2 k == inject_Z (a * 2 ^ (- k)))%Q).
    { rewrite inject_Z_mult, <- pow2_Z by lia. apply Qdiv_inverse.
      rewrite <- pow2_add. replace (- k + k) with 0 by lia. reflexivity. }
    assert (Hr : a * 2 ^ (- k) <= rne (x / pow2 k)).
    { apply rne_ge. rewrite <- Ea. apply Qmult_le_compat_r; [exact Hx|].
      apply Qlt_le_weak, Qinv_lt_0_compat, Hq. }
    rewrite Zle_Qle in Hr. rewrite <- Ea in Hr.
    assert (E : (inject_Z a / pow2 k * pow2 k == inject_Z a)%Q) by (field; lra).
    rewrite <- E. apply Qmult_le_compat_r; [exact Hr | lra].
  - assert (Hke : k = e - 52) by lia.
    assert (He : 53 <= e) by lia.
    assert (Hr : 2 ^ 52 <= rne (x / pow2 k)).
    { apply rne_ge. rewrite <- pow2_Z by lia.
      apply Qle_shift_div_l; [exact Hq|].
      rewrite <- pow2_add. replace (52 + k) with e by lia. exact S1. }
    rewrite Zle_Qle, <- pow2_Z in Hr by lia.
    assert (H53 : (inject_Z a <= pow2 53)%Q).
    { rewrite pow2_Z by lia. rewrite <- Zle_Qle. lia. }
    assert (Hee : (pow2 53 <= pow2 e)%Q) by (apply pow2_le; lia).
    assert (Em : (pow2 e == pow2 52 * pow2 k)%Q).
    { rewrite <- pow2_add. replace (52 + k) with e by lia. reflexivity. }
    assert ((pow2 52 * pow2 k <= inject_Z (rne (x / pow2 k)) * pow2 k)%Q).
    { apply Qmult_le_compat_r; [exact Hr | lra]. }
    lra.
Qed.

Lemma round53_upper b x :
  0 <= b <= 2 ^ 53 -> (0 <= x <= inject_Z b)%Q -> (round53 x <= inject_Z b)%Q.
Proof.
  intros [Hb0 Hb] [Hx0 Hx].
  destruct (Qeq_dec x 0) as [Hz|Hnz].
  { rewrite (round53_zero x Hz). change 0%Q with (inject_Z 0).
    rewrite <- Zle_Qle. exact Hb0. }
  assert (Hxpos : (0 < x)%Q) by lra.
  rewrite round53_val, quantum_eq, qexp_pos by exact Hxpos.
  destruct (ilog2_spec x Hxpos) as [S1 S2].
  set (e := ilog2 x) in *.
  set (k := Z.max e (-1022) - 52).
  pose proof (pow2_pos k) as Hq.
  assert (H53 : (inject_Z b <= pow2 53)%Q).
  { rewrite pow2_Z by lia. rewrite <- Zle_Qle. lia. }
  assert (He : e <= 53).
  { destruct (Z_le_gt_dec e 53); [assumption|].
    assert ((pow2 54 <= pow2 e)%Q) by (apply pow2_le; lia).
    assert ((pow2 53 < pow2 54)%Q) by (apply pow2_lt; lia). lra. }
  destruct (Z_le_gt_dec k 0) as [Hk|Hk].
  - assert (Eb : (inject_Z b / pow2 k == inject_Z (b * 2 ^ (- k)))%Q).
    { rewrite inject_Z_mult, <- pow2_Z by lia. apply Qdiv_inverse.
      rewrite <- pow2_add. replace (- k + k) with 0 by lia. reflexivity. }
    assert (Hr : rne (x / pow2 k) <= b * 2 ^ (- k)).
    { apply rne_le. rewrite <- Eb. apply Qmult_le_compat_r; [exact Hx|].
      apply Qlt_le_weak, Qinv_lt_0_compat, Hq. }
    rewrite Zle_Qle in Hr. rewrite <- Eb in Hr.
    assert (E : (inject_Z b / pow2 k * pow2 k == inject_Z b)%Q) by (field; lra).
    rewrite <- E. apply Qmult_le_compat_r; [exact Hr | lra].
  - (* e = 53: x is 2^53 itself *)
    assert (Hk1 : k = 1) by lia. assert (He53 : e = 53) by lia.
    rewrite He53 in S1.
    assert (Ex : (x / pow2 k == inject_Z (2 ^ 52))%Q).
    { rewrite Hk1. assert (x == pow2 53)%Q by lra.
      rewrite H. apply Qeq_bool_eq. vm_compute. reflexivity. }
    rewrite (rne_comp _ _ Ex), rne_Z. rewrite Hk1.
    assert ((inject_Z (2 ^ 52) * pow2 1 == pow2 53)%Q)
      by (apply Qeq_bool_eq; vm_compute; reflexivity).
    lra.
Qed.

Lemma quantum_small x : (0 <= x < 1)%Q -> (quantum x <= pow2 (-53))%Q.
Proof.
  intros [H0 H1]. rewrite quantum_eq. apply pow2_le. unfold qexp.
  assert (ilog2 (Qabs x) <= -1); [|lia].
  destruct (Qeq_dec x 0) as [Hz|Hnz].
  - unfold ilog2. destruct x as [n d]. 
    assert (n = 0) by (unfold Qeq in Hz; simpl in Hz; lia). subst n.
    simpl Qabs. simpl Qnum. simpl Qden. 
    pose proof (Z.log2_nonneg (Z.pos d)).
    set (e0 := Z.log2 0 - Z.log2 (Z.pos d)).
    assert (e0 <= 0) by (unfold e0; simpl Z.log2 at 1; lia).
    assert (Hf : Qle_bool (pow2 e0) (0 # d) = false).
    { apply not_true_is_false. intro Hc. apply Qle_bool_iff in Hc.
      pose proof (pow2_pos e0). assert ((0 # d == 0)%Q) by reflexivity. lra. }
    rewrite Hf. lia.
  - assert (Hp : (0 < Qabs x)%Q) by (apply Qabs_pos_lt; exact Hnz).
    destruct (ilog2_spec _ Hp) as [S1 _].
    pose proof (Qabs_pos x H0) as Ea.
    set (e := ilog2 (Qabs x)) in *.
    assert (e < 0); [|lia].
    apply pow2_lt_inv. change (pow2 0) with 1%Q. lra.
Qed.

(** ** Integer-valued numbers *)

Lemma of_Q_Fin x : (Qabs (round53 x) < pow2 1024)%Q -> of_Q x = Fin (round53 x).
Proof.
  intros H. unfold of_Q.
  destruct (Qle_bool (pow2 1024) (Qabs (round53 x))) eqn:E; [|reflexivity].
  apply Qle_bool_iff in E. lra.
Qed.

Lemma of_Q_comp x y : (x == y)%Q -> of_Q x = of_Q y.
Proof. intros E. unfold of_Q. rewrite (round53_comp x y E). reflexivity. Qed.

Lemma roundZ_small z : Z.abs z <= 2 ^ 53 -> roundZ z = z.
Proof. intros H. unfold roundZ. rewrite round53_int_small by exact H. apply Qfloor_Z. Qed.

Lemma roundZ_big z :
  2 ^ 53 <= Z.abs z ->
  Z.even (roundZ z) = true /\ 2 ^ 53 <= Z.abs (roundZ z) <= 2 * Z.abs z.
Proof.
  intros H. destruct (round53_int_big z H) as (r & E & Hev & Hr).
  unfold roundZ. rewrite E, Qfloor_Z. split; assumption.
Qed.

Lemma round53_int z : round53 (inject_Z z) = inject_Z (roundZ z).
Proof.
  destruct (Z_le_gt_dec (Z.abs z) (2 ^ 53)) as [H|H].
  - rewrite roundZ_small by exact H. apply round53_int_small. exact H.
  - destruct (round53_int_big z ltac:(lia)) as (r & E & _).
    unfold roundZ. rewrite E, Qfloor_Z. reflexivity.
Qed.

Lemma roundZ_bound z : Z.abs (roundZ z) <= 2 * Z.abs z.
Proof.
  destruct (Z_le_gt_dec (Z.abs z) (2 ^ 53)) as [H|H].
  - rewrite roundZ_small by exact H. lia.
  - apply roundZ_big. lia.
Qed.

Lemma pow2_1024_Z : (pow2 1024 == inject_Z (2 ^ 1024))%Q.
Proof. apply pow2_Z. lia. Qed.

(** Integer arithmetic never overflows on the magnitudes met here. *)
Lemma of_Q_int z : Z.abs z < 2 ^ 1000 -> of_Q (inject_Z z) = Fin (inject_Z (roundZ z)).
Proof.
  intros H. rewrite of_Q_Fin; rewrite round53_int; [reflexivity|].
  change (Qabs (inject_Z (roundZ z))) with (inject_Z (Z.abs (roundZ z))).
  rewrite pow2_1024_Z. rewrite <- Zlt_Qlt.
  pose proof (roundZ_bound z).
  assert (2 * 2 ^ 1000 <= 2 ^ 1024).
  { change (2 * 2 ^ 1000) with (2 ^ 1001). apply Z.pow_le_mono_r; lia. }
  lia.
Qed.

Lemma int_small z : Z.abs z <= 2 ^ 53 -> int z = Fin (inject_Z z).
Proof.
  intros H. unfold int. rewrite of_Q_int.
  - rewrite roundZ_small by exact H. reflexivity.
  - assert (2 ^ 53 < 2 ^ 1000) by (apply Z.pow_lt_mono_r; lia). lia.
Qed.

Lemma fmul_int a b :
  Z.abs (a * b) < 2 ^ 1000 ->
  fmul (Fin (inject_Z a)) (Fin (inject_Z b)) = Fin (inject_Z (roundZ (a * b))).
Proof.
  intros H. unfold fmul. rewrite <- of_Q_int by exact H.
  apply of_Q_comp. rewrite inject_Z_mult. reflexivity.
Qed.

Lemma fadd_int a b :
  Z.abs (a + b) < 2 ^ 1000 ->
  fadd (Fin (inject_Z a)) (Fin (inject_Z b)) = Fin (inject_Z (roundZ (a + b))).
Proof.
  intros H. unfold fadd. rewrite <- of_Q_int by exact H.
  apply of_Q_comp. rewrite inject_Z_plus. reflexivity.
Qed.

Lemma trunc_int z : trunc (inject_Z z) = z.
Proof. unfold trunc. destruct (Qle_bool 0 (inject_Z z)); [apply Qfloor_Z | apply Qceiling_Z]. Qed.

Lemma ToInt32_int z : ToInt32 (Fin (inject_Z z)) = wrap32 z.
Proof. unfold ToInt32. rewrite trunc_int. reflexivity. Qed.

Lemma wrap32_mod31 z : Z.land (wrap32 z) 2147483647 = z mod 2 ^ 31.
Proof.
  change 2147483647 with (Z.ones 31). rewrite Z.land_ones by lia.
  unfold wrap32.
  pose proof (Z.div_mod (z + 2 ^ 31) (2 ^ 32) ltac:(lia)) as D.
  set (w := (z + 2 ^ 31) mod 2 ^ 32) in *.
  set (q := (z + 2 ^ 31) / 2 ^ 32) in *.
  replace (w - 2 ^ 31) with (z + (- 2 * q) * 2 ^ 31) by lia.
  apply Z.mod_add. lia.
Qed.

(** ** The seeded generator *)

Lemma lcg_js_unfold s :
  lcg_js s = roundZ (roundZ (s * 1103515245) + 12345) mod 2 ^ 31.
Proof. reflexivity. Qed.

Lemma wrap32_max : wrap32 2147483647 = 2147483647.
Proof. reflexivity. Qed.

Lemma lcg_js_range s : 0 <= lcg_js s < 2 ^ 31.
Proof. rewrite lcg_js_unfold. apply Z.mod_pos_bound. lia. Qed.

Lemma next_int i :
  Z.abs i < 2 ^ 900 ->
  next {| seed := Fin (inject_Z i) |}
  = (fdiv (Fin (inject_Z (lcg_js i))) (Fin (inject_Z 2147483647)),
     {| seed := Fin (inject_Z (lcg_js i)) |}).
Proof.
  intros Hi. unfold next. simpl seed.
  rewrite (int_small 1103515245), (int_small 12345), (int_small 0x7fffffff)
    by (cbv; discriminate).
  assert (Ha : Z.abs (i * 1103515245) < 2 ^ 931).
  { rewrite Z.abs_mul. change (2 ^ 931) with (2 ^ 900 * 2 ^ 31).
    assert (Z.abs 1103515245 < 2 ^ 31) by (cbv; reflexivity).
    assert (0 < 2 ^ 900) by (apply Z.pow_pos_nonneg; lia). nia. }
  assert (H931 : 2 ^ 931 * 4 < 2 ^ 1000).
  { change 4 with (2 ^ 2). rewrite <- Z.pow_add_r by lia. apply Z.pow_lt_mono_r; lia. }
  assert (0 < 2 ^ 931) by (apply Z.pow_pos_nonneg; lia).
  rewrite fmul_int by lia.
  pose proof (roundZ_bound (i * 1103515245)) as Hb.
  rewrite fadd_int by lia.
  unfold bitand. rewrite !ToInt32_int, wrap32_max, wrap32_mod31.
  rewrite <- lcg_js_unfold.
  pose proof (lcg_js_range i) as Hr.
  rewrite int_small; [reflexivity|].
  assert (2 ^ 31 < 2 ^ 53) by (apply Z.pow_lt_mono_r; lia). lia.
Qed.

Lemma even_mod31 r : Z.even r = true -> r mod 2 ^ 31 <> 2 ^ 31 - 1.
Proof.
  intros He Hc. apply Z.even_spec in He. destruct He as [k Hk].
  pose proof (Z.div_mod r (2 ^ 31) ltac:(lia)) as D.
  rewrite Hc in D. lia.
Qed.

(** The state never reaches 2^31 - 1 (the one state whose quotient is 1). *)
Lemma lcg_js_not_max i :
  - 2 ^ 31 <= i < 2 ^ 32 -> lcg_js i <> 2 ^ 31 - 1.
Proof.
  intros Hi. unfold lcg_js.
  set (p := i * 1103515245).
  destruct (Z_le_gt_dec (Z.abs p) (2 ^ 53)) as [Hp|Hp].
  - rewrite (roundZ_small p) by exact Hp.
    destruct (Z_le_gt_dec (Z.abs (p + 12345)) (2 ^ 53)) as [Hs|Hs].
    + rewrite roundZ_small by exact Hs. intro Hc.
      pose proof (Z.div_mod (p + 12345) (2 ^ 31) ltac:(lia)) as D.
      rewrite Hc in D. unfold p in *. lia.
    + apply even_mod31. apply roundZ_big. lia.
  - destruct (roundZ_big p ltac:(lia)) as (Hev & Hlo & _).
    set (P := roundZ p) in *.
    destruct (Z_le_gt_dec (2 ^ 53) (Z.abs (P + 12345))) as [Hs|Hs].
    + apply even_mod31. apply roundZ_big. exact Hs.
    + rewrite roundZ_small by lia. intro Hc.
      pose proof (Z.div_mod (P + 12345) (2 ^ 31) ltac:(lia)) as D.
      rewrite Hc in D.
      apply Z.even_spec in Hev. destruct Hev as [k Hk].
      change (2 ^ 53) with (2 ^ 22 * 2 ^ 31) in *. lia.
Qed.

Lemma lcg_js_exact i :
  Z.abs (i * 1103515245) <= 2 ^ 53 ->
  Z.abs (i * 1103515245 + 12345) <= 2 ^ 53 ->
  lcg_js i = lcg_exact i.
Proof.
  intros H1 H2. unfold lcg_js, lcg_exact.
  rewrite (roundZ_small _ H1), (roundZ_small _ H2). reflexivity.
Qed.

(** A state below 2^31 - 1 divided by 2^31 - 1 rounds to a value in [0, 1). *)
Lemma draw_range s :
  0 <= s < 2 ^ 31 - 1 ->
  exists q, fdiv (Fin (inject_Z s)) (Fin (inject_Z 2147483647)) = Fin q
            /\ (0 <= q < 1)%Q.
Proof.
  intros Hs. unfold fdiv.
  change (is_zero (inject_Z 2147483647)) with false. cbv iota.
  set (xq := (inject_Z s / inject_Z 2147483647)%Q).
  assert (Ex : (xq * 2147483647 == inject_Z s)%Q) by (unfold xq; field).
  assert (Hs1 : (0 <= inject_Z s)%Q) by (change 0%Q with (inject_Z 0); rewrite <- Zle_Qle; lia).
  assert (Hs2 : (inject_Z s <= 2147483646)%Q).
  { change 2147483646%Q with (inject_Z 2147483646). rewrite <- Zle_Qle. lia. }
  assert (Hx : (0 <= xq < 1)%Q) by (split; lra).
  pose proof (round53_nonneg xq (proj1 Hx)) as Hn.
  pose proof (round53_err xq) as [_ Hu].
  pose proof (quantum_small xq Hx) as Hq.
  change (pow2 (-53)) with (1 # 9007199254740992)%Q in Hq.
  assert (Hlt : (round53 xq < 1)%Q) by lra.
  exists (round53 xq). split; [|split; assumption].
  apply of_Q_Fin. rewrite Qabs_pos by exact Hn.
  assert ((pow2 0 <= pow2 1024)%Q) by (apply pow2_le; lia).
  change (pow2 0) with 1%Q in *. lra.
Qed.

Lemma calls_S_snd n rng :
  snd (calls (S n) rng) = snd (calls n (snd (next rng))).
Proof.
  cbn [calls]. destruct (next rng) as [v r1]. cbn [snd].
  destruct (calls n r1). reflexivity.
Qed.

Lemma nth_draw_O rng : nth_draw 0 rng = fst (next rng).
Proof. reflexivity. Qed.

Lemma nth_draw_S k rng : nth_draw (S k) rng = nth_draw k (snd (next rng)).
Proof. unfold nth_draw. rewrite calls_S_snd. reflexivity. Qed.

Lemma iter_range i k :
  - 2 ^ 31 <= i < 2 ^ 32 -> - 2 ^ 31 <= Nat.iter k lcg_js i < 2 ^ 32.
Proof.
  intros Hi. destruct k as [|k]; [exact Hi|].
  rewrite Nat.iter_succ. pose proof (lcg_js_range (Nat.iter k lcg_js i)). lia.
Qed.

Lemma iter_draw i k :
  - 2 ^ 31 <= i < 2 ^ 32 -> 0 <= Nat.iter (S k) lcg_js i < 2 ^ 31 - 1.
Proof.
  intros Hi. rewrite Nat.iter_succ.
  pose proof (lcg_js_range (Nat.iter k lcg_js i)).
  pose proof (lcg_js_not_max _ (iter_range i k Hi)). lia.
Qed.

Lemma next_int_fst i :
  Z.abs i < 2 ^ 900 ->
  fst (next {| seed := Fin (inject_Z i) |})
  = fdiv (Fin (inject_Z (lcg_js i))) (Fin (inject_Z 2147483647)).
Proof. intros H. rewrite next_int by exact H. reflexivity. Qed.

Lemma next_int_snd i :
  Z.abs i < 2 ^ 900 ->
  snd (next {| seed := Fin (inject_Z i) |}) = {| seed := Fin (inject_Z (lcg_js i)) |}.
Proof. intros H. rewrite next_int by exact H. reflexivity. Qed.

Lemma small_900 i : - 2 ^ 31 <= i < 2 ^ 32 -> Z.abs i < 2 ^ 900.
Proof.
  intros H. assert (2 ^ 32 < 2 ^ 900) by (apply Z.pow_lt_mono_r; lia). lia.
Qed.

Lemma small_53 i : - 2 ^ 31 <= i < 2 ^ 32 -> Z.abs i <= 2 ^ 53.
Proof.
  intros H. assert (2 ^ 32 < 2 ^ 53) by (apply Z.pow_lt_mono_r; lia). lia.
Qed.

Lemma calls_int_snd k : forall i,
  - 2 ^ 31 <= i < 2 ^ 32 ->
  snd (calls k {| seed := Fin (inject_Z i) |})
  = {| seed := Fin (inject_Z (Nat.iter k lcg_js i)) |}.
Proof.
  induction k as [|k IH]; intros i Hi; [reflexivity|].
  rewrite calls_S_snd, next_int_snd by (apply small_900; exact Hi).
  rewrite IH by (pose proof (lcg_js_range i); lia).
  rewrite Nat.iter_succ_r. reflexivity.
Qed.

Lemma nth_draw_int k i :
  - 2 ^ 31 <= i < 2 ^ 32 ->
  nth_draw k {| seed := Fin (inject_Z i) |}
  = fdiv (Fin (inject_Z (Nat.iter (S k) lcg_js i))) (Fin (inject_Z 2147483647)).
Proof.
  intros Hi. unfold nth_draw. rewrite calls_int_snd by exact Hi.
  rewrite next_int_fst by (apply small_900, iter_range; exact Hi).
  rewrite Nat.iter_succ. reflexivity.
Qed.

(** What [next()] does keep of C8.  For every 32-bit integer seed and every
    number [k] of calls already made, the next value returned is a finite
    number in [0, 1); it is the new state divided by 2^31 - 1, and the state
    follows [lcg_js], the source's expression evaluated as written: product
    and sum each rounded to binary64, then the low 31 bits.  That is the
    congruence (state * 1103515245 + 12345) mod 2^31 whenever neither the
    product nor the sum exceeds 2^53 in magnitude. *)
Lemma next_unit_interval (i : Z) (k : nat) :
  - 2 ^ 31 <= i < 2 ^ 32 ->
  let rng := {| seed := int i |} in
  unit_interval (nth_draw k rng)
  /\ nth_draw k rng = fdiv (int (Nat.iter (S k) lcg_js i)) (int 0x7fffffff)
  /\ seed (snd (calls k rng)) = int (Nat.iter k lcg_js i)
  /\ (forall s, Z.abs (s * 1103515245) <= 2 ^ 53 ->
                Z.abs (s * 1103515245 + 12345) <= 2 ^ 53 ->
                lcg_js s = lcg_exact s).
Proof.
  intros Hi rng. unfold rng.
  rewrite (int_small i) by (apply small_53; exact Hi).
  rewrite (int_small (Nat.iter (S k) lcg_js i))
    by (apply small_53, iter_range; exact Hi).
  rewrite (int_small (Nat.iter k lcg_js i))
    by (apply small_53, iter_range; exact Hi).
  rewrite (int_small 0x7fffffff) by (vm_compute; discriminate).
  rewrite nth_draw_int, calls_int_snd by exact Hi.
  repeat split.
  - apply draw_range, iter_draw. exact Hi.
  - intros s H1 H2. apply lcg_js_exact; assumption.
Qed.

(** C8, where the code departs from it: from seed 12345, the seed of the
    first stored report, the second call of [next()] leaves the state
    654583808, where the recurrence (state * 1103515245 + 12345) mod 2^31
    gives 654583775.  The product 1406932606 * 1103515245 exceeds 2^53 and
    is rounded to binary64 before its low 31 bits are taken, so the value
    returned, 654583808 / (2^31 - 1), is not the recurrence's either; it is
    still in [0, 1). *)
Theorem second_state_departs_from_recurrence :
  let rng := {| seed := int 12345 |} in
  seed (snd (calls 1 rng)) = int 1406932606
  /\ lcg_exact 12345 = 1406932606
  /\ 2 ^ 53 < 1406932606 * 1103515245
  /\ seed (snd (calls 2 rng)) = int 654583808
  /\ lcg_exact (lcg_exact 12345) = 654583775
  /\ int 654583808 <> int 654583775
  /\ nth_draw 1 rng = fdiv (int 654583808) (int 0x7fffffff)
  /\ unit_interval (nth_draw 1 rng).
Proof.
  cbv zeta.
  split; [vm_compute; reflexivity|].
  split; [vm_compute; reflexivity|].
  split; [vm_compute; reflexivity|].
  split; [vm_compute; reflexivity|].
  split; [vm_compute; reflexivity|].
  split; [vm_compute; discriminate|].
  split; [vm_compute; reflexivity|].
  exact (proj1 (next_unit_interval 12345 1 ltac:(lia))).
Qed.
(** ** The synthesizer *)

Lemma bind_eq {A B} (m : Rand A) (k : A -> Rand B) rng :
  bind m k rng = k (fst (m rng)) (snd (m rng)).
Proof. unfold bind. destruct (m rng). reflexivity. Qed.

Lemma bind_ok_eq {A B} (m : Rand (option A)) (k : A -> Rand (option B)) rng :
  bind_ok m k rng
  = match fst (m rng) with
    | Some a => k a (snd (m rng))
    | None => (None, snd (m rng))
    end.
Proof. unfold bind_ok, bind. destruct (m rng) as [[a|] r]; reflexivity. Qed.

(** A fallible step that went through. *)
Lemma bind_ok_some {A B} (m : Rand (option A)) (k : A -> Rand (option B))
  rng b :
  fst (bind_ok m k rng) = Some b ->
  exists a, fst (m rng) = Some a /\ fst (k a (snd (m rng))) = Some b.
Proof.
  rewrite bind_ok_eq. destruct (fst (m rng)) as [a|]; [|discriminate].
  intros H. exists a. split; [reflexivity|exact H].
Qed.

Lemma bind_ok_checked {A B} (a : A) (k : A -> Rand (option B)) rng :
  bind_ok (checked (Some a)) k rng = k a rng.
Proof. reflexivity. Qed.

Lemma fst_ret {A} (a : A) rng : fst (ret a rng) = a.
Proof. reflexivity. Qed.

Lemma some_eq {A} (a b : A) : Some a = Some b -> a = b.
Proof. intros H. injection H as H. exact H. Qed.

Ltac unroll := repeat (rewrite bind_eq; cbv beta).

(** Follow a synthesis that returned [H : fst (... rng) = Some r] down to
    the record it returned. *)
Ltac follow H :=
  repeat first
    [ rewrite bind_eq in H; cbv beta in H
    | let a := fresh "a" in
      let E := fresh "E" in
      apply bind_ok_some in H as (a & E & H); cbv beta in H ];
  try (rewrite fst_ret in H; apply some_eq in H).

(** Name the result and the generator of each step instead of carrying the
    calls that produced them. *)
Ltac name_step :=
  match goal with
  | |- context [bind ?m ?k ?rng] =>
      repeat match goal with
             | |- context [bind m ?k' rng] => rewrite (bind_eq m k' rng)
             end;
      let a := fresh "a" in
      let r := fresh "rng" in
      destruct (m rng) as [a r]; cbn [fst snd]; cbv beta
  | |- context [bind_ok ?m ?k ?rng] =>
      repeat match goal with
             | |- context [bind_ok m ?k' rng] => rewrite (bind_ok_eq m k' rng)
             end;
      let a := fresh "a" in
      let r := fresh "rng" in
      destruct (m rng) as [[a|] r]; cbn [fst snd]; cbv beta
  end.


Lemma of_Q_between a b x :
  0 <= a -> b <= 2 ^ 53 -> (inject_Z a <= x <= inject_Z b)%Q ->
  exists r, of_Q x = Fin r /\ (inject_Z a <= r <= inject_Z b)%Q.
Proof.
  intros Ha Hb [Hl Hu].
  assert (Hab : a <= b).
  { rewrite Zle_Qle. lra. }
  assert (H0 : (0 <= inject_Z a)%Q).
  { change 0%Q with (inject_Z 0). rewrite <- Zle_Qle. exact Ha. }
  pose proof (round53_lower a x ltac:(lia) Hl) as L.
  pose proof (round53_upper b x ltac:(lia) ltac:(split; lra)) as U.
  exists (round53 x). split; [|split; assumption].
  apply of_Q_Fin. rewrite Qabs_pos by lra.
  assert (H53 : (inject_Z b <= pow2 53)%Q).
  { rewrite pow2_Z by lia. rewrite <- Zle_Qle. exact Hb. }
  assert ((pow2 53 < pow2 1024)%Q) by (apply pow2_lt; lia).
  lra.
Qed.

(** After any call the state is an integer below 2^31, whatever the seed. *)
Lemma next_state_int rng :
  exists s, 0 <= s < 2 ^ 31 /\ snd (next rng) = {| seed := Fin (inject_Z s) |}.
Proof.
  unfold next. cbn [snd]. unfold bitand.
  set (t := ToInt32 (fadd (fmul (seed rng) (int 1103515245)) (int 12345))).
  change (ToInt32 (int 2147483647)) with 2147483647.
  change 2147483647 with (Z.ones 31). rewrite Z.land_ones by lia.
  pose proof (Z.mod_pos_bound t (2 ^ 31) ltac:(lia)) as Hb.
  exists (t mod 2 ^ 31). split; [exact Hb|].
  rewrite int_small; [reflexivity|].
  assert (2 ^ 31 < 2 ^ 53) by (apply Z.pow_lt_mono_r; lia). lia.
Qed.

(** Every value returned after the first call lies in [0, 1). *)
Lemma later_draw_unit k rng : unit_interval (nth_draw (S k) rng).
Proof.
  unfold nth_draw.
  assert (Hs : exists s, 0 <= s < 2 ^ 31
                         /\ snd (calls (S k) rng) = {| seed := Fin (inject_Z s) |}).
  { revert rng. induction k as [|k IH]; intros rng.
    - rewrite calls_S_snd. apply next_state_int.
    - rewrite calls_S_snd. apply IH. }
  destruct Hs as (s & Hs & ->).
  assert (2 ^ 31 < 2 ^ 900) by (apply Z.pow_lt_mono_r; lia).
  rewrite next_int by lia. cbn [fst].
  apply draw_range.
  pose proof (lcg_js_range s). pose proof (lcg_js_not_max s ltac:(lia)). lia.
Qed.

Lemma forEach_length {A B} (body : A -> Rand B) (l : list A) :
  forall rng, List.length (fst (forEach body l rng)) = List.length l.
Proof.
  induction l as [|a l IH]; intros rng; [reflexivity|].
  cbn [forEach]. unroll. cbn [ret fst List.length]. rewrite IH. reflexivity.
Qed.

Section SynthFacts.
Context {P : Platform}.
Variables (videoName : jsstring) (seed0 : number) (settings : AnalysisSettings).

(** Synthesis looks the ball and the surface up in their tables, and returns
    a report exactly when both lookups go through. *)

Lemma generateBallMetrics_produced sr rng :
  speed_range settings = Some sr ->
  exists bm, fst (generateBallMetrics settings rng) = Some bm.
Proof.
  intros E. unfold generateBallMetrics. cbv zeta. unroll.
  rewrite E, bind_ok_checked.
  destruct sr as [[p1 p2] [s1 s2]]. cbn [fst snd].
  match goal with
  | |- context [if ?b then _ else _] => destruct b
  end; unroll; cbn [ret fst]; eexists; reflexivity.
Qed.

Lemma generateBallMetrics_needs rng bm :
  fst (generateBallMetrics settings rng) = Some bm ->
  speed_range settings <> None.
Proof.
  unfold generateBallMetrics. cbv zeta. intros H. follow H.
  unfold checked in E. rewrite fst_ret in E. rewrite E. discriminate.
Qed.

Lemma generatePitchAnalysis_produced pil bf rng :
  bounce_factor settings = Some bf ->
  exists pa, fst (generatePitchAnalysis pil settings rng) = Some pa.
Proof.
  intros E. unfold generatePitchAnalysis. unroll.
  rewrite E, bind_ok_checked. unroll. cbn [ret fst]. eexists. reflexivity.
Qed.

Lemma generatePitchAnalysis_needs pil rng pa :
  fst (generatePitchAnalysis pil settings rng) = Some pa ->
  bounce_factor settings <> None.
Proof.
  unfold generatePitchAnalysis. intros H. follow H.
  unfold checked in E. rewrite fst_ret in E. rewrite E. discriminate.
Qed.

Lemma generateTrajectory_produced bf rng :
  bounce_factor settings = Some bf ->
  exists bx ix ls rng1 rng2 rng3,
    fst (generateTrajectory settings rng)
    = Some (fst (releaseToBounce bx ls rng1)
            ++ fst (bounceToImpact bx ix ls bf rng2)
            ++ fst (impactToStumps ix ls bf rng3)).
Proof.
  intros E. unfold generateTrajectory. cbv zeta. unroll.
  rewrite E, bind_ok_checked. unroll. cbn [ret fst].
  eexists _, _, _, _, _, _. reflexivity.
Qed.

Lemma generateTrajectory_segments rng tr :
  fst (generateTrajectory settings rng) = Some tr ->
  exists bx ix ls bf rng1 rng2 rng3,
    tr = fst (releaseToBounce bx ls rng1)
         ++ fst (bounceToImpact bx ix ls bf rng2)
         ++ fst (impactToStumps ix ls bf rng3).
Proof.
  unfold generateTrajectory. cbv zeta. intros H. follow H. rewrite <- H.
  eexists _, _, _, _, _, _, _. reflexivity.
Qed.

Lemma report_produced now :
  speed_range settings <> None -> bounce_factor settings <> None ->
  exists r, generateAnalysisResult videoName seed0 settings now = Some r.
Proof.
  intros Hs Hb.
  destruct (speed_range settings) as [sr|] eqn:Es; [clear Hs|elim Hs; reflexivity].
  destruct (bounce_factor settings) as [bf|] eqn:Eb; [clear Hb|elim Hb; reflexivity].
  unfold generateAnalysisResult, synthesize. cbv zeta. unroll.
  rewrite bind_ok_eq.
  match goal with
  | |- context [generateBallMetrics settings ?rng] =>
      destruct (generateBallMetrics_produced sr rng Es) as [bm ->]
  end.
  rewrite bind_ok_eq.
  match goal with
  | |- context [generatePitchAnalysis ?pil settings ?rng] =>
      destruct (generatePitchAnalysis_produced pil bf rng Eb) as [pa ->]
  end.
  unroll. rewrite bind_ok_eq.
  match goal with
  | |- context [generateTrajectory settings ?rng] =>
      destruct (generateTrajectory_produced bf rng Eb)
        as (bx & ix & ls & rng1 & rng2 & rng3 & ->)
  end.
  unroll. cbn [ret fst]. eexists. reflexivity.
Qed.

Lemma report_needs_lookups now r :
  generateAnalysisResult videoName seed0 settings now = Some r ->
  speed_range settings <> None /\ bounce_factor settings <> None.
Proof.
  unfold generateAnalysisResult, synthesize. cbv zeta. intros H. follow H.
  split.
  - eapply generateBallMetrics_needs; eassumption.
  - eapply generatePitchAnalysis_needs; eassumption.
Qed.

Lemma report_thrown now :
  generateAnalysisResult videoName seed0 settings now = None
  <-> speed_range settings = None \/ bounce_factor settings = None.
Proof.
  split.
  - intros H.
    destruct (speed_range settings) as [sr|] eqn:Es; [|left; reflexivity].
    destruct (bounce_factor settings) as [bf|] eqn:Eb; [|right; reflexivity].
    destruct (report_produced now) as [r E];
      [rewrite Es; discriminate|rewrite Eb; discriminate|].
    rewrite E in H. discriminate H.
  - intros H.
    destruct (generateAnalysisResult videoName seed0 settings now) as [r|] eqn:E;
      [|reflexivity].
    destruct (report_needs_lookups now r E) as [Hs Hb].
    destruct H as [H|H]; [elim (Hs H)|elim (Hb H)].
Qed.

(** What a report that was returned holds. *)
Section Returned.
Variables (now : Z) (r : AnalysisResult).
Hypothesis Hr : generateAnalysisResult videoName seed0 settings now = Some r.

Lemma decision_first_draw :
  decision r
  = if fgt (nth_draw 0 {| seed := seed0 |}) (dec 0.45) then OUT else NOT_OUT.
Proof.
  pose proof Hr as H. unfold generateAnalysisResult, synthesize in H.
  cbv zeta in H. follow H. rewrite <- H.
  rewrite nth_draw_O. reflexivity.
Qed.

Lemma criteria_drawn :
  criteria r
  = match decision r with
    | OUT => all_true
    | NOT_OUT =>
        let r0 := {| seed := seed0 |} in
        {| pitchedInLine := fgt (nth_draw 2 r0) (dec 0.3);
           impactInLine := fgt (nth_draw 3 r0) (dec 0.35);
           legBeforeBat := fgt (nth_draw 4 r0) (dec 0.25);
           wouldHitWickets := fgt (nth_draw 5 r0) (dec 0.7) |}
    end.
Proof.
  rewrite decision_first_draw.
  pose proof Hr as H. unfold generateAnalysisResult, synthesize in H.
  cbv zeta in H. follow H. rewrite <- H.
  cbn [criteria]. cbv zeta.
  rewrite !nth_draw_S, !nth_draw_O.
  destruct (fgt (fst (next {| seed := seed0 |})) (dec 0.45)); [reflexivity|].
  unfold drawCriteria. unroll. reflexivity.
Qed.

Lemma confidence_second_draw :
  confidence r = fadd (int 65) (fmul (nth_draw 1 {| seed := seed0 |}) (int 30)).
Proof.
  pose proof Hr as H. unfold generateAnalysisResult, synthesize in H.
  cbv zeta in H. follow H. rewrite <- H.
  cbn [confidence]. rewrite nth_draw_S, nth_draw_O. reflexivity.
Qed.

Lemma confidence_range :
  exists c, confidence r = Fin c /\ (65 <= c <= 95)%Q.
Proof.
  rewrite confidence_second_draw.
  destruct (later_draw_unit 0 {| seed := seed0 |}) as (q & -> & Hq).
  rewrite (int_small 30), (int_small 65) by (vm_compute; discriminate).
  unfold fmul.
  assert (B1 : (inject_Z 0 <= q * inject_Z 30 <= inject_Z 30)%Q).
  { change (inject_Z 0) with 0%Q. change (inject_Z 30) with 30%Q. lra. }
  destruct (of_Q_between 0 30 _ ltac:(lia) ltac:(vm_compute; discriminate) B1)
    as (p & -> & Hp).
  unfold fadd.
  assert (B2 : (inject_Z 65 <= inject_Z 65 + p <= inject_Z 95)%Q).
  { change (inject_Z 0) with 0%Q in Hp. change (inject_Z 30) with 30%Q in Hp.
    change (inject_Z 65) with 65%Q. change (inject_Z 95) with 95%Q. lra. }
  destruct (of_Q_between 65 95 _ ltac:(lia) ltac:(vm_compute; discriminate) B2)
    as (c & -> & Hc).
  exists c. split; [reflexivity|].
  change (inject_Z 65) with 65%Q in Hc. change (inject_Z 95) with 95%Q in Hc. exact Hc.
Qed.

Lemma trajectory_segments :
  exists bx ix ls bf rng1 rng2 rng3,
    trajectory r
    = fst (releaseToBounce bx ls rng1) ++ fst (bounceToImpact bx ix ls bf rng2)
      ++ fst (impactToStumps ix ls bf rng3).
Proof.
  pose proof Hr as H. unfold generateAnalysisResult, synthesize in H.
  cbv zeta in H. follow H. rewrite <- H.
  cbn [trajectory]. eapply generateTrajectory_segments. eassumption.
Qed.

Lemma createdAt_clock : createdAt r = DateAt now.
Proof.
  pose proof Hr as H. unfold generateAnalysisResult, synthesize in H.
  cbv zeta in H. follow H. rewrite <- H.
  reflexivity.
Qed.

End Returned.

Lemma synthesis_clock now1 now2 :
  generateAnalysisResult videoName seed0 settings now1
  = option_map (with_createdAt (DateAt now1))
      (generateAnalysisResult videoName seed0 settings now2).
Proof.
  unfold generateAnalysisResult, synthesize. repeat name_step; reflexivity.
Qed.

Lemma segment_lengths bx ix ls bf rng :
  List.length (fst (releaseToBounce bx ls rng)) = 11%nat
  /\ List.length (fst (bounceToImpact bx ix ls bf rng)) = 10%nat
  /\ List.length (fst (impactToStumps ix ls bf rng)) = 5%nat.
Proof.
  unfold releaseToBounce, bounceToImpact, impactToStumps.
  rewrite !forEach_length. repeat split; reflexivity.
Qed.

Lemma trajectory_length now r :
  generateAnalysisResult videoName seed0 settings now = Some r ->
  List.length (trajectory r) = 26%nat.
Proof.
  intros Hr.
  destruct (trajectory_segments now r Hr)
    as (bx & ix & ls & bf & rng1 & rng2 & rng3 & E).
  destruct (segment_lengths bx ix ls bf rng1) as (L1 & _ & _).
  destruct (segment_lengths bx ix ls bf rng2) as (_ & L2 & _).
  destruct (segment_lengths bx ix ls bf rng3) as (_ & _ & L3).
  rewrite E, !length_app, L1, L2, L3. reflexivity.
Qed.

End SynthFacts.

(** With the default configuration both lookups go through. *)
Lemma default_report_produced {P : Platform} videoName seed0 now :
  exists r, generateAnalysisResult videoName seed0 MOCK_DEFAULTS now = Some r.
Proof. apply report_produced; vm_compute; discriminate. Qed.

(** C1 (amended): for every seed and configuration, the decision of the
    report synthesis returns is OUT exactly when the first value drawn
    exceeds 0.45, and NOT_OUT exactly when it does not (the claim has the two
    outcomes the other way round). *)
Theorem decision_out_iff_first_draw_above {P : Platform}
  (videoName : jsstring) (seed0 : number) (settings : AnalysisSettings) (now : Z)
  (r : AnalysisResult) :
  generateAnalysisResult videoName seed0 settings now = Some r ->
  let d := nth_draw 0 {| seed := seed0 |} in
  (decision r = OUT <-> fgt d (dec 0.45) = true)
  /\ (decision r = NOT_OUT <-> fgt d (dec 0.45) = false).
Proof.
  intros Hr d. unfold d.
  rewrite (decision_first_draw videoName seed0 settings now r Hr).
  destruct (fgt (nth_draw 0 {| seed := seed0 |}) (dec 0.45));
    repeat split; intros H; (reflexivity || discriminate H).
Qed.

(** Witness: the report of seed 12345 with the default configuration. *)
Lemma decision_out_iff_first_draw_above_witness :
  exists r,
    generateAnalysisResult (P := sample_platform) (str "match_delivery_01.mp4")
      (int 12345) MOCK_DEFAULTS 0 = Some r
    /\ (decision r = OUT
        <-> fgt (nth_draw 0 {| seed := int 12345 |}) (dec 0.45) = true)
    /\ (decision r = NOT_OUT
        <-> fgt (nth_draw 0 {| seed := int 12345 |}) (dec 0.45) = false).
Proof.
  destruct (default_report_produced (P := sample_platform)
              (str "match_delivery_01.mp4") (int 12345) 0) as [r E].
  exists r. split; [exact E|].
  exact (decision_out_iff_first_draw_above _ _ _ _ r E).
Defined.

(** C1 as stated fails: with seed 12345 the first value drawn (about 0.655)
    exceeds 0.45 and the decision is OUT, where the claim says NOT_OUT. *)
Lemma decision_first_draw_counterexample :
  fgt (nth_draw 0 {| seed := int 12345 |}) (dec 0.45) = true
  /\ forall P : Platform,
       exists r,
         @generateAnalysisResult P (str "match_delivery_01.mp4")
           (int 12345) MOCK_DEFAULTS 0 = Some r
         /\ decision r = OUT.
Proof.
  split; [vm_compute; reflexivity|].
  intros P.
  destruct (default_report_produced (str "match_delivery_01.mp4") (int 12345) 0)
    as [r E].
  exists r. split; [exact E|].
  rewrite (decision_first_draw _ _ _ _ r E). vm_compute. reflexivity.
Qed.

(** The half of C2 the code keeps: a report whose decision is OUT has all
    four criteria true, the OUT branch overwriting what was drawn; a NOT_OUT
    report carries the third to sixth value drawn, compared with 0.3, 0.35,
    0.25 and 0.7. *)
Lemma criteria_follow_decision {P : Platform}
  (videoName : jsstring) (seed0 : number) (settings : AnalysisSettings) (now : Z)
  (r : AnalysisResult) :
  generateAnalysisResult videoName seed0 settings now = Some r ->
  let r0 := {| seed := seed0 |} in
  (decision r = OUT -> criteria r = all_true)
  /\ (decision r = NOT_OUT ->
      criteria r = {| pitchedInLine := fgt (nth_draw 2 r0) (dec 0.3);
                      impactInLine := fgt (nth_draw 3 r0) (dec 0.35);
                      legBeforeBat := fgt (nth_draw 4 r0) (dec 0.25);
                      wouldHitWickets := fgt (nth_draw 5 r0) (dec 0.7) |}).
Proof.
  intros Hr r0. unfold r0.
  rewrite (criteria_drawn videoName seed0 settings now r Hr).
  destruct (decision r); split; intros H; (reflexivity || discriminate H).
Qed.

(** C2, where the code departs from it: synthesized from seed 26 with the
    default configuration, the report's decision is NOT_OUT and its four
    criteria are all true.  The NOT_OUT branch keeps the criteria as drawn
    and never checks that one of them is false, while the OUT branch does
    make the criteria agree with the decision. *)
Theorem not_out_report_with_every_criterion_true {P : Platform} :
  exists r,
    generateAnalysisResult (str "clip.mp4") (int 26) MOCK_DEFAULTS 0 = Some r
    /\ decision r = NOT_OUT
    /\ criteria r = all_true
    /\ (pitchedInLine (criteria r) && impactInLine (criteria r)
        && legBeforeBat (criteria r) && wouldHitWickets (criteria r) = true)
    /\ fgt (nth_draw 0 {| seed := int 26 |}) (dec 0.45) = false.
Proof.
  destruct (default_report_produced (str "clip.mp4") (int 26) 0) as [r E].
  exists r. split; [exact E|].
  assert (D : decision r = NOT_OUT)
    by (rewrite (decision_first_draw _ _ _ _ r E); vm_compute; reflexivity).
  assert (C : criteria r = all_true)
    by (rewrite (criteria_drawn _ _ _ _ r E), D; vm_compute; reflexivity).
  split; [exact D|]. split; [exact C|]. rewrite C.
  split; [reflexivity|]. vm_compute. reflexivity.
Qed.

(** C3 (amended): two invocations on the same (videoName, seed, settings)
    either both throw or return reports that agree on every field except
    [createdAt], which is the time each invocation read off the clock. *)
Theorem synthesis_deterministic_up_to_clock {P : Platform}
  (videoName : jsstring) (seed0 : number) (settings : AnalysisSettings)
  (now1 now2 : Z) :
  generateAnalysisResult videoName seed0 settings now1
  = option_map (with_createdAt (DateAt now1))
      (generateAnalysisResult videoName seed0 settings now2)
  /\ (forall r, generateAnalysisResult videoName seed0 settings now1 = Some r ->
                createdAt r = DateAt now1).
Proof.
  split; [apply synthesis_clock|].
  intros r Hr. exact (createdAt_clock videoName seed0 settings now1 r Hr).
Qed.

(** C3 as stated fails: the same inputs synthesized at clock readings 0 and 1
    give reports whose [createdAt] fields differ. *)
Lemma synthesis_clock_counterexample :
  DateAt 0 <> DateAt 1
  /\ forall P : Platform,
       exists r0 r1,
         @generateAnalysisResult P (str "clip.mp4") (int 12345) MOCK_DEFAULTS 0
         = Some r0
         /\ @generateAnalysisResult P (str "clip.mp4") (int 12345) MOCK_DEFAULTS 1
            = Some r1
         /\ createdAt r0 = DateAt 0 /\ createdAt r1 = DateAt 1
         /\ r0 <> r1.
Proof.
  split; [discriminate|]. intros P.
  destruct (default_report_produced (str "clip.mp4") (int 12345) 0) as [r0 E0].
  destruct (default_report_produced (str "clip.mp4") (int 12345) 1) as [r1 E1].
  pose proof (createdAt_clock _ _ _ _ r0 E0) as C0.
  pose proof (createdAt_clock _ _ _ _ r1 E1) as C1.
  exists r0, r1. repeat (split; [assumption|]).
  intros N. rewrite N, C1 in C0. discriminate C0.
Qed.

(** C4 (amended): for every seed and configuration — seed 12345 with the
    default configuration included — the trajectory of the report synthesis
    returns is the 11 samples of the release-to-bounce loop, then the 10 of
    the bounce-to-impact loop (which starts at i = 1), then the 5 of the
    impact-to-stumps loop: 26 points. *)
Theorem trajectory_has_26_points {P : Platform}
  (videoName : jsstring) (seed0 : number) (settings : AnalysisSettings) (now : Z)
  (r : AnalysisResult) :
  generateAnalysisResult videoName seed0 settings now = Some r ->
  exists bx ix ls bf rng1 rng2 rng3,
    let seg1 := fst (releaseToBounce bx ls rng1) in
    let seg2 := fst (bounceToImpact bx ix ls bf rng2) in
    let seg3 := fst (impactToStumps ix ls bf rng3) in
    trajectory r = seg1 ++ seg2 ++ seg3
    /\ List.length seg1 = 11%nat /\ List.length seg2 = 10%nat
    /\ List.length seg3 = 5%nat
    /\ List.length (trajectory r) = 26%nat.
Proof.
  intros Hr.
  destruct (trajectory_segments videoName seed0 settings now r Hr)
    as (bx & ix & ls & bf & rng1 & rng2 & rng3 & E).
  exists bx, ix, ls, bf, rng1, rng2, rng3. cbv zeta.
  destruct (segment_lengths bx ix ls bf rng1) as (L1 & _ & _).
  destruct (segment_lengths bx ix ls bf rng2) as (_ & L2 & _).
  destruct (segment_lengths bx ix ls bf rng3) as (_ & _ & L3).
  repeat split; try assumption.
  exact (trajectory_length videoName seed0 settings now r Hr).
Qed.

(** Witness: the report of seed 12345 with the default configuration. *)
Lemma trajectory_has_26_points_witness :
  exists r,
    generateAnalysisResult (P := sample_platform) (str "match_delivery_01.mp4")
      (int 12345) MOCK_DEFAULTS 0 = Some r
    /\ exists bx ix ls bf rng1 rng2 rng3,
         let seg1 := fst (releaseToBounce bx ls rng1) in
         let seg2 := fst (bounceToImpact bx ix ls bf rng2) in
         let seg3 := fst (impactToStumps (P := sample_platform) ix ls bf rng3) in
         trajectory r = seg1 ++ seg2 ++ seg3
         /\ List.length seg1 = 11%nat /\ List.length seg2 = 10%nat
         /\ List.length seg3 = 5%nat
         /\ List.length (trajectory r) = 26%nat.
Proof.
  destruct (default_report_produced (P := sample_platform)
              (str "match_delivery_01.mp4") (int 12345) 0) as [r E].
  exists r. split; [exact E|].
  exact (trajectory_has_26_points _ _ _ _ r E).
Defined.

(** C4 as stated fails: with seed 12345 and the default configuration the
    trajectory has 26 points, not 27. *)
Lemma trajectory_27_counterexample :
  26%nat <> 27%nat
  /\ forall P : Platform,
       exists r,
         @generateAnalysisResult P (str "match_delivery_01.mp4") (int 12345)
           MOCK_DEFAULTS 0 = Some r
         /\ List.length (trajectory r) = 26%nat
         /\ List.length (trajectory r) <> 27%nat.
Proof.
  split; [discriminate|]. intros P.
  destruct (default_report_produced (str "match_delivery_01.mp4") (int 12345) 0)
    as [r E].
  pose proof (trajectory_length _ _ _ _ r E) as L.
  exists r. split; [exact E|]. split; [exact L|]. rewrite L. discriminate.
Qed.

(** ** The response parser *)

Section ParserFacts.
Context {P : Platform}.

Lemma parsed_confidence data now r :
  parseAnalysisResult data now = Some r ->
  number_or_zero (get_opt data "confidence") = Some (p_confidence r).
Proof.
  unfold parseAnalysisResult. destruct (get data "id"); [|discriminate].
  cbv zeta.
  repeat match goal with
         | |- match ?o with Some _ => _ | None => None end = Some _ -> _ =>
             destruct o; [|discriminate]
         end.
  intros E. apply some_eq in E. rewrite <- E. reflexivity.
Qed.

Lemma int_zero : int 0 = Fin 0.
Proof. apply (int_small 0). vm_compute. discriminate. Qed.

End ParserFacts.

(** C7 (amended): every report synthesis returns has a finite confidence
    between 65 and 95, so within [0, 100].  The response parser does not
    clamp: the confidence of a parsed report is [Number(payload.confidence)]
    when that is neither 0 nor NaN and 0 otherwise — 0 for a missing field,
    the payload's own number q for a finite non-zero q, whether or not q
    lies in [0, 100]. *)
Theorem confidence_bounds {P : Platform} :
  (forall videoName seed0 settings now r,
     generateAnalysisResult videoName seed0 settings now = Some r ->
     exists c, confidence r = Fin c /\ (65 <= c <= 95)%Q)
  /\ (forall data now r,
        parseAnalysisResult data now = Some r ->
        number_or_zero (get_opt data "confidence") = Some (p_confidence r)
        /\ (get_opt data "confidence" = JUndefined -> p_confidence r = Fin 0)
        /\ (forall q, get_opt data "confidence" = JNum (Fin q) ->
                      p_confidence r = if is_zero q then Fin 0 else Fin q)).
Proof.
  split.
  - intros videoName seed0 settings now r Hr.
    exact (confidence_range videoName seed0 settings now r Hr).
  - intros data now r H. pose proof (parsed_confidence data now r H) as C.
    split; [exact C|]. split.
    + intros E. rewrite E in C. unfold number_or_zero in C.
      cbn [ToNumber truthy] in C. apply some_eq in C. rewrite <- C.
      apply int_zero.
    + intros q E. rewrite E in C. unfold number_or_zero in C.
      cbn [ToNumber truthy] in C. apply some_eq in C. rewrite <- C.
      destruct (is_zero q); cbn [negb]; [apply int_zero | reflexivity].
Qed.

(** Witness: the sample payload parses, and its confidence is the one it
    carries. *)
Lemma confidence_bounds_witness :
  exists r,
    parseAnalysisResult (P := sample_platform) sample_payload 0 = Some r
    /\ number_or_zero (P := sample_platform)
         (get_opt sample_payload "confidence")
       = Some (p_confidence r).
Proof.
  eexists. split; [reflexivity|].
  exact (proj1 (proj2 (confidence_bounds (P := sample_platform))
                  sample_payload 0 _ eq_refl)).
Defined.

(** C7 as stated fails: a payload whose confidence field is 150 parses to a
    report whose confidence is 150, above 100. *)
Lemma parsed_confidence_counterexample :
  (forall (P : Platform) (now : Z),
     exists r, @parseAnalysisResult P
                 (JObj [ (str "confidence", JNum (int 150)) ]) now = Some r
               /\ p_confidence r = int 150)
  /\ flt (int 100) (int 150) = true.
Proof.
  split; [|vm_compute; reflexivity].
  intros P now. eexists. split; [reflexivity|]. vm_compute. reflexivity.
Qed.

(** ** The event stream *)

Lemma decode_app d a b :
  decode d (a ++ b)
  = (fst (decode d a) ++ fst (decode (snd (decode d a)) b),
     snd (decode (snd (decode d a)) b)).
Proof.
  revert d. induction a as [|x a IH]; intros d.
  - cbn [app decode fst snd]. destruct (decode d b). reflexivity.
  - cbn [app decode]. destruct (decode_byte d x) as [out d1].
    rewrite IH. destruct (decode d1 a) as [outs d2]. cbn [fst snd].
    rewrite app_assoc. reflexivity.
Qed.

(** [split_from] never returns the empty list. *)
Lemma split_from_nonempty : forall s cur, split_from cur s <> [].
Proof.
  fix IH 1. intros s cur. destruct s as [|c s']; [discriminate|].
  pose proof (IH s') as IHs'.
  destruct s' as [|c' s'']; [discriminate|].
  cbn [split_from]. destruct ((c =? 10) && (c' =? 10)); [discriminate|].
  apply IHs'.
Qed.

Lemma resumable_nil : resumable [].
Proof. intros t. reflexivity. Qed.

(** One character that does not start a delimiter moves into the piece. *)
Lemma split_from_step c cur t :
  (forall t', t = 10 :: t' -> c <> 10) ->
  split_from cur (c :: t) = split_from (c :: cur) t.
Proof.
  intros H. destruct t as [|c' t']; [reflexivity|].
  cbn [split_from].
  destruct (Z.eqb_spec c 10) as [Ec|Ec]; [|reflexivity].
  destruct (Z.eqb_spec c' 10) as [Ec'|Ec']; [|reflexivity].
  exfalso. subst c'. apply (H t' eq_refl). exact Ec.
Qed.

Lemma resumable_push c cur :
  c <> 10 -> resumable cur -> resumable (c :: cur).
Proof.
  intros Hc Hr t. cbn [rev]. rewrite <- app_assoc. cbn [app].
  rewrite Hr. apply split_from_step. intros t' _. exact Hc.
Qed.

Lemma resumable_push2 c cur :
  c <> 10 -> resumable cur -> resumable (c :: 10 :: cur).
Proof.
  intros Hc Hr t. cbn [rev]. rewrite <- !app_assoc. cbn [app].
  rewrite Hr.
  rewrite split_from_step by (intros t' E; injection E as E1 _; congruence).
  apply split_from_step. intros t' _. exact Hc.
Qed.

(** Splitting a text that grows: the complete pieces are final, and the
    scan of the longer text resumes from the last, incomplete piece. *)
Lemma split_from_app : forall s cur t,
  resumable cur ->
  split_from cur (s ++ t)
  = removelast (split_from cur s) ++ split_from [] (last (split_from cur s) [] ++ t).
Proof.
  fix IH 1. intros s cur t Hr.
  destruct s as [|c s'].
  - cbn [app split_from removelast last]. symmetry. apply Hr.
  - pose proof (IH s') as IHs'.
    destruct s' as [|c' s''].
    + cbn [split_from removelast last app]. cbn [rev]. rewrite <- app_assoc.
      cbn [app]. symmetry. apply Hr.
    + destruct (Z.eqb_spec c 10) as [Ec|Ec].
      * destruct (Z.eqb_spec c' 10) as [Ec'|Ec'].
        -- (* a delimiter: the piece is complete *)
           subst c c'. cbn [app split_from Z.eqb Pos.eqb andb].
           rewrite (IH s'' [] t resumable_nil).
           pose proof (split_from_nonempty s'' []) as Hne.
           destruct (split_from [] s'') as [|p ps] eqn:E; [congruence|].
           reflexivity.
        -- (* a lone line feed, then another character *)
           subst c.
           change ((10 :: c' :: s'') ++ t) with (10 :: c' :: (s'' ++ t)).
           rewrite (split_from_step 10 cur (c' :: s'' ++ t))
             by (intros t' E; injection E as E1 _; congruence).
           rewrite (split_from_step c' (10 :: cur) (s'' ++ t)).
           2:{ intros t' _. exact Ec'. }
           rewrite (split_from_step 10 cur (c' :: s''))
             by (intros t' E; injection E as E1 _; congruence).
           rewrite (split_from_step c' (10 :: cur) s'').
           2:{ intros t' _. exact Ec'. }
           apply IH. apply resumable_push2; assumption.
      * change ((c :: c' :: s'') ++ t) with (c :: ((c' :: s'') ++ t)).
        rewrite (split_from_step c cur ((c' :: s'') ++ t))
          by (intros t' _; exact Ec).
        rewrite (split_from_step c cur (c' :: s'')) by (intros t' _; exact Ec).
        apply IHs'. apply resumable_push; assumption.
Qed.

Lemma split_frames_app s t :
  split_frames (s ++ t)
  = removelast (split_frames s) ++ split_frames (last (split_frames s) [] ++ t).
Proof. apply split_from_app, resumable_nil. Qed.

(** The piece left in the buffer holds no complete frame. *)
Lemma last_piece_incomplete s :
  removelast (split_frames (last (split_frames s) [])) = [].
Proof.
  pose proof (split_frames_app s []) as H. rewrite !app_nil_r in H.
  pose proof (split_from_nonempty s []) as Hne. fold (split_frames s) in Hne.
  rewrite (app_removelast_last [] Hne) in H at 1.
  apply app_inv_head in H. rewrite <- H. reflexivity.
Qed.

Section StreamFacts.
Context {P : Platform}.
Variable now : Z.

Lemma dispatchLines_app l1 l2 :
  dispatchLines now (l1 ++ l2)
  = if snd (dispatchLines now l1) then (fst (dispatchLines now l1), true)
    else (fst (dispatchLines now l1) ++ fst (dispatchLines now l2),
          snd (dispatchLines now l2)).
Proof.
  induction l1 as [|line l1 IH].
  - cbn [app dispatchLines fst snd]. destruct (dispatchLines now l2). reflexivity.
  - cbn [app dispatchLines]. destruct (dispatchLine now line) as [out stop].
    destruct stop; [reflexivity|].
    rewrite IH. destruct (dispatchLines now l1) as [o1 s1]. cbn [fst snd].
    destruct s1; [reflexivity|].
    destruct (dispatchLines now l2) as [o2 s2]. cbn [fst snd].
    rewrite app_assoc. reflexivity.
Qed.

(** What the loop dispatches from a state whose buffer holds no complete
    frame: the complete frames of the buffer followed by all the text still
    to come, whatever the chunks it comes in. *)
Lemma processEvents_frames chunks : forall decoder buffer,
  complete_frames buffer = [] ->
  processEvents now decoder buffer chunks
  = fst (dispatchLines now
           (complete_frames (buffer ++ fst (decode decoder (List.concat chunks))))).
Proof.
  induction chunks as [|value rest IH]; intros decoder buffer Hb.
  - cbn [processEvents List.concat decode fst]. rewrite app_nil_r, Hb. reflexivity.
  - cbn [processEvents List.concat]. rewrite decode_app.
    destruct (decode decoder value) as [text decoder']. cbn [fst snd].
    rewrite app_assoc.
    unfold complete_frames. rewrite (split_frames_app (buffer ++ text)).
    set (lines := split_frames (buffer ++ text)).
    set (more := fst (decode decoder' (List.concat rest))).
    rewrite removelast_app by apply split_from_nonempty.
    rewrite dispatchLines_app.
    rewrite (IH decoder' (last lines [])) by apply last_piece_incomplete.
    fold more. unfold complete_frames.
    destruct (dispatchLines now (removelast lines)) as [out stop].
    cbn [fst snd]. destruct stop; reflexivity.
Qed.

End StreamFacts.

(** C5: for every payload and every way of cutting its bytes into chunks,
    the read loop dispatches exactly what the complete frames of the whole
    decoded text dispatch — hence the same step, result and error events, and
    the same settlement of the promise, as when the payload arrives in one
    piece; the text after the last blank line is never looked at. *)
Theorem stream_reassembly {P : Platform} (now : Z) (chunks : list (list Z)) :
  let whole := List.concat chunks in
  let run := processEvents now new_decoder [] chunks in
  run = fst (dispatchLines now
               (complete_frames (fst (decode new_decoder whole))))
  /\ run = processEvents now new_decoder [] [whole]
  /\ step_updates run = step_updates (processEvents now new_decoder [] [whole])
  /\ settlement run = settlement (processEvents now new_decoder [] [whole]).
Proof.
  intros whole run.
  assert (E1 : run = fst (dispatchLines now
                            (complete_frames (fst (decode new_decoder whole))))).
  { unfold run, whole. rewrite processEvents_frames by reflexivity. reflexivity. }
  assert (E2 : run = processEvents now new_decoder [] [whole]).
  { rewrite E1. rewrite processEvents_frames by reflexivity.
    cbn [List.concat]. rewrite app_nil_r. reflexivity. }
  split; [exact E1|]. split; [exact E2|]. rewrite <- E2. split; reflexivity.
Qed.
(** ** The content fingerprint *)

(** C10 (amended).  For a file of size zero the chunk loop runs no round and
    reads nothing: the [try] block itself returns, with the seed 84696351 (the
    FNV basis mixed with the size), after one progress call, with 100.  The
    metadata fallback is not entered, whatever a read of the file would have
    done. *)
Theorem empty_file_fingerprint {P : Platform} (name : jsstring) (stamp : Z)
  (read : number -> number -> option (list Z)) :
  let file := {| file_name := name; file_size := 0; lastModified := stamp;
                 read_slice := read |} in
  hashContent file = ([int 100], Some (int 84696351))
  /\ generateFileHash file = (int 84696351, [int 100])
  /\ as_integer (fst (generateFileHash file)) = Some 84696351.
Proof.
  intros file.
  assert (E : hashContent file = ([int 100], Some (int 84696351)))
    by (vm_compute; reflexivity).
  split; [exact E|]. unfold generateFileHash. rewrite E.
  split; [reflexivity|]. vm_compute. reflexivity.
Qed.

(** C10, as stated, fails: an empty file whose reads would all be rejected
    still gets the content hash, which differs from the metadata hash of its
    name, size and time stamp on every platform. *)
Lemma empty_file_fallback_counterexample :
  let file := {| file_name := str "clip.mp4"; file_size := 0;
                 lastModified := 1700000000000;
                 read_slice := fun _ _ => None |} in
  hashContent file = ([int 100], Some (int 84696351))
  /\ forall P : Platform,
       generateFileHash file = (int 84696351, [int 100])
       /\ hashMetadata file = int 976893197
       /\ fst (generateFileHash file) <> hashMetadata file.
Proof.
  split; [vm_compute; reflexivity|].
  intros P.
  assert (E1 : generateFileHash
                 {| file_name := str "clip.mp4"; file_size := 0;
                    lastModified := 1700000000000;
                    read_slice := fun _ _ => None |}
               = (int 84696351, [int 100])) by (vm_compute; reflexivity).
  assert (E2 : hashMetadata
                 {| file_name := str "clip.mp4"; file_size := 0;
                    lastModified := 1700000000000;
                    read_slice := fun _ _ => None |}
               = int 976893197) by (vm_compute; reflexivity).
  split; [exact E1|]. split; [exact E2|].
  rewrite E1, E2. cbn [fst]. vm_compute. discriminate.
Qed.

(** ** Asynchronous code *)

Lemma settles_pure {S A} (a : A) : settles (pure (S := S) a).
Proof. intros s. discriminate. Qed.

Lemma settles_throw {S A} (e : Failure) : settles (throw (S := S) (A := A) e).
Proof. intros s. discriminate. Qed.

Lemma settles_await {X A} (c : X -> Reply A * X) : settles (await c).
Proof. intros x. unfold await. destruct (c x) as [[a|e] x']; discriminate. Qed.

Lemma settles_prop {S} (v : jsvalue) (key : string) : settles (prop (S := S) v key).
Proof. intros s. unfold prop. destruct (get v key); discriminate. Qed.

Lemma settles_convert {S A} (o : option A) : settles (convert (S := S) o).
Proof. intros s. unfold convert. destruct o; discriminate. Qed.

Lemma settles_bind {S A B} (m : Async S A) (k : A -> Async S B) :
  settles m -> (forall a, settles (k a)) -> settles (and_then m k).
Proof.
  intros Hm Hk s. unfold and_then. specialize (Hm s).
  destruct (m s) as [[a|e|] s']; cbn [fst] in *;
    [apply Hk | discriminate | congruence].
Qed.

Lemma settles_try_catch {S A} (body : Async S A) (handler : Failure -> Async S A) :
  settles body -> (forall e, settles (handler e)) -> settles (try_catch body handler).
Proof.
  intros Hb Hh s. unfold try_catch. specialize (Hb s).
  destruct (body s) as [[a|e|] s']; cbn [fst] in *;
    [discriminate | apply Hh | congruence].
Qed.

Ltac settle :=
  repeat first
    [ apply settles_pure | apply settles_throw | apply settles_await
    | apply settles_prop | apply settles_convert
    | apply settles_bind; [|intros ?]
    | apply settles_try_catch; [|intros ?]
    | match goal with
      | |- settles (if ?b then _ else _) => destruct b
      | |- settles (match ?x with _ => _ end) => destruct x
      end ].

(** A [try] whose handler returns and whose body settles returns. *)
Lemma try_catch_returns {S A} (body : Async S A) (fallback : A) s :
  settles body ->
  exists a s', try_catch body (fun _ => pure fallback) s = (Returns a, s').
Proof.
  intros Hb. unfold try_catch. specialize (Hb s).
  destruct (body s) as [[a|e|] s']; cbn [fst] in *;
    [eauto | unfold pure; eauto | congruence].
Qed.

Lemma outside_keeps {X A} (m : Async X A) (w : World X) o w' :
  outside m w = (o, w') ->
  storedAnalyses w' = storedAnalyses w /\ called w' = called w.
Proof.
  unfold outside. destruct (m (host w)) as [o' x]. intros [= _ <-]. split; reflexivity.
Qed.

Lemma outside_returns {X A} (m : Async X A) (w : World X) :
  (forall x, exists a x', m x = (Returns a, x')) ->
  exists a w', outside m w = (Returns a, w')
               /\ storedAnalyses w' = storedAnalyses w.
Proof.
  intros Hm. destruct (Hm (host w)) as (a & x' & E).
  unfold outside. rewrite E. eexists _, _. split; reflexivity.
Qed.

Lemma settles_outside {X A} (m : Async X A) : settles m -> settles (outside m).
Proof.
  intros Hm w. unfold outside. specialize (Hm (host w)).
  destruct (m (host w)) as [o x]. exact Hm.
Qed.

Lemma steady_pure {X A} (a : A) : steady (pure (S := World X) a).
Proof. intros w. eexists _, _. split; reflexivity. Qed.

Lemma steady_call {X} (c : Callback) : steady (call (X := X) c).
Proof. intros w. eexists _, _. split; reflexivity. Qed.

Lemma steady_wait {X} {H : Host X} (ms : number) : steady (wait ms).
Proof. intros w. eexists _, _. split; reflexivity. Qed.

Lemma steady_now {X} {H : Host X} : steady now.
Proof. intros w. eexists _, _. split; reflexivity. Qed.

Lemma steady_random {X} {H : Host X} : steady random.
Proof.
  intros w. unfold random. destruct (Math_random (host w)) as [r x].
  eexists _, _. split; reflexivity.
Qed.

Lemma steady_bind {X A B} (m : Async (World X) A) (k : A -> Async (World X) B) :
  steady m -> (forall a, steady (k a)) -> steady (and_then m k).
Proof.
  intros Hm Hk w. destruct (Hm w) as (a & w1 & E1 & S1).
  destruct (Hk a w1) as (b & w2 & E2 & S2).
  exists b, w2. unfold and_then. rewrite E1. split; [exact E2|congruence].
Qed.

Lemma steady_for_of {X A B} (l : list A) (body : A -> Async (World X) B) :
  (forall a, steady (body a)) -> steady (for_of l body).
Proof.
  intros Hb. induction l as [|a l IH]; cbn [for_of].
  - apply steady_pure.
  - apply steady_bind; [apply Hb|]. intros b.
    apply steady_bind; [exact IH|]. intros bs. apply steady_pure.
Qed.

Ltac steadily :=
  repeat match goal with
         | |- steady (pure _) => apply steady_pure
         | |- steady (call _) => apply steady_call
         | |- steady (wait _) => apply steady_wait
         | |- steady now => apply steady_now
         | |- steady random => apply steady_random
         | |- steady (for_of _ _) => apply steady_for_of; intros ?
         | |- steady (and_then _ _) => apply steady_bind; [|intros ?]
         end.

(** ** The durable store's client *)

Section StoreFacts.
Context {P : Platform} {X : Type} {H : Host X}.

Lemma isUserAuthenticated_settles : settles (isUserAuthenticated (X := X)).
Proof. unfold isUserAuthenticated. settle. Qed.

(** [saveAnalysisToDb] never throws: whatever the store's client answers or
    raises, and whatever the report holds, it returns a boolean. *)
Lemma saveAnalysisToDb_returns (result : Report) (x : X) :
  exists saved x', saveAnalysisToDb result x = (Returns saved, x').
Proof.
  unfold saveAnalysisToDb. apply try_catch_returns.
  unfold toDbFormat. settle.
Qed.

Lemma getAnalysisFromDb_returns (key : jsstring) (x : X) :
  exists found x', getAnalysisFromDb key x = (Returns found, x').
Proof. unfold getAnalysisFromDb. apply try_catch_returns. settle. Qed.

(** A record the client hands out was built by [fromDbFormat]. *)
Lemma getAnalysisFromDb_some (key : jsstring) (x x' : X) (db : DbResult) :
  getAnalysisFromDb key x = (Returns (Some db), x') ->
  exists row, ToBoolean row = true /\ fromDbFormat row = Some db.
Proof.
  unfold getAnalysisFromDb, try_catch, and_then, await, prop, convert, pure, throw.
  destruct (analyses_select key x) as [[response|e] x1]; [|intros [=]].
  destruct (get response "data") as [data|]; [|intros [=]].
  destruct (get response "error") as [error|]; [|intros [=]].
  destruct (ToBoolean error); [intros [=]|].
  destruct (ToBoolean data) eqn:T; cbn [negb]; [|intros [=]].
  destruct (fromDbFormat data) as [result|] eqn:F; [|intros [=]].
  intros [= <- _]. exists data. split; [exact T|exact F].
Qed.

Lemma or_else_truthy (a b : jsvalue) :
  ToBoolean b = true -> ToBoolean (or_else a b) = true.
Proof. intros Hb. unfold or_else. destruct (ToBoolean a) eqn:E; assumption. Qed.

Lemma or_else_same (a b : jsvalue) : ToBoolean a = true -> or_else a b = a.
Proof. intros Ha. unfold or_else. rewrite Ha. reflexivity. Qed.

Lemma fromDbFormat_trajectory (row : jsvalue) (db : DbResult) :
  fromDbFormat row = Some db ->
  or_else (db_trajectory db) (JArr []) = db_trajectory db.
Proof.
  unfold fromDbFormat.
  destruct (ToNumber (get_opt row "confidence")); [|discriminate].
  destruct (new_Date _); [|discriminate].
  intros E. apply some_eq in E. rewrite <- E.
  apply or_else_same. cbn [db_trajectory].
  apply or_else_truthy. reflexivity.
Qed.

(** The block that saves a synthesized report returns, and leaves the
    in-memory log alone. *)
Lemma save_if_authenticated_steady (result : Report) :
  steady
    (try_catch
       (authenticated <- outside (isUserAuthenticated (X := X)) ;;
        if authenticated
        then outside (saveAnalysisToDb result) ;;; pure tt
        else pure tt)
       (fun err => pure tt)).
Proof.
  intros w. unfold try_catch, and_then.
  pose proof (settles_outside _ isUserAuthenticated_settles w) as Hs.
  destruct (outside isUserAuthenticated w) as [[authenticated|e|] w1] eqn:E1;
    cbn [fst] in Hs; [| |congruence].
  - destruct (outside_keeps _ _ _ _ E1) as [S1 _].
    destruct authenticated.
    + destruct (outside_returns (saveAnalysisToDb result) w1
                  (saveAnalysisToDb_returns result)) as (saved & w2 & E2 & S2).
      rewrite E2. eexists _, _. split; [reflexivity|]. cbn. congruence.
    + eexists _, _. split; [reflexivity|exact S1].
  - destruct (outside_keeps _ _ _ _ E1) as [S1 _].
    eexists _, _. split; [reflexivity|exact S1].
Qed.

End StoreFacts.

(** ** The analysis service *)

Lemma and_then_returns {S A B} (m : Async S A) (k : A -> Async S B) s a s' :
  m s = (Returns a, s') -> and_then m k s = k a s'.
Proof. intros E. unfold and_then. rewrite E. reflexivity. Qed.

Lemma steady_stored {X} : steady (stored (X := X)).
Proof. intros w. eexists _, _. split; reflexivity. Qed.

Lemma streq_refl (s : jsstring) : streq s s = true.
Proof.
  induction s as [|c s IH]; [reflexivity|].
  cbn [streq]. rewrite Z.eqb_refl, IH. reflexivity.
Qed.

Lemma id_with_steps (s : list AnalysisStep) (r : AnalysisResult) :
  id (with_steps s r) = id r.
Proof. reflexivity. Qed.

Lemma id_generated {P : Platform} (videoName : jsstring) (seed0 : number)
  (settings : AnalysisSettings) (t : Z) (r : AnalysisResult) :
  generateAnalysisResult videoName seed0 settings t = Some r ->
  id r = str "analysis-" ++ NumberToString seed0 ++ str "-"
         ++ replace_whitespace videoName.
Proof.
  unfold generateAnalysisResult, synthesize. cbv zeta. intros H. follow H.
  rewrite <- H. reflexivity.
Qed.

Lemma and_then_converted {S A B} (o : option A) (k : A -> Async S B) s a :
  o = Some a -> and_then (convert o) k s = k a s.
Proof. intros ->. reflexivity. Qed.

Lemma and_then_unconverted {S A B} (o : option A) (k : A -> Async S B) s :
  o = None -> and_then (convert o) k s = (Throws TypeError, s).
Proof. intros ->. reflexivity. Qed.

(** Run the next statement, which returns and leaves the log alone: name
    what it returns, the state it leaves, and the two facts. *)
Ltac run a w' E S :=
  match goal with
  | |- context [and_then ?m ?k ?w] =>
      let Hst := fresh "Hst" in
      assert (Hst : steady m)
        by (lazymatch m with
            | stored => apply steady_stored
            | try_catch _ _ => apply save_if_authenticated_steady
            | _ => steadily
            end);
      destruct (Hst w) as (a & w' & E & S); clear Hst;
      rewrite (and_then_returns m k w a w' E); cbv beta
  end.

(** C6.  Once the settings are read, no answer and no exception of the
    durable store fails an [analyzeVideo] call in which a report was
    produced.  Against the real backend, a report that [uploadToBackend]
    returned is returned to the caller, whatever the save does.  In mock
    mode, a report the in-memory log holds for the file's fingerprint is
    returned without the store being asked; for a new file, when synthesis
    returns a report (both of its lookups go through), the call returns that
    report with the steps just run, the one the in-memory log then holds for
    the fingerprint, whatever the store answers or raises. *)
Theorem analyze_outlives_store_errors {P : Platform} {X : Type} {H : Host X}
  (file : File) (settings : AnalysisSettings) (w w1 : World X) :
  outside getSettings w = (Returns settings, w1) ->
  let seed0 := fst (generateFileHash file) in
  let key := analysisId seed0 file in
  (forall result w2,
      uploadToBackend file settings (snd (call (onFileReadProgress (int 100)) w1))
      = (Returns result, w2) ->
      exists w3,
        analyzeVideo false file w = (Returns (Parsed result), w3)
        /\ storedAnalyses w3 = storedAnalyses w2 /\ called w3 = called w2)
  /\ (forall existing,
        find_stored key (storedAnalyses w) = Some existing ->
        exists w3,
          analyzeVideo true file w = (Returns (Synthesized existing), w3)
          /\ storedAnalyses w3 = storedAnalyses w)
  /\ (find_stored key (storedAnalyses w) = None ->
      speed_range settings <> None -> bounce_factor settings <> None ->
      exists t r ran w3,
        generateAnalysisResult (file_name file) seed0 settings t = Some r
        /\ analyzeVideo true file w
           = (Returns (Synthesized (with_steps ran r)), w3)
        /\ find_stored key (storedAnalyses w3) = Some (with_steps ran r)).
Proof.
  intros Hs seed0 key. unfold key, seed0.
  destruct (outside_keeps _ _ _ _ Hs) as [S1 _].
  split; [|split].
  - intros result w2 Hu. unfold analyzeVideo.
    rewrite (and_then_returns _ _ _ _ _ Hs). cbn [negb]. cbv beta iota.
    rewrite (and_then_returns _ _ w1 tt (snd (call (onFileReadProgress (int 100)) w1))
               eq_refl).
    rewrite (and_then_returns _ _ _ _ _ Hu).
    destruct (outside_returns (saveAnalysisToDb (Parsed result)) w2
                (saveAnalysisToDb_returns (Parsed result))) as (saved & w3 & E & _).
    rewrite (and_then_returns _ _ _ _ _ E).
    destruct (outside_keeps _ _ _ _ E) as [S3 C3].
    exists w3. split; [reflexivity|]. split; assumption.
  - intros existing F. unfold analyzeVideo.
    rewrite (and_then_returns _ _ _ _ _ Hs). cbn [negb]. cbv beta iota zeta.
    destruct (generateFileHash file) as [seed1 progress]. cbn [fst] in F.
    run u2 w2 E2 S2. run analyses w3 E3 S3.
    injection E3 as <- <-.
    rewrite S2, S1, F.
    run u4 w4 E4 S4. exists w4. split; [reflexivity|]. congruence.
  - intros F Hsr Hbf. unfold analyzeVideo.
    rewrite (and_then_returns _ _ _ _ _ Hs). cbn [negb]. cbv beta iota zeta.
    destruct (generateFileHash file) as [seed1 progress]. cbn [fst] in F |- *.
    run u2 w2 E2 S2. run analyses w3 E3 S3.
    injection E3 as <- <-.
    rewrite S2, S1, F.
    run finished w4 E4 S4. run t w5 E5 S5.
    destruct (report_produced (file_name file) seed1 settings t Hsr Hbf)
      as [r Hr].
    rewrite (and_then_converted _ _ _ r Hr). cbv zeta.
    match goal with
    | |- context [and_then (unshift ?r) ?k ?w] =>
        rewrite (and_then_returns (unshift r) k w tt (snd (unshift r w)) eq_refl)
    end.
    cbv beta. run u6 w6 E6 S6.
    exists t, r, finished, w6. split; [exact Hr|]. split; [reflexivity|].
    rewrite S6. cbn [storedAnalyses unshift snd]. unfold find_stored. cbn [find].
    rewrite id_with_steps, (id_generated _ _ _ _ r Hr). unfold analysisId.
    rewrite streq_refl. reflexivity.
Qed.

(** Witness: on the sample host the settings are read (no row: the
    defaults), every write to the store raises, and the mock-mode call
    returns the report it synthesized and logged. *)
Lemma analyze_outlives_store_errors_witness :
  outside (getSettings (P := sample_platform) (H := sample_host)) sample_world
  = (Returns DEFAULTS, sample_world)
  /\ exists t r ran w3,
       generateAnalysisResult (P := sample_platform) (file_name sample_file)
         (fst (generateFileHash (P := sample_platform) sample_file)) DEFAULTS t
       = Some r
       /\ analyzeVideo (P := sample_platform) (H := sample_host) true sample_file
                       sample_world
          = (Returns (Synthesized (with_steps ran r)), w3)
       /\ find_stored
            (analysisId (P := sample_platform)
               (fst (generateFileHash (P := sample_platform) sample_file))
               sample_file)
            (storedAnalyses w3) = Some (with_steps ran r).
Proof.
  assert (Hs : outside (getSettings (P := sample_platform) (H := sample_host))
                 sample_world = (Returns DEFAULTS, sample_world))
    by reflexivity.
  split; [exact Hs|].
  apply (proj2 (proj2 (analyze_outlives_store_errors (P := sample_platform)
                         (H := sample_host) sample_file DEFAULTS sample_world
                         sample_world Hs))).
  - vm_compute. reflexivity.
  - vm_compute. discriminate.
  - vm_compute. discriminate.
Defined.

(** On the sample host every write to the store raises; [saveAnalysisToDb]
    answers [false], and the report of the backend still reaches the
    caller. *)
Example store_outage_is_swallowed :
  (forall result : Report,
      saveAnalysisToDb (P := sample_platform) (H := sample_host) result tt
      = (Returns false, tt))
  /\ exists parsed w,
       analyzeVideo (P := sample_platform) (H := sample_host) false sample_file
                    sample_world
       = (Returns (Parsed parsed), w)
       /\ p_id parsed = str "r1".
Proof.
  split.
  - intros result. unfold saveAnalysisToDb, try_catch, toDbFormat.
    destruct (toISOString (result_createdAt result)); reflexivity.
  - eexists _, _. split; [vm_compute; reflexivity|reflexivity].
Qed.

(** ** Reading a report back ([getAnalysisResult]) *)

Lemma outside_inv {X A} (m : Async X A) (w w' : World X) (o : Outcome A) :
  outside m w = (o, w') ->
  m (host w) = (o, host w')
  /\ storedAnalyses w' = storedAnalyses w /\ called w' = called w.
Proof.
  unfold outside. destruct (m (host w)) as [o' x]. intros [= <- <-].
  repeat split; reflexivity.
Qed.

(** C9.  When the user is signed in and the store has a record for the id,
    [getAnalysisResult] returns a report whose id, videoName, decision,
    confidence, trajectory, predictedWicketHit, createdAt, isUmpiresCall and
    keyFrames are those of the durable record, whatever the in-memory log
    holds.  The in-memory entry with that id supplies criteria, steps,
    ballMetrics, pitchAnalysis, impactAnalysis and wicketPrediction; without
    one, the criteria are all true but [wouldHitWickets], which is true
    exactly for an OUT decision, the steps are the completed steps, and the
    four analyses are absent. *)
Theorem durable_fields_take_precedence {P : Platform} {X : Type} {H : Host X}
  (mock : bool) (key : jsstring) (w w1 w2 : World X) (db : DbResult) :
  outside isUserAuthenticated w = (Returns true, w1) ->
  outside (getAnalysisFromDb key) w1 = (Returns (Some db), w2) ->
  exists m,
    getAnalysisResult mock key w = (Returns (Some (Merged m)), w2)
    /\ (m_id m = db_id db
        /\ m_videoName m = db_videoName db
        /\ m_decision m = db_decision db
        /\ m_confidence m = db_confidence db
        /\ m_trajectory m = db_trajectory db
        /\ m_predictedWicketHit m = db_predictedWicketHit db
        /\ m_createdAt m = db_createdAt db
        /\ m_isUmpiresCall m = db_isUmpiresCall db
        /\ m_keyFrames m = db_keyFrames db)
    /\ match find_stored key (storedAnalyses w) with
       | Some entry =>
           m_criteria m = criteria entry
           /\ m_steps m = steps entry
           /\ m_ballMetrics m = ballMetrics entry
           /\ m_pitchAnalysis m = pitchAnalysis entry
           /\ m_impactAnalysis m = impactAnalysis entry
           /\ m_wicketPrediction m = wicketPrediction entry
       | None =>
           m_criteria m
           = {| pitchedInLine := true; impactInLine := true;
                legBeforeBat := true;
                wouldHitWickets := is_string (db_decision db) "OUT" |}
           /\ m_steps m = completedSteps
           /\ m_ballMetrics m = None
           /\ m_pitchAnalysis m = None
           /\ m_impactAnalysis m = None
           /\ m_wicketPrediction m = None
       end.
Proof.
  intros H1 H2.
  destruct (outside_inv _ _ _ _ H1) as (_ & S1 & _).
  destruct (outside_inv _ _ _ _ H2) as (D & S2 & _).
  destruct (getAnalysisFromDb_some _ _ _ _ D) as (row & _ & F).
  eexists. split; [|split].
  - unfold getAnalysisResult.
    match goal with
    | |- and_then (try_catch ?body ?handler) ?k w
         = (Returns (Some (Merged ?m)), _) =>
        assert (E : try_catch body handler w = (Returns (Some m), w2));
          [|rewrite (and_then_returns _ k w _ _ E); reflexivity]
    end.
    unfold try_catch.
    rewrite (and_then_returns _ _ _ _ _ H1). cbv beta iota.
    rewrite (and_then_returns _ _ _ _ _ H2). cbv beta iota.
    rewrite (and_then_returns stored _ w2 (storedAnalyses w2) w2 eq_refl).
    cbv beta zeta. unfold pure. reflexivity.
  - cbn [m_id m_videoName m_decision m_confidence m_trajectory
         m_predictedWicketHit m_createdAt m_isUmpiresCall m_keyFrames].
    rewrite (fromDbFormat_trajectory row db F). repeat split; reflexivity.
  - rewrite S2, S1.
    destruct (find_stored key (storedAnalyses w)); repeat split; reflexivity.
Qed.

(** Witness: the sample store says OUT at 91 for a clip the in-memory log
    has as NOT_OUT at 70 under another name; the report read back says OUT
    at 91, with the log's criteria. *)
Lemma durable_fields_take_precedence_witness :
  exists m,
    getAnalysisResult (P := sample_platform) (H := sample_host) true
                      (str "analysis-7-clip.mp4") sample_world
    = (Returns (Some (Merged m)), sample_world)
    /\ m_decision m = JStr (str "OUT")
    /\ m_confidence m = int 91
    /\ m_videoName m = JStr (str "clip.mp4")
    /\ m_criteria m = criteria stale_entry.
Proof.
  edestruct (durable_fields_take_precedence (P := sample_platform)
               (H := sample_host) true (str "analysis-7-clip.mp4")
               sample_world sample_world sample_world _
               eq_refl eq_refl)
    as (m & E & (_ & Hn & Hd & Hc & _) & Hm).
  exists m. split; [exact E|].
  split; [exact Hd|]. split; [exact Hc|]. split; [exact Hn|].
  exact (proj1 Hm).
Defined.
(* ================================================================== *)
(** * Part III — further properties of the code *)
(* ================================================================== *)

(** ** The seeded generator, for any seed *)

Lemma calls_state_int k rng :
  exists s, 0 <= s < 2 ^ 31
            /\ snd (calls (S k) rng) = {| seed := Fin (inject_Z s) |}.
Proof.
  revert rng. induction k as [|k IH]; intros rng.
  - rewrite calls_S_snd. apply next_state_int.
  - rewrite calls_S_snd. apply IH.
Qed.

(** Whatever number the generator is seeded with — fractional, negative,
    infinite or NaN — one call leaves an integer state in [0, 2^31), and
    every value returned from the second call on lies in [0, 1).  The first
    value can escape: seeded with 1.9460277619454183 the generator's first
    value is exactly 1. *)
Theorem draws_after_first_call (seed0 : number) (k : nat) :
  (exists s, 0 <= s < 2 ^ 31
             /\ seed (snd (calls (S k) {| seed := seed0 |})) = int s)
  /\ unit_interval (nth_draw (S k) {| seed := seed0 |})
  /\ nth_draw 0 {| seed := Fin (4382064951775013 # 2251799813685248) |} = Fin 1.
Proof.
  split; [|split].
  - destruct (calls_state_int k {| seed := seed0 |}) as (s & Hs & E).
    exists s. split; [exact Hs|]. rewrite E. cbn [seed].
    symmetry. apply int_small.
    assert (2 ^ 31 < 2 ^ 53) by (apply Z.pow_lt_mono_r; lia). lia.
  - apply later_draw_unit.
  - vm_compute. reflexivity.
Qed.

(** ** The content fingerprint, for any file *)

Lemma Math_abs_int z :
  Z.abs z <= 2 ^ 53 -> Math_abs (int z) = int (Z.abs z).
Proof.
  intros Hz. rewrite (int_small z) by exact Hz.
  rewrite (int_small (Z.abs z)) by (rewrite Z.abs_idemp; exact Hz).
  unfold Math_abs. change (Qabs (inject_Z z)) with (inject_Z (Z.abs z)).
  rewrite Qred_inject_Z. reflexivity.
Qed.

Lemma wrap32_range z : - 2 ^ 31 <= wrap32 z < 2 ^ 31.
Proof.
  unfold wrap32.
  pose proof (Z.mod_pos_bound (z + 2 ^ 31) (2 ^ 32) ltac:(lia)). lia.
Qed.

Lemma ToInt32_range a : - 2 ^ 31 <= ToInt32 a < 2 ^ 31.
Proof. destruct a; cbn [ToInt32]; try lia; apply wrap32_range. Qed.

Lemma ToUint32_range a : 0 <= ToUint32 a < 2 ^ 32.
Proof.
  destruct a; cbn [ToUint32]; try lia.
  apply Z.mod_pos_bound. lia.
Qed.

Lemma ToUint32_zero : ToUint32 (int 0) = 0.
Proof. vm_compute. reflexivity. Qed.

(** [hash >>> 0] is an integer below 2^32, and [Math.abs] leaves it alone. *)
Lemma abs_ushr_zero h :
  exists z, 0 <= z < 2 ^ 32 /\ Math_abs (ushr h (int 0)) = int z.
Proof.
  unfold ushr. rewrite ToUint32_zero. change (0 mod 32) with 0.
  rewrite Z.shiftr_0_r.
  pose proof (ToUint32_range h) as Hr.
  exists (ToUint32 h). split; [exact Hr|].
  assert (2 ^ 32 < 2 ^ 53) by (apply Z.pow_lt_mono_r; lia).
  rewrite Math_abs_int by lia. rewrite Z.abs_eq by lia. reflexivity.
Qed.

Lemma fold_left_invariant {A B} (f : A -> B -> A) (Inv : A -> Prop) :
  (forall a b, Inv (f a b)) -> forall l a, Inv a -> Inv (fold_left f l a).
Proof.
  intros Hf l. induction l as [|b l IH]; intros a Ha; [exact Ha|].
  cbn [fold_left]. apply IH, Hf.
Qed.

Lemma bitand_self_int a :
  exists t, - 2 ^ 31 <= t < 2 ^ 31 /\ bitand a a = int t.
Proof.
  unfold bitand. exists (Z.land (ToInt32 a) (ToInt32 a)).
  split; [|reflexivity]. rewrite Z.land_diag. apply ToInt32_range.
Qed.

Section FingerprintFacts.
Context {P : Platform}.

(** The [try] block, with the loop's bound and fuel named: the loop runs at
    all only under a finite bound. *)
Lemma hashContent_shape file :
  exists fuel t,
    (fuel = O \/ exists y, t = Fin y)
    /\ hashContent file
       = match hashChunks fuel file (int 0) t (int 2166136261) with
         | (prog, None) => (prog, None)
         | (prog, Some hash) =>
             (prog ++ [int 100],
              Some (Math_abs
                      (ushr (Math_imul (bitxor hash (int (file_size file)))
                                       FNV_PRIME)
                            (int 0))))
         end.
Proof.
  unfold hashContent. cbv zeta.
  match goal with
  | |- context [hashChunks ?f file ?c ?t ?h] =>
      exists f, t; split;
        [|destruct (hashChunks f file c t h) as [prog [hash|]]; reflexivity]
  end.
  destruct (Math_ceil (fdiv (int (file_size file)) (int (1024 * 1024))))
    as [| |y]; cbn [as_integer]; [left; reflexivity ..|].
  right. exists y. reflexivity.
Qed.

(** The string hash stays a 32-bit integer. *)
Lemma hashMetadata_int file :
  exists z, 0 <= z < 2 ^ 32 /\ hashMetadata file = int z.
Proof.
  unfold hashMetadata. cbv zeta.
  match goal with
  | |- exists z, _ /\ Math_abs (fold_left ?f ?text ?h0) = int z =>
      destruct (fold_left_invariant f
                  (fun h => exists t, - 2 ^ 31 <= t < 2 ^ 31 /\ h = int t)
                  (fun a b => bitand_self_int _) text h0) as (t & Ht & E)
  end.
  { exists 0. split; [lia|reflexivity]. }
  rewrite E. exists (Z.abs t).
  assert (2 ^ 31 < 2 ^ 32) by (apply Z.pow_lt_mono_r; lia).
  assert (2 ^ 32 < 2 ^ 53) by (apply Z.pow_lt_mono_r; lia).
  split; [lia|]. apply Math_abs_int. lia.
Qed.

Lemma generateFileHash_int file :
  exists z, 0 <= z < 2 ^ 32 /\ fst (generateFileHash file) = int z.
Proof.
  unfold generateFileHash.
  destruct (hashContent_shape file) as (fuel & t & _ & ->).
  destruct (hashChunks fuel file (int 0) t (int 2166136261)) as [prog [hash|]];
    cbn [fst].
  - apply abs_ushr_zero.
  - apply hashMetadata_int.
Qed.

End FingerprintFacts.

(** The fingerprint of any file — whatever its name, size and bytes, and
    whether or not its reads succeed — is an integer in [0, 2^32), so a
    generator seeded with it returns a value in [0, 1) at every call, the
    first included. *)
Theorem fingerprint_seeds_generator {P : Platform} (file : File) (k : nat) :
  (exists z, 0 <= z < 2 ^ 32 /\ fst (generateFileHash file) = int z)
  /\ unit_interval (nth_draw k {| seed := fst (generateFileHash file) |}).
Proof.
  destruct (generateFileHash_int file) as (z & Hz & E).
  split; [exists z; split; assumption|].
  rewrite E.
  assert (Hr : - 2 ^ 31 <= z < 2 ^ 32) by lia.
  rewrite (int_small z) by (apply small_53; exact Hr).
  rewrite nth_draw_int by exact Hr.
  apply draw_range, iter_draw. exact Hr.
Qed.

(** *** Progress reports *)

Lemma of_Q_nonneg x :
  (0 <= x)%Q ->
  of_Q x = Inf false \/ exists r, of_Q x = Fin r /\ (0 <= r)%Q.
Proof.
  intros Hx. pose proof (round53_nonneg x Hx) as Hr. unfold of_Q. cbv zeta.
  destruct (Qle_bool (pow2 1024) (Qabs (round53 x))) eqn:E.
  - left. f_equal. apply Qle_bool_iff in E. rewrite Qabs_pos in E by exact Hr.
    pose proof (pow2_pos 1024).
    destruct (Qle_bool (round53 x) 0) eqn:E0; [|reflexivity].
    apply Qle_bool_iff in E0. lra.
  - right. exists (round53 x). split; [reflexivity|exact Hr].
Qed.

Lemma of_Q_not_NaN x : of_Q x <> NaN.
Proof.
  unfold of_Q. cbv zeta.
  destruct (Qle_bool (pow2 1024) (Qabs (round53 x))); discriminate.
Qed.

Lemma int_99 : int 99 = Fin (inject_Z 99).
Proof. apply int_small. vm_compute. discriminate. Qed.

Lemma int_100 : int 100 = Fin (inject_Z 100).
Proof. apply int_small. vm_compute. discriminate. Qed.

Lemma int_1 : int 1 = Fin (inject_Z 1).
Proof. apply int_small. vm_compute. discriminate. Qed.

(** [Math.min(x, 99)] is at most 99 unless [x] is NaN. *)
Lemma min_cap (x : number) (b : Q) :
  x <> NaN -> fle (Math_min x (Fin b)) (Fin b) = true.
Proof.
  intros Hx. destruct x as [|s|q]; [congruence| |].
  - unfold Math_min. cbn [flt]. destruct s; cbn [negb].
    + reflexivity.
    + unfold fle. cbn [feq flt]. rewrite (proj2 (Qeq_bool_iff b b)) by reflexivity.
      apply orb_true_r.
  - unfold Math_min. cbn [flt].
    destruct (Qle_bool q b) eqn:E; cbn [negb].
    + unfold fle. cbn [flt feq].
      destruct (Qle_bool b q) eqn:E'; cbn [negb orb]; [|reflexivity].
      apply Qle_bool_iff in E, E'. apply Qeq_bool_iff. lra.
    + unfold fle. cbn [feq flt]. rewrite (proj2 (Qeq_bool_iff b b)) by reflexivity.
      apply orb_true_r.
Qed.

Lemma is_zero_pos y : (0 < y)%Q -> is_zero y = false.
Proof.
  intros Hy. unfold is_zero. destruct (Qeq_bool y 0) eqn:E; [|reflexivity].
  apply Qeq_bool_iff in E. lra.
Qed.

(** The percentage reported after a chunk is never NaN. *)
Lemma progress_not_NaN (c1 : number) (y : Q) :
  (c1 = Inf false \/ exists q, c1 = Fin q /\ (0 <= q)%Q) ->
  (0 < y)%Q ->
  fmul (fdiv c1 (Fin y)) (int 100) <> NaN.
Proof.
  intros Hc Hy. rewrite int_100.
  assert (Z100 : is_zero (inject_Z 100) = false) by reflexivity.
  destruct Hc as [->|(q & -> & Hq)].
  - cbn [fdiv fmul]. rewrite Z100. discriminate.
  - cbn [fdiv]. rewrite (is_zero_pos y Hy).
    destruct (of_Q (q / y)) as [|s|r] eqn:E.
    + exfalso. exact (of_Q_not_NaN _ E).
    + cbn [fmul]. rewrite Z100. discriminate.
    + cbn [fmul]. apply of_Q_not_NaN.
Qed.

Lemma hashChunks_S (fuel : nat) (file : File) (c t h : number) :
  hashChunks (S fuel) file c t h
  = if flt c t then
      match read_slice file (fmul c (int (1024 * 1024)))
                       (Math_min (fadd (fmul c (int (1024 * 1024)))
                                       (int (1024 * 1024)))
                                 (int (file_size file))) with
      | None => ([], None)
      | Some bytes =>
          let (calls0, result) :=
            hashChunks fuel file (fadd c (int 1)) t
              (sampleBytes (List.length bytes) (int 0)
                 (Math_max (int 1)
                    (Math_floor (fdiv (int (Z.of_nat (List.length bytes)))
                                      (int 1000))))
                 bytes h) in
          (Math_min (fmul (fdiv (fadd c (int 1)) t) (int 100)) (int 99) :: calls0,
           result)
      end
    else ([], Some h).
Proof. reflexivity. Qed.

Lemma hashChunks_progress (fuel : nat) (file : File) (y : Q) :
  forall c h,
    (c = Inf false \/ exists q, c = Fin q /\ (0 <= q)%Q) ->
    Forall (fun p => fle p (int 99) = true)
           (fst (hashChunks fuel file c (Fin y) h)).
Proof.
  induction fuel as [|fuel IH]; intros c h Hc; [constructor|].
  rewrite hashChunks_S.
  destruct (flt c (Fin y)) eqn:G; [|constructor].
  destruct Hc as [->|(q & -> & Hq)]; [discriminate G|].
  assert (Hy : (0 < y)%Q).
  { cbn [flt] in G. destruct (Qle_bool y q) eqn:E; [discriminate G|].
    destruct (Qlt_le_dec q y) as [L|L]; [lra|].
    apply Qle_bool_iff in L. congruence. }
  assert (H1 : fadd (Fin q) (int 1) = Inf false
               \/ exists r, fadd (Fin q) (int 1) = Fin r /\ (0 <= r)%Q).
  { rewrite int_1. cbn [fadd]. apply of_Q_nonneg.
    change (inject_Z 1) with 1%Q. lra. }
  destruct (read_slice file _ _) as [bytes|]; [|constructor].
  specialize (IH (fadd (Fin q) (int 1))
                 (sampleBytes (List.length bytes) (int 0)
                    (Math_max (int 1)
                       (Math_floor (fdiv (int (Z.of_nat (List.length bytes)))
                                         (int 1000))))
                    bytes h) H1).
  destruct (hashChunks fuel file (fadd (Fin q) (int 1)) (Fin y) _)
    as [calls0 result].
  cbn [fst] in *. constructor; [|exact IH].
  rewrite int_99. apply min_cap. apply progress_not_NaN; assumption.
Qed.

(** Whatever the file and whatever its reads do, the progress callback is
    called with 100 exactly once, as its last call; every earlier call — one
    per chunk read — reports at most 99. *)
Theorem progress_reaches_100_once {P : Platform} (file : File) :
  exists earlier,
    snd (generateFileHash file) = earlier ++ [int 100]
    /\ Forall (fun p => fle p (int 99) = true) earlier
    /\ ~ In (int 100) earlier.
Proof.
  assert (H : exists earlier,
             snd (generateFileHash file) = earlier ++ [int 100]
             /\ Forall (fun p => fle p (int 99) = true) earlier).
  { unfold generateFileHash.
    destruct (hashContent_shape file) as (fuel & t & Ht & ->).
    assert (Hp : Forall (fun p => fle p (int 99) = true)
                        (fst (hashChunks fuel file (int 0) t (int 2166136261)))).
    { destruct Ht as [->|(y & ->)]; [constructor|].
      apply hashChunks_progress. right. exists 0%Q. split; [reflexivity|lra]. }
    destruct (hashChunks fuel file (int 0) t (int 2166136261))
      as [prog [hash|]]; cbn [fst snd] in *; exists prog; split;
      (reflexivity || exact Hp). }
  destruct H as (earlier & E & F). exists earlier.
  split; [exact E|]. split; [exact F|].
  intros Hin. rewrite Forall_forall in F. specialize (F _ Hin).
  vm_compute in F. discriminate F.
Qed.

(** ** The synthesizer, for any seed *)

Lemma quantum_below k x :
  0 <= k -> (0 <= x < pow2 k)%Q -> (quantum x <= pow2 (k - 53))%Q.
Proof.
  intros Hk [H0 H1].
  destruct (Qeq_dec x 0) as [Hz|Hnz].
  - assert (Hs : (0 <= x < 1)%Q) by (split; [exact H0|rewrite Hz; reflexivity]).
    pose proof (quantum_small x Hs) as Hq.
    assert (Hp : (pow2 (-53) <= pow2 (k - 53))%Q) by (apply pow2_le; lia).
    lra.
  - rewrite quantum_eq. apply pow2_le. unfold qexp.
    assert (Hp : (0 < Qabs x)%Q) by (apply Qabs_pos_lt; exact Hnz).
    destruct (ilog2_spec _ Hp) as [S1 _].
    pose proof (Qabs_pos x H0) as Ea.
    set (e := ilog2 (Qabs x)) in *.
    assert (e < k); [|lia].
    apply pow2_lt_inv. lra.
Qed.

Lemma draw_below s :
  0 <= s < 2 ^ 31 - 1 ->
  below_one (fdiv (Fin (inject_Z s)) (Fin (inject_Z 2147483647))).
Proof.
  intros Hs. unfold fdiv.
  change (is_zero (inject_Z 2147483647)) with false. cbv iota.
  set (xq := (inject_Z s / inject_Z 2147483647)%Q).
  assert (Ex : (xq * 2147483647 == inject_Z s)%Q) by (unfold xq; field).
  assert (Hs1 : (0 <= inject_Z s)%Q)
    by (change 0%Q with (inject_Z 0); rewrite <- Zle_Qle; lia).
  assert (Hs2 : (inject_Z s <= 2147483646)%Q).
  { change 2147483646%Q with (inject_Z 2147483646). rewrite <- Zle_Qle. lia. }
  assert (Hx : (0 <= xq < 1)%Q) by (split; lra).
  pose proof (round53_nonneg xq (proj1 Hx)) as Hn.
  pose proof (round53_err xq) as [_ Hu].
  pose proof (quantum_small xq Hx) as Hq.
  change (pow2 (-53)) with (1 # 9007199254740992)%Q in Hq.
  assert (Hlt : (round53 xq <= 4294967295 # 4294967296)%Q) by lra.
  exists (round53 xq). split; [|split; assumption].
  apply of_Q_Fin. rewrite Qabs_pos by exact Hn.
  assert ((pow2 0 <= pow2 1024)%Q) by (apply pow2_le; lia).
  change (pow2 0) with 1%Q in *. lra.
Qed.

Lemma next_running rng : running (snd (next rng)).
Proof. apply next_state_int. Qed.

Lemma next_below_one rng : running rng -> below_one (fst (next rng)).
Proof.
  intros (s & Hs & ->).
  assert (2 ^ 31 < 2 ^ 900) by (apply Z.pow_lt_mono_r; lia).
  rewrite next_int by lia. cbn [fst].
  apply draw_below.
  pose proof (lcg_js_range s). pose proof (lcg_js_not_max s ltac:(lia)). lia.
Qed.

(** A draw times [n]: finite, at least 0 and short of [n]. *)
Lemma scaled_below d n :
  below_one d -> 1 <= n <= 2 ^ 20 ->
  exists p, fmul d (int n) = Fin p /\ (0 <= p < inject_Z n)%Q.
Proof.
  intros (q & -> & Hq0 & Hq1) Hn.
  assert (H20 : 2 ^ 20 < 2 ^ 53) by (apply Z.pow_lt_mono_r; lia).
  rewrite (int_small n) by lia. unfold fmul.
  set (N := inject_Z n).
  assert (HN1 : (1 <= N)%Q).
  { unfold N. change 1%Q with (inject_Z 1). rewrite <- Zle_Qle. lia. }
  assert (HN2 : (N <= pow2 20)%Q).
  { unfold N. rewrite pow2_Z by lia. rewrite <- Zle_Qle. lia. }
  assert (Hx0 : (0 <= q * N)%Q) by (apply Qmult_le_0_compat; lra).
  assert (Hx1 : (q * N <= N - (1 # 4294967296))%Q).
  { assert (E : ((4294967295 # 4294967296) * N - q * N
                 == ((4294967295 # 4294967296) - q) * N)%Q) by ring.
    assert (0 <= ((4294967295 # 4294967296) - q) * N)%Q
      by (apply Qmult_le_0_compat; lra).
    lra. }
  pose proof (round53_nonneg _ Hx0) as Hn0.
  pose proof (round53_err (q * N)) as [_ Hu].
  assert (Hb : (0 <= q * N < pow2 20)%Q) by (split; lra).
  pose proof (quantum_below 20 _ ltac:(lia) Hb) as Hqu.
  change (pow2 (20 - 53)) with (1 # 8589934592)%Q in Hqu.
  assert (Hlt : (round53 (q * N) < N)%Q) by lra.
  exists (round53 (q * N)). split; [|split; assumption].
  apply of_Q_Fin. rewrite Qabs_pos by exact Hn0.
  assert ((pow2 20 < pow2 1024)%Q) by (apply pow2_lt; lia). lra.
Qed.

(** [a + draw * n]: finite, between [a] and [a + n]. *)
Lemma scaled_range a n d :
  below_one d -> 0 <= a <= 2 ^ 20 -> 1 <= n <= 2 ^ 20 ->
  within (inject_Z a) (inject_Z (a + n)) (fadd (int a) (fmul d (int n))).
Proof.
  intros Hd Ha Hn.
  assert (H20 : 2 ^ 20 < 2 ^ 52) by (apply Z.pow_lt_mono_r; lia).
  assert (H52 : 2 * 2 ^ 52 = 2 ^ 53) by reflexivity.
  destruct (scaled_below d n Hd Hn) as (p & -> & Hp0 & Hp1).
  rewrite (int_small a) by lia. unfold fadd.
  assert (B : (inject_Z a <= inject_Z a + p <= inject_Z (a + n))%Q).
  { rewrite inject_Z_plus. lra. }
  destruct (of_Q_between a (a + n) _ ltac:(lia) ltac:(lia) B) as (r & -> & Hr).
  exists r. split; [reflexivity|exact Hr].
Qed.

(** [Math.floor(draw * n)] is one of 0, ..., n - 1. *)
Lemma pick_index d n :
  below_one d -> 1 <= n <= 2 ^ 20 ->
  exists k, Math_floor (fmul d (int n)) = Fin (inject_Z k) /\ 0 <= k < n.
Proof.
  intros Hd Hn. destruct (scaled_below d n Hd Hn) as (p & -> & Hp0 & Hp1).
  exists (Qfloor p). split; [reflexivity|].
  pose proof (floor_bounds p) as [F1 F2]. split.
  - change 0 with (Qfloor 0). apply Qfloor_resp_le. exact Hp0.
  - rewrite Zlt_Qlt. lra.
Qed.

Lemma at_index_int {A} (l : list A) k :
  0 <= k -> at_index l (Fin (inject_Z k)) = nth_error l (Z.to_nat k).
Proof.
  intros Hk. unfold at_index, as_integer. rewrite Qfloor_Z.
  rewrite (proj2 (Qeq_bool_iff _ _) (Qeq_refl _)).
  destruct (k <? 0) eqn:E; [|reflexivity]. apply Z.ltb_lt in E. lia.
Qed.

Lemma fneg_within lo hi v :
  within lo hi v -> within (- hi) (- lo) (fneg v).
Proof.
  intros (q & -> & Hq). exists (Qred (- q)). split; [reflexivity|].
  rewrite Qred_correct. lra.
Qed.

(** ** The generators, on a generator that has been called before *)

Lemma yields_ret {A} pre (a : A) (post : A -> Prop) :
  (forall rng, pre rng -> running rng) -> post a -> yields pre (ret a) post.
Proof. intros Hp H rng Hr. split; [exact H|apply Hp; exact Hr]. Qed.

Lemma yields_bind {A B} pre (m : Rand A) (k : A -> Rand B) p q :
  yields pre m p -> (forall a, p a -> yields running (k a) q) ->
  yields pre (bind m k) q.
Proof.
  intros Hm Hk rng Hr. rewrite bind_eq.
  destruct (Hm rng Hr) as [Hp Hg]. apply Hk; assumption.
Qed.

Lemma yields_bind_ok {A B} pre (m : Rand (option A)) (k : A -> Rand (option B))
  p q :
  yields pre m (if_returned p) ->
  (forall a, p a -> yields running (k a) (if_returned q)) ->
  yields pre (bind_ok m k) (if_returned q).
Proof.
  intros Hm Hk rng Hr. rewrite bind_ok_eq.
  destruct (Hm rng Hr) as [Hp Hg].
  destruct (fst (m rng)) as [a|]; [apply Hk; assumption|].
  split; [exact I|exact Hg].
Qed.

Lemma yields_checked {A B} (o : option A) (k : A -> Rand (option B)) q :
  (forall a, o = Some a -> yields running (k a) (if_returned q)) ->
  yields running (bind_ok (checked o) k) (if_returned q).
Proof.
  intros Hk rng Hr. destruct o as [a|]; [exact (Hk a eq_refl rng Hr)|].
  split; [exact I|exact Hr].
Qed.

Lemma yields_assoc {A B C} pre (m : Rand A) (f : A -> Rand B)
  (k : B -> Rand C) q :
  yields pre (bind m (fun a => bind (f a) k)) q ->
  yields pre (bind (bind m f) k) q.
Proof.
  intros H rng Hr. specialize (H rng Hr).
  unfold bind in *. destruct (m rng) as [a r]. exact H.
Qed.

Lemma yields_unit {A B} pre (a : A) (k : A -> Rand B) q :
  yields pre (k a) q -> yields pre (bind (ret a) k) q.
Proof. intros H rng Hr. exact (H rng Hr). Qed.

Lemma yields_weaken {A} pre (m : Rand A) (p q : A -> Prop) :
  yields pre m p -> (forall a, p a -> q a) -> yields pre m q.
Proof.
  intros H Hpq rng Hr. destruct (H rng Hr) as [Hp Hg].
  split; [apply Hpq; exact Hp|exact Hg].
Qed.

Lemma yields_next : yields running next below_one.
Proof.
  intros rng Hr. split; [apply next_below_one; exact Hr|apply next_running].
Qed.

Lemma yields_first : yields any_state next (fun _ => True).
Proof. intros rng _. split; [exact I|apply next_running]. Qed.

Lemma yields_forEach {A B} (body : A -> Rand B) (l : list A) :
  (forall i, yields running (body i) (fun _ => True)) ->
  yields running (forEach body l) (fun _ => True).
Proof.
  intros Hb. induction l as [|i l IH].
  - apply yields_ret; [auto|exact I].
  - cbn [forEach]. eapply yields_bind; [apply Hb|]. intros b _.
    eapply yields_bind; [apply IH|]. intros bs _.
    apply yields_ret; [auto|exact I].
Qed.

Ltac draw d H := eapply yields_bind; [apply yields_next | intros d H].
Ltac done_drawing := apply yields_ret; [intros ? Hrun; exact Hrun|].

Lemma within_wider lo hi lo' hi' v :
  within lo hi v -> (lo' <= lo)%Q -> (hi <= hi')%Q -> within lo' hi' v.
Proof.
  intros (q & -> & Hq) Hl Hh. exists q. split; [reflexivity|]. lra.
Qed.

(** [a + draw * n] between the literals [lo] and [hi]. *)
Ltac in_neg_range a n Hd :=
  apply (within_wider _ _ _ _ _
           (fneg_within _ _ _ (scaled_range a n _ Hd ltac:(lia) ltac:(lia))));
  vm_compute; discriminate.

Ltac in_range a n Hd :=
  apply (within_wider _ _ _ _ _ (scaled_range a n _ Hd ltac:(lia) ltac:(lia)));
  vm_compute; discriminate.

Lemma int_plus a b :
  Z.abs a <= 2 ^ 52 -> Z.abs b <= 2 ^ 52 ->
  fadd (int a) (Fin (inject_Z b)) = int (a + b).
Proof.
  intros Ha Hb.
  assert (H53 : 2 * 2 ^ 52 = 2 ^ 53) by reflexivity.
  assert (H1000 : 2 ^ 53 < 2 ^ 1000) by (apply Z.pow_lt_mono_r; lia).
  rewrite (int_small a), (int_small (a + b)) by lia.
  rewrite fadd_int by lia. rewrite roundZ_small by lia. reflexivity.
Qed.

(** [Math.abs(v) < 5] fails for a finite [v] at least 5 away from 0. *)
Lemma far_from_stump v lo hi :
  within lo hi v -> (5 <= lo \/ hi <= -5)%Q ->
  flt (Math_abs v) (int 5) = false.
Proof.
  intros (q & -> & Hq) Hs.
  rewrite (int_small 5) by (vm_compute; discriminate).
  cbn [Math_abs flt].
  assert (E : Qle_bool (inject_Z 5) (Qred (Qabs q)) = true).
  { apply Qle_bool_iff. rewrite Qred_correct. change (inject_Z 5) with 5%Q.
    destruct Hs as [Hs|Hs].
    - rewrite Qabs_pos by lra. lra.
    - rewrite Qabs_neg by lra. lra. }
  rewrite E. reflexivity.
Qed.

(** Decide the first disjunct of [isMarginally]. *)
Ltac not_marginal range :=
  match goal with
  | |- context [flt (Math_abs ?v) (int 5)] =>
      let F := fresh "F" in
      assert (F : flt (Math_abs v) (int 5) = false);
      [ first [ apply (far_from_stump v 5 25); [range|left; lra]
              | apply (far_from_stump v (-35) (-5)); [range|right; lra] ]
      | rewrite F; clear F; cbv iota ]
  end.

Section GeneratorFacts.
Context {P : Platform}.

Lemma generateWicketPrediction_yields (wh : bool) :
  yields running (generateWicketPrediction wh) (prediction_fits wh).
Proof.
  unfold generateWicketPrediction. cbv zeta.
  draw d1 H1. draw d2 H2. draw d3 H3. done_drawing.
  unfold prediction_fits. cbn [wouldHit hitPercentage stumpHit wp_umpiresCall marginOfError].
  split; [reflexivity|]. split; [|in_range 1 3 H3].
  destruct (pick_index d1 3 H1 ltac:(lia)) as (k & -> & Hk).
  destruct wh.
  - split; [|in_range 25 75 H2].
    rewrite at_index_int by lia.
    assert (K : k = 0 \/ k = 1 \/ k = 2) by lia.
    destruct K as [-> | [-> | ->]]; cbn; auto.
  - rewrite int_plus by lia. rewrite (int_small (3 + k)) by lia.
    rewrite at_index_int by lia.
    destruct (scaled_below d2 25 H2 ltac:(lia)) as (p & -> & Hp0 & Hp1).
    assert (L : flt (Fin p) (int 25) = true).
    { rewrite (int_small 25) by lia. cbn [flt].
      destruct (Qle_bool (inject_Z 25) p) eqn:E; [|reflexivity].
      apply Qle_bool_iff in E. lra. }
    split; [|split; [|split]].
    + assert (K : k = 0 \/ k = 1 \/ k = 2) by lia.
      destruct K as [-> | [-> | ->]]; cbn; auto.
    + exists p. split; [reflexivity|]. change (inject_Z 25) with 25%Q in Hp1. lra.
    + exact L.
    + assert (G : fge (Fin p) (int 25) = false).
      { unfold fge, fle. rewrite (int_small 25) by lia. cbn [flt feq].
        assert (E1 : Qle_bool p (inject_Z 25) = true)
          by (apply Qle_bool_iff; lra).
        assert (E2 : Qeq_bool (inject_Z 25) p = false).
        { apply not_true_is_false. intros E. apply Qeq_bool_iff in E. lra. }
        rewrite E1, E2. reflexivity. }
      rewrite G. reflexivity.
Qed.

Lemma generatePitchAnalysis_yields (pil : bool) settings :
  yields running (generatePitchAnalysis pil settings)
    (if_returned (pitch_fits pil)).
Proof.
  unfold generatePitchAnalysis. cbv zeta.
  destruct pil.
  - apply yields_assoc. draw d0 H0. apply yields_unit.
    apply yields_checked. intros bounceFactor _.
    draw d1 H1. draw d2 H2. draw d3 H3. done_drawing.
    unfold if_returned, pitch_fits.
    cbn [pa_zone pa_distanceFromLegStump pa_distanceFromOffStump].
    match goal with |- context [fgt d0 ?c] => destruct (fgt d0 c) end;
      cbn [Zone_eqb].
    + split; [split; discriminate|].
      split; [in_neg_range 10 40 H1 | in_neg_range 15 50 H2].
    + split; [split; discriminate|].
      split; [in_neg_range 10 40 H1 | in_range 5 20 H2].
  - apply yields_unit.
    apply yields_checked. intros bounceFactor _.
    draw d1 H1. draw d2 H2. draw d3 H3. done_drawing.
    unfold if_returned, pitch_fits.
    cbn [pa_zone pa_distanceFromLegStump pa_distanceFromOffStump Zone_eqb].
    split; [split; reflexivity|].
    split; [in_range 5 30 H1 | in_neg_range 15 50 H2].
Qed.

Lemma generateImpactAnalysis_yields (iil : bool) settings :
  yields running (generateImpactAnalysis iil settings) (impact_fits iil).
Proof.
  unfold generateImpactAnalysis. cbv zeta.
  destruct iil.
  - apply yields_unit. draw d1 H1. draw d2 H2. cbn [Zone_eqb].
    not_marginal ltac:(in_neg_range 5 30 H2).
    apply yields_assoc. draw d3 H3. apply yields_unit.
    draw d4 H4. done_drawing.
    unfold impact_fits.
    cbn [ia_zone height ia_distanceFromLegStump ia_distanceFromOffStump
         ia_umpiresCall Zone_eqb].
    split; [split; reflexivity|].
    split; [in_range 15 50 H1|].
    split; [in_neg_range 5 30 H2|].
    split; [in_neg_range 20 40 H4|].
    intros N. contradiction N. reflexivity.
  - apply yields_assoc. draw d0 H0. apply yields_unit.
    draw d1 H1. draw d2 H2.
    match goal with |- context [fgt d0 ?c] => destruct (fgt d0 c) end;
      cbn [Zone_eqb].
    + not_marginal ltac:(in_neg_range 5 30 H2).
      apply yields_unit. draw d4 H4. done_drawing.
      unfold impact_fits.
      cbn [ia_zone height ia_distanceFromLegStump ia_distanceFromOffStump
           ia_umpiresCall Zone_eqb].
      split; [split; discriminate|].
      split; [in_range 15 50 H1|].
      split; [in_neg_range 5 30 H2|].
      split; [in_range 5 15 H4|]. reflexivity.
    + not_marginal ltac:(in_range 5 20 H2).
      apply yields_unit. draw d4 H4. done_drawing.
      unfold impact_fits.
      cbn [ia_zone height ia_distanceFromLegStump ia_distanceFromOffStump
           ia_umpiresCall Zone_eqb].
      split; [split; discriminate|].
      split; [in_range 15 50 H1|].
      split; [in_range 5 20 H2|].
      split; [in_neg_range 20 40 H4|]. reflexivity.
Qed.

Lemma speed_range_cases settings sr :
  speed_range settings = Some sr ->
  sr = ((int 100, int 120), (int 60, int 80))
  \/ sr = ((int 110, int 130), (int 65, int 85))
  \/ sr = ((int 125, int 155), (int 75, int 100)).
Proof.
  unfold speed_range.
  destruct (ToString (ball_type settings)) as [key|]; [|discriminate].
  unfold table_get, BALL_SPEED_RANGES. cbn [table_lookup].
  repeat match goal with
         | |- context [streq ?a ?b] => destruct (streq a b)
         end;
    try (intros E; apply some_eq in E; auto).
  all: destruct (existsb _ _); [discriminate|].
  all: intros E; apply some_eq in E; auto.
Qed.

(** Fold a difference or a sum of two integer literals. *)
Ltac fold_literals :=
  repeat match goal with
         | |- context [fsub (int ?a) (int ?b)] =>
             let c := eval vm_compute in (a - b) in
             replace (fsub (int a) (int b)) with (int c)
               by (vm_compute; reflexivity)
         | |- context [fadd (int ?a) (int ?b)] =>
             let c := eval vm_compute in (a + b) in
             replace (fadd (int a) (int b)) with (int c)
               by (vm_compute; reflexivity)
         end.

Lemma generateBallMetrics_yields settings :
  yields running (generateBallMetrics settings) (if_returned metrics_fit).
Proof.
  unfold generateBallMetrics. cbv zeta.
  draw d0 H0.
  destruct (pick_index d0 6 H0 ltac:(lia)) as (k & -> & Hk).
  rewrite at_index_int by lia.
  assert (K : k = 0 \/ k = 1 \/ k = 2 \/ k = 3 \/ k = 4 \/ k = 5) by lia.
  apply yields_checked. intros speedRange Es.
  destruct (speed_range_cases settings speedRange Es) as [E | [E | E]];
    rewrite E; clear E Es speedRange;
    destruct K as [-> | [-> | [-> | [-> | [-> | ->]]]]];
    match goal with
    | |- context [nth_error ?l (Z.to_nat ?n)] =>
        let v := eval vm_compute in (nth_error l (Z.to_nat n)) in
        change (nth_error l (Z.to_nat n)) with v
    end;
    cbv beta iota; cbn [fst snd]; cbv beta iota;
    draw d1 H1; draw d2 H2; draw d3 H3;
    first [ apply yields_assoc; draw d4 H4; apply yields_unit
          | apply yields_unit ];
    draw d5 H5; draw d6 H6; done_drawing;
    unfold if_returned, metrics_fit;
    cbn [ballType spinRate speed swingDeviation angleOfEntry];
    (eexists; split; [reflexivity|]);
    (split; [|split; [in_range 2 8 H5|in_range 5 15 H6]]);
    fold_literals.
  all: try (split; [intros N; discriminate N|split; [intros N; discriminate N|]]).
  all: try (split; [auto|split; [in_range 1500 1500 H4|]]).
  all: match goal with
       | |- within _ _ (fadd (int ?a) (fmul _ (int ?n))) => in_range a n H1
       end.
Qed.

Lemma generateMockKeyFrames_yields :
  yields running generateMockKeyFrames frames_fit.
Proof.
  unfold generateMockKeyFrames.
  draw f1 F1. draw t1 T1. draw f2 F2. draw t2 T2.
  draw f3 F3. draw t3 T3. draw f4 F4. draw t4 T4. done_drawing.
  unfold frames_fit. cbn [map kf_type frameNumber].
  split; [reflexivity|].
  destruct (pick_index f1 10 F1 ltac:(lia)) as (k1 & -> & K1).
  destruct (pick_index f2 15 F2 ltac:(lia)) as (k2 & -> & K2).
  destruct (pick_index f3 20 F3 ltac:(lia)) as (k3 & -> & K3).
  destruct (pick_index f4 25 F4 ltac:(lia)) as (k4 & -> & K4).
  rewrite !int_plus by lia.
  exists (5 + k1), (25 + k2), (45 + k3), (60 + k4).
  split; [reflexivity|]. lia.
Qed.

Lemma drawCriteria_yields decision :
  yields running (drawCriteria decision) (fun _ => True).
Proof.
  unfold drawCriteria.
  draw d1 H1. draw d2 H2. draw d3 H3. draw d4 H4. done_drawing. exact I.
Qed.

Lemma generateTrajectory_yields settings :
  yields running (generateTrajectory settings) (if_returned (fun _ => True)).
Proof.
  unfold generateTrajectory, releaseToBounce, bounceToImpact, impactToStumps.
  cbv zeta.
  draw d1 H1. draw d2 H2.
  apply yields_checked. intros bounceFactor _.
  eapply yields_bind;
    [apply yields_forEach; intros i; draw d Hd; done_drawing; exact I|].
  intros seg1 _.
  eapply yields_bind;
    [apply yields_forEach; intros i; draw d Hd; done_drawing; exact I|].
  intros seg2 _.
  eapply yields_bind;
    [apply yields_forEach; intros i; draw d Hd; done_drawing; exact I|].
  intros seg3 _.
  done_drawing. exact I.
Qed.

Lemma synthesize_yields videoName seed0 settings now :
  yields any_state (synthesize videoName seed0 settings now)
    (if_returned report_fits).
Proof.
  unfold synthesize. cbv zeta.
  eapply yields_bind; [apply yields_first|]. intros d_decision _.
  draw d_confidence Hc.
  eapply yields_bind; [apply drawCriteria_yields|]. intros drawn _.
  match goal with
  | |- context [generatePitchAnalysis (pitchedInLine ?c)] =>
      generalize c; intros crit
  end.
  eapply yields_bind_ok; [apply generateBallMetrics_yields|]. intros bm Hbm.
  eapply yields_bind_ok; [apply generatePitchAnalysis_yields|]. intros pa Hpa.
  eapply yields_bind; [apply generateImpactAnalysis_yields|]. intros ia Hia.
  eapply yields_bind; [apply generateWicketPrediction_yields|]. intros wp Hwp.
  eapply yields_bind_ok; [apply generateTrajectory_yields|]. intros tr _.
  draw d_impact Hi. draw d_bounce Hb.
  destruct (wouldHitWickets crit) eqn:W.
  - apply yields_assoc. draw d_hit Hh. apply yields_unit.
    eapply yields_bind; [apply generateMockKeyFrames_yields|]. intros kfs Hk.
    done_drawing. unfold if_returned. exists bm, pa, ia, wp, kfs.
    cbn [ballMetrics pitchAnalysis impactAnalysis wicketPrediction keyFrames
         criteria isUmpiresCall impactPoint bouncePoint predictedWicketHit
         pos_x pos_y].
    rewrite W.
    repeat (split; [first [reflexivity | assumption]|]).
    split; [in_range 230 20 Hi|]. split; [in_range 130 40 Hb|].
    split; [reflexivity|]. split; [reflexivity|]. in_range 48 4 Hh.
  - apply yields_unit.
    eapply yields_bind; [apply generateMockKeyFrames_yields|]. intros kfs Hk.
    done_drawing. unfold if_returned. exists bm, pa, ia, wp, kfs.
    cbn [ballMetrics pitchAnalysis impactAnalysis wicketPrediction keyFrames
         criteria isUmpiresCall impactPoint bouncePoint predictedWicketHit
         pos_x pos_y].
    rewrite W.
    repeat (split; [first [reflexivity | assumption]|]).
    split; [in_range 230 20 Hi|]. split; [in_range 130 40 Hb|]. reflexivity.
Qed.

Lemma generated_report_fits videoName seed0 settings now r :
  generateAnalysisResult videoName seed0 settings now = Some r ->
  report_fits r.
Proof.
  unfold generateAnalysisResult. intros Hr.
  destruct (synthesize_yields videoName seed0 settings now {| seed := seed0 |} I)
    as [Hp _].
  rewrite Hr in Hp. exact Hp.
Qed.

End GeneratorFacts.

(** Whatever the seed and the configuration, the sections of a synthesized
    report agree with its criteria: the pitch zone is outside leg exactly
    when the ball did not pitch in line, the impact zone is in line exactly
    when the impact was, the wicket prediction says what the fourth
    criterion says, a predicted wicket hit is present exactly when the ball
    would hit (then at x = 300, y between 48 and 52), and the report is an
    umpire's call exactly when the impact analysis or the wicket prediction
    is.  An OUT report therefore has an in-line impact, a pitch zone other
    than outside leg, a hitting prediction and a predicted hit. *)
Theorem report_sections_agree_with_criteria {P : Platform}
  (videoName : jsstring) (seed0 : number) (settings : AnalysisSettings)
  (now : Z) (r : AnalysisResult) :
  generateAnalysisResult videoName seed0 settings now = Some r ->
  exists pa ia wp,
    pitchAnalysis r = Some pa /\ impactAnalysis r = Some ia
    /\ wicketPrediction r = Some wp
    /\ (pa_zone pa = outside_leg <-> pitchedInLine (criteria r) = false)
    /\ (ia_zone ia = inline <-> impactInLine (criteria r) = true)
    /\ wouldHit wp = wouldHitWickets (criteria r)
    /\ (predictedWicketHit r = None <-> wouldHitWickets (criteria r) = false)
    /\ (forall p, predictedWicketHit r = Some p ->
                  pos_x p = int 300 /\ within 48 52 (pos_y p))
    /\ isUmpiresCall r
       = Some (UmpiresCall_eqb (ia_umpiresCall ia) UMPIRES_CALL
               || UmpiresCall_eqb (wp_umpiresCall wp) UMPIRES_CALL)
    /\ (decision r = OUT ->
        pa_zone pa <> outside_leg /\ ia_zone ia = inline
        /\ wouldHit wp = true /\ predictedWicketHit r <> None).
Proof.
  intros Hr.
  pose proof (criteria_drawn videoName seed0 settings now r Hr) as C.
  destruct (generated_report_fits videoName seed0 settings now r Hr)
    as (bm & pa & ia & wp & kfs & _ & Epa & Eia & Ewp & _ & _ & Hpa & Hia
        & Hwp & _ & Eu & _ & _ & Hp).
  destruct Hpa as (Zp & _). destruct Hia as (Zi & _). destruct Hwp as (Zw & _).
  exists pa, ia, wp.
  repeat (split; [assumption|]).
  assert (N : predictedWicketHit r = None <-> wouldHitWickets (criteria r) = false).
  { destruct (predictedWicketHit r) as [p|].
    - destruct Hp as (W & _). rewrite W. split; discriminate.
    - split; [intros _; exact Hp|reflexivity]. }
  split; [exact N|].
  split.
  { intros p E. rewrite E in Hp. destruct Hp as (_ & X & Y). split; assumption. }
  split; [exact Eu|].
  intros D. rewrite D in C. rewrite C in Zp, Zi, Zw, N.
  cbn [all_true pitchedInLine impactInLine wouldHitWickets] in Zp, Zi, Zw, N.
  split; [intros E; apply Zp in E; discriminate E|].
  split; [apply Zi; reflexivity|].
  split; [exact Zw|].
  intros E. apply N in E. discriminate E.
Qed.

(** Witness: the sections of the report of seed 12345 with the default
    configuration, an OUT report. *)
Lemma report_sections_agree_with_criteria_witness :
  exists r,
    generateAnalysisResult (P := sample_platform) (str "match_delivery_01.mp4")
      (int 12345) MOCK_DEFAULTS 0 = Some r
    /\ (exists pa ia wp,
        pitchAnalysis r = Some pa /\ impactAnalysis r = Some ia
        /\ wicketPrediction r = Some wp
        /\ (pa_zone pa = outside_leg <-> pitchedInLine (criteria r) = false)
        /\ (ia_zone ia = inline <-> impactInLine (criteria r) = true)
        /\ wouldHit wp = wouldHitWickets (criteria r)
        /\ (predictedWicketHit r = None <-> wouldHitWickets (criteria r) = false)
        /\ (forall p, predictedWicketHit r = Some p ->
                      pos_x p = int 300 /\ within 48 52 (pos_y p))
        /\ isUmpiresCall r
           = Some (UmpiresCall_eqb (ia_umpiresCall ia) UMPIRES_CALL
                   || UmpiresCall_eqb (wp_umpiresCall wp) UMPIRES_CALL)
        /\ (decision r = OUT ->
            pa_zone pa <> outside_leg /\ ia_zone ia = inline
            /\ wouldHit wp = true /\ predictedWicketHit r <> None)).
Proof.
  destruct (default_report_produced (P := sample_platform)
              (str "match_delivery_01.mp4") (int 12345) 0) as [r E].
  exists r. split; [exact E|].
  exact (report_sections_agree_with_criteria _ _ _ _ r E).
Defined.

(** Whatever the seed, a synthesized wicket prediction fits its verdict.  A
    ball that would hit is given the leg, middle or off stump and a hit
    percentage between 25 and 100; a ball that would miss is given
    missing leg, missing off or over, a hit percentage of at least 0 and
    below 25, and is never an umpire's call.  The stump is never
    [undefined], and the margin of error lies between 1 and 4. *)
Theorem wicket_prediction_fits_its_verdict {P : Platform}
  (videoName : jsstring) (seed0 : number) (settings : AnalysisSettings)
  (now : Z) (r : AnalysisResult) :
  generateAnalysisResult videoName seed0 settings now = Some r ->
  exists wp,
    wicketPrediction r = Some wp
    /\ (wouldHit wp = true ->
        In (stumpHit wp) [Some leg; Some middle; Some off]
        /\ within 25 100 (hitPercentage wp))
    /\ (wouldHit wp = false ->
        In (stumpHit wp) [Some missing_leg; Some missing_off; Some over]
        /\ within 0 25 (hitPercentage wp)
        /\ flt (hitPercentage wp) (int 25) = true
        /\ wp_umpiresCall wp = CLEAR)
    /\ within 1 4 (marginOfError wp).
Proof.
  intros Hr.
  destruct (generated_report_fits videoName seed0 settings now r Hr)
    as (bm & pa & ia & wp & kfs & _ & _ & _ & Ewp & _ & _ & _ & _ & Hwp & _).
  destruct Hwp as (Zw & Hv & Hm).
  exists wp. split; [exact Ewp|].
  rewrite <- Zw in Hv.
  split; [|split; [|exact Hm]]; intros E; rewrite E in Hv; exact Hv.
Qed.

(** Witness: the wicket prediction of the report of seed 12345 with the
    default configuration. *)
Lemma wicket_prediction_fits_its_verdict_witness :
  exists r,
    generateAnalysisResult (P := sample_platform) (str "match_delivery_01.mp4")
      (int 12345) MOCK_DEFAULTS 0 = Some r
    /\ (exists wp,
        wicketPrediction r = Some wp
        /\ (wouldHit wp = true ->
            In (stumpHit wp) [Some leg; Some middle; Some off]
            /\ within 25 100 (hitPercentage wp))
        /\ (wouldHit wp = false ->
            In (stumpHit wp) [Some missing_leg; Some missing_off; Some over]
            /\ within 0 25 (hitPercentage wp)
            /\ flt (hitPercentage wp) (int 25) = true
            /\ wp_umpiresCall wp = CLEAR)
        /\ within 1 4 (marginOfError wp)).
Proof.
  destruct (default_report_produced (P := sample_platform)
              (str "match_delivery_01.mp4") (int 12345) 0) as [r E].
  exists r. split; [exact E|].
  exact (wicket_prediction_fits_its_verdict _ _ _ _ r E).
Defined.

(** Whatever the seed, the test [Math.abs(distFromLeg) < 5] of
    [generateImpactAnalysis] is never true: the impact's distance from the
    leg stump is between 5 and 25 for a zone outside leg and between -35
    and -5 otherwise.  So an impact outside the line is never an umpire's
    call, and a report whose impact is not in line and whose ball would
    miss is never an umpire's call. *)
Theorem impact_outside_line_is_never_marginal {P : Platform}
  (videoName : jsstring) (seed0 : number) (settings : AnalysisSettings)
  (now : Z) (r : AnalysisResult) :
  generateAnalysisResult videoName seed0 settings now = Some r ->
  exists ia,
    impactAnalysis r = Some ia
    /\ flt (Math_abs (ia_distanceFromLegStump ia)) (int 5) = false
    /\ (ia_zone ia <> inline -> ia_umpiresCall ia = CLEAR)
    /\ (impactInLine (criteria r) = false ->
        wouldHitWickets (criteria r) = false ->
        isUmpiresCall r = Some false).
Proof.
  intros Hr.
  destruct (generated_report_fits videoName seed0 settings now r Hr)
    as (bm & pa & ia & wp & kfs & _ & _ & Eia & _ & _ & _ & _ & Hia & Hwp & _
        & Eu & _).
  destruct Hia as (Zi & _ & Hl & _ & Hc). destruct Hwp as (_ & Hv & _).
  exists ia. split; [exact Eia|]. split; [|split; [exact Hc|]].
  - destruct (Zone_eqb (ia_zone ia) outside_leg).
    + apply (far_from_stump _ 5 25 Hl). left. lra.
    + apply (far_from_stump _ (-35) (-5) Hl). right. lra.
  - intros I W. rewrite W in Hv. destruct Hv as (_ & _ & _ & Hw).
    assert (Hi : ia_umpiresCall ia = CLEAR).
    { apply Hc. intros E. apply Zi in E. rewrite I in E. discriminate E. }
    rewrite Eu, Hi, Hw. reflexivity.
Qed.

(** Witness: the impact analysis of the report of seed 67890 with the
    default configuration, a NOT_OUT report. *)
Lemma impact_outside_line_is_never_marginal_witness :
  exists r,
    generateAnalysisResult (P := sample_platform) (str "street_cricket_lbw.mp4")
      (int 67890) MOCK_DEFAULTS 0 = Some r
    /\ (exists ia,
        impactAnalysis r = Some ia
        /\ flt (Math_abs (ia_distanceFromLegStump ia)) (int 5) = false
        /\ (ia_zone ia <> inline -> ia_umpiresCall ia = CLEAR)
        /\ (impactInLine (criteria r) = false ->
            wouldHitWickets (criteria r) = false ->
            isUmpiresCall r = Some false)).
Proof.
  destruct (default_report_produced (P := sample_platform)
              (str "street_cricket_lbw.mp4") (int 67890) 0) as [r E].
  exists r. split; [exact E|].
  exact (impact_outside_line_is_never_marginal _ _ _ _ r E).
Defined.

(** Whatever the seed, the distances a synthesized report gives from the
    stumps carry the sign of their zone: the pitch and the impact are a
    positive distance from the leg stump exactly in the zone outside leg,
    and a positive distance from the off stump exactly in the zone outside
    off; every other distance is negative.  The impact height lies between
    15 and 65. *)
Theorem stump_distances_follow_the_zone {P : Platform}
  (videoName : jsstring) (seed0 : number) (settings : AnalysisSettings)
  (now : Z) (r : AnalysisResult) :
  generateAnalysisResult videoName seed0 settings now = Some r ->
  exists pa ia,
    pitchAnalysis r = Some pa /\ impactAnalysis r = Some ia
    /\ (if Zone_eqb (pa_zone pa) outside_leg
        then within 5 35 (pa_distanceFromLegStump pa)
        else within (-50) (-10) (pa_distanceFromLegStump pa))
    /\ (if Zone_eqb (pa_zone pa) outside_off
        then within 5 25 (pa_distanceFromOffStump pa)
        else within (-65) (-15) (pa_distanceFromOffStump pa))
    /\ (if Zone_eqb (ia_zone ia) outside_leg
        then within 5 25 (ia_distanceFromLegStump ia)
        else within (-35) (-5) (ia_distanceFromLegStump ia))
    /\ (if Zone_eqb (ia_zone ia) outside_off
        then within 5 20 (ia_distanceFromOffStump ia)
        else within (-60) (-20) (ia_distanceFromOffStump ia))
    /\ within 15 65 (height ia).
Proof.
  intros Hr.
  destruct (generated_report_fits videoName seed0 settings now r Hr)
    as (bm & pa & ia & wp & kfs & _ & Epa & Eia & _ & _ & _ & Hpa & Hia & _).
  destruct Hpa as (_ & Pl & Po). destruct Hia as (_ & Hh & Il & Io & _).
  exists pa, ia. repeat (split; [assumption|]). exact Hh.
Qed.

(** Witness: the distances in the report of seed 11111 with the default
    configuration. *)
Lemma stump_distances_follow_the_zone_witness :
  exists r,
    generateAnalysisResult (P := sample_platform) (str "practice_session_2.mp4")
      (int 11111) MOCK_DEFAULTS 0 = Some r
    /\ (exists pa ia,
        pitchAnalysis r = Some pa /\ impactAnalysis r = Some ia
        /\ (if Zone_eqb (pa_zone pa) outside_leg
            then within 5 35 (pa_distanceFromLegStump pa)
            else within (-50) (-10) (pa_distanceFromLegStump pa))
        /\ (if Zone_eqb (pa_zone pa) outside_off
            then within 5 25 (pa_distanceFromOffStump pa)
            else within (-65) (-15) (pa_distanceFromOffStump pa))
        /\ (if Zone_eqb (ia_zone ia) outside_leg
            then within 5 25 (ia_distanceFromLegStump ia)
            else within (-35) (-5) (ia_distanceFromLegStump ia))
        /\ (if Zone_eqb (ia_zone ia) outside_off
            then within 5 20 (ia_distanceFromOffStump ia)
            else within (-60) (-20) (ia_distanceFromOffStump ia))
        /\ within 15 65 (height ia)).
Proof.
  destruct (default_report_produced (P := sample_platform)
              (str "practice_session_2.mp4") (int 11111) 0) as [r E].
  exists r. split; [exact E|].
  exact (stump_distances_follow_the_zone _ _ _ _ r E).
Defined.

(** Whatever the seed, the ball metrics of a report synthesis returns name
    a ball type (the index into the six types is never out of range) and
    carry a spin rate exactly for off spin and leg spin.  With a spin rate,
    it lies between 1500 and 3000 and the speed between 60 and 100; without,
    the speed lies between 100 and 155, for each of the three configured
    balls and for a ball the table does not have, which gets the tennis
    ranges.  The swing deviation lies between 2 and 10 and the angle of
    entry between 5 and 20.  Synthesis returns no report, throwing a
    TypeError, exactly when one of its two lookups fails: the ball type or
    the pitch surface has no primitive form to serve as a key, or the ball
    type is not in the table and names a member every object inherits —
    [constructor], [toString], [__proto__] and the like — which [??] keeps
    and which has neither a [pace] nor a [spin] to destructure. *)
Theorem ball_metrics_are_defined {P : Platform}
  (videoName : jsstring) (seed0 : number) (settings : AnalysisSettings)
  (now : Z) :
  (forall r,
     generateAnalysisResult videoName seed0 settings now = Some r ->
     exists bm b,
       ballMetrics r = Some bm /\ ballType bm = Some b
       /\ (spinRate bm = None <-> b <> offspin /\ b <> legspin)
       /\ (forall s, spinRate bm = Some s ->
                     within 1500 3000 s /\ within 60 100 (speed bm))
       /\ (spinRate bm = None -> within 100 155 (speed bm))
       /\ within 2 10 (swingDeviation bm) /\ within 5 20 (angleOfEntry bm))
  /\ (generateAnalysisResult videoName seed0 settings now = None
      <-> speed_range settings = None \/ bounce_factor settings = None)
  /\ (speed_range settings = None
      <-> match ToString (ball_type settings) with
          | Some key =>
              table_lookup key BALL_SPEED_RANGES = None
              /\ existsb (streq key) Object_prototype_keys = true
          | None => True
          end)
  /\ (bounce_factor settings = None
      <-> ToString (pitch_surface settings) = None)
  /\ (ball_type settings = JStr (str "constructor") ->
      generateAnalysisResult videoName seed0 settings now = None).
Proof.
  assert (S : speed_range settings = None
              <-> match ToString (ball_type settings) with
                  | Some key =>
                      table_lookup key BALL_SPEED_RANGES = None
                      /\ existsb (streq key) Object_prototype_keys = true
                  | None => True
                  end).
  { unfold speed_range, table_get.
    destruct (ToString (ball_type settings)) as [key|];
      [|split; intros _; [exact I|reflexivity]].
    destruct (table_lookup key BALL_SPEED_RANGES) as [sr|].
    - split; [discriminate|]. intros [N _]. discriminate N.
    - destruct (existsb (streq key) Object_prototype_keys).
      + split; [intros _; split; reflexivity|reflexivity].
      + split; [discriminate|]. intros [_ N]. discriminate N. }
  split; [|split; [apply report_thrown|split; [exact S|split]]].
  - intros r Hr.
    destruct (generated_report_fits videoName seed0 settings now r Hr)
      as (bm & pa & ia & wp & kfs & Ebm & _ & _ & _ & _ & Hbm & _).
    destruct Hbm as (b & Eb & Hs & Hw & Ha).
    exists bm, b. split; [exact Ebm|]. split; [exact Eb|].
    destruct (spinRate bm) as [s|].
    + destruct Hs as (Hb & H1 & H2).
      split; [split; [discriminate|]|].
      { intros (N1 & N2). destruct Hb as [Hb|Hb]; [elim (N1 Hb)|elim (N2 Hb)]. }
      split; [intros s' E; apply some_eq in E; rewrite <- E; split; assumption|].
      split; [discriminate|]. split; assumption.
    + destruct Hs as (N1 & N2 & H2).
      split; [split; [intros _; split; assumption|reflexivity]|].
      split; [intros s' E; discriminate E|].
      split; [intros _; exact H2|]. split; assumption.
  - unfold bounce_factor.
    destruct (ToString (pitch_surface settings));
      split; (discriminate || reflexivity).
  - intros E. apply report_thrown. left. apply S. rewrite E.
    vm_compute. split; reflexivity.
Qed.

(** Whatever the seed, a synthesized report has four key frames, in the
    order release, bounce, impact, wicket, whose frame numbers are integers
    in 5..14, 25..39, 45..64 and 60..84: release comes before bounce and
    bounce before impact, while the wicket frame can precede the impact
    frame (seed 0 with the default configuration gives frames 7, 31, 63,
    60).  The marked impact point lies between x = 230 and 250 and the
    marked bounce point between x = 130 and 170. *)
Theorem key_frames_come_in_order {P : Platform}
  (videoName : jsstring) (seed0 : number) (settings : AnalysisSettings)
  (now : Z) (r : AnalysisResult) :
  generateAnalysisResult videoName seed0 settings now = Some r ->
  exists kfs k1 k2 k3 k4,
    keyFrames r = Some kfs
    /\ map kf_type kfs = [release; bounce; impact; wicket]
    /\ map frameNumber kfs = [int k1; int k2; int k3; int k4]
    /\ 5 <= k1 <= 14 /\ 25 <= k2 <= 39 /\ 45 <= k3 <= 64 /\ 60 <= k4 <= 84
    /\ within 230 250 (pos_x (impactPoint r))
    /\ within 130 170 (pos_x (bouncePoint r))
    /\ exists r0,
         generateAnalysisResult (str "clip.mp4") (int 0) MOCK_DEFAULTS 0
         = Some r0
         /\ option_map (map frameNumber) (keyFrames r0)
            = Some [int 7; int 31; int 63; int 60].
Proof.
  intros Hr.
  destruct (generated_report_fits videoName seed0 settings now r Hr)
    as (bm & pa & ia & wp & kfs & _ & _ & _ & _ & Ek & _ & _ & _ & _ & Hk & _
        & Hi & Hb & _).
  destruct Hk as (Ht & k1 & k2 & k3 & k4 & En & K1 & K2 & K3 & K4).
  exists kfs, k1, k2, k3, k4.
  split; [exact Ek|]. split; [exact Ht|]. split; [exact En|].
  split; [exact K1|]. split; [exact K2|]. split; [exact K3|].
  split; [exact K4|]. split; [exact Hi|]. split; [exact Hb|].
  assert (X : option_map (fun r0 => option_map (map frameNumber) (keyFrames r0))
                (generateAnalysisResult (str "clip.mp4") (int 0) MOCK_DEFAULTS 0)
              = Some (Some [int 7; int 31; int 63; int 60]))
    by (vm_compute; reflexivity).
  destruct (generateAnalysisResult (str "clip.mp4") (int 0) MOCK_DEFAULTS 0)
    as [r0|]; [|discriminate X].
  exists r0. split; [reflexivity|]. apply some_eq in X. exact X.
Qed.

(** Witness: the key frames of the report of seed 22222 with the default
    configuration. *)
Lemma key_frames_come_in_order_witness :
  exists r,
    generateAnalysisResult (P := sample_platform) (str "tournament_final_over.mp4")
      (int 22222) MOCK_DEFAULTS 0 = Some r
    /\ (exists kfs k1 k2 k3 k4,
        keyFrames r = Some kfs
        /\ map kf_type kfs = [release; bounce; impact; wicket]
        /\ map frameNumber kfs = [int k1; int k2; int k3; int k4]
        /\ 5 <= k1 <= 14 /\ 25 <= k2 <= 39 /\ 45 <= k3 <= 64 /\ 60 <= k4 <= 84
        /\ within 230 250 (pos_x (impactPoint r))
        /\ within 130 170 (pos_x (bouncePoint r))
        /\ exists r0,
             generateAnalysisResult (P := sample_platform) (str "clip.mp4") (int 0) MOCK_DEFAULTS 0
             = Some r0
             /\ option_map (map frameNumber) (keyFrames r0)
                = Some [int 7; int 31; int 63; int 60]).
Proof.
  destruct (default_report_produced (P := sample_platform)
              (str "tournament_final_over.mp4") (int 22222) 0) as [r E].
  exists r. split; [exact E|].
  exact (key_frames_come_in_order _ _ _ _ r E).
Defined.
(** ** The content fingerprint reads samples only *)

Lemma Qfloor_between m q :
  (inject_Z m <= q < inject_Z (m + 1))%Q -> Qfloor q = m.
Proof.
  intros [Hl Hu]. pose proof (floor_bounds q) as [F1 F2].
  assert (m <= Qfloor q).
  { rewrite <- (Qfloor_Z m). apply Qfloor_resp_le. exact Hl. }
  assert (Qfloor q < m + 1) by (rewrite Zlt_Qlt; lra).
  lia.
Qed.

(** [Math.max(1, Math.floor(n / 1000))] for the length of a chunk. *)
Lemma sampleRate_value n :
  0 <= n <= 1024 * 1024 ->
  Math_max (int 1) (Math_floor (fdiv (int n) (int 1000)))
  = Fin (inject_Z (sampleRate_of n)).
Proof.
  intros Hn.
  assert (H20 : 1024 * 1024 < 2 ^ 53) by (vm_compute; reflexivity).
  rewrite (int_small n), (int_small 1000), (int_small 1) by lia.
  unfold fdiv. change (is_zero (inject_Z 1000)) with false. cbv iota.
  set (x := (inject_Z n / inject_Z 1000)%Q).
  pose proof (Z.div_mod n 1000 ltac:(lia)) as D.
  pose proof (Z.mod_pos_bound n 1000 ltac:(lia)) as R.
  set (m := n / 1000) in *. set (r := n mod 1000) in *.
  assert (Hm : 0 <= m <= 1024 * 1024).
  { unfold m. split; [apply Z.div_pos; lia|].
    apply Z.div_le_upper_bound; lia. }
  assert (Ex : (x * 1000 == inject_Z m * 1000 + inject_Z r)%Q).
  { unfold x. rewrite D. rewrite inject_Z_plus, inject_Z_mult.
    change (inject_Z 1000) with 1000%Q. field. }
  assert (Hr0 : (0 <= inject_Z r)%Q)
    by (change 0%Q with (inject_Z 0); rewrite <- Zle_Qle; lia).
  assert (Hr1 : (inject_Z r <= 999)%Q).
  { change 999%Q with (inject_Z 999). rewrite <- Zle_Qle. lia. }
  assert (Hm0 : (0 <= inject_Z m)%Q)
    by (change 0%Q with (inject_Z 0); rewrite <- Zle_Qle; lia).
  assert (Hm1 : (inject_Z m <= 1048576)%Q).
  { change 1048576%Q with (inject_Z 1048576). rewrite <- Zle_Qle. lia. }
  assert (Hx : (inject_Z m <= x)%Q) by lra.
  pose proof (round53_lower m x ltac:(lia) Hx) as L.
  pose proof (round53_err x) as [_ U].
  assert (Hb : (0 <= x < pow2 21)%Q).
  { change (pow2 21) with 2097152%Q. split; lra. }
  pose proof (quantum_below 21 x ltac:(lia) Hb) as Hq.
  change (pow2 (21 - 53)) with (1 # 4294967296)%Q in Hq.
  assert (Hu : (round53 x < inject_Z (m + 1))%Q).
  { rewrite inject_Z_plus. change (inject_Z 1) with 1%Q. lra. }
  assert (F : of_Q x = Fin (round53 x)).
  { apply of_Q_Fin. rewrite Qabs_pos by lra.
    assert ((pow2 21 < pow2 1024)%Q) by (apply pow2_lt; lia).
    rewrite inject_Z_plus in Hu. change (inject_Z 1) with 1%Q in Hu.
    change (pow2 21) with 2097152%Q in *. lra. }
  rewrite F. cbn [Math_floor].
  rewrite (Qfloor_between m) by (split; assumption).
  unfold sampleRate_of. fold m. cbn [Math_max flt].
  destruct (Qle_bool (inject_Z m) (inject_Z 1)) eqn:E; cbn [negb].
  - apply Qle_bool_iff in E. rewrite <- Zle_Qle in E.
    rewrite Z.max_l by lia. reflexivity.
  - assert (1 < m).
    { destruct (Z_lt_le_dec 1 m) as [G|G]; [exact G|].
      rewrite Zle_Qle in G. apply Qle_bool_iff in G. congruence. }
    rewrite Z.max_r by lia. reflexivity.
Qed.

Section SamplingFacts.
Context {P : Platform}.

Lemma sampleBytes_S fuel i rate bytes hash :
  sampleBytes (S fuel) i rate bytes hash
  = if flt i (int (Z.of_nat (List.length bytes))) then
      sampleBytes fuel (fadd i rate) rate bytes
        (Math_imul (bitxor hash
                      match at_index bytes i with
                      | Some b => int b
                      | None => NaN
                      end)
                   FNV_PRIME)
    else hash.
Proof. reflexivity. Qed.

(** Chunks that agree at the sampled indices hash alike. *)
Lemma sampleBytes_same (x y : list Z) :
  same_samples (Some x) (Some y) = true ->
  let r := sampleRate_of (Z.of_nat (List.length x)) in
  forall fuel i h,
    0 <= i -> i mod r = 0 ->
    sampleBytes fuel (Fin (inject_Z i)) (Fin (inject_Z r)) x h
    = sampleBytes fuel (Fin (inject_Z i)) (Fin (inject_Z r)) y h.
Proof.
  intros S r. cbn [same_samples] in S.
  apply andb_prop in S. destruct S as [S A].
  apply andb_prop in S. destruct S as [L B].
  apply Nat.eqb_eq in L. apply Z.leb_le in B.
  rewrite forallb_forall in A.
  assert (H20 : 1024 * 1024 < 2 ^ 52) by (vm_compute; reflexivity).
  assert (H52 : 2 * 2 ^ 52 = 2 ^ 53) by reflexivity.
  assert (H53 : 2 ^ 53 < 2 ^ 1000) by (apply Z.pow_lt_mono_r; lia).
  assert (Hr : 1 <= r <= 1024 * 1024).
  { unfold r, sampleRate_of. split; [lia|].
    apply Z.max_lub; [lia|]. apply Z.div_le_upper_bound; lia. }
  induction fuel as [|fuel IH]; intros i h Hi Hm; [reflexivity|].
  rewrite !sampleBytes_S. rewrite <- L.
  rewrite (int_small (Z.of_nat (List.length x))) by lia.
  cbn [flt].
  destruct (Qle_bool (inject_Z (Z.of_nat (List.length x))) (inject_Z i)) eqn:E;
    cbn [negb]; [reflexivity|].
  assert (Hlt : i < Z.of_nat (List.length x)).
  { destruct (Z_lt_le_dec i (Z.of_nat (List.length x))) as [G|G]; [exact G|].
    rewrite Zle_Qle in G. apply Qle_bool_iff in G. congruence. }
  rewrite !at_index_int by exact Hi.
  assert (Hn : (Z.to_nat i < List.length x)%nat) by lia.
  rewrite (nth_error_nth' x 0 Hn).
  rewrite (nth_error_nth' y 0 ltac:(rewrite <- L; exact Hn)).
  assert (Eb : nth (Z.to_nat i) x 0 = nth (Z.to_nat i) y 0).
  { assert (Hin : In i (indices 0 (List.length x))).
    { unfold indices. apply in_map_iff. exists (Z.to_nat i).
      split; [lia|]. apply in_seq. lia. }
    specialize (A i Hin). fold r in A.
    rewrite Hm in A. cbn in A. apply Z.eqb_eq in A. exact A. }
  rewrite Eb.
  rewrite fadd_int by lia. rewrite roundZ_small by lia.
  apply IH; [lia|].
  rewrite <- (Z.mul_1_l r) at 1. rewrite Z_mod_plus_full. exact Hm.
Qed.

Lemma hashChunks_same (f f' : File) :
  file_size f = file_size f' ->
  (forall s e, same_samples (read_slice f s e) (read_slice f' s e) = true) ->
  forall fuel c t h, hashChunks fuel f c t h = hashChunks fuel f' c t h.
Proof.
  intros Hsize Hs.
  induction fuel as [|fuel IH]; intros c t h; [reflexivity|].
  rewrite !hashChunks_S. rewrite <- Hsize.
  destruct (flt c t); [|reflexivity].
  match goal with
  | |- context [read_slice f ?s ?e] =>
      pose proof (Hs s e) as A;
      destruct (read_slice f s e) as [x|]; destruct (read_slice f' s e) as [y|]
  end; try discriminate A; [|reflexivity].
  pose proof (sampleBytes_same x y A) as Sx. cbv zeta in Sx.
  cbn [same_samples] in A.
  apply andb_prop in A. destruct A as [A _].
  apply andb_prop in A. destruct A as [L B].
  apply Nat.eqb_eq in L. apply Z.leb_le in B.
  rewrite <- L.
  rewrite sampleRate_value by lia.
  rewrite (int_small 0) by (vm_compute; discriminate).
  rewrite (Sx (List.length x) 0 h ltac:(lia) ltac:(apply Z.mod_0_l;
             unfold sampleRate_of; lia)).
  rewrite IH. reflexivity.
Qed.

Lemma hashContent_same (f f' : File) :
  file_size f = file_size f' ->
  (forall s e, same_samples (read_slice f s e) (read_slice f' s e) = true) ->
  hashContent f = hashContent f'.
Proof.
  intros Hsize Hs. unfold hashContent. cbv zeta. rewrite <- Hsize.
  match goal with
  | |- context [hashChunks ?n f ?c ?t ?h] =>
      rewrite (hashChunks_same f f' Hsize Hs n c t h)
  end.
  reflexivity.
Qed.

End SamplingFacts.

(** The fingerprint reads a chunk only at every [sampleRate]-th byte: two
    files of one size whose chunks have the same lengths and agree at the
    sampled indices make the same progress calls and, when their reads
    succeed, get the same fingerprint — whatever their other bytes, their
    names and their time stamps. *)
Theorem fingerprint_reads_only_samples {P : Platform} (f f' : File) :
  file_size f = file_size f' ->
  (forall s e, same_samples (read_slice f s e) (read_slice f' s e) = true) ->
  hashContent f = hashContent f'
  /\ snd (generateFileHash f) = snd (generateFileHash f')
  /\ (snd (hashContent f) <> None -> generateFileHash f = generateFileHash f').
Proof.
  intros Hsize Hs. pose proof (hashContent_same f f' Hsize Hs) as E.
  split; [exact E|]. unfold generateFileHash. rewrite <- E.
  destruct (hashContent f) as [calls0 [seed0|]]; cbn [snd].
  - split; [reflexivity|]. intros _. reflexivity.
  - split; [reflexivity|]. intros N. contradiction N. reflexivity.
Qed.

(** Witness: two clips of 2000 bytes that differ in their second byte, which
    the sampling loop (every second byte, from the first) does not read. *)
Lemma fingerprint_reads_only_samples_witness :
  nth 1 (map (fun k => k mod 256) (indices 0 2000)) 0 = 1
  /\ nth 1 (map (fun k => if k =? 1 then 255 else k mod 256) (indices 0 2000)) 0
     = 255
  /\ generateFileHash (P := sample_platform) first_clip
     = generateFileHash (P := sample_platform) second_clip.
Proof.
  split; [reflexivity|]. split; [reflexivity|].
  assert (A : forall s e, same_samples (read_slice first_clip s e)
                                       (read_slice second_clip s e) = true).
  { intros s e. unfold first_clip, second_clip, whole_file. cbn [read_slice].
    rewrite !length_map. unfold indices. rewrite !length_map, !length_seq.
    destruct (feq s (int 0) && feq e (int (Z.of_nat 2000)));
      [vm_compute; reflexivity|reflexivity]. }
  assert (Z : file_size first_clip = file_size second_clip)
    by (vm_compute; reflexivity).
  refine (proj2 (proj2 (fingerprint_reads_only_samples (P := sample_platform)
                          first_clip second_clip Z A)) _).
  vm_compute. discriminate.
Defined.
(** ** The response parser, on any payload *)

Lemma get_nullish (data : jsvalue) (key : string) :
  get data key = None <-> nullish data = true.
Proof. destruct data; cbn [get nullish]; split; (discriminate || reflexivity). Qed.

(** [parseAnalysisResult] throws a TypeError exactly when the payload is
    [null] or [undefined], or when one of the six values it converts — the
    id, the video id, the video name and the thumbnail given to [String],
    the confidence given to [Number], the creation stamp given to [String]
    — has no primitive form (an object with a [toString] entry of its own,
    or an array that holds one).  A payload that is a number, a string, a
    boolean or an array has none of the fields and parses to a report; the
    payload [{ id: { toString: 1 } }] does not parse. *)
Theorem parser_throws_on_nullish_or_unconvertible {P : Platform}
  (data : jsvalue) (now : Z) :
  (parseAnalysisResult data now = None
   <-> nullish data = true
       \/ ToString (or_else (get_opt data "id") (JStr [])) = None
       \/ ToString (or_else (or_else (get_opt data "video_id")
                                     (get_opt data "videoId")) (JStr [])) = None
       \/ ToString (or_else (or_else (get_opt data "video_name")
                                     (get_opt data "videoName")) (JStr [])) = None
       \/ ToString (or_else (or_else (get_opt data "video_thumbnail")
                                     (get_opt data "videoThumbnail"))
                            (JStr (str "/placeholder.svg"))) = None
       \/ ToNumber (get_opt data "confidence") = None
       \/ ToString (or_else (or_else (get_opt data "created_at")
                                     (get_opt data "createdAt"))
                            (JNum (int now))) = None)
  /\ (nullish data = false -> (forall props, data <> JObj props) ->
      exists r, parseAnalysisResult data now = Some r)
  /\ parseAnalysisResult
       (JObj [ (str "id", JObj [ (str "toString", JNum (int 1)) ]) ]) now
     = None.
Proof.
  split; [|split].
  - unfold parseAnalysisResult, number_or_zero. cbv zeta.
    pose proof (get_nullish data "id") as G.
    destruct (get data "id") as [i|].
    + assert (N : nullish data = false).
      { destruct (nullish data); [|reflexivity].
        assert (X : Some i = None) by (apply G; reflexivity). discriminate X. }
      rewrite N. clear G N.
      repeat match goal with
             | |- context [ToString ?v] =>
                 let o := fresh "o" in
                 set (o := ToString v) in *; clearbody o
             | |- context [ToNumber ?v] =>
                 let o := fresh "o" in
                 set (o := ToNumber v) in *; clearbody o
             end.
      repeat match goal with
             | o : option _ |- _ => destruct o
             end;
        (split; [intros E; try discriminate E; tauto|]);
        intros D; try reflexivity;
        repeat (destruct D as [D|D]; [discriminate D|]); discriminate D.
    + split; [intros _; left; apply G; reflexivity|reflexivity].
  - intros N O. unfold parseAnalysisResult.
    destruct data; try discriminate N; cbn [get];
      try (eexists; reflexivity).
    elim (O props). reflexivity.
  - reflexivity.
Qed.

(** Witness: the number 7 parses to a report. *)
Lemma parser_throws_on_nullish_or_unconvertible_witness :
  exists r, parseAnalysisResult (P := sample_platform) (JNum (int 7)) 0 = Some r.
Proof.
  apply (proj1 (proj2 (parser_throws_on_nullish_or_unconvertible
                         (P := sample_platform) (JNum (int 7)) 0)));
    [reflexivity|discriminate].
Defined.

Lemma number_or_zero_not_NaN {P : Platform} (v : jsvalue) :
  number_or_zero v <> Some NaN.
Proof.
  unfold number_or_zero.
  destruct (ToNumber v) as [[|s|q]|]; cbn [truthy].
  - rewrite int_zero. discriminate.
  - discriminate.
  - destruct (negb (is_zero q)); [discriminate|]. rewrite int_zero. discriminate.
  - discriminate.
Qed.

(** The confidence of a parsed report is never NaN: a confidence that is
    missing, or that [Number] cannot read, or that is 0 or NaN, becomes 0. *)
Theorem parsed_confidence_is_a_number {P : Platform}
  (data : jsvalue) (now : Z) (r : ParsedResult) :
  parseAnalysisResult data now = Some r ->
  p_confidence r <> NaN
  /\ (ToNumber (get_opt data "confidence") = Some NaN -> p_confidence r = Fin 0).
Proof.
  intros H. pose proof (parsed_confidence data now r H) as C. split.
  - intros N. rewrite N in C. exact (number_or_zero_not_NaN _ C).
  - intros E. unfold number_or_zero in C. rewrite E in C. cbn [truthy] in C.
    apply some_eq in C. rewrite <- C. apply int_zero.
Qed.

Lemma parsed_confidence_is_a_number_witness :
  exists r,
    parseAnalysisResult (P := sample_platform)
      (JObj [ (str "confidence", JStr (str "high")) ]) 0 = Some r
    /\ p_confidence r <> NaN.
Proof.
  eexists. split; [reflexivity|].
  exact (proj1 (parsed_confidence_is_a_number (P := sample_platform)
                  (JObj [ (str "confidence", JStr (str "high")) ]) 0 _ eq_refl)).
Defined.
(** ** The event stream: settlement *)

Section SettlementFacts.
Context {P : Platform}.
Variable now : Z.

(** What a run of lines dispatches: step updates, closed by a result or an
    error exactly when the loop was left. *)
Lemma dispatchLine_shape line :
  (snd (dispatchLine now line) = false
   /\ exists steps, fst (dispatchLine now line) = map StepUpdate steps)
  \/ (snd (dispatchLine now line) = true
      /\ ((exists r, fst (dispatchLine now line) = [Resolve r])
          \/ exists e, fst (dispatchLine now line) = [Reject e])).
Proof.
  unfold dispatchLine.
  destruct (startsWith line (str "data: ")); [|left; split; [reflexivity|exists []; reflexivity]].
  destruct (JSON_parse (slice 6 line)) as [data|];
    [|right; split; [reflexivity|right; eexists; reflexivity]].
  destruct (get data "type") as [type|];
    [|right; split; [reflexivity|right; eexists; reflexivity]].
  destruct (is_string type "step").
  { left. split; [reflexivity|]. exists [get_opt data "step"]. reflexivity. }
  destruct (is_string type "result").
  { destruct (parseAnalysisResult (get_opt data "result") now) as [r|];
      right; (split; [reflexivity|]); [left|right]; eexists; reflexivity. }
  destruct (is_string type "error").
  { destruct (Error_message (get_opt data "message"));
      right; (split; [reflexivity|]); right; eexists; reflexivity. }
  left. split; [reflexivity|]. exists []. reflexivity.
Qed.

Lemma dispatchLines_shape lines :
  exists steps,
    (snd (dispatchLines now lines) = false
     /\ fst (dispatchLines now lines) = map StepUpdate steps)
    \/ (snd (dispatchLines now lines) = true
        /\ ((exists r, fst (dispatchLines now lines)
                       = map StepUpdate steps ++ [Resolve r])
            \/ exists e, fst (dispatchLines now lines)
                         = map StepUpdate steps ++ [Reject e])).
Proof.
  induction lines as [|line lines IH].
  - exists []. left. split; reflexivity.
  - cbn [dispatchLines].
    destruct (dispatchLine_shape line) as [[S (s1 & E1)]|[S H]];
      destruct (dispatchLine now line) as [out stop]; cbn [fst snd] in *; subst stop.
    + destruct IH as (s2 & IH).
      destruct (dispatchLines now lines) as [outs stop']. cbn [fst snd] in *.
      exists (s1 ++ s2). rewrite E1, map_app.
      destruct IH as [[-> ->]|[-> [(r & ->)|(e & ->)]]].
      * left. split; reflexivity.
      * right. split; [reflexivity|]. left. exists r. rewrite app_assoc. reflexivity.
      * right. split; [reflexivity|]. right. exists e. rewrite app_assoc. reflexivity.
    + exists []. right. split; [reflexivity|].
      destruct H as [(r & ->)|(e & ->)]; [left; exists r|right; exists e]; reflexivity.
Qed.

Lemma processEvents_shape chunks : forall decoder buffer,
  exists steps,
    processEvents now decoder buffer chunks = map StepUpdate steps
    \/ (exists r, processEvents now decoder buffer chunks
                  = map StepUpdate steps ++ [Resolve r])
    \/ (exists e, processEvents now decoder buffer chunks
                  = map StepUpdate steps ++ [Reject e]).
Proof.
  induction chunks as [|value rest IH]; intros decoder buffer.
  - exists []. left. reflexivity.
  - cbn [processEvents]. destruct (decode decoder value) as [text decoder'].
    cbv zeta.
    destruct (dispatchLines_shape (removelast (split_frames (buffer ++ text))))
      as (s1 & H).
    destruct (dispatchLines now (removelast (split_frames (buffer ++ text))))
      as [out stop]. cbn [fst snd] in H.
    destruct H as [[-> ->]|[-> H]].
    + destruct (IH decoder' (last (split_frames (buffer ++ text)) [])) as (s2 & H2).
      exists (s1 ++ s2). rewrite map_app.
      destruct H2 as [->|[(r & ->)|(e & ->)]].
      * left. reflexivity.
      * right. left. exists r. rewrite app_assoc. reflexivity.
      * right. right. exists e. rewrite app_assoc. reflexivity.
    + exists s1. right. destruct H as [(r & ->)|(e & ->)];
        [left; exists r|right; exists e]; reflexivity.
Qed.

Lemma settlement_steps steps tail :
  settlement (map StepUpdate steps ++ tail) = settlement tail.
Proof. induction steps as [|s steps IH]; [reflexivity|exact IH]. Qed.

Lemma step_updates_steps steps tail :
  step_updates (map StepUpdate steps ++ tail) = steps ++ step_updates tail.
Proof.
  induction steps as [|s steps IH]; [reflexivity|].
  cbn [map app step_updates]. rewrite IH. reflexivity.
Qed.

Lemma settlement_only_steps steps :
  settlement (map StepUpdate steps) = Pending.
Proof. induction steps as [|s steps IH]; [reflexivity|exact IH]. Qed.

Lemma step_updates_only_steps steps :
  step_updates (map StepUpdate steps) = steps.
Proof.
  induction steps as [|s steps IH]; [reflexivity|].
  cbn [map step_updates]. rewrite IH. reflexivity.
Qed.

End SettlementFacts.

(** Whatever the stream holds and however it is cut, the read loop settles
    the promise at most once and dispatches nothing afterwards: what it
    dispatches is a run of step updates, closed by at most one result or one
    error, which is what the promise settles with. *)
Theorem stream_settles_at_most_once {P : Platform} (now : Z)
  (decoder : Decoder) (buffer : jsstring) (chunks : list (list Z)) :
  let out := processEvents now decoder buffer chunks in
  exists steps,
    step_updates out = steps
    /\ ((out = map StepUpdate steps /\ settlement out = Pending)
        \/ (exists r, out = map StepUpdate steps ++ [Resolve r]
                      /\ settlement out = Fulfilled r)
        \/ (exists e, out = map StepUpdate steps ++ [Reject e]
                      /\ settlement out = Rejected e)).
Proof.
  intros out. unfold out.
  destruct (processEvents_shape now chunks decoder buffer)
    as (steps & [E|[(r & E)|(e & E)]]); rewrite E; exists steps.
  - rewrite step_updates_only_steps, settlement_only_steps.
    split; [reflexivity|]. left. split; reflexivity.
  - rewrite step_updates_steps, settlement_steps. cbn [step_updates settlement].
    rewrite app_nil_r. split; [reflexivity|]. right. left. exists r.
    split; reflexivity.
  - rewrite step_updates_steps, settlement_steps. cbn [step_updates settlement].
    rewrite app_nil_r. split; [reflexivity|]. right. right. exists e.
    split; reflexivity.
Qed.

(** ** Code that settles, code that returns *)

Lemma settles_settled {S A} (r : Reply A) : settles (settled (S := S) r).
Proof. intros s. destruct r; discriminate. Qed.

Lemma settles_for_of {S A B} (l : list A) (body : A -> Async S B) :
  (forall a, settles (body a)) -> settles (for_of l body).
Proof.
  intros Hb. induction l as [|a l IH]; cbn [for_of].
  - apply settles_pure.
  - apply settles_bind; [apply Hb|]. intros b.
    apply settles_bind; [exact IH|]. intros bs. apply settles_pure.
Qed.

Lemma settles_array_map {S B} (v : jsvalue) (f : jsvalue -> Async S B) :
  (forall a, settles (f a)) -> settles (array_map v f).
Proof.
  intros Hf. destruct v; cbn [array_map]; try apply settles_throw.
  apply settles_for_of, Hf.
Qed.

Lemma settles_now {X} {H : Host X} : settles now.
Proof. intros w. discriminate. Qed.

Lemma settles_stored {X} : settles (stored (X := X)).
Proof. intros w. discriminate. Qed.

Lemma settles_wait {X} {H : Host X} (ms : number) : settles (wait ms).
Proof. intros w. discriminate. Qed.

Lemma settles_call {X} (c : Callback) : settles (call (X := X) c).
Proof. intros w. discriminate. Qed.

Lemma settles_returns {S A} (m : Async S A) : returns m -> settles m.
Proof. intros Hm s. destruct (Hm s) as (a & s' & ->). discriminate. Qed.

(** One step of a proof that code settles, chosen by the shape of the code. *)
Ltac settling :=
  repeat lazymatch goal with
         | |- settles (pure _) => apply settles_pure
         | |- settles (throw _) => apply settles_throw
         | |- settles (await _) => apply settles_await
         | |- settles (prop _ _) => apply settles_prop
         | |- settles (settled _) => apply settles_settled
         | |- settles (convert _) => apply settles_convert
         | |- settles now => apply settles_now
         | |- settles stored => apply settles_stored
         | |- settles (wait _) => apply settles_wait
         | |- settles (call _) => apply settles_call
         | |- settles isUserAuthenticated => apply isUserAuthenticated_settles
         | |- settles (outside _) => apply settles_outside
         | |- settles (and_then _ _) => apply settles_bind; [|intros ?]
         | |- settles (try_catch _ _) => apply settles_try_catch; [|intros ?]
         | |- settles (for_of _ _) => apply settles_for_of; intros ?
         | |- settles (array_map _ _) => apply settles_array_map; intros ?
         | |- settles (if ?b then _ else _) => destruct b
         | |- settles (match ?x with _ => _ end) => destruct x
         end.

Lemma returns_pure {S A} (a : A) : returns (pure (S := S) a).
Proof. intros s. eexists _, _. reflexivity. Qed.

Lemma returns_bind {S A B} (m : Async S A) (k : A -> Async S B) :
  returns m -> (forall a, returns (k a)) -> returns (and_then m k).
Proof.
  intros Hm Hk s. destruct (Hm s) as (a & s1 & E1).
  destruct (Hk a s1) as (b & s2 & E2).
  exists b, s2. unfold and_then. rewrite E1. exact E2.
Qed.

Lemma returns_try_catch {S A} (body : Async S A) (handler : Failure -> Async S A) :
  settles body -> (forall e, returns (handler e)) -> returns (try_catch body handler).
Proof.
  intros Hb Hh s. unfold try_catch. specialize (Hb s).
  destruct (body s) as [[a|e|] s']; cbn [fst] in Hb;
    [eexists _, _; reflexivity | apply Hh | congruence].
Qed.

Lemma returns_steady {X A} (m : Async (World X) A) : steady m -> returns m.
Proof. intros Hm w. destruct (Hm w) as (a & w' & E & _). eauto. Qed.

Lemma returns_outside {X A} (m : Async X A) : returns m -> returns (outside m).
Proof.
  intros Hm w. destruct (Hm (host w)) as (a & x' & E).
  unfold outside. rewrite E. eexists _, _. reflexivity.
Qed.

Lemma returns_splice {X} (index : nat) : returns (splice (X := X) index).
Proof. intros w. eexists _, _. reflexivity. Qed.

(** ** The durable store's client, whatever the store does *)

Section ClientFacts.
Context {P : Platform} {X : Type} {H : Host X} {Q : HostQueries X}.

Lemma getVideoHistoryFromDb_returns : returns (getVideoHistoryFromDb (X := X)).
Proof.
  unfold getVideoHistoryFromDb.
  apply returns_try_catch; [settling|intros e; apply returns_pure].
Qed.

Lemma getDashboardStatsFromDb_returns : returns (getDashboardStatsFromDb (X := X)).
Proof.
  unfold getDashboardStatsFromDb.
  apply returns_try_catch; [settling|intros e; apply returns_pure].
Qed.

Lemma getRecentAnalysesFromDb_returns limit :
  returns (getRecentAnalysesFromDb (X := X) limit).
Proof.
  unfold getRecentAnalysesFromDb.
  apply returns_try_catch; [settling|intros e; apply returns_pure].
Qed.

Lemma deleteAnalysisFromDb_returns key :
  returns (deleteAnalysisFromDb (X := X) key).
Proof.
  unfold deleteAnalysisFromDb.
  apply returns_try_catch; [settling|intros e; apply returns_pure].
Qed.

End ClientFacts.

(** No function of the store's client that wraps its body in [try] ever
    throws: whatever the store answers or raises — an error object, a
    missing row, a row that is [null], data that is no array — saving,
    reading by id, reading the history, the statistics and the recent
    analyses, and deleting all return a value. *)
Theorem store_client_never_throws {P : Platform} {X : Type} {H : Host X}
  {Q : HostQueries X} (result : Report) (key : jsstring) (limit : number) :
  returns (saveAnalysisToDb (X := X) result)
  /\ returns (getAnalysisFromDb (X := X) key)
  /\ returns (getVideoHistoryFromDb (X := X))
  /\ returns (getDashboardStatsFromDb (X := X))
  /\ returns (getRecentAnalysesFromDb (X := X) limit)
  /\ returns (deleteAnalysisFromDb (X := X) key).
Proof.
  split; [intros x; apply saveAnalysisToDb_returns|].
  split; [intros x; apply getAnalysisFromDb_returns|].
  split; [apply getVideoHistoryFromDb_returns|].
  split; [apply getDashboardStatsFromDb_returns|].
  split; [apply getRecentAnalysesFromDb_returns|apply deleteAnalysisFromDb_returns].
Qed.

(** A report whose [createdAt] is an invalid date is never saved:
    [saveAnalysisToDb] answers [false], and the store is asked nothing after
    the sign-in check ([toISOString] throws before any query is made). *)
Theorem report_with_invalid_date_is_not_saved {P : Platform} {X : Type}
  {H : Host X} (result : Report) (x : X) :
  result_createdAt result = InvalidDate ->
  saveAnalysisToDb result x = (Returns false, snd (auth_getUser x)).
Proof.
  intros Hd.
  unfold saveAnalysisToDb, try_catch, and_then, await, prop, toDbFormat,
    pure, throw.
  rewrite Hd. cbn [toISOString].
  destruct (auth_getUser x) as [[response|e] x']; cbn [snd]; [|reflexivity].
  destruct (get response "data") as [data|]; cbv beta iota; [|reflexivity].
  destruct (get data "user") as [user|]; cbv beta iota; [|reflexivity].
  destruct (ToBoolean user); reflexivity.
Qed.

Lemma report_with_invalid_date_is_not_saved_witness :
  saveAnalysisToDb (P := sample_platform) (H := sample_host)
    (Synthesized (with_createdAt InvalidDate stale_entry)) tt
  = (Returns false, tt).
Proof.
  exact (report_with_invalid_date_is_not_saved (P := sample_platform)
           (H := sample_host)
           (Synthesized (with_createdAt InvalidDate stale_entry)) tt eq_refl).
Defined.

(** *** Writing a row and reading it back *)

Lemma truthy_string (s : jsstring) : s <> [] -> ToBoolean (JStr s) = true.
Proof. intros Hs. destruct s; [congruence|reflexivity]. Qed.

(** The row [toDbFormat] builds for a synthesized report reads back, through
    [fromDbFormat], as the report's id, name, decision, confidence,
    umpire's-call flag (absent: false), impact point, wicket point (absent:
    null), trajectory and key frames; its time stamp reads back as the
    report's [createdAt] on a platform that parses the ISO string it prints
    for a time back into that time. *)
Theorem store_row_round_trip {P : Platform} {X : Type}
  (r : AnalysisResult) (userId : jsvalue) (ms : Z) (x : X) :
  createdAt r = DateAt ms ->
  Date_toISOString ms <> [] ->
  Date_parse (Date_toISOString ms) = DateAt ms ->
  exists row,
    toDbFormat (Synthesized r) userId x = (Returns row, x)
    /\ fromDbFormat row
       = Some
         {| db_id := JStr (id r);
            db_videoName := JStr (videoName r);
            db_decision := JStr (decision_name (decision r));
            db_confidence := confidence r;
            db_isUmpiresCall :=
              match isUmpiresCall r with
              | Some b => JBool b
              | None => JBool false
              end;
            db_impactPoint := position_value (impactPoint r);
            db_predictedWicketHit :=
              match predictedWicketHit r with
              | Some p => position_value p
              | None => JNull
              end;
            db_trajectory := JArr (map point_value (trajectory r));
            db_createdAt := DateAt ms;
            db_keyFrames :=
              match keyFrames r with
              | Some ks => JArr (map keyFrame_value ks)
              | None => JUndefined
              end |}.
Proof.
  intros Hc Hs Hp.
  unfold toDbFormat. cbn [result_createdAt]. rewrite Hc. cbn [toISOString].
  eexists. split; [reflexivity|].
  unfold fromDbFormat.
  match goal with
  | |- context [get_opt ?row "analysis_timestamp"] =>
      assert (E : get_opt row "analysis_timestamp" = JStr (Date_toISOString ms))
        by (vm_compute; reflexivity);
      rewrite E
  end.
  rewrite (or_else_same _ _ (truthy_string _ Hs)). cbn [new_Date]. rewrite Hp.
  match goal with
  | |- context [ToNumber (get_opt ?row "confidence")] =>
      assert (C : ToNumber (get_opt row "confidence") = Some (confidence r))
        by (vm_compute; reflexivity);
      rewrite C
  end.
  apply f_equal. f_equal; vm_compute; reflexivity.
Qed.

Lemma store_row_round_trip_witness :
  exists row,
    toDbFormat (P := sample_platform) (X := unit)
      (Synthesized (with_createdAt (DateAt 1704067200000) stale_entry))
      (JStr (str "u1")) tt = (Returns row, tt)
    /\ option_map db_decision (fromDbFormat (P := sample_platform) row)
       = Some (JStr (str "NOT_OUT"))
    /\ option_map db_createdAt (fromDbFormat (P := sample_platform) row)
       = Some (DateAt 1704067200000).
Proof.
  destruct (store_row_round_trip (P := sample_platform) (X := unit)
              (with_createdAt (DateAt 1704067200000) stale_entry)
              (JStr (str "u1")) 1704067200000 tt eq_refl
              ltac:(discriminate) eq_refl) as (row & E & F).
  exists row. split; [exact E|]. rewrite F. split; reflexivity.
Defined.

(** *** The settings service without a user *)

(** When the sign-in check finds no user, [getSettings] answers the
    defaults and [saveSettings] throws ['Not authenticated']; when the check
    itself raises, both throw what it raised.  In neither case is the
    settings table queried: the host is left as the check left it. *)
Theorem settings_without_user {P : Platform} {X : Type} {H : Host X}
  {Q : HostQueries X} (settings : AnalysisSettings) (x x' : X) :
  (isUserAuthenticated x = (Returns false, x') ->
   getSettings x = (Returns DEFAULTS, x')
   /\ saveSettings settings x
      = (Throws (ErrorMessage (str "Not authenticated")), x'))
  /\ (forall e, isUserAuthenticated x = (Throws e, x') ->
                getSettings x = (Throws e, x')
                /\ saveSettings settings x = (Throws e, x')).
Proof.
  unfold isUserAuthenticated, getSettings, saveSettings, and_then, await, prop,
    pure, throw.
  destruct (auth_getUser x) as [[response|e0] x0]; cbv beta iota.
  - destruct (get response "data") as [data|]; cbv beta iota.
    + destruct (get data "user") as [user|]; cbv beta iota.
      * destruct (ToBoolean user); cbn [negb]; split.
        -- intros [=].
        -- intros e [=].
        -- intros [= <-]. split; reflexivity.
        -- intros e [=].
      * split; [intros [=]|]. intros e [= <- <-]. split; reflexivity.
    + split; [intros [=]|]. intros e [= <- <-]. split; reflexivity.
  - split; [intros [=]|]. intros e [= <- <-]. split; reflexivity.
Qed.

Lemma settings_without_user_witness :
  getSettings (P := sample_platform) (H := guest_host) tt = (Returns DEFAULTS, tt)
  /\ saveSettings (H := guest_host) (Q := sample_queries) DEFAULTS tt
     = (Throws (ErrorMessage (str "Not authenticated")), tt).
Proof.
  exact (proj1 (settings_without_user (P := sample_platform) (H := guest_host)
                  (Q := sample_queries) DEFAULTS tt tt) eq_refl).
Defined.

(** ** The analysis service: what never throws *)

Lemma returns_wait {X} {H : Host X} (ms : number) : returns (wait ms).
Proof. intros w. eexists _, _. reflexivity. Qed.

Lemma returns_stored {X} : returns (stored (X := X)).
Proof. intros w. eexists _, _. reflexivity. Qed.

Lemma returns_now {X} {H : Host X} : returns now.
Proof. intros w. eexists _, _. reflexivity. Qed.

(** The named functions of the store's client settle. *)
Ltac settling_all :=
  repeat first
    [ progress settling
    | lazymatch goal with
      | |- settles (getAnalysisFromDb _) =>
          apply settles_returns; intros ?; apply getAnalysisFromDb_returns
      | |- settles (saveAnalysisToDb _) =>
          apply settles_returns; intros ?; apply saveAnalysisToDb_returns
      | |- settles getVideoHistoryFromDb =>
          apply settles_returns, getVideoHistoryFromDb_returns
      | |- settles getDashboardStatsFromDb =>
          apply settles_returns, getDashboardStatsFromDb_returns
      | |- settles (getRecentAnalysesFromDb _) =>
          apply settles_returns, getRecentAnalysesFromDb_returns
      | |- settles (deleteAnalysisFromDb _) =>
          apply settles_returns, deleteAnalysisFromDb_returns
      end ].

Ltac returning :=
  repeat lazymatch goal with
         | |- returns (pure _) => apply returns_pure
         | |- returns (wait _) => apply returns_wait
         | |- returns stored => apply returns_stored
         | |- returns now => apply returns_now
         | |- returns (splice _) => apply returns_splice
         | |- returns (and_then _ _) => apply returns_bind; [|intros ?]
         | |- returns (try_catch _ _) =>
             apply returns_try_catch; [settling_all|intros ?]
         | |- returns (if ?b then _ else _) => destruct b
         | |- returns (match ?x with _ => _ end) => destruct x
         end.

Section ReaderFacts.
Context {P : Platform} {X : Type} {H : Host X} {Q : HostQueries X}.
Lemma getAnalysisResult_returns (mock : bool) key : returns (getAnalysisResult mock key).
Proof. unfold getAnalysisResult. returning. Qed.

Lemma getVideoHistory_returns (mock : bool) : returns (getVideoHistory mock).
Proof. unfold getVideoHistory. returning. Qed.

Lemma getDashboardStats_returns (mock : bool) : returns (getDashboardStats mock).
Proof. unfold getDashboardStats. returning. Qed.

Lemma getMetricsData_returns (mock : bool) : returns (getMetricsData mock).
Proof.
  unfold getMetricsData. destruct mock; cbn [negb].
  - apply returns_bind; [apply returns_wait|]. intros _.
    apply returns_bind; [apply getDashboardStats_returns|]. intros stats0.
    apply returns_pure.
  - apply returns_try_catch; [settling_all|]. intros e.
    apply returns_bind; [apply getDashboardStats_returns|]. intros stats0.
    apply returns_pure.
Qed.

Lemma deleteAnalysis_returns (mock : bool) key : returns (deleteAnalysis mock key).
Proof. unfold deleteAnalysis. returning. Qed.

Lemma getRecentAnalyses_returns (mock : bool) limit : returns (getRecentAnalyses mock limit).
Proof. unfold getRecentAnalyses. returning. Qed.

Lemma checkBackendHealth_returns (mock : bool) : returns (checkBackendHealth mock).
Proof. unfold checkBackendHealth. returning. Qed.

End ReaderFacts.

(** The service's reading and deleting functions never throw and never wait
    forever, in mock mode and against the backend alike: whatever the store
    and the backend answer or raise, reading a report by id, the history,
    the statistics, the metrics and the recent analyses, deleting an
    analysis and checking the backend each return a value. *)
Theorem service_readers_never_throw {P : Platform} {X : Type} {H : Host X}
  {Q : HostQueries X} (mock : bool) (key : jsstring) (limit : number) :
  returns (getAnalysisResult (X := X) mock key)
  /\ returns (getVideoHistory (X := X) mock)
  /\ returns (getDashboardStats (X := X) mock)
  /\ returns (getMetricsData (X := X) mock)
  /\ returns (getRecentAnalyses (X := X) mock limit)
  /\ returns (deleteAnalysis (X := X) mock key)
  /\ returns (checkBackendHealth (X := X) mock).
Proof.
  split; [apply getAnalysisResult_returns|].
  split; [apply getVideoHistory_returns|].
  split; [apply getDashboardStats_returns|].
  split; [apply getMetricsData_returns|].
  split; [apply getRecentAnalyses_returns|].
  split; [apply deleteAnalysis_returns|apply checkBackendHealth_returns].
Qed.

(** ** [analyzeVideo] and the settings read *)

Lemma and_then_throws {S A B} (m : Async S A) (k : A -> Async S B) s e s' :
  m s = (Throws e, s') -> and_then m k s = (Throws e, s').
Proof. intros E. unfold and_then. rewrite E. reflexivity. Qed.

(** [analyzeVideo] does not guard its settings read: when the sign-in check
    raises, the call throws what the check raised, in mock mode as against
    the backend, before any callback is called and with the in-memory log
    untouched. *)
Theorem analyze_fails_when_settings_read_fails {P : Platform} {X : Type}
  {H : Host X} (mock : bool) (file : File) (w : World X) (e : Failure) (x' : X) :
  auth_getUser (host w) = (Raises e, x') ->
  analyzeVideo mock file w
  = (Throws e, {| host := x'; storedAnalyses := storedAnalyses w;
                  called := called w |}).
Proof.
  intros Ha. unfold analyzeVideo. apply and_then_throws.
  unfold outside, getSettings, and_then, await. rewrite Ha. reflexivity.
Qed.

Lemma analyze_fails_when_settings_read_fails_witness :
  analyzeVideo (P := sample_platform) (H := offline_host) true sample_file
               sample_world
  = (Throws outage, sample_world).
Proof.
  exact (analyze_fails_when_settings_read_fails (P := sample_platform)
           (H := offline_host) true sample_file sample_world outage tt eq_refl).
Defined.

(** ** The in-memory log *)

Lemma streq_eq (a b : jsstring) : streq a b = true <-> a = b.
Proof.
  split.
  - revert b. induction a as [|x a IH]; intros [|y b] Hs; try discriminate Hs.
    + reflexivity.
    + cbn [streq] in Hs. apply andb_true_iff in Hs. destruct Hs as [Hx Ha].
      apply Z.eqb_eq in Hx. rewrite (IH b Ha), Hx. reflexivity.
  - intros <-. apply streq_refl.
Qed.

Lemma find_stored_some key l a :
  find_stored key l = Some a -> In a l /\ id a = key.
Proof.
  unfold find_stored. intros Hf. apply find_some in Hf.
  destruct Hf as [Hin Hs]. split; [exact Hin|]. apply streq_eq. exact Hs.
Qed.


Lemma find_stored_head key r l :
  id r = key -> find_stored key (r :: l) = Some r.
Proof.
  intros <-. unfold find_stored. cbn [find]. rewrite streq_refl. reflexivity.
Qed.

(** Mock mode, once the settings are read: a file whose fingerprint the log
    knows gets the logged report back and the log stays; any other file gets
    a report under its fingerprint's id, put at the head of the log, when
    both lookups of synthesis go through, and a TypeError with the log left
    as it is when one fails. *)
Lemma analyze_mock {P : Platform} {X : Type} {H : Host X}
  (file : File) (settings : AnalysisSettings) (w w1 : World X) :
  outside getSettings w = (Returns settings, w1) ->
  exists o w',
    analyzeVideo true file w = (o, w')
    /\ match find_stored (analysisId (fst (generateFileHash file)) file)
                         (storedAnalyses w) with
       | Some existing =>
           o = Returns (Synthesized existing)
           /\ storedAnalyses w' = storedAnalyses w
       | None =>
           (exists r,
              o = Returns (Synthesized r)
              /\ id r = analysisId (fst (generateFileHash file)) file
              /\ storedAnalyses w' = r :: storedAnalyses w
              /\ speed_range settings <> None
              /\ bounce_factor settings <> None)
           \/ (o = Throws TypeError
               /\ storedAnalyses w' = storedAnalyses w
               /\ (speed_range settings = None
                   \/ bounce_factor settings = None))
       end.
Proof.
  intros Hs. destruct (outside_keeps _ _ _ _ Hs) as [S1 _].
  unfold analyzeVideo.
  rewrite (and_then_returns _ _ _ _ _ Hs). cbn [negb]. cbv beta iota zeta.
  destruct (generateFileHash file) as [seed0 progress]. cbn [fst].
  run u2 w2 E2 S2. run analyses w3 E3 S3.
  injection E3 as <- <-.
  rewrite S2, S1.
  destruct (find_stored (analysisId seed0 file) (storedAnalyses w))
    as [existingAnalysis|] eqn:F.
  - run u4 w4 E4 S4. eexists _, w4. split; [reflexivity|].
    split; [reflexivity|]. rewrite S4, S2, S1. reflexivity.
  - run finished w4 E4 S4. run t w5 E5 S5.
    destruct (generateAnalysisResult (file_name file) seed0 settings t)
      as [r|] eqn:G.
    + rewrite (and_then_converted (Some r) _ _ r eq_refl). cbv zeta.
      match goal with
      | |- context [and_then (unshift ?r) ?k ?w] =>
          rewrite (and_then_returns (unshift r) k w tt (snd (unshift r w)) eq_refl)
      end.
      cbv beta. run u6 w6 E6 S6.
      eexists _, w6. split; [reflexivity|]. left. eexists.
      split; [reflexivity|]. split; [|split].
      * rewrite id_with_steps, (id_generated _ _ _ _ r G). reflexivity.
      * rewrite S6. cbn [storedAnalyses unshift snd].
        rewrite S5, S4, S2, S1. reflexivity.
      * exact (report_needs_lookups _ _ _ _ r G).
    + rewrite (and_then_unconverted None _ _ eq_refl).
      eexists _, w5. split; [reflexivity|]. right.
      split; [reflexivity|]. split.
      * rewrite S5, S4, S2, S1. reflexivity.
      * apply (report_thrown (file_name file) seed0 settings t). exact G.
Qed.

(** In mock mode analysing the same file again returns the very report of
    the first analysis and leaves the log as it is — even when the settings
    read in between have changed. *)
Theorem repeated_analysis_is_cached {P : Platform} {X : Type} {H : Host X}
  (file : File) (s1 s2 : AnalysisSettings) (report : Report)
  (w w1 w2 w3 : World X) :
  outside getSettings w = (Returns s1, w1) ->
  analyzeVideo true file w = (Returns report, w2) ->
  outside getSettings w2 = (Returns s2, w3) ->
  exists w4,
    analyzeVideo true file w2 = (Returns report, w4)
    /\ storedAnalyses w4 = storedAnalyses w2.
Proof.
  intros H1 Ha H2.
  destruct (analyze_mock file s1 w w1 H1) as (o & w' & E & Hm).
  rewrite E in Ha. injection Ha as Ho <-.
  assert (F : exists r,
             report = Synthesized r
             /\ find_stored (analysisId (fst (generateFileHash file)) file)
                            (storedAnalyses w') = Some r).
  { destruct (find_stored _ (storedAnalyses w)) as [existing|] eqn:F0.
    - destruct Hm as [Hx ->]. rewrite Hx in Ho. injection Ho as <-.
      exists existing. split; [reflexivity|exact F0].
    - destruct Hm as [(r & Hx & Hid & -> & _) | (Hx & _)].
      + rewrite Hx in Ho. injection Ho as <-.
        exists r. split; [reflexivity|apply find_stored_head; exact Hid].
      + rewrite Hx in Ho. discriminate Ho. }
  destruct F as (r & -> & F).
  destruct (analyze_mock file s2 w' w3 H2) as (o2 & w4 & E2 & Hm2).
  rewrite F in Hm2. destruct Hm2 as [-> S4].
  exists w4. split; [exact E2|exact S4].
Qed.

Lemma repeated_analysis_is_cached_witness :
  exists report w2 w4,
    analyzeVideo (P := sample_platform) (H := guest_host) true sample_file
                 guest_world = (Returns report, w2)
    /\ analyzeVideo (P := sample_platform) (H := guest_host) true sample_file w2
       = (Returns report, w4)
    /\ storedAnalyses w4 = storedAnalyses w2.
Proof.
  destruct (analyze_mock (P := sample_platform) (H := guest_host) sample_file
              DEFAULTS guest_world guest_world eq_refl) as (o & w2 & E & Hm).
  assert (F0 : find_stored
                 (analysisId (P := sample_platform)
                    (fst (generateFileHash (P := sample_platform) sample_file))
                    sample_file)
                 (storedAnalyses guest_world) = None)
    by (vm_compute; reflexivity).
  rewrite F0 in Hm.
  destruct Hm as [(r & -> & _) | (_ & _ & [N|N])];
    [|vm_compute in N; discriminate N|vm_compute in N; discriminate N].
  assert (G : outside (getSettings (P := sample_platform) (H := guest_host)) w2
              = (Returns DEFAULTS, w2)).
  { destruct w2 as [[] l c]. reflexivity. }
  destruct (repeated_analysis_is_cached (P := sample_platform) (H := guest_host)
              sample_file DEFAULTS DEFAULTS (Synthesized r)
              guest_world guest_world w2 w2 eq_refl E G) as (w4 & E4 & S4).
  exists (Synthesized r), w2, w4. split; [exact E|]. split; [exact E4|exact S4].
Defined.

(** *** Code that leaves the log alone *)

Lemma keeps_pure {X A} (a : A) : keeps_log (pure (S := World X) a).
Proof. intros w o w' [= _ <-]. reflexivity. Qed.

Lemma keeps_throw {X A} (e : Failure) :
  keeps_log (throw (S := World X) (A := A) e).
Proof. intros w o w' [= _ <-]. reflexivity. Qed.

Lemma keeps_never {X A} : keeps_log (never (S := World X) (A := A)).
Proof. intros w o w' [= _ <-]. reflexivity. Qed.

Lemma keeps_settled {X A} (r : Reply A) : keeps_log (settled (S := World X) r).
Proof. destruct r; [apply keeps_pure|apply keeps_throw]. Qed.

Lemma keeps_outside {X A} (m : Async X A) : keeps_log (outside m).
Proof. intros w o w' E. apply (outside_keeps _ _ _ _ E). Qed.

Lemma keeps_call {X} (c : Callback) : keeps_log (call (X := X) c).
Proof. intros w o w' [= _ <-]. reflexivity. Qed.

Lemma keeps_now {X} {H : Host X} : keeps_log now.
Proof. intros w o w' [= _ <-]. reflexivity. Qed.

Lemma keeps_wait {X} {H : Host X} (ms : number) : keeps_log (wait ms).
Proof. intros w o w' [= _ <-]. reflexivity. Qed.

Lemma keeps_stored {X} : keeps_log (stored (X := X)).
Proof. intros w o w' [= _ <-]. reflexivity. Qed.

Lemma keeps_bind {X A B} (m : Async (World X) A) (k : A -> Async (World X) B) :
  keeps_log m -> (forall a, keeps_log (k a)) -> keeps_log (and_then m k).
Proof.
  intros Hm Hk w o w'. unfold and_then.
  destruct (m w) as [[a|e|] w1] eqn:E; specialize (Hm _ _ _ E).
  - intros E2. rewrite (Hk a _ _ _ E2). exact Hm.
  - intros [= _ <-]. exact Hm.
  - intros [= _ <-]. exact Hm.
Qed.

Lemma keeps_try_catch {X A} (body : Async (World X) A)
  (handler : Failure -> Async (World X) A) :
  keeps_log body -> (forall e, keeps_log (handler e)) ->
  keeps_log (try_catch body handler).
Proof.
  intros Hb Hh w o w'. unfold try_catch.
  destruct (body w) as [[a|e|] w1] eqn:E; specialize (Hb _ _ _ E).
  - intros [= _ <-]. exact Hb.
  - intros E2. rewrite (Hh e _ _ _ E2). exact Hb.
  - intros [= _ <-]. exact Hb.
Qed.

Lemma keeps_for_of {X A B} (l : list A) (body : A -> Async (World X) B) :
  (forall a, keeps_log (body a)) -> keeps_log (for_of l body).
Proof.
  intros Hb. induction l as [|a l IH]; cbn [for_of].
  - apply keeps_pure.
  - apply keeps_bind; [apply Hb|]. intros b.
    apply keeps_bind; [exact IH|]. intros bs. apply keeps_pure.
Qed.

Lemma keeps_array_map {X B} (v : jsvalue) (f : jsvalue -> Async (World X) B) :
  (forall a, keeps_log (f a)) -> keeps_log (array_map v f).
Proof.
  intros Hf. destruct v; cbn [array_map]; try apply keeps_throw.
  apply keeps_for_of, Hf.
Qed.

Ltac keeping :=
  repeat lazymatch goal with
         | |- keeps_log (pure _) => apply keeps_pure
         | |- keeps_log (throw _) => apply keeps_throw
         | |- keeps_log never => apply keeps_never
         | |- keeps_log (settled _) => apply keeps_settled
         | |- keeps_log (outside _) => apply keeps_outside
         | |- keeps_log (call _) => apply keeps_call
         | |- keeps_log now => apply keeps_now
         | |- keeps_log (wait _) => apply keeps_wait
         | |- keeps_log stored => apply keeps_stored
         | |- keeps_log (and_then _ _) => apply keeps_bind; [|intros ?]
         | |- keeps_log (try_catch _ _) => apply keeps_try_catch; [|intros ?]
         | |- keeps_log (for_of _ _) => apply keeps_for_of; intros ?
         | |- keeps_log (array_map _ _) => apply keeps_array_map; intros ?
         | |- keeps_log (if ?b then _ else _) => destruct b
         | |- keeps_log (match ?x with _ => _ end) => destruct x
         end.


Section LogFacts.
Context {P : Platform} {X : Type} {H : Host X}.



Lemma getAnalysisResult_keeps mock key :
  keeps_log (getAnalysisResult (X := X) mock key).
Proof. unfold getAnalysisResult. keeping. Qed.

End LogFacts.



(** ** What the caller is told while a file is analysed *)

Lemma announces_pure {X A} (a : A) : announces (pure (S := World X) a) [].
Proof.
  intros w. exists a, w, []. split; [reflexivity|].
  split; [rewrite app_nil_r; reflexivity|reflexivity].
Qed.

Lemma announces_bind {X A B} (m : Async (World X) A)
  (k : A -> Async (World X) B) l1 l2 :
  announces m l1 -> (forall a, announces (k a) l2) ->
  announces (and_then m k) (l1 ++ l2).
Proof.
  intros Hm Hk w. destruct (Hm w) as (a & w1 & c1 & E1 & C1 & L1).
  destruct (Hk a w1) as (b & w2 & c2 & E2 & C2 & L2).
  exists b, w2, (c1 ++ c2). rewrite (and_then_returns m k w a w1 E1).
  split; [exact E2|]. split.
  - rewrite C2, C1, app_assoc. reflexivity.
  - rewrite map_app, L1, L2. reflexivity.
Qed.

Lemma announces_call {X} (c : Callback) :
  announces (call (X := X) c) [announcement c].
Proof. intros w. exists tt, (snd (call c w)), [c]. repeat split. Qed.

Lemma announces_wait {X} {H : Host X} (ms : number) : announces (wait ms) [].
Proof.
  intros w. exists tt, (snd (wait ms w)), []. split; [reflexivity|].
  split; [cbn; rewrite app_nil_r; reflexivity|reflexivity].
Qed.

Lemma announces_now {X} {H : Host X} : announces (now (X := X)) [].
Proof.
  intros w. exists (Date_now (host w)), w, []. split; [reflexivity|].
  split; [rewrite app_nil_r; reflexivity|reflexivity].
Qed.

Lemma announces_random {X} {H : Host X} : announces (random (X := X)) [].
Proof.
  intros w. unfold random. destruct (Math_random (host w)) as [r x].
  eexists _, _, []. split; [reflexivity|].
  split; [cbn; rewrite app_nil_r; reflexivity|reflexivity].
Qed.

Lemma announces_stored {X} : announces (stored (X := X)) [].
Proof.
  intros w. exists (storedAnalyses w), w, []. split; [reflexivity|].
  split; [rewrite app_nil_r; reflexivity|reflexivity].
Qed.

Lemma announces_unshift {X} (r : AnalysisResult) :
  announces (unshift (X := X) r) [].
Proof.
  intros w. exists tt, (snd (unshift r w)), []. split; [reflexivity|].
  split; [cbn; rewrite app_nil_r; reflexivity|reflexivity].
Qed.

Lemma announces_for_of {X A B} (l : list A) (body : A -> Async (World X) B)
  (f : A -> list Announcement) :
  (forall a, announces (body a) (f a)) ->
  announces (for_of l body) (flat_map f l).
Proof.
  intros Hb. induction l as [|a l IH]; cbn [for_of flat_map].
  - apply announces_pure.
  - apply announces_bind; [apply Hb|]. intros b.
    rewrite <- (app_nil_r (flat_map f l)).
    apply announces_bind; [exact IH|]. intros bs. apply announces_pure.
Qed.

Lemma step_value_tells (s : AnalysisStep) :
  announcement (onStepUpdate (step_value s))
  = Step (JStr (step_id s)) (JStr (status_name (status s))).
Proof. destruct s as [i n d st [t|]]; vm_compute; reflexivity. Qed.

Section AnnouncementFacts.
Context {P : Platform} {X : Type} {H : Host X}.

(** The block that saves a synthesized report calls no callback. *)
Lemma save_if_authenticated_quiet (result : Report) :
  announces
    (try_catch
       (authenticated <- outside (isUserAuthenticated (X := X)) ;;
        if authenticated
        then outside (saveAnalysisToDb result) ;;; pure tt
        else pure tt)
       (fun err => pure tt)) [].
Proof.
  intros w. unfold try_catch, and_then.
  pose proof (settles_outside _ isUserAuthenticated_settles w) as Hs.
  destruct (outside isUserAuthenticated w) as [[authenticated|e|] w1] eqn:E1;
    cbn [fst] in Hs; [| |congruence].
  - destruct (outside_keeps _ _ _ _ E1) as [_ C1].
    destruct authenticated.
    + destruct (outside_returns (saveAnalysisToDb result) w1
                  (saveAnalysisToDb_returns result)) as (saved & w2 & E2 & S2).
      destruct (outside_keeps _ _ _ _ E2) as [_ C2].
      rewrite E2. exists tt, w2, []. split; [reflexivity|].
      split; [rewrite app_nil_r; congruence|reflexivity].
    + exists tt, w1, []. split; [reflexivity|].
      split; [rewrite app_nil_r; exact C1|reflexivity].
  - destruct (outside_keeps _ _ _ _ E1) as [_ C1].
    exists tt, w1, []. split; [reflexivity|].
    split; [rewrite app_nil_r; exact C1|reflexivity].
Qed.

End AnnouncementFacts.

Lemma announces_step {X} (s : AnalysisStep) (i n : jsstring) :
  step_id s = i -> status_name (status s) = n ->
  announces (call (X := X) (onStepUpdate (step_value s)))
            [Step (JStr i) (JStr n)].
Proof.
  intros <- <-. rewrite <- step_value_tells. apply announces_call.
Qed.

Lemma flat_map_single {A B} (f : A -> B) (l : list A) :
  flat_map (fun a => [f a]) l = map f l.
Proof. induction l as [|a l IH]; cbn; [reflexivity|rewrite IH; reflexivity]. Qed.

Lemma announces_tells {X A} (m : Async (World X) A) l :
  announces m l -> tells m l.
Proof.
  intros Hm w. destruct (Hm w) as (a & w' & cs & E & C & L).
  exists (Returns a), w', cs. split; [exact E|]. split; [discriminate|].
  split; assumption.
Qed.

Lemma tells_bind {X A B} (m : Async (World X) A)
  (k : A -> Async (World X) B) l1 l2 :
  announces m l1 -> (forall a, tells (k a) l2) ->
  tells (and_then m k) (l1 ++ l2).
Proof.
  intros Hm Hk w. destruct (Hm w) as (a & w1 & c1 & E1 & C1 & L1).
  destruct (Hk a w1) as (o & w2 & c2 & E2 & N2 & C2 & L2).
  exists o, w2, (c1 ++ c2). rewrite (and_then_returns m k w a w1 E1).
  split; [exact E2|]. split; [exact N2|]. split.
  - rewrite C2, C1, app_assoc. reflexivity.
  - rewrite map_app, L1, L2. reflexivity.
Qed.

(** A conversion that throws has called no callback. *)
Lemma tells_unconverted {X A B} (k : A -> Async (World X) B) :
  tells (and_then (convert None) k) [].
Proof.
  intros w. exists (Throws TypeError), w, []. split; [reflexivity|].
  split; [discriminate|]. split; [rewrite app_nil_r; reflexivity|reflexivity].
Qed.

(** In mock mode, once the settings are read, the caller is told the same
    for a file the log knows as for a new one: first the progress of the
    fingerprint, then — for each of the seven steps, in order — that the
    step is processing and that it is completed.  No step is ever announced
    as pending or in error, and nothing else is announced.  The call then
    returns the logged report for a file the log knows; for a new file it
    returns the synthesized report when both lookups of synthesis go
    through, and throws a TypeError — after the fourteen announcements —
    when one of them fails, as it does for a ball type of ['constructor']. *)
Theorem mock_analysis_announces_every_step {P : Platform} {X : Type}
  {H : Host X} (file : File) (settings : AnalysisSettings) (w w1 : World X) :
  outside getSettings w = (Returns settings, w1) ->
  exists o w2 calls,
    analyzeVideo true file w = (o, w2)
    /\ called w2 = called w ++ calls
    /\ map announcement calls
       = map Progress (snd (generateFileHash file))
         ++ flat_map (fun step =>
                        [Step (JStr (step_id step)) (JStr (str "processing"));
                         Step (JStr (step_id step)) (JStr (str "completed"))])
                     createAnalysisSteps
    /\ match find_stored (analysisId (fst (generateFileHash file)) file)
                         (storedAnalyses w) with
       | Some existing => o = Returns (Synthesized existing)
       | None =>
           (speed_range settings <> None /\ bounce_factor settings <> None
            /\ exists r, o = Returns (Synthesized r))
           \/ ((speed_range settings = None \/ bounce_factor settings = None)
               /\ o = Throws TypeError)
       end.
Proof.
  intros Hs.
  assert (T : exists o w2 calls,
             analyzeVideo true file w = (o, w2)
             /\ o <> Never
             /\ called w2 = called w ++ calls
             /\ map announcement calls
                = map Progress (snd (generateFileHash file))
                  ++ flat_map
                       (fun step =>
                          [Step (JStr (step_id step)) (JStr (str "processing"));
                           Step (JStr (step_id step)) (JStr (str "completed"))])
                       createAnalysisSteps).
  { destruct (outside_keeps _ _ _ _ Hs) as [_ C1].
    unfold analyzeVideo.
    rewrite (and_then_returns _ _ _ _ _ Hs). cbn [negb]. cbv beta iota zeta.
    destruct (generateFileHash file) as [seed0 progress]. cbn [snd].
    rewrite <- C1.
    match goal with
    | |- exists o w2 c, ?m w1 = _ /\ _ /\ _ /\ _ = ?l =>
        assert (A : tells m l); [|exact (A w1)]
    end.
    apply tells_bind.
    { rewrite <- flat_map_single.
      apply announces_for_of. intros p. apply announces_call. }
    intros _.
    match goal with
    | |- tells _ ?l => rewrite <- (app_nil_l l)
    end.
    apply tells_bind; [apply announces_stored|]. intros analyses.
    destruct (find_stored (analysisId seed0 file) analyses) as [existing|].
    - apply announces_tells.
      match goal with
      | |- announces _ ?l => rewrite <- (app_nil_r l)
      end.
      apply announces_bind; [|intros ?; apply announces_pure].
      apply announces_for_of. intros step.
      apply (announces_bind _ _ [_] [_]);
        [apply announces_step; reflexivity|intros _].
      apply (announces_bind _ _ [] [_]); [apply announces_wait|intros _].
      apply announces_step; reflexivity.
    - match goal with
      | |- tells _ ?l => rewrite <- (app_nil_r l)
      end.
      apply tells_bind.
      + apply announces_for_of. intros step.
        apply (announces_bind _ _ [_] [_]);
          [apply announces_step; reflexivity|intros _].
        apply (announces_bind _ _ [] [_]); [apply announces_random|intros r].
        apply (announces_bind _ _ [] [_]); [apply announces_wait|intros _].
        apply (announces_bind _ _ [] [_]); [apply announces_now|intros t].
        apply (announces_bind _ _ [_] []);
          [apply announces_step; reflexivity|intros _].
        apply announces_pure.
      + intros finished.
        apply (tells_bind _ _ [] []); [apply announces_now|intros t].
        destruct (generateAnalysisResult (file_name file) seed0 settings t)
          as [r|]; [|apply tells_unconverted].
        apply announces_tells.
        change (announces (X := X)
                  (let result := with_steps finished r in
                   unshift result ;;;
                   try_catch
                     (authenticated <- outside isUserAuthenticated ;;
                      if authenticated
                      then outside (saveAnalysisToDb (Synthesized result)) ;;;
                           pure tt
                      else pure tt)
                     (fun err => pure tt) ;;;
                   pure (Synthesized result)) []).
        cbv zeta.
        apply (announces_bind _ _ [] []); [apply announces_unshift|intros _].
        apply (announces_bind _ _ [] []);
          [apply save_if_authenticated_quiet|intros _].
        apply announces_pure. }
  destruct T as (o & w2 & calls & E & _ & C & M).
  exists o, w2, calls. split; [exact E|]. split; [exact C|]. split; [exact M|].
  destruct (analyze_mock file settings w w1 Hs) as (o' & w' & E' & Hm).
  rewrite E in E'. injection E' as <- <-.
  destruct (find_stored _ (storedAnalyses w)) as [existing|].
  - exact (proj1 Hm).
  - destruct Hm as [(r & Ho & _ & _ & Hsr & Hbf) | (Ho & _ & Hn)].
    + left. split; [exact Hsr|]. split; [exact Hbf|]. exists r. exact Ho.
    + right. split; [exact Hn|exact Ho].
Qed.

(** Witness: a guest analyses the empty sample file: one progress call and
    fourteen step announcements, then the report. *)
Lemma mock_analysis_announces_every_step_witness :
  exists r w2 calls,
    analyzeVideo (P := sample_platform) (H := guest_host) true sample_file
                 guest_world = (Returns (Synthesized r), w2)
    /\ called w2 = called guest_world ++ calls
    /\ List.length calls = 15%nat.
Proof.
  destruct (mock_analysis_announces_every_step (P := sample_platform)
              (H := guest_host) sample_file DEFAULTS guest_world guest_world
              eq_refl) as (o & w2 & calls & E & C & M & O).
  assert (F0 : find_stored
                 (analysisId (P := sample_platform)
                    (fst (generateFileHash (P := sample_platform) sample_file))
                    sample_file)
                 (storedAnalyses guest_world) = None)
    by (vm_compute; reflexivity).
  rewrite F0 in O.
  destruct O as [(_ & _ & r & Ho) | ([N|N] & _)];
    [|vm_compute in N; discriminate N|vm_compute in N; discriminate N].
  rewrite Ho in E.
  exists r, w2, calls. split; [exact E|]. split; [exact C|].
  apply (f_equal (@List.length Announcement)) in M.
  rewrite length_map in M. rewrite M. vm_compute. reflexivity.
Defined.

(** With a settings row whose ball type is ['constructor'], analysing a new
    file makes the fifteen callback calls and then throws a TypeError; the
    log is left as it was. *)
Example analysis_of_inherited_ball_throws :
  exists w2 calls,
    analyzeVideo (P := sample_platform) (H := misconfigured_host) true
                 sample_file sample_world = (Throws TypeError, w2)
    /\ called w2 = calls /\ List.length calls = 15%nat
    /\ storedAnalyses w2 = storedAnalyses sample_world.
Proof.
  eexists _, _. split; [vm_compute; reflexivity|].
  split; [reflexivity|]. split; reflexivity.
Qed.
(** ** Deleting, listing and counting *)

Lemma try_catch_returned {S A} (body : Async S A) (handler : Failure -> Async S A)
  s a s' :
  body s = (Returns a, s') -> try_catch body handler s = (Returns a, s').
Proof. intros E. unfold try_catch. rewrite E. reflexivity. Qed.

(** The store is not consulted for a user who is not signed in. *)
Lemma guest_block {P : Platform} {X : Type} {H : Host X} {A : Type}
  (k : Async (World X) (option A)) (w w1 : World X) :
  outside isUserAuthenticated w = (Returns false, w1) ->
  try_catch
    (authenticated <- outside isUserAuthenticated ;;
     if authenticated then k else pure None)
    (fun err => pure None) w
  = (Returns None, w1).
Proof.
  intros Ha. apply try_catch_returned.
  rewrite (and_then_returns _ _ _ _ _ Ha). reflexivity.
Qed.

Lemma find_stored_absent key l :
  ~ In key (map id l) -> find_stored key l = None.
Proof.
  intros Hn. unfold find_stored.
  destruct (find (fun a => streq (id a) key) l) as [a|] eqn:F; [|reflexivity].
  exfalso. apply Hn. apply find_some in F. destruct F as [Hin Hs].
  apply streq_eq in Hs. rewrite <- Hs. apply in_map. exact Hin.
Qed.

(** What [findIndex] and [splice] leave of the log. *)
Lemma find_after_splice key l :
  NoDup (map id l) ->
  find_stored key match findIndex key l with
                  | Some index => splice_one index l
                  | None => l
                  end = None.
Proof.
  induction l as [|a l IH]; intros Hn; [reflexivity|].
  cbn [map] in Hn. inversion Hn as [|x xs Hnotin Hn']. subst x xs.
  cbn [findIndex]. destruct (streq (id a) key) eqn:E.
  - cbn [splice_one]. apply find_stored_absent.
    apply streq_eq in E. rewrite <- E. exact Hnotin.
  - specialize (IH Hn').
    destruct (findIndex key l) as [index|]; cbn [option_map splice_one];
      unfold find_stored in *; cbn [find]; rewrite E; exact IH.
Qed.

Lemma find_other_after_splice key other l :
  other <> key ->
  find_stored other match findIndex key l with
                    | Some index => splice_one index l
                    | None => l
                    end = find_stored other l.
Proof.
  intros Hne. induction l as [|a l IH]; [reflexivity|].
  cbn [findIndex]. destruct (streq (id a) key) eqn:E.
  - cbn [splice_one]. unfold find_stored. cbn [find].
    destruct (streq (id a) other) eqn:E'; [|reflexivity].
    apply streq_eq in E, E'. congruence.
  - destruct (findIndex key l) as [index|]; cbn [option_map splice_one];
      [|reflexivity].
    unfold find_stored in *. cbn [find].
    destruct (streq (id a) other); [reflexivity|exact IH].
Qed.

Section DeleteFacts.
Context {P : Platform} {X : Type} {H : Host X} {Q : HostQueries X}.

Lemma delete_if_authenticated_steady (key : jsstring) :
  steady
    (try_catch
       (authenticated <- outside (isUserAuthenticated (X := X)) ;;
        if authenticated
        then outside (deleteAnalysisFromDb key) ;;; pure tt
        else pure tt)
       (fun err => pure tt)).
Proof.
  intros w. unfold try_catch, and_then.
  pose proof (settles_outside _ isUserAuthenticated_settles w) as Hs.
  destruct (outside isUserAuthenticated w) as [[authenticated|e|] w1] eqn:E1;
    cbn [fst] in Hs; [| |congruence].
  - destruct (outside_keeps _ _ _ _ E1) as [S1 _].
    destruct authenticated.
    + destruct (outside_returns (deleteAnalysisFromDb key) w1
                  (deleteAnalysisFromDb_returns key)) as (gone & w2 & E2 & S2).
      rewrite E2. eexists _, _. split; [reflexivity|]. cbn. congruence.
    + eexists _, _. split; [reflexivity|exact S1].
  - destruct (outside_keeps _ _ _ _ E1) as [S1 _].
    eexists _, _. split; [reflexivity|exact S1].
Qed.

(** Mock mode: [deleteAnalysis] answers [true] and leaves the log without
    the first report of that id, whatever the store does. *)
Lemma delete_mock (key : jsstring) (w : World X) :
  exists w',
    deleteAnalysis true key w = (Returns true, w')
    /\ storedAnalyses w'
       = match findIndex key (storedAnalyses w) with
         | Some index => splice_one index (storedAnalyses w)
         | None => storedAnalyses w
         end.
Proof.
  unfold deleteAnalysis.
  destruct (delete_if_authenticated_steady key w) as (u & w1 & E1 & S1).
  rewrite (and_then_returns _ _ _ _ _ E1). cbn [negb]. cbv beta iota.
  run u2 w2 E2 S2. run analyses w3 E3 S3. injection E3 as <- <-.
  rewrite S2, S1.
  destruct (findIndex key (storedAnalyses w)) as [index|].
  - rewrite (and_then_returns (splice index) _ w2 tt (snd (splice index w2))
               eq_refl).
    eexists. split; [reflexivity|]. cbn [splice snd storedAnalyses].
    rewrite S2, S1. reflexivity.
  - eexists. split; [reflexivity|]. rewrite S2, S1. reflexivity.
Qed.

Lemma lookup_mock_guest (key : jsstring) (w w1 : World X) :
  outside isUserAuthenticated w = (Returns false, w1) ->
  exists w',
    getAnalysisResult true key w
    = (Returns (option_map Synthesized (find_stored key (storedAnalyses w))), w').
Proof.
  intros Ha. destruct (outside_keeps _ _ _ _ Ha) as [S1 _].
  unfold getAnalysisResult.
  rewrite (and_then_returns _ _ _ _ _ (guest_block _ w w1 Ha)).
  cbn [negb]. cbv beta iota.
  run u2 w2 E2 S2. run analyses w3 E3 S3. injection E3 as <- <-.
  rewrite S2, S1. eexists. reflexivity.
Qed.

End DeleteFacts.

(** In mock mode, with a log of distinct ids: [deleteAnalysis(id)] answers
    [true] whatever the store does — also when the log held no such report
    — it takes nothing else from the log, and a guest who then reads the id
    back gets [null]. *)
Theorem deleted_analysis_is_gone {P : Platform} {X : Type} {H : Host X}
  {Q : HostQueries X} (key : jsstring) (w w1 w2 : World X) (o : Outcome bool) :
  NoDup (map id (storedAnalyses w)) ->
  deleteAnalysis true key w = (o, w1) ->
  outside isUserAuthenticated w1 = (Returns false, w2) ->
  o = Returns true
  /\ (forall other, other <> key ->
        find_stored other (storedAnalyses w1) = find_stored other (storedAnalyses w))
  /\ exists w3, getAnalysisResult true key w1 = (Returns None, w3).
Proof.
  intros Hn Hd Ha.
  destruct (delete_mock key w) as (w' & E & S). rewrite E in Hd.
  injection Hd as <- <-.
  split; [reflexivity|]. split.
  - intros other Hne. rewrite S. apply find_other_after_splice. exact Hne.
  - destruct (lookup_mock_guest key w' w2 Ha) as (w3 & E3).
    exists w3. rewrite E3, S, (find_after_splice key _ Hn). reflexivity.
Qed.

Lemma deleted_analysis_is_gone_witness :
  exists w1 w3,
    deleteAnalysis (H := guest_host) (Q := sample_queries)
      true (str "analysis-7-clip.mp4") guest_world = (Returns true, w1)
    /\ getAnalysisResult (P := sample_platform) (H := guest_host) true
         (str "analysis-7-clip.mp4") w1 = (Returns None, w3).
Proof.
  destruct (delete_mock (H := guest_host)
              (Q := sample_queries) (str "analysis-7-clip.mp4") guest_world)
    as (w1 & E & _).
  assert (G : outside (isUserAuthenticated (H := guest_host)) w1
              = (Returns false, w1)).
  { destruct w1 as [[] l c]. reflexivity. }
  destruct (deleted_analysis_is_gone (P := sample_platform) (H := guest_host)
              (Q := sample_queries) (str "analysis-7-clip.mp4")
              guest_world w1 w1 (Returns true)
              ltac:(constructor; [intros []|constructor]) E G)
    as (_ & _ & w3 & E3).
  exists w1, w3. split; [exact E|exact E3].
Defined.

(** *** The most recent analysis *)

Lemma slice_to_head {A} (a : A) (l : list A) (k : Z) :
  1 <= k <= 2 ^ 53 ->
  exists rest, slice_to (a :: l) (int k) = a :: rest.
Proof.
  intros Hk. unfold slice_to. rewrite (int_small k) by lia.
  rewrite trunc_int. cbv zeta.
  destruct (Z.ltb_spec k 0) as [L|L]; [lia|].
  set (n := Z.min k (Z.of_nat (List.length (a :: l)))).
  assert (Hn : 1 <= n).
  { unfold n. cbn [List.length]. lia. }
  destruct (Z.to_nat n) as [|m] eqn:E; [lia|].
  cbn [firstn]. eexists. reflexivity.
Qed.

(** In mock mode a newly analysed file heads the recent analyses a guest is
    shown, for every limit from 1 on. *)
Theorem newest_analysis_heads_recent {P : Platform} {X : Type} {H : Host X}
  {Q : HostQueries X} (file : File) (settings : AnalysisSettings)
  (report : Report) (k : Z) (w w1 w2 w3 : World X) :
  outside getSettings w = (Returns settings, w1) ->
  find_stored (analysisId (fst (generateFileHash file)) file) (storedAnalyses w)
  = None ->
  analyzeVideo true file w = (Returns report, w2) ->
  outside isUserAuthenticated w2 = (Returns false, w3) ->
  1 <= k <= 2 ^ 53 ->
  exists rest w4,
    getRecentAnalyses true (int k) w2 = (Returns (report :: rest), w4).
Proof.
  intros Hs Hf Ha Hg Hk.
  destruct (analyze_mock file settings w w1 Hs) as (o & w' & E & Hm).
  rewrite E in Ha. injection Ha as Ho <-.
  rewrite Hf in Hm.
  destruct Hm as [(r & Hx & _ & Hlog & _) | (Hx & _)];
    [|rewrite Hx in Ho; discriminate Ho].
  rewrite Hx in Ho. injection Ho as <-.
  destruct (outside_keeps _ _ _ _ Hg) as [S3 _].
  unfold getRecentAnalyses.
  rewrite (and_then_returns _ _ _ _ _ (guest_block _ w' w3 Hg)).
  cbn [negb]. cbv beta iota.
  run u4 w4 E4 S4. run analyses w5 E5 S5. injection E5 as <- <-.
  rewrite S4, S3, Hlog.
  destruct (slice_to_head r (storedAnalyses w) k Hk) as (rest & ->).
  cbn [map]. eexists _, _. reflexivity.
Qed.

Lemma newest_analysis_heads_recent_witness :
  exists report rest w2 w4,
    analyzeVideo (P := sample_platform) (H := guest_host) true sample_file
                 guest_world = (Returns report, w2)
    /\ getRecentAnalyses (P := sample_platform) (H := guest_host)
         (Q := sample_queries) true (int 3) w2
       = (Returns (report :: rest), w4).
Proof.
  destruct (analyze_mock (P := sample_platform) (H := guest_host) sample_file
              DEFAULTS guest_world guest_world eq_refl) as (o & w2 & E & Hm).
  assert (F : find_stored
                (analysisId (P := sample_platform)
                   (fst (generateFileHash (P := sample_platform) sample_file))
                   sample_file)
                (storedAnalyses guest_world) = None)
    by (vm_compute; reflexivity).
  rewrite F in Hm.
  destruct Hm as [(r & -> & _) | (_ & _ & [N|N])];
    [|vm_compute in N; discriminate N|vm_compute in N; discriminate N].
  assert (G : outside (isUserAuthenticated (H := guest_host)) w2
              = (Returns false, w2)).
  { destruct w2 as [[] l c]. reflexivity. }
  destruct (newest_analysis_heads_recent (P := sample_platform)
              (H := guest_host) (Q := sample_queries) sample_file DEFAULTS
              (Synthesized r) 3 guest_world guest_world w2 w2
              eq_refl F E G ltac:(split; [lia|vm_compute; discriminate]))
    as (rest & w4 & E4).
  exists (Synthesized r), rest, w2, w4. split; [exact E|exact E4].
Defined.

(** *** The statistics of the log *)

Lemma fsub_int (a b : Z) :
  Z.abs a <= 2 ^ 53 -> Z.abs b <= 2 ^ 53 -> Z.abs (a - b) <= 2 ^ 53 ->
  fsub (int a) (int b) = int (a - b).
Proof.
  intros Ha Hb Hab.
  rewrite (int_small a), (int_small b), (int_small (a - b)) by assumption.
  unfold fsub, fneg. change (- inject_Z b)%Q with (inject_Z (- b)).
  rewrite Qred_inject_Z.
  assert (2 ^ 53 < 2 ^ 1000) by (apply Z.pow_lt_mono_r; lia).
  rewrite fadd_int by (replace (a + - b) with (a - b) by lia; lia).
  replace (a + - b) with (a - b) by lia.
  rewrite roundZ_small by exact Hab. reflexivity.
Qed.

Lemma decisions_partition (l : list AnalysisResult) :
  (List.length (filter (fun a => Decision_eqb (decision a) OUT) l)
   + List.length (filter (fun a => Decision_eqb (decision a) NOT_OUT) l)
   = List.length l)%nat.
Proof.
  induction l as [|a l IH]; [reflexivity|].
  cbn [filter]. destruct (decision a); cbn [Decision_eqb List.length]; lia.
Qed.

(** In mock mode the statistics a guest is shown count the log: the total
    is its length, the OUT and NOT OUT decisions are the numbers of its
    reports with either decision, and so add up to the total; an empty log
    gives zeros. *)
Theorem dashboard_counts_the_log {P : Platform} {X : Type} {H : Host X}
  {Q : HostQueries X} (w w1 : World X) :
  outside isUserAuthenticated w = (Returns false, w1) ->
  Z.of_nat (List.length (storedAnalyses w)) <= 2 ^ 53 ->
  exists counted w',
    getDashboardStats true w = (Returns counted, w')
    /\ totalAnalyses counted = int (Z.of_nat (List.length (storedAnalyses w)))
    /\ outDecisions counted
       = int (Z.of_nat (List.length
                          (filter (fun a => Decision_eqb (decision a) OUT)
                                  (storedAnalyses w))))
    /\ notOutDecisions counted
       = int (Z.of_nat (List.length
                          (filter (fun a => Decision_eqb (decision a) NOT_OUT)
                                  (storedAnalyses w))))
    /\ (storedAnalyses w = [] -> counted = no_stats).
Proof.
  intros Hg Hlen. destruct (outside_keeps _ _ _ _ Hg) as [S1 _].
  unfold getDashboardStats.
  rewrite (and_then_returns _ _ _ _ _ (guest_block _ w w1 Hg)).
  cbn [negb]. cbv beta iota.
  run u2 w2 E2 S2. run analyses w3 E3 S3. injection E3 as <- <-.
  rewrite S2, S1.
  pose proof (decisions_partition (storedAnalyses w)) as Hp.
  destruct (storedAnalyses w) as [|a l] eqn:L.
  - eexists _, _. split; [reflexivity|]. repeat split; reflexivity.
  - rewrite <- L in *. cbv zeta. eexists _, _. split; [reflexivity|].
    cbn [totalAnalyses outDecisions notOutDecisions].
    split; [reflexivity|]. split; [reflexivity|]. split.
    + unfold stored_out. rewrite fsub_int by lia. f_equal. lia.
    + intros E0. rewrite E0 in L. discriminate L.
Qed.

Lemma dashboard_counts_the_log_witness :
  exists counted w',
    getDashboardStats (P := sample_platform) (H := guest_host)
      (Q := sample_queries) true guest_world = (Returns counted, w')
    /\ totalAnalyses counted = int 1
    /\ outDecisions counted = int 0
    /\ notOutDecisions counted = int 1.
Proof.
  destruct (dashboard_counts_the_log (P := sample_platform) (H := guest_host)
              (Q := sample_queries) guest_world guest_world eq_refl
              ltac:(vm_compute; discriminate))
    as (counted & w' & E & Ht & Ho & Hn & _).
  exists counted, w'. split; [exact E|]. split; [exact Ht|].
  split; [exact Ho|exact Hn].
Defined.

(** *** The metrics of the backend *)

(** Against the backend, [getMetricsData] looks both rates of the accuracy
    metrics up in [accuracy_metrics], under either spelling of their key,
    and never in [accuracyMetrics]: when every [Number] call on a payload
    that carries its accuracy metrics only as [accuracyMetrics] goes
    through, the payload's [overall] is read and its [falsePositive] and
    [falseNegative] are reported as 0.  When one of the [Number] calls
    throws, the [catch] answers instead: the statistics of
    [getDashboardStats], empty distributions, and accuracy metrics that are
    all 0, [overall] included. *)
Theorem metrics_rates_need_snake_case {P : Platform} {X : Type} {H : Host X}
  {Q : HostQueries X} (w w1 : World X) (response : Response)
  (props : list (jsstring * jsvalue)) :
  outside (await fetch_metrics) w = (Returns response, w1) ->
  ok response = true ->
  json response = Replies (JObj props) ->
  get_opt (JObj props) "accuracy_metrics" = JUndefined ->
  let data := JObj props in
  (forall m,
     metrics_of data (get_opt data "stats") = Some m ->
     getMetricsData false w = (Returns m, w1)
     /\ Some (overall (accuracyMetrics m))
        = ToNumber (or_else (get_opt (get_opt data "accuracyMetrics") "overall")
                            (JNum (int 0)))
     /\ falsePositive (accuracyMetrics m) = int 0
     /\ falseNegative (accuracyMetrics m) = int 0)
  /\ (metrics_of data (get_opt data "stats") = None ->
      getMetricsData false w
      = (stats <- getDashboardStats false ;; pure (metrics_fallback stats)) w1
      /\ forall m w2,
           getMetricsData false w = (Returns m, w2) ->
           accuracyMetrics m
           = {| overall := int 0; falsePositive := int 0;
                falseNegative := int 0 |}).
Proof.
  intros Hf Hok Hj Ha data. unfold data.
  assert (B : forall handler,
             try_catch
               (response <- outside (await fetch_metrics) ;;
                if negb (ok response)
                then throw (ErrorMessage (str "Failed to fetch metrics"))
                else
                  data <- settled (json response) ;;
                  data_stats <- prop data "stats" ;;
                  convert (metrics_of data data_stats))
               handler w
             = try_catch
                 (convert (metrics_of (JObj props)
                             (get_opt (JObj props) "stats")))
                 handler w1).
  { intros handler. unfold try_catch.
    rewrite (and_then_returns _ _ _ _ _ Hf). rewrite Hok. cbn [negb].
    rewrite Hj. reflexivity. }
  split.
  - intros m Hm. split.
    + unfold getMetricsData. cbn [negb]. rewrite B, Hm. reflexivity.
    + unfold metrics_of in Hm. rewrite Ha in Hm. cbv zeta in Hm.
      repeat match type of Hm with
             | match ?o with Some _ => _ | None => None end = Some _ =>
                 let E := fresh "E" in
                 destruct o eqn:E; [|discriminate Hm]
             end.
      apply some_eq in Hm. rewrite <- Hm.
      cbn [accuracyMetrics overall falsePositive falseNegative].
      split; [|split].
      * match goal with
        | E : number_of (get_opt JUndefined "overall") _ = Some ?n
          |- Some ?n = _ => rewrite <- E
        end.
        reflexivity.
      * match goal with
        | E : number_of (get_opt JUndefined "false_positive") _ = Some ?n
          |- ?n = _ => vm_compute in E; apply some_eq in E; rewrite <- E
        end.
        vm_compute. reflexivity.
      * match goal with
        | E : number_of (get_opt JUndefined "false_negative") _ = Some ?n
          |- ?n = _ => vm_compute in E; apply some_eq in E; rewrite <- E
        end.
        vm_compute. reflexivity.
  - intros Hm.
    assert (E : getMetricsData false w
                = (stats <- getDashboardStats false ;;
                   pure (metrics_fallback stats)) w1).
    { unfold getMetricsData. cbn [negb]. rewrite B, Hm. reflexivity. }
    split; [exact E|].
    intros m w2. rewrite E. unfold and_then.
    destruct (getDashboardStats false w1) as [[counted|e|] w'];
      intros R; try discriminate R.
    unfold pure in R. injection R as <- _. vm_compute. reflexivity.
Qed.

Lemma metrics_rates_need_snake_case_witness :
  exists m,
    getMetricsData (P := sample_platform) (H := guest_host)
      (Q := sample_queries) false guest_world = (Returns m, guest_world)
    /\ overall (accuracyMetrics m) = int 90
    /\ falsePositive (accuracyMetrics m) = int 0
    /\ falseNegative (accuracyMetrics m) = int 0.
Proof.
  edestruct (proj1 (metrics_rates_need_snake_case (P := sample_platform)
                      (H := guest_host) (Q := sample_queries)
                      guest_world guest_world
                      _ _ eq_refl eq_refl eq_refl eq_refl) _ eq_refl)
    as (E & Ho & Hp & Hn).
  eexists. split; [exact E|].
  split; [reflexivity|]. split; reflexivity.
Defined.

(** The payload [{ stats: { total_analyses: { toString: 1 } },
    accuracyMetrics: { overall: 90 } }]: [Number] throws on the total, and
    the [catch] answers an [overall] of 0. *)
Example unconvertible_total_falls_back :
  metrics_of (P := sample_platform) unconvertible_metrics
    (get_opt unconvertible_metrics "stats") = None
  /\ exists m w',
       getMetricsData (P := sample_platform) (H := guest_host)
         (Q := unconvertible_queries) false guest_world = (Returns m, w')
       /\ overall (accuracyMetrics m) = int 0.
Proof.
  split; [reflexivity|].
  eexists _, _. split; [vm_compute; reflexivity|reflexivity].
Qed.
(** ** The upload: a stream that never closes a frame *)

Lemma includes_cons (c : Z) (s sub : jsstring) :
  includes (c :: s) sub = startsWith (c :: s) sub || includes s sub.
Proof. reflexivity. Qed.

(** A text with no blank line is one piece. *)
Lemma split_from_unbroken : forall s cur,
  includes s [10; 10] = false -> split_from cur s = [rev cur ++ s].
Proof.
  fix IH 1. intros s cur Hs. destruct s as [|c s'].
  - cbn [split_from]. rewrite app_nil_r. reflexivity.
  - pose proof (IH s') as IHs'.
    rewrite includes_cons in Hs. apply orb_false_iff in Hs.
    destruct Hs as [Hstart Hrest].
    destruct s' as [|c' s''].
    + reflexivity.
    + assert (Hd : (c =? 10) && (c' =? 10) = false).
      { cbn [startsWith] in Hstart.
        destruct (c =? 10); [|reflexivity].
        destruct (c' =? 10); [|reflexivity].
        destruct s''; discriminate Hstart. }
      rewrite split_from_step.
      2:{ intros t' E Ec. injection E as -> _. subst c. discriminate Hd. }
      rewrite (IHs' (c :: cur) Hrest). cbn [rev]. rewrite <- app_assoc.
      reflexivity.
Qed.

Lemma complete_frames_unbroken (text : jsstring) :
  includes text [10; 10] = false -> complete_frames text = [].
Proof.
  intros Ht. unfold complete_frames, split_frames.
  rewrite (split_from_unbroken text [] Ht). reflexivity.
Qed.

(** An event stream whose text holds no blank line never closes a frame:
    whatever it carries — a complete result event included — and however it
    is cut into chunks, [uploadToBackend] calls no callback and its promise
    never settles, so the caller of [analyzeVideo] waits forever. *)
Theorem unterminated_stream_never_settles {P : Platform} {X : Type}
  {H : Host X} (file : File) (settings : AnalysisSettings) (w w1 : World X)
  (response : Response) (contentType : jsstring) (chunks : list (list Z)) :
  outside (await (fetch_analyze file settings)) w = (Returns response, w1) ->
  ok response = true ->
  content_type response = Some contentType ->
  includes contentType (str "text/event-stream") = true ->
  body response = Some chunks ->
  includes (fst (decode new_decoder (List.concat chunks))) [10; 10] = false ->
  uploadToBackend file settings w = (Never, w1).
Proof.
  intros Hf Hok Hct Hsse Hb Ht.
  unfold uploadToBackend.
  rewrite (and_then_returns _ _ _ _ _ Hf). rewrite Hok. cbn [negb].
  rewrite (and_then_returns now _ w1 (Date_now (host w1)) w1 eq_refl).
  rewrite Hct, Hsse, Hb. cbv zeta.
  rewrite (processEvents_frames (Date_now (host w1)) chunks new_decoder [])
    by reflexivity.
  cbn [app]. rewrite (complete_frames_unbroken _ Ht).
  reflexivity.
Qed.

Lemma unterminated_stream_never_settles_witness :
  uploadToBackend (P := sample_platform) (H := streaming_host) sample_file
                  DEFAULTS guest_world
  = (Never, guest_world).
Proof.
  exact (unterminated_stream_never_settles (P := sample_platform)
           (H := streaming_host) sample_file DEFAULTS guest_world guest_world
           open_stream (str "text/event-stream; charset=utf-8")
           [ str "data: {"; str "}"; [10] ]
           eq_refl eq_refl eq_refl eq_refl eq_refl eq_refl).
Defined.

(** ** The upload: a rejection and what the page makes of it *)

(** Spell a literal out as its code units. *)
Ltac spell s :=
  let v := eval vm_compute in (str s) in change (str s) with v.

(** Walk a search past a spelled-out head that cannot start a match. *)
Ltac past_head :=
  repeat (rewrite includes_cons; cbn [startsWith Z.eqb Pos.eqb andb orb]).

Section RejectionFacts.
Variable t : jsstring.

Lemma rejection_fetch :
  includes (str "Analysis failed: " ++ t) (str "Failed to fetch")
  = includes t (str "Failed to fetch").
Proof.
  spell "Analysis failed: "%string. spell "Failed to fetch"%string.
  cbn [app]. past_head.
  reflexivity.
Qed.

Lemma rejection_network :
  includes (str "Analysis failed: " ++ t) (str "NetworkError")
  = includes t (str "NetworkError").
Proof.
  spell "Analysis failed: "%string. spell "NetworkError"%string.
  cbn [app]. past_head.
  reflexivity.
Qed.

Lemma rejection_timeout :
  includes (str "Analysis failed: " ++ t) (str "timeout")
  = includes t (str "timeout").
Proof.
  spell "Analysis failed: "%string. spell "timeout"%string.
  cbn [app]. past_head.
  reflexivity.
Qed.

Lemma rejection_abort :
  includes (str "Analysis failed: " ++ t) (str "AbortError")
  = includes t (str "AbortError").
Proof.
  spell "Analysis failed: "%string. spell "AbortError"%string.
  cbn [app]. past_head.
  reflexivity.
Qed.

Lemma rejection_500 :
  includes (str "Analysis failed: " ++ t) (str "500") = includes t (str "500").
Proof.
  spell "Analysis failed: "%string. spell "500"%string. cbn [app]. past_head. reflexivity.
Qed.

Lemma rejection_internal :
  includes (str "Analysis failed: " ++ t) (str "Internal Server Error")
  = includes t (str "Internal Server Error").
Proof.
  spell "Analysis failed: "%string. spell "Internal Server Error"%string.
  cbn [app]. past_head.
  reflexivity.
Qed.

Lemma rejection_marked :
  includes (str "Analysis failed: " ++ t) (str "Analysis failed:") = true.
Proof.
  spell "Analysis failed: "%string. spell "Analysis failed:"%string.
  cbn [app].
  rewrite includes_cons. cbn [startsWith Z.eqb Pos.eqb andb orb]. reflexivity.
Qed.

Lemma rejection_unmarked :
  trim (remove_first_occurrence (str "Analysis failed: " ++ t)
                                (str "Analysis failed:"))
  = trim t.
Proof.
  spell "Analysis failed: "%string. spell "Analysis failed:"%string.
  cbn [app].
  unfold trim. reflexivity.
Qed.

End RejectionFacts.

(** When the backend turns an upload down (a response that is not [ok]),
    [uploadToBackend] calls no callback and throws ['Analysis failed: ']
    followed by the response's text; unless that text mentions a fetch or
    network failure, a timeout or abort, or a 500 or internal server error,
    the page titles the error ['Analysis Failed'] and shows the backend's
    text, trimmed, as its message.  For any message, the page speaks of a
    connection error exactly when the message mentions ['Failed to fetch']
    or ['NetworkError']. *)
Theorem backend_rejection_reaches_the_user {P : Platform} {X : Type}
  {H : Host X} (file : File) (settings : AnalysisSettings) (w w1 : World X)
  (response : Response) (t : jsstring) :
  outside (await (fetch_analyze file settings)) w = (Returns response, w1) ->
  ok response = false ->
  text response = Replies t ->
  includes t (str "Failed to fetch") = false ->
  includes t (str "NetworkError") = false ->
  includes t (str "timeout") = false ->
  includes t (str "AbortError") = false ->
  includes t (str "500") = false ->
  includes t (str "Internal Server Error") = false ->
  uploadToBackend file settings w
  = (Throws (ErrorMessage (str "Analysis failed: " ++ t)), w1)
  /\ parseError (str "Analysis failed: " ++ t)
     = {| title := str "Analysis Failed"; message := trim t; details := None;
          isConnectionError := false |}
  /\ (forall m, isConnectionError (parseError m)
                = includes m (str "Failed to fetch")
                  || includes m (str "NetworkError")).
Proof.
  intros Hf Hok Ht H1 H2 H3 H4 H5 H6. split; [|split].
  - unfold uploadToBackend.
    rewrite (and_then_returns _ _ _ _ _ Hf). rewrite Hok. cbn [negb].
    rewrite Ht.
    rewrite (and_then_returns (settled (Replies t)) _ w1 t w1 eq_refl).
    reflexivity.
  - unfold parseError.
    rewrite rejection_fetch, rejection_network, rejection_timeout,
      rejection_abort, rejection_500, rejection_internal, rejection_marked,
      rejection_unmarked.
    rewrite H1, H2, H3, H4, H5, H6. reflexivity.
  - intros m. unfold parseError.
    destruct (includes m (str "Failed to fetch") || includes m (str "NetworkError"));
      [reflexivity|].
    destruct (includes m (str "timeout") || includes m (str "AbortError"));
      [reflexivity|].
    destruct (includes m (str "500") || includes m (str "Internal Server Error"));
      [reflexivity|].
    destruct (includes m (str "Analysis failed:")); [reflexivity|].
    destruct (includes m (str "format") || includes m (str "codec")
              || includes m (str "unsupported")); reflexivity.
Qed.

Lemma backend_rejection_reaches_the_user_witness :
  uploadToBackend (P := sample_platform) (H := rejecting_host) sample_file
                  DEFAULTS guest_world
  = (Throws (ErrorMessage (str "Analysis failed:  no ball found in the clip ")),
     guest_world)
  /\ message (parseError (str "Analysis failed:  no ball found in the clip "))
     = str "no ball found in the clip".
Proof.
  destruct (backend_rejection_reaches_the_user (P := sample_platform)
              (H := rejecting_host) sample_file DEFAULTS guest_world guest_world
              rejection (str " no ball found in the clip ")
              eq_refl eq_refl eq_refl eq_refl eq_refl eq_refl eq_refl eq_refl
              eq_refl) as (E & F & _).
  split; [exact E|].
  change (str "Analysis failed:  no ball found in the clip ")
    with (str "Analysis failed: " ++ str " no ball found in the clip ").
  rewrite F. reflexivity.
Defined.

(** ** The explanation shown with a decision *)

Lemma explanation_without_reason (criteria : LBWCriteria) :
  getDecisionExplanation NOT_OUT criteria
  = str "The batsman is NOT OUT because ."
  <-> criteria = all_true.
Proof.
  destruct criteria as [[] [] [] []]; vm_compute;
    split; intros E; first [reflexivity | discriminate E].
Qed.

(** The explanation [DecisionDisplay] shows for a synthesized report gives
    a reason exactly when a criterion failed.  An OUT report gets the
    sentence that all four criteria are satisfied, which they are.  A NOT
    OUT report whose four criteria are all true — seed 26 with the default
    configuration synthesizes one — gets ['The batsman is NOT OUT
    because .'], with no reason; every other NOT OUT report names each
    failed criterion, in the order pitch, impact, bat, wickets. *)
Theorem explanation_names_the_failed_criteria {P : Platform}
  (videoName : jsstring) (seed0 : number) (settings : AnalysisSettings)
  (now : Z) (r : AnalysisResult) :
  generateAnalysisResult videoName seed0 settings now = Some r ->
  let e := getDecisionExplanation (decision r) (criteria r) in
  (decision r = OUT ->
   criteria r = all_true
   /\ e = str "The batsman is OUT because all four LBW criteria are satisfied: the ball pitched in line, struck the pad in line with the stumps, the leg was before the bat, and the ball was going on to hit the wickets.")
  /\ (decision r = NOT_OUT ->
      e = str "The batsman is NOT OUT because "
          ++ join (str ", ") (failedCriteria (criteria r)) ++ str "."
      /\ (e = str "The batsman is NOT OUT because ." <-> criteria r = all_true)
      /\ (failedCriteria (criteria r) = [] <-> criteria r = all_true))
  /\ exists r26,
       generateAnalysisResult (str "clip.mp4") (int 26) MOCK_DEFAULTS 0
       = Some r26
       /\ getDecisionExplanation (decision r26) (criteria r26)
          = str "The batsman is NOT OUT because .".
Proof.
  intros Hr e. unfold e. clear e.
  pose proof (criteria_drawn videoName seed0 settings now r Hr) as C.
  split; [|split].
  - intros D. rewrite D in C. rewrite C, D. split; reflexivity.
  - intros D. rewrite D. split; [reflexivity|].
    split; [apply explanation_without_reason|].
    destruct (criteria r) as [[] [] [] []]; vm_compute;
      split; intros E; first [reflexivity | discriminate E].
  - destruct (default_report_produced (str "clip.mp4") (int 26) 0) as [r26 E].
    exists r26. split; [exact E|].
    rewrite (criteria_drawn _ _ _ _ r26 E), (decision_first_draw _ _ _ _ r26 E).
    vm_compute. reflexivity.
Qed.

(** Witness: the report of seed 12345 with the default configuration, an
    OUT report. *)
Lemma explanation_names_the_failed_criteria_witness :
  exists r,
    generateAnalysisResult (P := sample_platform) (str "match_delivery_01.mp4")
      (int 12345) MOCK_DEFAULTS 0 = Some r
    /\ (decision r = OUT -> criteria r = all_true)
    /\ (decision r = NOT_OUT ->
        (getDecisionExplanation (decision r) (criteria r)
         = str "The batsman is NOT OUT because ."
         <-> criteria r = all_true)).
Proof.
  destruct (default_report_produced (P := sample_platform)
              (str "match_delivery_01.mp4") (int 12345) 0) as [r E].
  destruct (explanation_names_the_failed_criteria _ _ _ _ r E)
    as (Ho & Hn & _).
  exists r. split; [exact E|]. split.
  - intros D. exact (proj1 (Ho D)).
  - intros D. exact (proj1 (proj2 (Hn D))).
Defined.
